(* ===== verification/_CoqProject ===== *)
-Q . S2P
Prelude.v
GoBytes.v
GoFloat.v
GoText.v
GoJson.v
Observability.v
Ports.v
ModbusFrame.v
ModbusRegs.v
ModbusLink.v
Collector.v
Uns.v
UnsWire.v
Quality.v
Memory.v
MemoryRace.v
LineSim.v
GoTime.v
Config.v
PlcSim.v
Asset.v
Plants.v
AssetValid.v
AssetIndex.v
Sources.v
Link.v
Poller.v
Latest.v
Edge.v
EdgeInv.v
EdgeNew.v
EdgeProps.v
EdgeLife.v
EdgeRace.v
EdgePub.v
EdgeMetrics.v
EdgeGaps.v
Polling.v
DiskCodec.v
DiskQueue.v
DiskInv.v
DiskRecover.v
DiskFaults.v
Inbox.v
Bridge.v
BridgeLive.v
BridgeRecover.v
Http.v
HttpEvents.v
HttpServe.v
Gateway.v
Mqtt.v
MqttNew.v
Kafka.v
Main.v
MainTasks.v
