(* ===== verification/Prelude.v ===== *)
(** * plantstream: a verified model of the edge node

    plantstream reads machine tags over Modbus TCP, from a simulator or from
    CSV files, judges the quality of every sample, publishes it in a Unified
    Namespace on an MQTT-like broker and forwards the messages to a cloud sink
    through a bounded store-and-forward queue. This library models the Go code
    under src/ and proves what makes its parts correct. A definition keeps the
    name of the function or type it models, as far as Rocq allows.

    ** The parts and the files that model them

    From the bottom up; every file requires this one.

    - [Prelude]: fixed-width integers with their wrap-around, times and
      durations, the state-and-error monad [GoM] of stateful, fallible code,
      shared lemmas, tactics and hints.
    - [GoBytes], [GoFloat], [GoText], [GoTime], [GoJson]: what the program uses
      of Go's standard library: byte order, CRC32, strings, decimal integers;
      IEEE 754 binary64 and binary32 on [SpecFloat]; TrimSpace and ParseBool;
      ParseDuration; the JSON text of a value, written and read.
    - [Observability] (internal/observability): log level, tracing settings,
      the collectors and their registration, and the updates the other parts
      make to them.
    - [Ports] (internal/ports): messages, and the contracts between components
      as classes: [QueueOps] with the laws [QueueLaws], and [BrokerOps].
    - [ModbusFrame], [ModbusRegs], [ModbusLink] (internal/modbus: frame.go,
      regs.go, client.go with server.go): framing, the register codec, one
      transaction of a client against a server. [Collector]
      (internal/collectors/modbus.go): coalescing tags into blocks and polling
      them. [PlcSim] (cmd/plc-sim): the simulated PLC, from its registers to
      its exit status. [Link]: simulator, server, client and source together.
    - [Uns] (internal/domain/uns): topics, filters, payloads, and [UnsWire]
      their bytes read back. [Quality]
      (internal/domain/quality): the evaluator of one tag. [LineSim]
      (internal/domain/linesim): the packaging line simulator.
    - [Asset], [AssetValid], [AssetIndex] (internal/domain/asset): the plant,
      its defaults and validation, what validation guarantees, the index.
      [Plants]: concrete plants, one of them examples/plant-modbus.yaml.
    - [Sources], [Poller] (internal/collectors): the sources a plant asks for,
      the CSV replay, source health and the poll cycle.
    - [Latest], [Edge] (internal/edge): the last-value cache and the node:
      construction, births and deaths, the callbacks of the pollers, the
      staleness check. [EdgeInv], [EdgeNew], [EdgeProps], [EdgeLife] prove the
      node's invariant, its construction, what its callbacks publish and what
      holds from plant file to shutdown. [EdgeRace]: the callbacks interleaved,
      with every step of their publications (cache, collectors, broker). [EdgePub]: an invariant of the broker under the
      node's publications is an invariant of the interleaved node.
      [EdgeMetrics]: its collectors. [EdgeGaps]: the verdict that is never
      published. [Polling]: the sources and the node behind the interface of
      the poller.
    - [DiskCodec], [DiskQueue] (internal/adapters/diskqueue): the record format
      and the bounded segmented queue on a directory whose system calls may
      fail. [DiskInv], [DiskRecover], [DiskFaults]: that it implements the
      contract, what it recovers after a crash, and where it loses data.
    - [Memory], [MemoryRace] (internal/adapters/memory): the in-memory queue and
      sink, and the in-memory broker with its channels, contexts and goroutines.
      [Memory.Broker] is the broker's specification for calls that do not
      overlap, and the broker of the node's examples.
    - [Inbox], [Bridge] (internal/bridge): the in-memory stage and the
      forwarder, a state machine over any queue that keeps the contract.
      [BridgeLive]: its collectors. [BridgeRecover]: that it delivers what it
      stored once the sink is back.
    - [Config] (internal/config): the environment configuration.
    - [Http] (internal/api/http): the read API and its event stream.
      [HttpEvents]: the bytes of an event. [HttpServe]: routing and middleware
      for any number of requests at once.
    - [Mqtt] (internal/adapters/mqtt): the broker adapter over a third-party
      connection manager, with its goroutines in flight; [MqttNew] connects
      it. [Kafka] (internal/adapters/kafka): the sink over a third-party
      producer.
    - [Gateway], [Main], [MainTasks] (cmd/plantstream): the node, the in-memory
      broker and the bridge as one system; acquisition and release of the
      adapters; the group of tasks, from start to exit status.

    How they interact: [Asset.Parse] yields the plant that [Edge.New] indexes
    and turns into sources ([Sources.New], which plans blocks with
    [Collector.Plan]); a poll ([Poller.pollOnce]) hands readings to
    [Edge.OnReadings], which scales them, asks [Quality] for a verdict, stamps
    them as [Uns] payloads and publishes through [BrokerOps]; the bridge takes
    the broker's messages through [Inbox] to the sink or the queue; [Http] reads
    the index, the cache, the registry, the broker and the bridge.

    ** What the theorems show

    - Storage: both queues implement [QueueLaws] (refinement to a list of
      pending messages), the disk queue also across crashes; its size stays
      bounded as long as no file operation fails; the recovery keeps exactly the records that are intact.
    - Forwarding: every message that arrives is sent, queued, buffered or
      counted as dropped, in order per topic, whatever the interleaving; a
      replay stops at the first refusal; shutdown terminates. This holds of runs
      in which no arrival evicts from its own topic (a flaw: the topic falls
      silent) and the queue can store what is buffered. [Gateway] states it from
      the plant file to the sink, for an inbox with room for the allowance of
      every topic, which excludes that flaw, over the fine-grained broker: the
      order is each publisher's, and two publishers of one topic (its poller
      and the ticker) can overtake each other. After an outage of the sink
      everything stored is delivered in finitely many steps.
    - The in-memory broker: whatever its goroutines do, a subscriber gets the
      retained backlog and then each publisher's messages in order, none lost,
      repeated or invented while it is subscribed and the publisher is not cut
      short; a publication cannot wait for ever; uninterrupted it is the one step [Memory.Broker] specifies.
    - Acquisition: frames and registers round-trip, saturation is exact, the
      planner covers every tag with legal requests and reading coalesced blocks
      equals reading each tag, with the fewest requests; client and server
      agree; a poll of the simulated PLC reads what its line model shows, end to
      end (the 16-bit inputs only in orders that keep the bytes of a word); a
      validated plant always yields a plan that reads the tags' registers; CSV files are replayed row by row; a poller tells
      the registry and its observer the same story.
    - Judgement and publication: a verdict is the one the history deserves;
      staleness is announced once; readings, births and outages publish
      exactly what their specifications list; no sequence of callbacks makes a
      node of an accepted plant panic; overlapping callbacks lose nothing and
      keep each owner's order in the cache and in the broker, though the two
      can end up with different messages; the gauge of tags by quality is the
      cache's count; a consumer reads back the payload that was published.
    - Model and API: topics are parsed and printed inversely, filters match as
      MQTT says but for topics that start with $; validation decides
      well-formedness (overlapping addresses are not part of it, against the
      README), the index is faithful, the topics page is the plant, no request panics, the event stream
      accounts for every message and writes each as one event whatever its
      payload; the request metrics agree with the requests, panics apart;
      configuration reports every malformed variable and accepts only valid
      settings.
    - Adapters and wiring: a live MQTT subscription is known to the server or
      about to be, in every interleaving but one, from [New] on; the service
      releases what it acquired, on every path; it serves until a signal or a
      task's error, can then always stop by itself, and exits with the first
      error.
    - Some theorems and lemmas exhibit where the code does not do what it
      means to: [Inbox.self_eviction_starves], [DiskFaults.short_write_poisons],
      [Mqtt.unsubscribe_race], [EdgeRace.stale_overtakes],
      [EdgeRace.cache_and_broker_disagree], [Uns.MatchFilter_reserved],
      [AssetIndex.overlap_accepted], [AssetIndex.nan_range_accepted],
      [EdgeGaps.nan_unpublished], [BridgeLive.healthy_gauge_zero],
      [MainTasks.stream_holds], [EdgeLife.same_name_shadowed],
      [EdgeLife.infinite_range_stops], [DiskFaults.Push_oversized],
      [Quality.stale_replaces_worse], [Bridge.late_arrival_lost],
      [Config.qos_wraps], [Mqtt.will_delay] and [PlcSim.byte_order_swaps_words];
      in [HttpServe.requests_accounted] a request that panics is in flight for
      ever.

    ** Conventions, bounds and parameters

    Machine integers are [Z] with [u8] ... [i64] at the places where Go wraps;
    counters that would take centuries to overflow (int64 statistics) are
    plain [Z]. A mutex makes the block it protects one step. A loop that is not
    structural has fuel that is proved sufficient where it is introduced: the
    length of the input for scanning and parsing, the number of segments or of
    buffered messages for the queue and the bridge. A map iterated in Go's
    unspecified order is iterated in [map_to_list]'s order; theorems about such
    loops do not depend on it, or speak of permutations. Floating-point
    operations are rounded one by one; a compiler that fuses multiply and add,
    which Go allows on some processors, may differ in the last bit.

    Parameters of the definitions: the text [render] makes of a payload's JSON
    and the conversion of an out-of-range float to an integer, which Go leaves
    to the platform ([impl_int]), in [Edge]; the decimal text of a float
    ([GoJson.FloatText]); the generator of math/rand ([Rand]) and math.Exp in
    [LineSim]; strconv.ParseFloat and strings.ToLower in [Sources] and
    [Config]; the dialer and the connection in [Collector]; the MQTT session
    ([Mqtt.ClientOps], [Mqtt.ClientLaws]) and its dialer and URL parser
    ([MqttNew.Dialer]); the Kafka producer ([Kafka.ProducerOps]); the registry
    and the exporter in [Observability]; the group of tasks
    ([MainTasks.GroupOps], [MainTasks.GroupLaws]); the clock as the list of
    times its calls return. None of them needs a law, except where a theorem
    says so.

    ** Not modelled

    What is behind the classes above: the MQTT and Kafka clients, the
    Prometheus registry, the OpenTelemetry exporter. YAML decoding: a plant is
    the record it yields. The text of JSON is in [GoJson] and [UnsWire]; [Edge]
    keeps it as a parameter because nothing there depends on it. Timers,
    tickers, sockets and the scheduler, beyond the steps above: a timer fires
    when a step says so. Logs, accessors that only return a field, and the text
    of error messages where nothing reads it. *)
From Stdlib Require Import ZArith Lia List Bool.
From Stdlib Require Export Strings.Byte Strings.String.
From stdpp Require Export base tactics list gmap strings sorting.

(** ** Go's fixed-width integers: values are [Z], the wrap-around is explicit *)

Open Scope Z_scope.

Definition uwrap (w : Z) (x : Z) : Z := x mod 2 ^ w.

Definition swrap (w : Z) (x : Z) : Z :=
  let y := x mod 2 ^ w in if y <? 2 ^ (w - 1) then y else y - 2 ^ w.

Definition u8 (x : Z) : Z := uwrap 8 x.
Definition u16 (x : Z) : Z := uwrap 16 x.
Definition u32 (x : Z) : Z := uwrap 32 x.
Definition u64 (x : Z) : Z := uwrap 64 x.
Definition i16 (x : Z) : Z := swrap 16 x.
Definition i32 (x : Z) : Z := swrap 32 x.
Definition i64 (x : Z) : Z := swrap 64 x.

Definition in_u (w x : Z) : Prop := 0 <= x < 2 ^ w.
Definition in_s (w x : Z) : Prop := - 2 ^ (w - 1) <= x < 2 ^ (w - 1).

Abbreviation is_u8 := (in_u 8).
Abbreviation is_u16 := (in_u 16).
Abbreviation is_u32 := (in_u 32).
Abbreviation is_u64 := (in_u 64).
Abbreviation is_i64 := (in_s 64).

Global Instance in_u_dec w x : Decision (in_u w x).
Proof. unfold in_u. apply _. Defined.
Global Instance in_s_dec w x : Decision (in_s w x).
Proof. unfold in_s. apply _. Defined.

Global Instance byte_dec : EqDecision byte := Byte.byte_eq_dec.

(** ** Results and the state-and-error monad

    A Go method on a pointer receiver that returns [(A, error)] keeps the
    mutations made before an error is returned: the state is threaded through
    both outcomes. *)

Inductive result (E A : Type) : Type :=
| Ok (a : A)
| Err (e : E).
Arguments Ok {E A} a.
Arguments Err {E A} e.

Lemma Ok_inj {E A} (a b : A) : Ok (E := E) a = Ok b -> a = b.
Proof. intros H. by injection H. Qed.

Definition GoM (S E A : Type) : Type := S -> result E A * S.

Global Instance GoM_ret S E : MRet (GoM S E) := fun A a s => (Ok a, s).
Global Instance GoM_bind S E : MBind (GoM S E) := fun A B k m s =>
  match m s with
  | (Ok a, s') => k a s'
  | (Err e, s') => (Err e, s')
  end.

Definition throw {S E A} (e : E) : GoM S E A := fun s => (Err e, s).
Definition get {S E} : GoM S E S := fun s => (Ok s, s).
Definition put {S E} (s : S) : GoM S E unit := fun _ => (Ok tt, s).
Definition modify {S E} (f : S -> S) : GoM S E unit := fun s => (Ok tt, f s).

Definition is_ok {E A} (r : result E A) : bool :=
  match r with Ok _ => true | Err _ => false end.

(** ** time.Time and time.Duration

    An instant is its number of nanoseconds since the Unix epoch, unbounded;
    [zeroTime] is Go's zero value, January 1 of year 1 UTC. A duration is a
    64-bit count of nanoseconds and [Sub] saturates. *)

Definition Time := Z.
Definition Duration := Z.

Definition Millisecond : Duration := 1000000.
Definition Second : Duration := 1000 * Millisecond.
Definition Minute : Duration := 60 * Second.

Definition zeroTime : Time := -62135596800 * Second.
Definition IsZero (t : Time) : bool := t =? zeroTime.

Definition minDuration : Duration := - 2 ^ 63.
Definition maxDuration : Duration := 2 ^ 63 - 1.

Definition Sub (t u : Time) : Duration :=
  let d := t - u in
  if d <? minDuration then minDuration
  else if maxDuration <? d then maxDuration else d.

Definition UnixNano (t : Time) : Z := i64 t.
Definition UnixMilli (t : Time) : Z := i64 (t / Millisecond).

(** ** Generic list functions *)

(** [xs[lo:hi]] of a Go slice, for bounds that the caller has checked. *)
Definition slice {A} (lo hi : Z) (xs : list A) : list A :=
  take (Z.to_nat (hi - lo)) (drop (Z.to_nat lo) xs).

Definition zlength {A} (xs : list A) : Z := Z.of_nat (length xs).

Definition sumZ (xs : list Z) : Z := foldr Z.add 0 xs.

(** ** Tactics *)

(** Splits the boolean tests of hypotheses and goal into propositions. *)
Ltac bool_to_prop :=
  repeat match goal with
  | H : (_ && _)%bool = true |- _ => apply andb_true_iff in H; destruct H
  | H : (_ || _)%bool = false |- _ => apply orb_false_iff in H; destruct H
  | H : (_ && _)%bool = false |- _ => apply andb_false_iff in H
  | H : (_ || _)%bool = true |- _ => apply orb_true_iff in H
  | H : negb _ = true |- _ => apply negb_true_iff in H
  | H : negb _ = false |- _ => apply negb_false_iff in H
  | H : (_ <? _) = true |- _ => apply Z.ltb_lt in H
  | H : (_ <? _) = false |- _ => apply Z.ltb_ge in H
  | H : (_ <=? _) = true |- _ => apply Z.leb_le in H
  | H : (_ <=? _) = false |- _ => apply Z.leb_gt in H
  | H : (_ =? _) = true |- _ => apply Z.eqb_eq in H
  | H : (_ =? _) = false |- _ => apply Z.eqb_neq in H
  | H : bool_decide _ = true |- _ => apply bool_decide_eq_true in H
  | H : bool_decide _ = false |- _ => apply bool_decide_eq_false in H
  end.

(** Case analysis on every [if] and [match] scrutinee in the goal. *)
Ltac split_ifs :=
  repeat match goal with
  | |- context [if ?b then _ else _] => destruct b eqn:?
  end; bool_to_prop.

Create HintDb go.
Create Rewrite HintDb go.

(** ** Facts about the wraps *)

Lemma pow2_pos w : 0 <= w -> 0 < 2 ^ w.
Proof. intros. apply Z.pow_pos_nonneg; lia. Qed.

Lemma uwrap_id w x : in_u w x -> uwrap w x = x.
Proof. intros [? ?]. apply Z.mod_small. lia. Qed.

Lemma uwrap_range w x : 0 <= w -> in_u w (uwrap w x).
Proof. intros Hw. apply Z.mod_pos_bound, pow2_pos, Hw. Qed.

Lemma swrap_id w x : 1 <= w -> in_s w x -> swrap w x = x.
Proof.
  intros Hw [H1 H2]. unfold swrap.
  assert (2 ^ w = 2 * 2 ^ (w - 1)) as E.
  { rewrite <- Z.pow_succ_r by lia. f_equal; lia. }
  pose proof (pow2_pos (w - 1) ltac:(lia)).
  destruct (Z_lt_dec x 0).
  - replace (x mod 2 ^ w) with (x + 2 ^ w).
    2:{ symmetry. rewrite <- (Z.mod_add x 1) by lia. rewrite Z.mul_1_l. apply Z.mod_small. lia. }
    destruct (Z.ltb_spec (x + 2 ^ w) (2 ^ (w - 1))); lia.
  - rewrite Z.mod_small by lia. destruct (Z.ltb_spec x (2 ^ (w - 1))); lia.
Qed.

Lemma swrap_range w x : 1 <= w -> in_s w (swrap w x).
Proof.
  intros Hw. unfold swrap, in_s.
  assert (2 ^ w = 2 * 2 ^ (w - 1)) as E.
  { rewrite <- Z.pow_succ_r by lia. f_equal; lia. }
  pose proof (Z.mod_pos_bound x (2 ^ w) (pow2_pos w ltac:(lia))).
  destruct (Z.ltb_spec (x mod 2 ^ w) (2 ^ (w - 1))); lia.
Qed.

Lemma uwrap_uwrap w x : 0 <= w -> uwrap w (uwrap w x) = uwrap w x.
Proof. intros. apply uwrap_id, uwrap_range. done. Qed.

Lemma swrap_uwrap w x : 1 <= w -> swrap w (uwrap w x) = swrap w x.
Proof.
  intros. unfold swrap, uwrap. rewrite Z.mod_mod; [done|].
  pose proof (pow2_pos w ltac:(lia)). lia.
Qed.

Lemma uwrap_swrap w x : 1 <= w -> uwrap w (swrap w x) = uwrap w x.
Proof.
  intros. unfold swrap, uwrap. pose proof (pow2_pos w ltac:(lia)).
  destruct (_ <? _).
  - apply Z.mod_mod; lia.
  - rewrite <- (Z.mod_add (x mod 2 ^ w - 2 ^ w) 1) by lia.
    rewrite Z.mul_1_l, Z.sub_add. apply Z.mod_mod. lia.
Qed.

Lemma lor_shiftl_add a b k : 0 <= k -> 0 <= b < 2 ^ k -> Z.lor (Z.shiftl a k) b = a * 2 ^ k + b.
Proof.
  intros Hk Hb.
  assert (Z.land (Z.shiftl a k) b = 0) as HL.
  { apply Z.bits_inj'. intros n Hn. rewrite Z.land_spec, Z.bits_0.
    destruct (Z_lt_dec n k).
    - by rewrite Z.shiftl_spec_low by lia.
    - rewrite <- (Z.mod_small b (2 ^ k)) by done.
      rewrite Z.mod_pow2_bits_high by lia. apply andb_false_r. }
  rewrite <- Z.lxor_lor by done. rewrite <- Z.add_nocarry_lxor by done.
  by rewrite Z.shiftl_mul_pow2.
Qed.

#[export] Hint Resolve uwrap_id uwrap_range swrap_id swrap_range : go.

(** ** Facts about durations *)

Lemma Sub_exact t u : in_s 64 (t - u) -> Sub t u = t - u.
Proof.
  intros [H1 H2]. unfold Sub, minDuration, maxDuration in *. cbn in H1, H2.
  destruct (Z.ltb_spec (t - u) (- 2 ^ 63)); [lia|].
  destruct (Z.ltb_spec (2 ^ 63 - 1) (t - u)); lia.
Qed.

Lemma Sub_le_iff t u d : in_s 64 d -> minDuration < d -> (d <=? Sub t u) = (d <=? t - u).
Proof.
  intros [H1 H2] Hd. unfold Sub, minDuration, maxDuration in *. cbn in H1, H2.
  destruct (Z.ltb_spec (t - u) (- 2 ^ 63)); [|destruct (Z.ltb_spec (2 ^ 63 - 1) (t - u))];
    try done; destruct (Z.leb_spec d (t - u));
    try (apply Z.leb_le; lia); apply Z.leb_gt; lia.
Qed.

(** ** Facts about lists *)

Lemma zlength_app {A} (xs ys : list A) : zlength (xs ++ ys) = zlength xs + zlength ys.
Proof. unfold zlength. rewrite length_app. lia. Qed.

Lemma zlength_nonneg {A} (xs : list A) : 0 <= zlength xs.
Proof. unfold zlength. lia. Qed.

Lemma zlength_cons {A} (x : A) xs : zlength (x :: xs) = 1 + zlength xs.
Proof. unfold zlength. cbn [length]. lia. Qed.

Lemma zlength_nil {A} : zlength (@nil A) = 0.
Proof. done. Qed.

Lemma sumZ_app xs ys : sumZ (xs ++ ys) = sumZ xs + sumZ ys.
Proof. induction xs as [|x xs IH]; cbn; [done|]. fold (sumZ (xs ++ ys)) (sumZ xs). lia. Qed.

Lemma sumZ_cons x xs : sumZ (x :: xs) = x + sumZ xs.
Proof. done. Qed.

Lemma sumZ_nonneg xs : Forall (fun x => 0 <= x) xs -> 0 <= sumZ xs.
Proof. induction 1; cbn; [lia|]. fold (sumZ l). lia. Qed.

Lemma slice_app_exact {A} (xs ys zs : list A) lo hi :
  lo = zlength xs -> hi = zlength xs + zlength ys -> slice lo hi (xs ++ ys ++ zs) = ys.
Proof.
  intros -> ->. unfold slice, zlength.
  rewrite Nat2Z.id, drop_app_length.
  replace (Z.to_nat _) with (length ys) by lia. apply take_app_length.
Qed.

Lemma slice_length {A} lo hi (xs : list A) :
  0 <= lo -> lo <= hi -> hi <= zlength xs -> zlength (slice lo hi xs) = hi - lo.
Proof.
  intros. unfold slice, zlength in *. rewrite length_take, length_drop. lia.
Qed.

#[export] Hint Rewrite @zlength_app @zlength_cons @zlength_nil sumZ_app sumZ_cons : go.
