(* ===== verification/GoBytes.v ===== *)
(** * GoBytes: the parts of Go's standard library the program's codecs use

    Bytes ([encoding/binary.BigEndian], [hash/crc32.ChecksumIEEE]), strings
    ([strings.Split], [Join], [ContainsAny], [HasPrefix], [HasSuffix],
    [TrimPrefix], [TrimSuffix], [Fields]) and decimal numbers
    ([strconv.FormatUint], [FormatInt], [ParseUint], [ParseInt]). A Go string
    is a [string] of 8-bit characters, a [[]byte] a [list byte]. *)
From Stdlib Require Import Strings.Ascii ZArith Lia List Bool.
From Stdlib Require Import DecimalString DecimalN DecimalPos DecimalZ DecimalFacts Decimal.
From S2P Require Import Prelude.

Open Scope Z_scope.

(** ** Bytes *)

Definition Z_of_byte (b : byte) : Z := Z.of_N (Byte.to_N b).

(** [byte(x)]: the low eight bits. *)
Definition byte_of_Z (x : Z) : byte :=
  match Byte.of_N (Z.to_N (u8 x)) with Some b => b | None => x00 end.

(** [binary.BigEndian.PutUint16/32/64] write [be_bytes 2/4/8]; the
    corresponding readers are [be_Z] of the leading bytes. *)
Fixpoint be_bytes (n : nat) (x : Z) : list byte :=
  match n with
  | O => []
  | S k => byte_of_Z (Z.shiftr x (8 * Z.of_nat k)) :: be_bytes k x
  end.

Fixpoint be_Z (bs : list byte) : Z :=
  match bs with
  | [] => 0
  | b :: bs' => Z.lor (Z.shiftl (Z_of_byte b) (8 * Z.of_nat (length bs'))) (be_Z bs')
  end.

Definition PutUint16 (x : Z) : list byte := be_bytes 2 x.
Definition PutUint32 (x : Z) : list byte := be_bytes 4 x.
Definition PutUint64 (x : Z) : list byte := be_bytes 8 x.
Definition Uint16 (bs : list byte) : Z := be_Z (take 2 bs).
Definition Uint32 (bs : list byte) : Z := be_Z (take 4 bs).
Definition Uint64 (bs : list byte) : Z := be_Z (take 8 bs).

(** CRC-32, IEEE polynomial in its reflected form. *)
Definition crc_bit (c : Z) : Z :=
  if Z.testbit c 0 then Z.lxor (Z.shiftr c 1) 0xEDB88320 else Z.shiftr c 1.

Definition crc_byte (c : Z) (b : byte) : Z :=
  Nat.iter 8 crc_bit (Z.lxor c (Z_of_byte b)).

Definition ChecksumIEEE (bs : list byte) : Z :=
  Z.lxor (fold_left crc_byte bs 0xFFFFFFFF) 0xFFFFFFFF.

(** ** Strings *)

Definition bytes_of (s : string) : list byte := list_byte_of_string s.
Definition string_of (bs : list byte) : string := string_of_list_byte bs.

Fixpoint Split (sep : Ascii.ascii) (s : string) : list string :=
  match s with
  | EmptyString => [EmptyString]
  | String c s' =>
      match Split sep s' with
      | [] => [EmptyString]
      | p :: ps => if Ascii.eqb c sep then EmptyString :: p :: ps else String c p :: ps
      end
  end.

Fixpoint Join (parts : list string) (sep : Ascii.ascii) : string :=
  match parts with
  | [] => EmptyString
  | [p] => p
  | p :: ps => String.append p (String sep (Join ps sep))
  end.

Fixpoint Contains1 (c : Ascii.ascii) (s : string) : bool :=
  match s with
  | EmptyString => false
  | String d s' => Ascii.eqb c d || Contains1 c s'
  end.

Fixpoint ContainsAny (s chars : string) : bool :=
  match s with
  | EmptyString => false
  | String c s' => Contains1 c chars || ContainsAny s' chars
  end.

Definition HasPrefix (s pre : string) : bool := String.prefix pre s.

Definition TrimPrefix (s pre : string) : string :=
  if HasPrefix s pre
  then String.substring (String.length pre) (String.length s - String.length pre) s else s.

Definition HasSuffix (s suf : string) : bool :=
  (String.length suf <=? String.length s)%nat &&
  String.eqb (String.substring (String.length s - String.length suf) (String.length suf) s) suf.

Definition TrimSuffix (s suf : string) : string :=
  if HasSuffix s suf
  then String.substring 0 (String.length s - String.length suf) s else s.

(** ASCII white space, as [unicode.IsSpace] has it below U+0080. *)
Definition is_space (c : Ascii.ascii) : bool :=
  let n := Ascii.nat_of_ascii c in
  ((9 <=? n)%nat && (n <=? 13)%nat) || (n =? 32)%nat.

(** [strings.Fields]: the maximal runs of characters that are not spaces. *)
Fixpoint fields_from (cur : string) (s : string) : list string :=
  let flush := if String.eqb cur EmptyString then [] else [cur] in
  match s with
  | EmptyString => flush
  | String c s' =>
      if is_space c then flush ++ fields_from EmptyString s'
      else fields_from (String.append cur (String c EmptyString)) s'
  end.

Definition Fields (s : string) : list string := fields_from EmptyString s.

(** ** Decimal numbers *)

Definition FormatUint (n : Z) : string := NilZero.string_of_uint (N.to_uint (Z.to_N n)).

Definition FormatInt (n : Z) : string :=
  if n <? 0 then String "-"%char (FormatUint (- n)) else FormatUint n.

(** [strconv.ParseUint(s, 10, 64)]; [None] for its syntax and range errors. *)
Definition ParseUint (s : string) : option Z :=
  match NilZero.uint_of_string s with
  | Some d => let n := Z.of_N (N.of_uint d) in if n <? 2 ^ 64 then Some n else None
  | None => None
  end.

(** [strconv.ParseInt(s, 10, 64)]. *)
Definition ParseInt (s : string) : option Z :=
  let '(neg, u) :=
    match s with
    | String c s' =>
        if Ascii.eqb c "-"%char then (true, s')
        else if Ascii.eqb c "+"%char then (false, s') else (false, s)
    | EmptyString => (false, s)
    end in
  match ParseUint u with
  | Some n =>
      if neg then (if n <=? 2 ^ 63 then Some (- n) else None)
      else (if n <? 2 ^ 63 then Some n else None)
  | None => None
  end.

(** [fmt.Sprintf("%020d", n)] for an unsigned [n]. *)
Definition pad_left (w : nat) (s : string) : string :=
  String.append (string_of_list_ascii (repeat "0"%char (w - String.length s))) s.

(** ** Lemmas on bytes *)

Lemma Z_of_byte_range b : is_u8 (Z_of_byte b).
Proof. destruct b; vm_compute; split; congruence. Qed.

Lemma byte_of_Z_u8 x : byte_of_Z (u8 x) = byte_of_Z x.
Proof. unfold byte_of_Z, u8, uwrap. by rewrite Zmod_mod. Qed.

Lemma Z_of_byte_of_Z x : Z_of_byte (byte_of_Z x) = u8 x.
Proof.
  unfold byte_of_Z. pose proof (uwrap_range 8 x ltac:(lia)) as [H1 H2].
  fold (u8 x) in H1, H2. unfold Z_of_byte.
  destruct (Byte.of_N (Z.to_N (u8 x))) eqn:E.
  - apply Byte.to_of_N in E. rewrite E. apply Z2N.id, H1.
  - apply Byte.of_N_None_iff in E. change (2 ^ 8) with 256 in H2. lia.
Qed.

Lemma byte_of_Z_of_byte b : byte_of_Z (Z_of_byte b) = b.
Proof. destruct b; reflexivity. Qed.

Lemma Z_of_byte_inj a b : Z_of_byte a = Z_of_byte b -> a = b.
Proof. intros H. rewrite <- (byte_of_Z_of_byte a), <- (byte_of_Z_of_byte b). by f_equal. Qed.

Lemma be_bytes_length n x : length (be_bytes n x) = n.
Proof. induction n; cbn; congruence. Qed.

Lemma be_Z_cons b bs :
  be_Z (b :: bs) = Z_of_byte b * 2 ^ (8 * Z.of_nat (length bs)) + be_Z bs
  /\ 0 <= be_Z (b :: bs) < 2 ^ (8 * Z.of_nat (S (length bs))).
Proof.
  revert b. induction bs as [|c cs IH]; intros b.
  - cbn [be_Z length]. pose proof (Z_of_byte_range b) as [? ?].
    rewrite Z.shiftl_0_r, Z.lor_0_r. cbn in *. lia.
  - destruct (IH c) as [_ Hb].
    cbn [be_Z] in *. cbn [length] in *.
    rewrite lor_shiftl_add by lia.
    split; [done|].
    replace (8 * Z.of_nat (S (S (length cs)))) with (8 + 8 * Z.of_nat (S (length cs))) by lia.
    rewrite Z.pow_add_r by lia. pose proof (Z_of_byte_range b) as [? ?].
    change (2 ^ 8) with 256 in *. nia.
Qed.

Lemma be_Z_range bs : 0 <= be_Z bs < 2 ^ (8 * Z.of_nat (length bs)).
Proof. destruct bs; [cbn; lia|]. apply be_Z_cons. Qed.

Lemma be_Z_be_bytes n x : be_Z (be_bytes n x) = x mod 2 ^ (8 * Z.of_nat n).
Proof.
  induction n as [|n IH]; [cbn; by rewrite Z.mod_1_r|].
  cbn [be_bytes]. rewrite (proj1 (be_Z_cons _ _)), be_bytes_length, IH, Z_of_byte_of_Z.
  unfold u8, uwrap. rewrite Z.shiftr_div_pow2 by lia.
  replace (8 * Z.of_nat (S n)) with (8 * Z.of_nat n + 8) by lia.
  rewrite Z.pow_add_r by lia. pose proof (pow2_pos (8 * Z.of_nat n) ltac:(lia)).
  rewrite Z.rem_mul_r by lia. lia.
Qed.

Lemma be_bytes_mod n x : be_bytes n (x mod 2 ^ (8 * Z.of_nat n)) = be_bytes n x.
Proof.
  assert (forall k, (k <= n)%nat -> be_bytes k (x mod 2 ^ (8 * Z.of_nat n)) = be_bytes k x) as H.
  { intros k. induction k as [|k IH]; intros Hk; [done|]. cbn [be_bytes].
    rewrite IH by lia. f_equal.
    rewrite <- (byte_of_Z_u8 (Z.shiftr _ _)), <- (byte_of_Z_u8 (Z.shiftr x _)). f_equal.
    unfold u8, uwrap. rewrite <- !Z.land_ones by lia.
    apply Z.bits_inj'. intros i Hi. rewrite !Z.land_spec, !Z.shiftr_spec, Z.land_spec by lia.
    rewrite !Z.testbit_ones_nonneg by lia.
    destruct (Z.ltb_spec i 8); [|by rewrite !andb_false_r].
    destruct (Z.ltb_spec (i + 8 * Z.of_nat k) (8 * Z.of_nat n)); [|lia].
    by rewrite !andb_true_r. }
  by apply H.
Qed.

Lemma be_bytes_be_Z bs : be_bytes (length bs) (be_Z bs) = bs.
Proof.
  induction bs as [|b bs IH]; [done|]. cbn [length be_bytes].
  destruct (be_Z_cons b bs) as [E _]. pose proof (be_Z_range bs) as Hr.
  pose proof (pow2_pos (8 * Z.of_nat (length bs)) ltac:(lia)) as Hp. f_equal.
  - rewrite E, Z.shiftr_div_pow2 by lia. rewrite Z.div_add_l, Z.div_small, Z.add_0_r by lia.
    apply byte_of_Z_of_byte.
  - rewrite E, <- be_bytes_mod.
    by rewrite Z.add_comm, Z.mod_add, Z.mod_small by lia.
Qed.

Lemma be_bytes_be_Z' n bs : length bs = n -> be_bytes n (be_Z bs) = bs.
Proof. intros <-. apply be_bytes_be_Z. Qed.

Lemma Uint16_app x r : Uint16 (PutUint16 x ++ r) = u16 x.
Proof. unfold Uint16, PutUint16. rewrite take_app_length' by done. apply be_Z_be_bytes. Qed.

Lemma Uint32_app x r : Uint32 (PutUint32 x ++ r) = u32 x.
Proof. unfold Uint32, PutUint32. rewrite take_app_length' by done. apply be_Z_be_bytes. Qed.

Lemma Uint64_app x r : Uint64 (PutUint64 x ++ r) = u64 x.
Proof. unfold Uint64, PutUint64. rewrite take_app_length' by done. apply be_Z_be_bytes. Qed.

Lemma Uint16_range bs : is_u16 (Uint16 bs).
Proof.
  unfold Uint16. pose proof (be_Z_range (take 2 bs)) as H.
  assert (2 ^ (8 * Z.of_nat (length (take 2 bs))) <= 2 ^ 16).
  { apply Z.pow_le_mono_r; [lia|]. rewrite length_take. lia. }
  unfold in_u. lia.
Qed.

(** ** The checksum is 32 bits wide *)

Lemma lxor_u32 a b : is_u32 a -> is_u32 b -> is_u32 (Z.lxor a b).
Proof.
  intros Ha Hb.
  assert (forall c, is_u32 c <-> c = Z.land c (Z.ones 32)) as E.
  { intros c. rewrite Z.land_ones by lia. unfold in_u. split.
    - intros ?. by rewrite Z.mod_small.
    - intros ->. apply Z.mod_pos_bound. lia. }
  apply E. apply E in Ha, Hb. rewrite Ha, Hb at 1.
  apply Z.bits_inj'. intros n Hn.
  rewrite ?Z.land_spec, ?Z.lxor_spec, ?Z.land_spec.
  by destruct (Z.testbit a n), (Z.testbit b n), (Z.testbit (Z.ones 32) n).
Qed.

Lemma crc_bit_u32 c : is_u32 c -> is_u32 (crc_bit c).
Proof.
  intros [H1 H2]. unfold crc_bit.
  assert (is_u32 (Z.shiftr c 1)) as Hs.
  { rewrite Z.shiftr_div_pow2 by lia. change (2 ^ 1) with 2. unfold in_u in *.
    pose proof (Z.div_le_upper_bound c 2 c ltac:(lia) ltac:(lia)).
    pose proof (Z.div_pos c 2 ltac:(lia) ltac:(lia)). lia. }
  destruct (Z.testbit c 0); [|done]. apply lxor_u32; [done|vm_compute; split; congruence].
Qed.

Lemma crc_byte_u32 c b : is_u32 c -> is_u32 (crc_byte c b).
Proof.
  intros Hc. unfold crc_byte.
  assert (is_u32 (Z.lxor c (Z_of_byte b))) as H.
  { apply lxor_u32; [done|]. pose proof (Z_of_byte_range b) as [? ?]. unfold in_u in *.
    change (2 ^ 8) with 256 in *. lia. }
  revert H. generalize (Z.lxor c (Z_of_byte b)). generalize 8%nat. intros n z Hz.
  induction n; cbn; auto using crc_bit_u32.
Qed.

Lemma ChecksumIEEE_u32 bs : is_u32 (ChecksumIEEE bs).
Proof.
  unfold ChecksumIEEE. apply lxor_u32; [|vm_compute; split; congruence].
  assert (is_u32 0xFFFFFFFF) as H by (vm_compute; split; congruence).
  revert H. generalize 0xFFFFFFFF. induction bs as [|b bs IH]; intros c Hc; [done|].
  apply IH, crc_byte_u32, Hc.
Qed.

Example ChecksumIEEE_check : ChecksumIEEE (bytes_of "123456789") = 0xCBF43926.
Proof. vm_compute. reflexivity. Qed.

(** ** Lemmas on strings *)

Lemma bytes_of_string_of bs : bytes_of (string_of bs) = bs.
Proof. apply list_byte_of_string_of_list_byte. Qed.

Lemma string_of_bytes_of s : string_of (bytes_of s) = s.
Proof. apply string_of_list_byte_of_string. Qed.

(** ** Lemmas on Split and Join *)

Lemma Split_cons sep s : exists p ps, Split sep s = p :: ps.
Proof.
  destruct s as [|c s]; [by exists EmptyString, []|]. cbn [Split].
  destruct (Split sep s) as [|p ps]; [by exists EmptyString, []|].
  destruct (Ascii.eqb c sep); [by exists EmptyString, (p :: ps)|by exists (String c p), ps].
Qed.

Lemma Join_Split sep s : Join (Split sep s) sep = s.
Proof.
  induction s as [|c s IH]; [done|]. cbn [Split].
  destruct (Split_cons sep s) as (p & ps & E). rewrite E in *.
  destruct (Ascii.eqb_spec c sep) as [->|?].
  - change (Join (EmptyString :: p :: ps) sep) with (String sep (Join (p :: ps) sep)). by rewrite IH.
  - destruct ps; cbn [Join String.append] in *; by rewrite <- IH.
Qed.

Lemma Split_word sep p : Contains1 sep p = false -> Split sep p = [p].
Proof.
  induction p as [|c p IH]; [done|]. cbn [Contains1 Split]. intros [H1 H2]%orb_false_iff.
  rewrite IH by done. by rewrite Ascii.eqb_sym, H1.
Qed.

Lemma Split_append sep p s :
  Contains1 sep p = false -> Split sep (String.append p (String sep s)) = p :: Split sep s.
Proof.
  induction p as [|c p IH].
  - intros _. change (String.append EmptyString (String sep s)) with (String sep s).
    cbn [Split]. destruct (Split_cons sep s) as (q & qs & ->).
    by rewrite Ascii.eqb_refl.
  - cbn [Contains1]. intros [H1 H2]%orb_false_iff.
    change (String.append (String c p) (String sep s)) with (String c (String.append p (String sep s))). cbn [Split].
    rewrite IH by done. by rewrite Ascii.eqb_sym, H1.
Qed.

Lemma Split_Join sep parts :
  parts <> [] -> Forall (fun p => Contains1 sep p = false) parts -> Split sep (Join parts sep) = parts.
Proof.
  intros Hne Hall. induction Hall as [|p ps Hp Hps IH]; [done|].
  destruct ps as [|q qs]; [by apply Split_word|].
  change (Join (p :: q :: qs) sep) with (String.append p (String sep (Join (q :: qs) sep))).
  rewrite Split_append by done. by rewrite IH.
Qed.

Lemma Split_no_sep sep s : Forall (fun p => Contains1 sep p = false) (Split sep s).
Proof.
  induction s as [|c s IH]; [by repeat constructor|]. cbn [Split].
  destruct (Split sep s) as [|p ps]; [by repeat constructor|].
  destruct (Ascii.eqb_spec c sep) as [->|Hc]; [by constructor|].
  apply Forall_cons in IH as [Hp Hps]. constructor; [|done]. cbn [Contains1].
  rewrite Hp, orb_false_r. apply Ascii.eqb_neq. congruence.
Qed.

Lemma ContainsAny_Contains1 c chars s :
  ContainsAny s chars = false -> Contains1 c chars = true -> Contains1 c s = false.
Proof.
  intros H Hc. induction s as [|d s IH]; [done|]. cbn [ContainsAny Contains1] in *.
  apply orb_false_iff in H as [H1 H2]. rewrite IH by done. rewrite orb_false_r.
  apply Ascii.eqb_neq. intros ->. congruence.
Qed.

(** ** Lemmas on prefixes, suffixes and decimal names *)

Lemma append_cons c p s : String.append (String c p) s = String c (String.append p s).
Proof. done. Qed.

Lemma append_length p s : String.length (String.append p s) = (String.length p + String.length s)%nat.
Proof. induction p as [|c p IH]; [done|]. rewrite append_cons. cbn. by rewrite IH. Qed.

Lemma HasPrefix_append p s : HasPrefix (String.append p s) p = true.
Proof.
  unfold HasPrefix. induction p as [|c p IH]; [by destruct s|]. rewrite append_cons. cbn.
  by destruct (Ascii.ascii_dec c c).
Qed.

Lemma substring_all s : String.substring 0 (String.length s) s = s.
Proof. induction s as [|c s IH]; [done|]. cbn. by rewrite IH. Qed.

Lemma substring_append_r p s : String.substring (String.length p) (String.length s) (String.append p s) = s.
Proof. induction p as [|c p IH]; [apply substring_all|]. rewrite append_cons. cbn. apply IH. Qed.

Lemma substring_append_l p s : String.substring 0 (String.length p) (String.append p s) = p.
Proof. induction p as [|c p IH]; [by destruct s|]. rewrite append_cons. cbn. by rewrite IH. Qed.

Lemma TrimPrefix_append p s : TrimPrefix (String.append p s) p = s.
Proof.
  unfold TrimPrefix. rewrite HasPrefix_append, append_length.
  replace (_ + _ - _)%nat with (String.length s) by lia. apply substring_append_r.
Qed.

Lemma HasSuffix_append s p : HasSuffix (String.append s p) p = true.
Proof.
  unfold HasSuffix. rewrite append_length.
  replace (String.length s + String.length p - String.length p)%nat with (String.length s) by lia.
  rewrite substring_append_r, String.eqb_refl, andb_true_r. apply Nat.leb_le. lia.
Qed.

Lemma TrimSuffix_append s p : TrimSuffix (String.append s p) p = s.
Proof.
  unfold TrimSuffix. rewrite HasSuffix_append, append_length.
  replace (_ + _ - _)%nat with (String.length s) by lia. apply substring_append_l.
Qed.

Lemma uint_zeros k s :
  NilEmpty.uint_of_string (String.append (string_of_list_ascii (repeat "0"%char k)) s) =
  option_map (Nat.iter k Decimal.D0) (NilEmpty.uint_of_string s).
Proof.
  induction k as [|k IH].
  - change (String.append (string_of_list_ascii (repeat "0"%char 0)) s) with s.
    by destruct (NilEmpty.uint_of_string s).
  - cbn [repeat string_of_list_ascii]. rewrite append_cons. cbn [NilEmpty.uint_of_string uint_of_char].
    rewrite IH. by destruct (NilEmpty.uint_of_string s).
Qed.

Lemma of_uint_zeros k d : N.of_uint (Nat.iter k Decimal.D0 d) = N.of_uint d.
Proof. induction k as [|k IH]; [done|]. cbn. apply IH. Qed.

Lemma FormatUint_empty n : NilEmpty.uint_of_string (FormatUint n) = Some (N.to_uint (Z.to_N n)) /\ FormatUint n <> EmptyString.
Proof.
  unfold FormatUint. assert (N.to_uint (Z.to_N n) <> Decimal.Nil) as Hn.
  { destruct (Z.to_N n); [done|apply DecimalPos.Unsigned.to_uint_nonnil]. }
  destruct (N.to_uint (Z.to_N n)) eqn:E; [done|..]; cbn [NilZero.string_of_uint];
    (split; [apply NilEmpty.usu|done]).
Qed.

Lemma ParseUint_digits k n : is_u64 n ->
  ParseUint (String.append (string_of_list_ascii (repeat "0"%char k)) (FormatUint n)) = Some n.
Proof.
  intros [H1 H2]. destruct (FormatUint_empty n) as [HF Hne].
  pose proof (uint_zeros k (FormatUint n)) as HZ. rewrite HF in HZ. cbn [option_map] in HZ.
  unfold ParseUint, NilZero.uint_of_string. set (s := String.append _ _) in *.
  assert (s <> EmptyString) as Hs.
  { intros E. apply (f_equal String.length) in E. unfold s in E. rewrite append_length in E.
    destruct (FormatUint n); [done|]. cbn in E. lia. }
  destruct s as [|c s']; [done|]. rewrite HZ. rewrite of_uint_zeros, DecimalN.Unsigned.of_to, Z2N.id by done.
  by destruct (Z.ltb_spec n (2 ^ 64)); [|lia].
Qed.

Lemma ParseUint_FormatUint n : is_u64 n -> ParseUint (FormatUint n) = Some n.
Proof. apply (ParseUint_digits 0). Qed.

Lemma ParseUint_pad_left w n : is_u64 n -> ParseUint (pad_left w (FormatUint n)) = Some n.
Proof. apply ParseUint_digits. Qed.

(** Every character of [s] satisfies [f]. *)
Fixpoint all_chars (f : Ascii.ascii -> bool) (s : string) : bool :=
  match s with
  | EmptyString => true
  | String c s' => f c && all_chars f s'
  end.

Definition is_digit (c : Ascii.ascii) : bool :=
  let n := Ascii.nat_of_ascii c in (48 <=? n)%nat && (n <=? 57)%nat.

Lemma is_digit_not_space c : is_digit c = true -> is_space c = false.
Proof.
  unfold is_digit, is_space. intros [H1%Nat.leb_le H2%Nat.leb_le]%andb_true_iff.
  apply orb_false_iff. split; [apply andb_false_iff; right; apply Nat.leb_gt; lia|apply Nat.eqb_neq; lia].
Qed.

Lemma all_chars_impl f g s : (forall c, f c = true -> g c = true) -> all_chars f s = true -> all_chars g s = true.
Proof.
  intros H. induction s as [|c s IH]; [done|]. cbn. intros [H1 H2]%andb_true_iff. by rewrite H, IH.
Qed.

Lemma FormatUint_digits n : all_chars is_digit (FormatUint n) = true.
Proof.
  unfold FormatUint, NilZero.string_of_uint.
  assert (forall u, all_chars is_digit (NilEmpty.string_of_uint u) = true) as H
    by (intros u; induction u; [done|exact IHu..]).
  destruct (N.to_uint (Z.to_N n)); [done|apply H..].
Qed.

Lemma fields_from_word cur w s :
  all_chars (fun c => negb (is_space c)) w = true ->
  fields_from cur (String.append w s) = fields_from (String.append cur w) s.
Proof.
  revert cur. induction w as [|c w IH]; intros cur; cbn [all_chars].
  - intros _. change (String.append EmptyString s) with s. f_equal. clear.
    induction cur as [|d cur IH]; [done|]. by rewrite append_cons, <- IH.
  - intros [H1 H2]%andb_true_iff. apply negb_true_iff in H1. rewrite append_cons. cbn [fields_from]. rewrite H1, IH by done.
    f_equal. clear. induction cur as [|d cur IH]; [done|]. by rewrite !append_cons, IH.
Qed.

Lemma fields_flush cur c s : cur <> EmptyString -> is_space c = true ->
  fields_from cur (String c s) = cur :: fields_from EmptyString s.
Proof. intros Hc Hs. cbn [fields_from]. rewrite Hs. by destruct (String.eqb_spec cur EmptyString). Qed.

(** Two words separated by a space and ended by a newline. *)
Lemma Fields_two a b :
  all_chars (fun c => negb (is_space c)) a = true -> all_chars (fun c => negb (is_space c)) b = true ->
  a <> EmptyString -> b <> EmptyString ->
  Fields (String.append a (String " "%char (String.append b (String "010"%char EmptyString)))) = [a; b].
Proof.
  intros Ha Hb Hna Hnb. unfold Fields. rewrite fields_from_word by done.
  change (String.append EmptyString a) with a. rewrite fields_flush by done.
  rewrite fields_from_word by done. change (String.append EmptyString b) with b.
  by rewrite fields_flush by done.
Qed.

Lemma FormatUint_no_space n : all_chars (fun c => negb (is_space c)) (FormatUint n) = true.
Proof.
  eapply all_chars_impl; [|apply FormatUint_digits]. intros c Hc. cbn. by rewrite is_digit_not_space.
Qed.

Lemma ParseInt_FormatInt n : 0 <= n < 2 ^ 63 -> ParseInt (FormatInt n) = Some n /\ FormatInt n = FormatUint n.
Proof.
  intros Hn. unfold FormatInt. destruct (Z.ltb_spec n 0); [lia|]. split; [|done].
  pose proof (FormatUint_digits n) as Hd. pose proof (ParseUint_FormatUint n ltac:(unfold in_u; lia)) as HP.
  destruct (FormatUint_empty n) as [_ Hne]. unfold ParseInt.
  destruct (FormatUint n) as [|c s]; [done|]. cbn [all_chars] in Hd. apply andb_true_iff in Hd as [Hd _].
  destruct (Ascii.eqb_spec c "-"%char) as [->|_]; [done|]. destruct (Ascii.eqb_spec c "+"%char) as [->|_]; [done|].
  rewrite HP. by destruct (Z.ltb_spec n (2 ^ 63)); [|lia].
Qed.
