(* ===== verification/GoFloat.v ===== *)
(** * GoFloat: float64 and float32

    A float is an IEEE 754 datum of [SpecFloat]: sign, mantissa, exponent, or
    an infinity, a signed zero or a NaN (the payload of a NaN is not kept).
    [float64] arithmetic is the correctly rounded arithmetic of that file at
    precision 53 and maximal exponent 1024; [float32] values are the data
    valid at precision 24 and exponent 128. *)
From Stdlib Require Import ZArith Lia Bool SpecFloat.
From S2P Require Import Prelude.

Open Scope Z_scope.

Definition float := spec_float.

Global Instance float_eq_dec : EqDecision float.
Proof. solve_decision. Defined.

(** ** Arithmetic and comparisons of float64 *)

Definition fadd : float -> float -> float := SFadd 53 1024.
Definition fsub : float -> float -> float := SFsub 53 1024.
Definition fmul : float -> float -> float := SFmul 53 1024.
Definition fabs : float -> float := SFabs.
Definition flt : float -> float -> bool := SFltb.
Definition fle : float -> float -> bool := SFleb.
Definition feq : float -> float -> bool := SFeqb.

Definition IsNaN (f : float) : bool := match f with S754_nan => true | _ => false end.
Definition IsInf (f : float) : bool := match f with S754_infinity _ => true | _ => false end.
Definition is_finite (f : float) : bool := negb (IsNaN f || IsInf f).
Definition fzero : float := S754_zero false.

Abbreviation valid64 f := (valid_binary 53 1024 f = true).
Abbreviation valid32 f := (valid_binary 24 128 f = true).

(** ** Conversions *)

(** [float64(n)] of an integer. *)
Definition of_Z (n : Z) : float := binary_normalize 53 1024 n 0 false.

(** [float32(v)] and [float64(f)]. *)
Definition to_f32 (v : float) : float :=
  match v with S754_finite s m e => binary_round 24 128 s m e | _ => v end.
Definition to_f64 (f : float) : float :=
  match f with S754_finite s m e => binary_round 53 1024 s m e | _ => f end.

(** The integer part of a finite float, and [math.Trunc]. *)
Definition trunc_Z (v : float) : Z :=
  match v with
  | S754_finite s m e =>
      let n := if 0 <=? e then Z.pos m * 2 ^ e else Z.pos m / 2 ^ (- e) in
      if s then - n else n
  | _ => 0
  end.

Definition Trunc (v : float) : float :=
  match v with
  | S754_finite s m e =>
      if 0 <=? e then v
      else binary_normalize 53 1024 (trunc_Z v) 0 s
  | _ => v
  end.

(** [math.Float32frombits] and [math.Float32bits]; every NaN has the bits of
    the quiet NaN. *)
Definition Float32frombits (b : Z) : float :=
  let s := Z.testbit b 31 in
  let e := Z.land (Z.shiftr b 23) 0xFF in
  let m := Z.land b 0x7FFFFF in
  if e =? 255 then (if m =? 0 then S754_infinity s else S754_nan)
  else if e =? 0 then
    match m with Z.pos p => S754_finite s p (-149) | _ => S754_zero s end
  else
    match m + 0x800000 with Z.pos p => S754_finite s p (e - 150) | _ => S754_nan end.

Definition Float32bits (f : float) : Z :=
  let sign (s : bool) := if s then 0x80000000 else 0 in
  match f with
  | S754_zero s => sign s
  | S754_infinity s => Z.lor (sign s) 0x7F800000
  | S754_nan => 0x7FC00000
  | S754_finite s m e =>
      if Z.pos m <? 0x800000 then Z.lor (sign s) (Z.pos m)
      else Z.lor (sign s) (Z.lor (Z.shiftl (e + 150) 23) (Z.pos m - 0x800000))
  end.

(** ** Lemmas: digits and shifts *)

Lemma digits2_pos_bounds p :
  2 ^ (Z.pos (digits2_pos p) - 1) <= Z.pos p < 2 ^ Z.pos (digits2_pos p).
Proof.
  induction p as [p IH|p IH|]; cbn [digits2_pos].
  3: { cbn. lia. }
  all: rewrite Pos2Z.inj_succ; replace (Z.succ (Z.pos (digits2_pos p)) - 1) with (Z.pos (digits2_pos p)) by lia.
  all: rewrite Z.pow_succ_r by lia.
  all: assert (2 ^ Z.pos (digits2_pos p) = 2 * 2 ^ (Z.pos (digits2_pos p) - 1)) as E
         by (rewrite <- Z.pow_succ_r by lia; f_equal; lia).
  all: lia.
Qed.

Lemma digits2_pos_unique p d : 0 < d -> 2 ^ (d - 1) <= Z.pos p < 2 ^ d -> Z.pos (digits2_pos p) = d.
Proof.
  intros Hd [H1 H2]. pose proof (digits2_pos_bounds p) as [B1 B2].
  destruct (Z.lt_trichotomy (Z.pos (digits2_pos p)) d) as [H|[H|H]]; [|done|].
  - pose proof (Z.pow_le_mono_r 2 (Z.pos (digits2_pos p)) (d - 1) ltac:(lia) ltac:(lia)). lia.
  - pose proof (Z.pow_le_mono_r 2 d (Z.pos (digits2_pos p) - 1) ltac:(lia) ltac:(lia)). lia.
Qed.

(** [shl m k] is the mantissa [m] shifted left by [k] places. *)
Definition shl (m : positive) (k : Z) : positive :=
  match k with Z.pos d => Pos.iter xO m d | _ => m end.

Lemma shl_spec m k : 0 <= k -> Z.pos (shl m k) = Z.pos m * 2 ^ k.
Proof.
  intros Hk. destruct k as [|d|d]; [cbn; lia| |lia]. cbn [shl].
  clear Hk. induction d as [|d IH] using Pos.peano_ind.
  - cbn. lia.
  - rewrite Pos.iter_succ, Pos2Z.inj_succ, Z.pow_succ_r by lia.
    rewrite Pos2Z.inj_xO, IH. lia.
Qed.

Lemma digits2_shl m k : 0 <= k -> Z.pos (digits2_pos (shl m k)) = Z.pos (digits2_pos m) + k.
Proof.
  intros Hk. pose proof (digits2_pos_bounds m) as [B1 B2]. pose proof (pow2_pos k Hk).
  apply digits2_pos_unique; [lia|]. rewrite shl_spec by done.
  replace (Z.pos (digits2_pos m) + k - 1) with (Z.pos (digits2_pos m) - 1 + k) by lia.
  rewrite !Z.pow_add_r by lia. nia.
Qed.

Lemma iter_pos_comm {A} (f : A -> A) n x : SpecFloat.iter_pos f n (f x) = f (SpecFloat.iter_pos f n x).
Proof. revert x. induction n as [n IH|n IH|]; intros x; cbn; rewrite ?IH; done. Qed.

Lemma iter_pos_succ {A} (f : A -> A) n x : SpecFloat.iter_pos f (Pos.succ n) x = f (SpecFloat.iter_pos f n x).
Proof.
  revert x. induction n as [n IH|n IH|]; intros x; [| |done].
  - change (Pos.succ n~1) with (Pos.succ n)~0%positive. cbn.
    by rewrite !IH, !(iter_pos_comm f).
  - change (Pos.succ n~0) with n~1%positive. cbn. by rewrite !(iter_pos_comm f).
Qed.

Lemma shr_shl m d :
  SpecFloat.iter_pos shr_1 d (Build_shr_record (Z.pos (shl m (Z.pos d))) false false)
  = Build_shr_record (Z.pos m) false false.
Proof.
  revert m. induction d as [|d IH] using Pos.peano_ind; intros m; [done|].
  rewrite iter_pos_succ, <- iter_pos_comm. cbn [shl]. rewrite Pos.iter_succ. apply IH.
Qed.

(** ** Lemmas: rounding a representable datum *)

Section Rounding.
Context (prec emax : Z).

(** A canonical datum is unchanged by the rounding of [binary_round_aux]. *)
Lemma round_aux_canonical s m e :
  fexp prec emax (Z.pos (digits2_pos m) + e) = e -> e <= emax - prec ->
  binary_round_aux prec emax s (Z.pos m) e loc_Exact = S754_finite s m e.
Proof.
  intros Hf He. unfold binary_round_aux, shr_fexp.
  cbn [shr_record_of_loc Zdigits2]. rewrite Hf, Z.sub_diag. cbn [shr loc_of_shr_record shr_m round_nearest_even].
  cbn [shr_record_of_loc Zdigits2]. rewrite Hf, Z.sub_diag. cbn [shr shr_m].
  by rewrite (proj2 (Z.leb_le _ _) He).
Qed.

(** Rounding only moves the mantissa up when there is room for it. *)
Lemma binary_round_widen s m e :
  let k := e - fexp prec emax (Z.pos (digits2_pos m) + e) in
  0 <= k -> e - k <= emax - prec ->
  binary_round prec emax s m e = S754_finite s (shl m k) (e - k).
Proof.
  intros k Hk He. unfold binary_round, shl_align.
  assert (fexp prec emax (Z.pos (digits2_pos m) + e) = e - k) as Hf by lia. rewrite Hf.
  replace (e - k - e) with (- k) by lia.
  assert (fexp prec emax (Z.pos (digits2_pos (shl m k)) + (e - k)) = e - k) as Hc.
  { rewrite digits2_shl by done. replace (_ + k + _) with (Z.pos (digits2_pos m) + e) by lia. done. }
  destruct k as [|d|d] eqn:Ek; [| |lia].
  - rewrite Z.sub_0_r in *. cbn [Z.opp]. by apply round_aux_canonical.
  - cbn [Z.opp]. by apply (round_aux_canonical s (shl m (Z.pos d))).
Qed.

(** Rounding a widened canonical datum gives the datum back. *)
Lemma binary_round_narrow s m e k :
  0 <= k -> fexp prec emax (Z.pos (digits2_pos m) + e) = e -> e <= emax - prec ->
  binary_round prec emax s (shl m k) (e - k) = S754_finite s m e.
Proof.
  intros Hk Hf He. unfold binary_round, shl_align.
  rewrite digits2_shl by done.
  replace (Z.pos (digits2_pos m) + k + (e - k)) with (Z.pos (digits2_pos m) + e) by lia.
  rewrite Hf. replace (e - (e - k)) with k by lia.
  destruct k as [|d|d]; [| |lia].
  - rewrite Z.sub_0_r. by apply round_aux_canonical.
  - unfold binary_round_aux, shr_fexp. cbn [shr_record_of_loc Zdigits2].
    rewrite digits2_shl by done.
    replace (Z.pos (digits2_pos m) + Z.pos d + (e - Z.pos d)) with (Z.pos (digits2_pos m) + e) by lia.
    rewrite Hf. replace (e - (e - Z.pos d)) with (Z.pos d) by lia. cbn [shr].
    rewrite shr_shl. replace (e - Z.pos d + Z.pos d) with e by lia.
    cbn [shr_m loc_of_shr_record round_nearest_even shr_record_of_loc Zdigits2].
    rewrite Hf, Z.sub_diag. cbn [shr shr_m]. by rewrite (proj2 (Z.leb_le _ _) He).
Qed.
End Rounding.

(** ** Lemmas: integers are exact up to 53 bits *)

Lemma of_Z_pos p :
  Z.pos (digits2_pos p) <= 53 ->
  of_Z (Z.pos p) = S754_finite false (shl p (53 - Z.pos (digits2_pos p))) (Z.pos (digits2_pos p) - 53)
  /\ of_Z (Z.neg p) = S754_finite true (shl p (53 - Z.pos (digits2_pos p))) (Z.pos (digits2_pos p) - 53).
Proof.
  intros Hd. unfold of_Z, binary_normalize.
  assert (fexp 53 1024 (Z.pos (digits2_pos p) + 0) = Z.pos (digits2_pos p) - 53) as E
    by (unfold fexp, SpecFloat.emin; lia).
  rewrite !binary_round_widen; rewrite E; try lia.
  replace (0 - (Z.pos (digits2_pos p) - 53)) with (53 - Z.pos (digits2_pos p)) by lia.
  replace (0 - (53 - Z.pos (digits2_pos p))) with (Z.pos (digits2_pos p) - 53) by lia. done.
Qed.

Definition small (n : Z) : Prop := - 2 ^ 53 < n < 2 ^ 53.

Lemma small_digits p : Z.pos p < 2 ^ 53 -> Z.pos (digits2_pos p) <= 53.
Proof.
  intros H. pose proof (digits2_pos_bounds p) as [B _].
  destruct (Z_le_dec (Z.pos (digits2_pos p)) 53); [done|].
  pose proof (Z.pow_le_mono_r 2 53 (Z.pos (digits2_pos p) - 1) ltac:(lia) ltac:(lia)). lia.
Qed.

Lemma trunc_of_Z n : small n -> trunc_Z (of_Z n) = n.
Proof.
  intros [H1 H2].
  assert (forall p, Z.pos p < 2 ^ 53 ->
    (if 0 <=? Z.pos (digits2_pos p) - 53
     then Z.pos (shl p (53 - Z.pos (digits2_pos p))) * 2 ^ (Z.pos (digits2_pos p) - 53)
     else Z.pos (shl p (53 - Z.pos (digits2_pos p))) / 2 ^ (- (Z.pos (digits2_pos p) - 53))) = Z.pos p) as E.
  { intros p Hp. pose proof (small_digits p Hp) as Hd. rewrite shl_spec by lia.
    destruct (Z.leb_spec 0 (Z.pos (digits2_pos p) - 53)).
    - replace (Z.pos (digits2_pos p)) with 53 by lia. cbn. lia.
    - replace (- (Z.pos (digits2_pos p) - 53)) with (53 - Z.pos (digits2_pos p)) by lia.
      apply Z.div_mul. pose proof (pow2_pos (53 - Z.pos (digits2_pos p)) ltac:(lia)). lia. }
  destruct n as [|p|p]; [done| |].
  - destruct (of_Z_pos p) as [-> _]; [apply small_digits; lia|]. cbn [trunc_Z]. apply E. lia.
  - destruct (of_Z_pos p) as [_ ->]; [apply small_digits; lia|]. cbn [trunc_Z]. rewrite E by lia. lia.
Qed.

Lemma of_Z_finite n : small n -> is_finite (of_Z n) = true.
Proof.
  intros [H1 H2]. destruct n as [|p|p]; [done| |].
  - destruct (of_Z_pos p) as [-> _]; [apply small_digits; lia|]. done.
  - destruct (of_Z_pos p) as [_ ->]; [apply small_digits; lia|]. done.
Qed.

(** ** Lemmas: a finite float as an integer multiple of the smallest one *)

Definition unit64 : Z := 2 ^ 1074.

Definition scaled (v : float) : Z :=
  match v with
  | S754_finite s m e => (if s then -1 else 1) * (Z.pos m * 2 ^ (e + 1074))
  | _ => 0
  end.

Lemma unit64_pos : 0 < unit64.
Proof. apply pow2_pos. lia. Qed.

Lemma fexp64_ge s m e : valid64 (S754_finite s m e) ->
  -1074 <= e /\ Z.pos m < 2 ^ 53 /\ (-1074 < e -> 2 ^ 52 <= Z.pos m).
Proof.
  cbn [valid_binary]. unfold bounded, canonical_mantissa, fexp, SpecFloat.emin. intros H. bool_to_prop.
  pose proof (digits2_pos_bounds m) as [B1 B2].
  pose proof (Z.pow_le_mono_r 2 (Z.pos (digits2_pos m)) 53 ltac:(lia) ltac:(lia)).
  split; [lia|]. split; [lia|]. intros He.
  assert (Z.pos (digits2_pos m) = 53) as E by lia. rewrite E in B1. exact B1.
Qed.

Lemma mantissa_lt m1 m2 e d : 0 <= e -> 0 < d -> 0 < m1 < 2 ^ 53 -> 2 ^ 52 <= m2 ->
  m1 * 2 ^ e < m2 * 2 ^ (e + d).
Proof.
  intros He Hd [H0 H1] H2. pose proof (pow2_pos e He).
  assert (2 * 2 ^ e <= 2 ^ (e + d)) as H3.
  { rewrite <- Z.pow_succ_r by done. apply Z.pow_le_mono_r; lia. }
  apply Z.lt_le_trans with (2 ^ 53 * 2 ^ e); [nia|].
  change (2 ^ 53) with (2 ^ 52 * 2). rewrite <- Z.mul_assoc.
  apply Z.mul_le_mono_nonneg; lia.
Qed.

Lemma compare_mantissas m1 e1 m2 e2 s1 s2 :
  valid64 (S754_finite s1 m1 e1) -> valid64 (S754_finite s2 m2 e2) ->
  match e1 ?= e2 with Eq => Pos.compare_cont Eq m1 m2 | c => c end
  = (Z.pos m1 * 2 ^ (e1 + 1074) ?= Z.pos m2 * 2 ^ (e2 + 1074)).
Proof.
  intros (A1 & A2 & A3)%fexp64_ge (B1 & B2 & B3)%fexp64_ge.
  pose proof (pow2_pos (e1 + 1074) ltac:(lia)) as P1. pose proof (pow2_pos (e2 + 1074) ltac:(lia)) as P2.
  destruct (Z.compare_spec e1 e2) as [->|L|G]; symmetry.
  - change (Pos.compare_cont Eq) with Pos.compare. rewrite Pos2Z.inj_compare.
    destruct (Z.compare_spec (Z.pos m1) (Z.pos m2)) as [E|L|G];
      [rewrite E; apply Z.compare_refl|apply Z.compare_lt_iff|apply Z.compare_gt_iff]; nia.
  - apply Z.compare_lt_iff. replace (e2 + 1074) with (e1 + 1074 + (e2 - e1)) by lia.
    apply mantissa_lt; lia.
  - apply Z.compare_gt_iff. replace (e1 + 1074) with (e2 + 1074 + (e1 - e2)) by lia.
    apply mantissa_lt; lia.
Qed.

(** The comparison of two finite floats is that of the numbers they denote. *)
Lemma SFcompare_scaled x y :
  valid64 x -> valid64 y -> is_finite x = true -> is_finite y = true ->
  SFcompare x y = Some (scaled x ?= scaled y).
Proof.
  intros Vx Vy Fx Fy.
  destruct x as [sx|sx| |sx mx ex], y as [sy|sy| |sy my ey]; try done;
    cbn [SFcompare scaled]; f_equal.
  - pose proof (fexp64_ge _ _ _ Vy) as [? _]. pose proof (pow2_pos (ey + 1074) ltac:(lia)).
    symmetry. destruct sy; [apply Z.compare_gt_iff|apply Z.compare_lt_iff]; nia.
  - pose proof (fexp64_ge _ _ _ Vx) as [? _]. pose proof (pow2_pos (ex + 1074) ltac:(lia)).
    symmetry. destruct sx; [apply Z.compare_lt_iff|apply Z.compare_gt_iff]; nia.
  - pose proof (fexp64_ge _ _ _ Vx) as [? _]. pose proof (pow2_pos (ex + 1074) ltac:(lia)).
    pose proof (fexp64_ge _ _ _ Vy) as [? _]. pose proof (pow2_pos (ey + 1074) ltac:(lia)).
    pose proof (compare_mantissas mx ex my ey sx sy Vx Vy) as E.
    destruct sx, sy.
    + replace (-1 * (Z.pos mx * 2 ^ (ex + 1074))) with (- (Z.pos mx * 2 ^ (ex + 1074))) by lia.
      replace (-1 * (Z.pos my * 2 ^ (ey + 1074))) with (- (Z.pos my * 2 ^ (ey + 1074))) by lia.
      rewrite Z.compare_opp, (Z.compare_antisym (Z.pos mx * _)), <- E. by destruct (ex ?= ey).
    + symmetry. apply Z.compare_lt_iff. nia.
    + symmetry. apply Z.compare_gt_iff. nia.
    + rewrite !Z.mul_1_l. exact E.
Qed.

Lemma flt_scaled x y :
  valid64 x -> valid64 y -> is_finite x = true -> is_finite y = true ->
  flt x y = (scaled x <? scaled y).
Proof. intros. unfold flt, SFltb. rewrite SFcompare_scaled by done. by rewrite Z.ltb_compare. Qed.

Lemma trunc_scaled v : valid64 v -> trunc_Z v = Z.quot (scaled v) unit64.
Proof.
  pose proof unit64_pos. intros V. destruct v as [s|s| |s m e]; cbn [scaled trunc_Z];
    try (symmetry; apply Z.quot_0_l; lia).
  apply fexp64_ge in V as (He & _ & _). unfold unit64 in *.
  assert (Z.pos m * 2 ^ (e + 1074) ÷ 2 ^ 1074
          = if 0 <=? e then Z.pos m * 2 ^ e else Z.pos m / 2 ^ (- e)) as E.
  { pose proof (pow2_pos (e + 1074) ltac:(lia)).
    rewrite Z.quot_div_nonneg by lia. destruct (Z.leb_spec 0 e).
    - rewrite Z.pow_add_r, Z.mul_assoc by lia. apply Z.div_mul. lia.
    - assert (2 ^ 1074 = 2 ^ (e + 1074) * 2 ^ (- e)) as ->
        by (rewrite <- Z.pow_add_r by lia; f_equal; lia).
      rewrite <- (Z.mul_comm (2 ^ (e + 1074))).
      apply Z.div_mul_cancel_l; [|lia]. pose proof (pow2_pos (- e) ltac:(lia)). lia. }
  destruct s; [|by rewrite Z.mul_1_l, E].
  replace (-1 * (Z.pos m * 2 ^ (e + 1074))) with (- (Z.pos m * 2 ^ (e + 1074))) by lia.
  by rewrite Z.quot_opp_l, E by lia.
Qed.

Lemma of_Z_valid n : small n -> valid64 (of_Z n).
Proof.
  assert (forall s p, Z.pos p < 2 ^ 53 ->
    valid64 (S754_finite s (shl p (53 - Z.pos (digits2_pos p))) (Z.pos (digits2_pos p) - 53))) as E.
  { intros s p Hp. pose proof (small_digits p Hp). cbn [valid_binary].
    unfold bounded, canonical_mantissa. rewrite digits2_shl by lia. unfold fexp, SpecFloat.emin.
    apply andb_true_iff; split; [apply Z.eqb_eq|apply Z.leb_le]; lia. }
  intros [H1 H2]. destruct n as [|p|p]; [done| |].
  - destruct (of_Z_pos p) as [-> _]; [apply small_digits; lia|]. apply E. lia.
  - destruct (of_Z_pos p) as [_ ->]; [apply small_digits; lia|]. apply E. lia.
Qed.

Lemma scaled_of_Z n : small n -> scaled (of_Z n) = n * unit64.
Proof.
  assert (forall p, Z.pos p < 2 ^ 53 ->
    Z.pos (shl p (53 - Z.pos (digits2_pos p))) * 2 ^ (Z.pos (digits2_pos p) - 53 + 1074)
    = Z.pos p * unit64) as E.
  { intros p Hp. pose proof (small_digits p Hp). rewrite shl_spec by lia. unfold unit64.
    rewrite <- Z.mul_assoc, <- Z.pow_add_r by lia. do 2 f_equal. lia. }
  intros [H1 H2]. destruct n as [|p|p]; [done| |].
  - destruct (of_Z_pos p) as [-> _]; [apply small_digits; lia|]. cbn [scaled]. rewrite E by lia. lia.
  - destruct (of_Z_pos p) as [_ ->]; [apply small_digits; lia|]. cbn [scaled]. rewrite E by lia. lia.
Qed.

(** Truncation and conversion to an integer agree. *)
Lemma trunc_Trunc v : valid64 v -> trunc_Z (Trunc v) = trunc_Z v.
Proof.
  intros V. destruct v as [s|s| |s m e]; try done. unfold Trunc.
  destruct (0 <=? e) eqn:Ee; [done|]. apply fexp64_ge in V as (_ & Hm & _).
  set (n := trunc_Z (S754_finite s m e)).
  assert (small n) as Hn.
  { unfold n, small. cbn [trunc_Z]. rewrite Ee. bool_to_prop.
    pose proof (pow2_pos (- e) ltac:(lia)).
    pose proof (Z.div_pos (Z.pos m) (2 ^ (- e)) ltac:(lia) ltac:(lia)).
    assert (Z.pos m / 2 ^ (- e) <= Z.pos m) by (apply Z.div_le_upper_bound; nia).
    destruct s; lia. }
  pose proof (trunc_of_Z n Hn) as E. unfold of_Z in E.
  destruct n; [by destruct s|exact E|exact E].
Qed.

Lemma quot_unit64 n : Z.quot (n * unit64) unit64 = n.
Proof. apply Z.quot_mul. pose proof unit64_pos. lia. Qed.

(** ** Lemmas: float32 survives the round trip through float64 *)

Lemma valid_bounds prec emax s m e :
  valid_binary prec emax (S754_finite s m e) = true ->
  fexp prec emax (Z.pos (digits2_pos m) + e) = e /\ e <= emax - prec.
Proof.
  cbn [valid_binary]. unfold bounded, canonical_mantissa. intros H. bool_to_prop. lia.
Qed.

Lemma to_f32_to_f64 f : valid32 f -> to_f32 (to_f64 f) = f.
Proof.
  destruct f as [s|s| |s m e]; try done. intros [Hc He]%valid_bounds.
  cbn [to_f64]. assert (Z.pos (digits2_pos m) <= 24 /\ -149 <= e) as [Hd Hm]
    by (unfold fexp, SpecFloat.emin in Hc; lia).
  rewrite binary_round_widen; unfold fexp, SpecFloat.emin; try lia.
  cbn [to_f32]. apply binary_round_narrow; [lia|done|done].
Qed.

(** ** Lemmas: the bits of a float32 *)

Lemma f32_fields b : is_u32 b ->
  Z.testbit b 31 = (2 ^ 31 <=? b)
  /\ Z.land (Z.shiftr b 23) 0xFF = (b / 2 ^ 23) mod 2 ^ 8
  /\ Z.land b 0x7FFFFF = b mod 2 ^ 23.
Proof.
  intros [H1 H2]. repeat split.
  - destruct (Z.leb_spec (2 ^ 31) b).
    + apply Z.testbit_true; [lia|].
      replace (b / 2 ^ 31) with 1; [done|]. apply (Z.div_unique _ _ _ (b - 2 ^ 31)); lia.
    + apply Z.testbit_false; [lia|]. by rewrite Z.div_small by lia.
  - change 0xFF with (Z.ones 8). rewrite Z.land_ones by lia. by rewrite Z.shiftr_div_pow2 by lia.
  - change 0x7FFFFF with (Z.ones 23). by rewrite Z.land_ones by lia.
Qed.

Lemma lor_add a b k : 0 <= k -> 0 <= b < 2 ^ k -> Z.lor (a * 2 ^ k) b = a * 2 ^ k + b.
Proof. intros. by rewrite <- lor_shiftl_add, Z.shiftl_mul_pow2 by done. Qed.

(** The word with sign [s] over 31 low bits. *)
Lemma sign_lor (s : bool) x :
  0 <= x < 2 ^ 31 ->
  Z.lor (if s then 0x80000000 else 0) x = (if s then 2 ^ 31 else 0) + x.
Proof.
  intros Hx. destruct s; [|done].
  change 0x80000000 with (1 * 2 ^ 31). rewrite lor_add by lia. lia.
Qed.

Definition word32 (s : bool) (e m : Z) : Z := (if s then 2 ^ 31 else 0) + e * 2 ^ 23 + m.

Lemma word32_fields s e m :
  0 <= e < 256 -> 0 <= m < 2 ^ 23 ->
  let b := word32 s e m in
  is_u32 b /\ Z.testbit b 31 = s /\ Z.land (Z.shiftr b 23) 0xFF = e /\ Z.land b 0x7FFFFF = m.
Proof.
  intros He Hm b. unfold word32 in b.
  assert (is_u32 b) as Hb by (unfold b, in_u; destruct s; lia). split; [done|].
  destruct (f32_fields b Hb) as (-> & -> & ->). unfold b. repeat split.
  - destruct s; [apply Z.leb_le|apply Z.leb_gt]; lia.
  - replace (_ + e * 2 ^ 23 + m) with (m + ((if s then 256 else 0) + e) * 2 ^ 23) by (destruct s; lia).
    rewrite Z.div_add, Z.div_small, Z.add_0_l by lia.
    destruct s; [|by rewrite Z.mod_small by lia].
    rewrite Z.add_comm, <- (Z.mul_1_l 256). change (2 ^ 8) with 256.
    by rewrite Z.mod_add, Z.mod_small by lia.
  - replace (_ + e * 2 ^ 23 + m) with (m + ((if s then 256 else 0) + e) * 2 ^ 23) by (destruct s; lia).
    by rewrite Z.mod_add, Z.mod_small by lia.
Qed.

Lemma word32_surj b : is_u32 b ->
  exists s e m, 0 <= e < 256 /\ 0 <= m < 2 ^ 23 /\ b = word32 s e m.
Proof.
  intros Hb. exists (2 ^ 31 <=? b), ((b / 2 ^ 23) mod 2 ^ 8), (b mod 2 ^ 23). unfold word32.
  pose proof (Z.mod_pos_bound (b / 2 ^ 23) (2 ^ 8) ltac:(lia)).
  pose proof (Z.mod_pos_bound b (2 ^ 23) ltac:(lia)). split; [lia|]. split; [lia|].
  destruct Hb as [H1 H2].
  pose proof (Z.div_mod b (2 ^ 23) ltac:(lia)). pose proof (Z.div_mod (b / 2 ^ 23) (2 ^ 8) ltac:(lia)) as E.
  rewrite Z.div_div in E by lia. change (2 ^ 23 * 2 ^ 8) with (2 ^ 31) in E.
  destruct (Z.leb_spec (2 ^ 31) b).
  - replace (b / 2 ^ 31) with 1 in E; [lia|]. apply (Z.div_unique _ _ _ (b - 2 ^ 31)); lia.
  - rewrite (Z.div_small b (2 ^ 31)) in E by lia. lia.
Qed.

(** What [Float32frombits] reads from a word, case by case. *)
Lemma frombits_word32 s e m :
  0 <= e < 256 -> 0 <= m < 2 ^ 23 ->
  Float32frombits (word32 s e m) =
    if e =? 255 then (if m =? 0 then S754_infinity s else S754_nan)
    else if e =? 0 then match m with Z.pos p => S754_finite s p (-149) | _ => S754_zero s end
    else match m + 0x800000 with Z.pos p => S754_finite s p (e - 150) | _ => S754_nan end.
Proof.
  intros He Hm. destruct (word32_fields s e m He Hm) as (_ & H1 & H2 & H3).
  unfold Float32frombits. by rewrite H1, H2, H3.
Qed.

Lemma digits_24 p : 2 ^ 23 <= Z.pos p < 2 ^ 24 -> Z.pos (digits2_pos p) = 24.
Proof. intros. apply digits2_pos_unique; [lia|]. change (24 - 1) with 23. lia. Qed.

Lemma Float32frombits_valid b : is_u32 b -> valid32 (Float32frombits b).
Proof.
  intros (s & e & m & He & Hm & ->)%word32_surj. rewrite frombits_word32 by done.
  destruct (Z.eqb_spec e 255); [by destruct (m =? 0)|].
  destruct (Z.eqb_spec e 0).
  - destruct m as [|p|p]; [done| |lia]. cbn [valid_binary]. unfold bounded, canonical_mantissa.
    apply andb_true_iff; split; [apply Z.eqb_eq|done]. unfold fexp, SpecFloat.emin.
    pose proof (digits2_pos_bounds p) as [B _].
    destruct (Z_le_dec (Z.pos (digits2_pos p)) 23); [lia|].
    pose proof (Z.pow_le_mono_r 2 23 (Z.pos (digits2_pos p) - 1) ltac:(lia) ltac:(lia)). lia.
  - destruct (m + 0x800000) as [|p|p] eqn:Ep; [done| |done].
    pose proof (digits_24 p ltac:(lia)) as Hd. cbn [valid_binary]. unfold bounded, canonical_mantissa.
    rewrite Hd. unfold fexp, SpecFloat.emin.
    apply andb_true_iff; split; [apply Z.eqb_eq|apply Z.leb_le]; lia.
Qed.

(** Encoding the float read from a word gives the word back, NaN excepted. *)
Lemma Float32bits_frombits b :
  is_u32 b -> IsNaN (Float32frombits b) = false -> Float32bits (Float32frombits b) = b.
Proof.
  intros (s & e & m & He & Hm & ->)%word32_surj. rewrite frombits_word32 by done.
  unfold word32. destruct (Z.eqb_spec e 255) as [->|He1].
  { destruct (Z.eqb_spec m 0) as [->|]; [|done]. intros _. cbn [Float32bits]. by destruct s. }
  destruct (Z.eqb_spec e 0) as [->|He0].
  - destruct m as [|p|p]; [by destruct s| |lia]. intros _. cbn [Float32bits].
    destruct (Z.ltb_spec (Z.pos p) 0x800000); [|lia]. rewrite sign_lor by lia. lia.
  - destruct (m + 0x800000) as [|p|p] eqn:Ep; [lia| |lia]. intros _. cbn [Float32bits].
    destruct (Z.ltb_spec (Z.pos p) 0x800000); [lia|].
    rewrite Z.shiftl_mul_pow2, lor_add by lia.
    rewrite sign_lor by lia. lia.
Qed.

(** Conversely, a float32 is determined by its bits. *)
Lemma Float32frombits_bits f : valid32 f -> Float32frombits (Float32bits f) = f.
Proof.
  destruct f as [s|s| |s m e]; try by (try destruct s).
  intros [Hc He]%valid_bounds. pose proof (digits2_pos_bounds m) as [B1 B2].
  unfold fexp, SpecFloat.emin in Hc. cbn [Float32bits].
  assert (Z.pos (digits2_pos m) <= 24) as Hd by lia.
  pose proof (Z.pow_le_mono_r 2 (Z.pos (digits2_pos m)) 24 ltac:(lia) ltac:(lia)).
  destruct (Z.ltb_spec (Z.pos m) 0x800000).
  - assert (e = -149) as ->.
    { destruct (Z.eq_dec (Z.pos (digits2_pos m)) 24) as [Hd'|]; [|lia].
      rewrite Hd' in B1. change (2 ^ (24 - 1)) with 0x800000 in B1. lia. }
    rewrite sign_lor by lia.
    replace (_ + Z.pos m) with (word32 s 0 (Z.pos m)) by (unfold word32; lia).
    rewrite frombits_word32 by lia. done.
  - assert (Z.pos (digits2_pos m) = 24) as Hd' by (apply digits_24; lia).
    rewrite Z.shiftl_mul_pow2, lor_add by lia. rewrite sign_lor by lia.
    replace (_ + _) with (word32 s (e + 150) (Z.pos m - 0x800000)) by (unfold word32; lia).
    rewrite frombits_word32 by lia.
    destruct (Z.eqb_spec (e + 150) 255); [lia|]. destruct (Z.eqb_spec (e + 150) 0); [lia|].
    replace (Z.pos m - 0x800000 + 0x800000) with (Z.pos m) by lia.
    by replace (e + 150 - 150) with e by lia.
Qed.

Lemma Float32bits_range f : valid32 f -> is_u32 (Float32bits f).
Proof.
  destruct f as [[]|[]| |s m e];
    [vm_compute; split; congruence .. |].
  intros [Hc He]%valid_bounds. unfold fexp, SpecFloat.emin in Hc. cbn [Float32bits].
  pose proof (digits2_pos_bounds m) as [B1 B2].
  pose proof (Z.pow_le_mono_r 2 (Z.pos (digits2_pos m)) 24 ltac:(lia) ltac:(lia)).
  unfold in_u. destruct (Z.ltb_spec (Z.pos m) 0x800000).
  - rewrite sign_lor by lia. destruct s; lia.
  - rewrite Z.shiftl_mul_pow2, lor_add by lia. rewrite sign_lor by lia. destruct s; lia.
Qed.
