(* ===== verification/GoText.v ===== *)
(** * GoText: text helpers of Go's standard library used by the readers of
      configuration and CSV files ([strings.TrimSpace], [strconv.ParseBool]) *)
From Stdlib Require Import ZArith Lia Strings.Ascii.
From S2P Require Import Prelude GoBytes.

Open Scope string_scope.
Open Scope list_scope.
Open Scope Z_scope.

(** The UTF-8 encodings of the code points [unicode.IsSpace] accepts. *)
Definition utf8 (bs : list byte) : string := string_of bs.

Definition spaces : list string :=
  map utf8 ([[x09]; [x0a]; [x0b]; [x0c]; [x0d]; [x20]; [xc2; x85]; [xc2; xa0]; [xe1; x9a; x80];
    [xe2; x80; xa8]; [xe2; x80; xa9]; [xe2; x80; xaf]; [xe2; x81; x9f]; [xe3; x80; x80]] ++
    map (fun b => [xe2; x80; b]) [x80; x81; x82; x83; x84; x85; x86; x87; x88; x89; x8a]).

(** One pass of the loop at the left and at the right end. *)
Definition strip_left (s : string) : option string :=
  match List.find (HasPrefix s) spaces with Some p => Some (TrimPrefix s p) | None => None end.
Definition strip_right (s : string) : option string :=
  match List.find (HasSuffix s) spaces with Some p => Some (TrimSuffix s p) | None => None end.

Fixpoint strip (f : string -> option string) (fuel : nat) (s : string) : string :=
  match fuel with
  | O => s
  | S n => match f s with Some s' => strip f n s' | None => s end
  end.

(** [strings.TrimSpace]: each pass removes at least one byte. *)
Definition TrimSpace (s : string) : string :=
  let s' := strip strip_left (String.length s) s in strip strip_right (String.length s') s'.

(** [strconv.ParseBool]. *)
Definition ParseBool (s : string) : option bool :=
  if existsb (String.eqb s) ["1"; "t"; "T"; "true"; "TRUE"; "True"] then Some true
  else if existsb (String.eqb s) ["0"; "f"; "F"; "false"; "FALSE"; "False"] then Some false
  else None.

(** ** The passes end: a stripped string is shorter, so the fuel is enough. *)

Lemma spaces_nonempty p : In p spaces -> (0 < String.length p)%nat.
Proof.
  intros H. assert (forallb (fun p => (0 <? String.length p)%nat) spaces = true) as Hall by (by vm_compute).
  rewrite forallb_forall in Hall. apply Nat.ltb_lt, Hall, H.
Qed.

Lemma substring_length n m s : (String.length (String.substring n m s) <= m)%nat.
Proof.
  revert n m. induction s as [|c s IH]; intros n m; [destruct n, m; cbn; lia|].
  destruct n, m; cbn; try lia; [specialize (IH O m); lia|apply IH|apply IH].
Qed.

Lemma prefix_length p s : String.prefix p s = true -> (String.length p <= String.length s)%nat.
Proof.
  revert s. induction p as [|c p IH]; intros s H; [cbn; lia|]. destruct s as [|d s]; [done|].
  cbn in H |- *. destruct (ascii_dec c d); [|done]. apply IH in H. lia.
Qed.

Lemma strip_left_shorter s s' : strip_left s = Some s' -> (String.length s' < String.length s)%nat.
Proof.
  unfold strip_left. destruct (List.find _ _) as [p|] eqn:E; [|done]. intros [= <-].
  apply find_some in E as [Hin Hp]. apply spaces_nonempty in Hin. unfold TrimPrefix. rewrite Hp.
  apply prefix_length in Hp. pose proof (substring_length (String.length p) (String.length s - String.length p) s). lia.
Qed.

Lemma strip_right_shorter s s' : strip_right s = Some s' -> (String.length s' < String.length s)%nat.
Proof.
  unfold strip_right. destruct (List.find _ _) as [p|] eqn:E; [|done]. intros [= <-].
  apply find_some in E as [Hin Hp]. apply spaces_nonempty in Hin. unfold TrimSuffix. rewrite Hp.
  unfold HasSuffix in Hp. apply andb_true_iff in Hp as [Hp%Nat.leb_le _].
  pose proof (substring_length O (String.length s - String.length p) s). lia.
Qed.

Lemma strip_done f fuel s :
  (forall s s', f s = Some s' -> (String.length s' < String.length s)%nat) ->
  (String.length s <= fuel)%nat -> f (strip f fuel s) = None.
Proof.
  intros Hf. revert s. induction fuel as [|n IH]; intros s Hs; cbn [strip].
  - destruct (f s) as [s'|] eqn:E; [apply Hf in E; lia|done].
  - destruct (f s) as [s'|] eqn:E; [|done]. apply IH. apply Hf in E. lia.
Qed.

(** No white space is left at the right end; at the left end either, unless
    nothing is left. *)
Lemma TrimSpace_right s : strip_right (TrimSpace s) = None.
Proof. apply strip_done; [apply strip_right_shorter|done]. Qed.

Example TrimSpace_example : TrimSpace (String "009" "a b") = "a b".
Proof. by vm_compute. Qed.
