(* ===== verification/GoJson.v ===== *)
(** * GoJson: encoding/json's text, as far as the payload uses it

    Go strings are bytes: the encoder escapes them rune by rune and writes
    what is not UTF-8 as the replacement character. The decoder checks the
    whole text first. Here it is a scanner, one character at a time, that
    yields tokens, and a parser of the tokens with a stack of what is open,
    so that neither needs fuel. The decimal text of a float is strconv's, a
    parameter with its documented law. *)
From Stdlib Require Import ZArith Lia Strings.Ascii SpecFloat.
From S2P Require Import Prelude GoBytes GoFloat.

Open Scope string_scope.
Open Scope list_scope.
Open Scope Z_scope.

(** ** Runes *)

Definition code (c : ascii) : Z := Z.of_N (N_of_ascii c).
Definition within (lo hi : Z) (c : ascii) : bool := (lo <=? code c) && (code c <=? hi).

(** One valid encoding, or one byte that starts none. *)
Inductive rune := Rune (bytes : string) | Invalid.

Definition two (a b : ascii) : bool := within 194 223 a && within 128 191 b.
Definition three (a b c : ascii) : bool :=
  within 224 239 a && within (if code a =? 224 then 160 else 128) (if code a =? 237 then 159 else 191) b && within 128 191 c.
Definition four (a b c d : ascii) : bool :=
  within 240 244 a && within (if code a =? 240 then 144 else 128) (if code a =? 244 then 143 else 191) b &&
  within 128 191 c && within 128 191 d.

Definition str1 (a : ascii) : string := String a EmptyString.
Definition str2 (a b : ascii) : string := String a (str1 b).
Definition str3 (a b c : ascii) : string := String a (str2 b c).
Definition str4 (a b c d : ascii) : string := String a (str3 b c d).

(** [utf8.DecodeRune], repeated. *)
Fixpoint runes (s : string) : list rune :=
  match s with
  | EmptyString => []
  | String a r1 =>
      if code a <? 128 then Rune (str1 a) :: runes r1
      else
        match r1 with
        | EmptyString => Invalid :: runes r1
        | String b r2 =>
            if two a b then Rune (str2 a b) :: runes r2
            else
              match r2 with
              | EmptyString => Invalid :: runes r1
              | String c r3 =>
                  if three a b c then Rune (str3 a b c) :: runes r3
                  else
                    match r3 with
                    | EmptyString => Invalid :: runes r1
                    | String d r4 => if four a b c d then Rune (str4 a b c d) :: runes r4 else Invalid :: runes r1
                    end
              end
        end
  end.

Definition char_of (n : Z) : ascii := ascii_of_N (Z.to_N n).

(** U+FFFD. *)
Definition replacement : string := str3 "239" "191" "189".

Definition rune_text (r : rune) : string := match r with Rune s => s | Invalid => replacement end.

Definition flatten (ss : list string) : string := String.concat "" ss.

Definition sanitize (s : string) : string := flatten (map rune_text (runes s)).

(** [utf8.AppendRune]. *)
Definition utf8_encode (v : Z) : string :=
  if v <? 128 then str1 (char_of v)
  else if v <? 2048 then str2 (char_of (192 + v / 64)) (char_of (128 + v mod 64))
  else if v <? 65536 then
    str3 (char_of (224 + v / 4096)) (char_of (128 + v / 64 mod 64)) (char_of (128 + v mod 64))
  else str4 (char_of (240 + v / 262144)) (char_of (128 + v / 4096 mod 64)) (char_of (128 + v / 64 mod 64)) (char_of (128 + v mod 64)).

(** ** Values and their text *)

Inductive json :=
| JNull
| JBool (b : bool)
| JInt (n : Z)
| JFloat32 (f : float)
| JFloat64 (f : float)
| JString (s : string)
| JArray (l : list json)
| JObject (l : list (string * json)).

Definition char_quote : ascii := "034".
Definition char_backslash : ascii := "092".

Definition hex_digit (n : Z) : ascii := char_of (if n <? 10 then 48 + n else 87 + n).

Definition unicode_escape (v : Z) : string :=
  String char_backslash (String "u" (str4 (hex_digit (v / 4096)) (hex_digit (v / 256 mod 16)) (hex_digit (v / 16 mod 16))
    (hex_digit (v mod 16)))).

(** A byte below 128; <, > and & are escaped because the text may end up in HTML. *)
Definition hex_escaped (c : ascii) : bool :=
  let v := code c in
  ((v <? 32) && negb ((v =? 8) || (v =? 9) || (v =? 10) || (v =? 12) || (v =? 13))) || (v =? 60) || (v =? 62) || (v =? 38).

Definition escape_char (c : ascii) : string :=
  let v := code c in
  if Ascii.eqb c char_quote || Ascii.eqb c char_backslash then str2 char_backslash c
  else if v =? 8 then str2 char_backslash "b"
  else if v =? 12 then str2 char_backslash "f"
  else if v =? 10 then str2 char_backslash "n"
  else if v =? 13 then str2 char_backslash "r"
  else if v =? 9 then str2 char_backslash "t"
  else if hex_escaped c then unicode_escape v
  else str1 c.

(** U+2028 and U+2029 end a line in JavaScript. *)
Definition line_separator : string := str3 "226" "128" "168".
Definition paragraph_separator : string := str3 "226" "128" "169".

Definition escape (r : rune) : string :=
  match r with
  | Invalid => unicode_escape 65533
  | Rune (String c EmptyString) => escape_char c
  | Rune s =>
      if String.eqb s line_separator then unicode_escape 8232
      else if String.eqb s paragraph_separator then unicode_escape 8233
      else s
  end.

Definition quote (s : string) : string := (str1 char_quote ++ flatten (map escape (runes s)) ++ str1 char_quote)%string.

(** strconv's FormatFloat, shortest, for 32 and 64 bits, and ParseFloat for 64;
    [None] is its range error. *)
Class FloatText := {
  text32 : float -> string;
  text64 : float -> string;
  parse64 : string -> option float
}.

Fixpoint print `{!FloatText} (j : json) : string :=
  match j with
  | JNull => "null"
  | JBool true => "true"
  | JBool false => "false"
  | JInt n => FormatInt n
  | JFloat32 f => text32 f
  | JFloat64 f => text64 f
  | JString s => quote s
  | JArray l => "[" ++ String.concat "," (map print l) ++ "]"
  | JObject l => "{" ++ String.concat "," (map (fun '(k, v) => quote k ++ ":" ++ print v) l) ++ "}"
  end%string.

(** ** The scanner *)

Inductive token :=
| TOpen | TClose      (* of an object *)
| TOpenA | TCloseA    (* of an array *)
| TColon | TComma | TNull | TTrue | TFalse
| TNum (text : string)
| TStr (s : string).

(** What a string literal is made of: a byte, or an escaped UTF-16 unit. *)
Inductive unit16 := Raw (c : ascii) | U16 (v : Z).

Definition high (v : Z) : bool := (55296 <=? v) && (v <=? 56319).
Definition low (v : Z) : bool := (56320 <=? v) && (v <=? 57343).

(** A surrogate without its partner. *)
Definition scalar (v : Z) : Z := if high v || low v then 65533 else v.

Fixpoint units_text (us : list unit16) : string :=
  match us with
  | [] => ""
  | Raw c :: us => String c (units_text us)
  | U16 h :: rest =>
      match rest with
      | U16 l :: rest' =>
          if high h && low l then (utf8_encode (65536 + (h - 55296) * 1024 + (l - 56320)) ++ units_text rest')%string
          else (utf8_encode (scalar h) ++ units_text rest)%string
      | _ => (utf8_encode (scalar h) ++ units_text rest)%string
      end
  end.

(** The grammar of numbers. *)
Inductive num_state := NStart | NNeg | NZero | NInt | NDot | NFrac | NExp | NExpSign | NExpDigits.

Definition num_step (st : num_state) (c : ascii) : option num_state :=
  let digit := is_digit c in
  let nonzero := digit && negb (Ascii.eqb c "0") in
  let zero := Ascii.eqb c "0" in
  let dot := Ascii.eqb c "." in
  let e := Ascii.eqb c "e" || Ascii.eqb c "E" in
  let sign := Ascii.eqb c "+" || Ascii.eqb c "-" in
  match st with
  | NStart => if Ascii.eqb c "-" then Some NNeg else if zero then Some NZero else if nonzero then Some NInt else None
  | NNeg => if zero then Some NZero else if nonzero then Some NInt else None
  | NZero => if dot then Some NDot else if e then Some NExp else None
  | NInt => if digit then Some NInt else if dot then Some NDot else if e then Some NExp else None
  | NDot => if digit then Some NFrac else None
  | NFrac => if digit then Some NFrac else if e then Some NExp else None
  | NExp => if sign then Some NExpSign else if digit then Some NExpDigits else None
  | NExpSign => if digit then Some NExpDigits else None
  | NExpDigits => if digit then Some NExpDigits else None
  end.

Fixpoint num_from (st : num_state) (s : string) : bool :=
  match s with
  | EmptyString => match st with NZero | NInt | NFrac | NExpDigits => true | _ => false end
  | String c r => match num_step st c with Some st' => num_from st' r | None => false end
  end.

Definition valid_number (s : string) : bool := num_from NStart s.

(** A run of the characters of numbers and literals. *)
Definition word_char (c : ascii) : bool :=
  is_digit c || within 97 122 c || Ascii.eqb c "-" || Ascii.eqb c "+" || Ascii.eqb c "." || Ascii.eqb c "E".

Definition word (w : string) : option token :=
  if String.eqb w "null" then Some TNull
  else if String.eqb w "true" then Some TTrue
  else if String.eqb w "false" then Some TFalse
  else if valid_number w then Some (TNum w)
  else None.

Inductive lex_state :=
| Between
| InWord (w : string)
| InStr (us : list unit16)
| InEsc (us : list unit16)
| InHex (us : list unit16) (n : nat) (v : Z).

Definition between (c : ascii) : option (lex_state * list token) :=
  if is_digit c || word_char c then Some (InWord (str1 c), [])
  else if Ascii.eqb c char_quote then Some (InStr [], [])
  else if Ascii.eqb c "{" then Some (Between, [TOpen])
  else if Ascii.eqb c "}" then Some (Between, [TClose])
  else if Ascii.eqb c "[" then Some (Between, [TOpenA])
  else if Ascii.eqb c "]" then Some (Between, [TCloseA])
  else if Ascii.eqb c ":" then Some (Between, [TColon])
  else if Ascii.eqb c "," then Some (Between, [TComma])
  else if (code c =? 32) || (code c =? 9) || (code c =? 10) || (code c =? 13) then Some (Between, [])
  else None.

Definition hex_value (c : ascii) : option Z :=
  if within 48 57 c then Some (code c - 48)
  else if within 97 102 c then Some (code c - 87)
  else if within 65 70 c then Some (code c - 55)
  else None.

Definition simple_escape (c : ascii) : option ascii :=
  if Ascii.eqb c char_quote || Ascii.eqb c char_backslash || Ascii.eqb c "/" then Some c
  else if Ascii.eqb c "b" then Some (char_of 8)
  else if Ascii.eqb c "f" then Some (char_of 12)
  else if Ascii.eqb c "n" then Some (char_of 10)
  else if Ascii.eqb c "r" then Some (char_of 13)
  else if Ascii.eqb c "t" then Some (char_of 9)
  else None.

Definition lex_char (st : lex_state) (c : ascii) : option (lex_state * list token) :=
  match st with
  | Between => between c
  | InWord w =>
      if word_char c then Some (InWord (w ++ str1 c), [])
      else
        t ← word w;
        '(st', ts) ← between c;
        Some (st', t :: ts)
  | InStr us =>
      if Ascii.eqb c char_quote then Some (Between, [TStr (sanitize (units_text us))])
      else if Ascii.eqb c char_backslash then Some (InEsc us, [])
      else if code c <? 32 then None
      else Some (InStr (us ++ [Raw c]), [])
  | InEsc us =>
      if Ascii.eqb c "u" then Some (InHex us 4 0, [])
      else (fun x => (InStr (us ++ [Raw x]), [])) <$> simple_escape c
  | InHex us n v =>
      d ← hex_value c;
      match n with
      | S (S n') => Some (InHex us (S n') (v * 16 + d), [])
      | _ => Some (InStr (us ++ [U16 (v * 16 + d)]), [])
      end
  end.

Fixpoint lex (st : lex_state) (s : string) : option (list token) :=
  match s with
  | EmptyString =>
      match st with
      | Between => Some []
      | InWord w => t ← word w; Some [t]
      | _ => None
      end
  | String c r =>
      '(st', ts) ← lex_char st c;
      rest ← lex st' r;
      Some (ts ++ rest)
  end.

(** ** The parser *)

(** A text that is valid JSON; a number is still its text. *)
Inductive syntax :=
| SNull
| SBool (b : bool)
| SNum (text : string)
| SStr (s : string)
| SArr (l : list syntax)
| SObj (l : list (string * syntax)).

Inductive frame := FArr (acc : list syntax) | FObj (acc : list (string * syntax)) (key : string).

Inductive parse_state :=
| PValue (st : list frame)                                    (* a value must follow *)
| PFirst (st : list frame)                                    (* after [ *)
| PAfter (st : list frame)                                    (* after a value inside something *)
| PFirstKey (st : list frame)                                 (* after { *)
| PKey (st : list frame) (acc : list (string * syntax))       (* after a comma of an object *)
| PColon (st : list frame) (acc : list (string * syntax)) (key : string)
| PDone (v : syntax).

Definition maxNestingDepth : nat := Z.to_nat 10000.

Definition put_value (v : syntax) (st : list frame) : parse_state :=
  match st with
  | [] => PDone v
  | FArr acc :: st => PAfter (FArr (acc ++ [v]) :: st)
  | FObj acc k :: st => PAfter (FObj (acc ++ [(k, v)]) EmptyString :: st)
  end.

Definition parse_value (st : list frame) (t : token) : option parse_state :=
  match t with
  | TNull => Some (put_value SNull st)
  | TTrue => Some (put_value (SBool true) st)
  | TFalse => Some (put_value (SBool false) st)
  | TNum x => Some (put_value (SNum x) st)
  | TStr s => Some (put_value (SStr s) st)
  | TOpenA => if (length st <? maxNestingDepth)%nat then Some (PFirst st) else None
  | TOpen => if (length st <? maxNestingDepth)%nat then Some (PFirstKey st) else None
  | _ => None
  end.

Definition parse_token (p : parse_state) (t : token) : option parse_state :=
  match p with
  | PValue st => parse_value st t
  | PFirst st => match t with TCloseA => Some (put_value (SArr []) st) | _ => parse_value (FArr [] :: st) t end
  | PAfter (FArr acc :: st) =>
      match t with
      | TComma => Some (PValue (FArr acc :: st))
      | TCloseA => Some (put_value (SArr acc) st)
      | _ => None
      end
  | PAfter (FObj acc _ :: st) =>
      match t with
      | TComma => Some (PKey st acc)
      | TClose => Some (put_value (SObj acc) st)
      | _ => None
      end
  | PAfter [] => None
  | PFirstKey st =>
      match t with TClose => Some (put_value (SObj []) st) | TStr k => Some (PColon st [] k) | _ => None end
  | PKey st acc => match t with TStr k => Some (PColon st acc k) | _ => None end
  | PColon st acc k => match t with TColon => Some (PValue (FObj acc k :: st)) | _ => None end
  | PDone _ => None
  end.

Fixpoint parse_tokens (p : parse_state) (ts : list token) : option syntax :=
  match ts with
  | [] => match p with PDone v => Some v | _ => None end
  | t :: ts => p' ← parse_token p t; parse_tokens p' ts
  end.

(** What [json.Unmarshal] finds in a text, if it is valid. *)
Definition parse (s : string) : option syntax := ts ← lex Between s; parse_tokens (PValue []) ts.

(** ** Lemmas *)

(** *** Characters *)

Definition all_ascii : list ascii := map ascii_of_nat (List.seq 0 256).

Lemma ascii_all (P : ascii -> bool) : forallb P all_ascii = true -> forall c, P c = true.
Proof.
  intros H c. rewrite forallb_forall in H. apply H. unfold all_ascii. apply in_map_iff. exists (nat_of_ascii c).
  split; [apply ascii_nat_embedding|]. apply in_seq. pose proof (nat_ascii_bounded c). lia.
Qed.

Lemma word_char_plain c : word_char c = true -> Ascii.eqb c char_quote = false /\ Ascii.eqb c char_backslash = false.
Proof.
  pose proof (ascii_all (fun c => implb (word_char c) (negb (Ascii.eqb c char_quote) && negb (Ascii.eqb c char_backslash)))
    ltac:(by vm_compute) c) as H. cbn beta in H. intros Hc. rewrite Hc in H. cbn in H.
  by apply andb_true_iff in H as [?%negb_true_iff ?%negb_true_iff].
Qed.

Lemma between_word c : word_char c = true -> between c = Some (InWord (str1 c), []).
Proof. intros H. unfold between. by rewrite H, orb_true_r. Qed.

Lemma append_assoc (a b c : string) : ((a ++ b) ++ c = a ++ (b ++ c))%string.
Proof. induction a as [|x a IH]; [done|]. by rewrite !append_cons, IH. Qed.

Lemma append_nil_r (a : string) : (a ++ "" = a)%string.
Proof. induction a as [|x a IH]; [done|]. by rewrite !append_cons, IH. Qed.

Lemma flatten_cons s ss : flatten (s :: ss) = (s ++ flatten ss)%string.
Proof. unfold flatten. destruct ss; cbn [String.concat]; [by rewrite append_nil_r|done]. Qed.

Lemma flatten_app ss ts : flatten (ss ++ ts) = (flatten ss ++ flatten ts)%string.
Proof. induction ss as [|s ss IH]; [done|]. cbn [app]. by rewrite !flatten_cons, IH, append_assoc. Qed.

(** *** The scanner on what the encoder writes *)

Definition prepend (ts : list token) (o : option (list token)) : option (list token) := app ts <$> o.

Lemma prepend_prepend a b o : prepend a (prepend b o) = prepend (a ++ b) o.
Proof. destruct o; cbn; [by rewrite app_assoc|done]. Qed.

Lemma prepend_nil o : prepend [] o = o.
Proof. by destruct o. Qed.

Lemma lex_cons st c s st' ts : lex_char st c = Some (st', ts) -> lex st (String c s) = prepend ts (lex st' s).
Proof. intros H. cbn [lex]. rewrite H. cbn. unfold prepend. by destruct (lex st' s). Qed.

(** A text that ends a word. *)
Definition stops (s : string) : Prop := match s with EmptyString => True | String c _ => word_char c = false end.

Lemma lex_word a w t rest : all_chars word_char w = true -> word (a ++ w) = Some t -> stops rest ->
  lex (InWord a) (w ++ rest) = prepend [t] (lex Between rest).
Proof.
  revert a. induction w as [|c w IH]; intros a Hw Ht Hr.
  - rewrite append_nil_r in Ht. change (("" ++ rest)%string) with rest. destruct rest as [|c r].
    + cbn [lex]. by rewrite Ht.
    + cbn [lex lex_char]. cbn in Hr. rewrite Hr, Ht. cbn [mbind option_bind]. destruct (between c) as [[st ts]|]; [|done].
      cbn. by destruct (lex st r).
  - cbn [all_chars] in Hw. apply andb_true_iff in Hw as [Hc Hw]. rewrite append_cons.
    rewrite (lex_cons _ _ _ (InWord (a ++ str1 c)) []); [|cbn [lex_char]; by rewrite Hc]. rewrite prepend_nil.
    apply IH; [done| |done]. by rewrite append_assoc.
Qed.

Lemma lex_word_start w t rest : w <> "" -> all_chars word_char w = true -> word w = Some t -> stops rest ->
  lex Between (w ++ rest) = prepend [t] (lex Between rest).
Proof.
  intros Hne Hw Ht Hr. destruct w as [|c w]; [done|]. cbn [all_chars] in Hw. apply andb_true_iff in Hw as [Hc Hw].
  rewrite append_cons, (lex_cons _ _ _ (InWord (str1 c)) []) by by apply between_word. rewrite prepend_nil.
  by apply lex_word.
Qed.

(** Numbers are words. *)
Lemma num_step_word st c st' : num_step st c = Some st' -> word_char c = true.
Proof.
  intros H. pose proof (ascii_all (fun c => forallb (fun st => implb (match num_step st c with Some _ => true | None => false end) (word_char c))
    [NStart; NNeg; NZero; NInt; NDot; NFrac; NExp; NExpSign; NExpDigits]) ltac:(by vm_compute) c) as Hall.
  cbn beta in Hall. rewrite forallb_forall in Hall. specialize (Hall st ltac:(destruct st; cbn; tauto)). cbn beta in Hall.
  by rewrite H in Hall.
Qed.

Lemma num_from_word st s : num_from st s = true -> all_chars word_char s = true.
Proof.
  revert st. induction s as [|c s IH]; intros st H; [done|]. cbn [num_from] in H. destruct (num_step st c) as [st'|] eqn:E; [|done].
  cbn [all_chars]. by rewrite (num_step_word _ _ _ E), (IH _ H).
Qed.

Lemma word_number s : valid_number s = true -> s <> "" /\ all_chars word_char s = true /\ word s = Some (TNum s).
Proof.
  intros H. split; [by intros ->|]. split; [by apply (num_from_word NStart)|]. unfold word.
  destruct (String.eqb_spec s "null") as [->|_]; [done|]. destruct (String.eqb_spec s "true") as [->|_]; [done|].
  destruct (String.eqb_spec s "false") as [->|_]; [done|]. by rewrite H.
Qed.

(** *** Decimal integers are numbers *)

Lemma num_digits s st : all_chars is_digit s = true -> st = NInt -> num_from st s = true.
Proof.
  intros H ->. induction s as [|c s IH]; [done|]. cbn [all_chars] in H. apply andb_true_iff in H as [Hc Hs].
  cbn [num_from num_step]. rewrite Hc. by apply IH.
Qed.

(** A decimal without leading zeros. *)
Definition plain_decimal (s : string) : Prop :=
  s = "0" \/ exists c r, s = String c r /\ is_digit c = true /\ c <> "0"%char /\ all_chars is_digit r = true.

Lemma FormatUint_plain n : plain_decimal (FormatUint n).
Proof.
  pose proof (FormatUint_digits n) as Hd. unfold FormatUint in *. set (d := N.to_uint (Z.to_N n)) in *.
  assert (Decimal.unorm d = d) as Hn by (unfold d; by rewrite <-(DecimalN.Unsigned.to_of (N.to_uint _)), DecimalN.Unsigned.of_to).
  unfold plain_decimal, Decimal.unorm in *. destruct d as [|d|d|d|d|d|d|d|d|d|d]; [by left|..];
    try (right; do 2 eexists; split; [reflexivity|]; cbn in Hd; split_and!; done).
  cbn [Decimal.nzhead] in Hn. destruct (Decimal.nzhead d) eqn:E; try done.
  - injection Hn as <-. by left.
  - by destruct (DecimalFacts.nzhead_nonzero d u).
Qed.

Lemma plain_number s : plain_decimal s -> valid_number s = true /\ num_from NNeg s = true.
Proof.
  intros [-> | (c & r & -> & Hc & Hz & Hr)]; [done|]. unfold valid_number. cbn [num_from num_step].
  rewrite Hc. destruct (Ascii.eqb_spec c "0") as [->|_]; [done|].
  destruct (Ascii.eqb_spec c "-") as [->|_]; [done|]. cbn [negb andb]. by rewrite num_digits.
Qed.

Lemma FormatInt_number n : valid_number (FormatInt n) = true.
Proof.
  unfold FormatInt. destruct (n <? 0).
  - unfold valid_number. cbn [num_from num_step]. cbn. apply plain_number, FormatUint_plain.
  - apply plain_number, FormatUint_plain.
Qed.

Lemma ParseInt_FormatInt_all n : is_i64 n -> ParseInt (FormatInt n) = Some n.
Proof.
  intros Hn. unfold in_s in Hn. cbn in Hn. destruct (Z.ltb_spec n 0) as [Hneg|Hpos].
  - unfold FormatInt. rewrite (proj2 (Z.ltb_lt _ _) Hneg). unfold ParseInt.
    rewrite Ascii.eqb_refl, ParseUint_FormatUint by (unfold in_u; lia).
    rewrite (proj2 (Z.leb_le _ _)) by lia. f_equal. lia.
  - apply ParseInt_FormatInt. lia.
Qed.

(** *** Strings *)

Definition plain_unit (u : unit16) : bool := match u with Raw _ => true | U16 v => negb (high v || low v) end.
Definition unit_text (u : unit16) : string := match u with Raw c => str1 c | U16 v => utf8_encode v end.

Lemma units_text_plain us : forallb plain_unit us = true -> units_text us = flatten (map unit_text us).
Proof.
  induction us as [|[c|v] us IH]; [done|..]; cbn [forallb map plain_unit]; intros [Hv H]%andb_true_iff; rewrite flatten_cons, <-(IH H).
  - done.
  - cbn [units_text unit_text]. apply negb_true_iff in Hv. unfold scalar. rewrite Hv. apply orb_false_iff in Hv as [-> _].
    by destruct us as [|[|] ?].
Qed.

(** The units the scanner collects for a rune. *)
Fixpoint raw_units (s : string) : list unit16 :=
  match s with EmptyString => [] | String c s => Raw c :: raw_units s end.

Definition rune_units (r : rune) : list unit16 :=
  match r with
  | Invalid => [U16 65533]
  | Rune (String c EmptyString) => [if hex_escaped c then U16 (code c) else Raw c]
  | Rune s =>
      if String.eqb s line_separator then [U16 8232]
      else if String.eqb s paragraph_separator then [U16 8233]
      else raw_units s
  end.

Lemma raw_units_text s : flatten (map unit_text (raw_units s)) = s.
Proof. induction s as [|c s IH]; [done|]. cbn [raw_units map]. by rewrite flatten_cons, IH. Qed.

Lemma raw_units_plain s : forallb plain_unit (raw_units s) = true.
Proof. by induction s. Qed.

(** What [runes] yields. *)
Definition rune_ok (r : rune) : Prop :=
  match r with
  | Invalid => True
  | Rune s =>
      (exists a, s = str1 a /\ code a < 128) \/
      (exists a b, s = str2 a b /\ two a b = true) \/
      (exists a b c, s = str3 a b c /\ three a b c = true) \/
      (exists a b c d, s = str4 a b c d /\ four a b c d = true)
  end.

Lemma runes_ok s : Forall rune_ok (runes s).
Proof.
  assert (forall n s, (String.length s <= n)%nat -> Forall rune_ok (runes s)) as H.
  { clear s. induction n as [|n IH]; intros s Hs; [destruct s; [constructor|cbn in Hs; lia]|].
    destruct s as [|a r1]; [constructor|]. cbn [runes]. cbn in Hs.
    assert (Forall rune_ok (Invalid :: runes r1)) as Hinv by (constructor; [done|apply IH; lia]).
    destruct (Z.ltb_spec (code a) 128) as [Ha|Ha].
    { constructor; [left; by exists a|apply IH; lia]. }
    destruct r1 as [|b r2]; [done|]. cbn in Hs. destruct (two a b) eqn:E2.
    { constructor; [right; left; by exists a, b|apply IH; lia]. }
    destruct r2 as [|c r3]; [done|]. cbn in Hs. destruct (three a b c) eqn:E3.
    { constructor; [do 2 right; left; by exists a, b, c|apply IH; lia]. }
    destruct r3 as [|d r4]; [done|]. cbn in Hs. destruct (four a b c d) eqn:E4; [|done].
    constructor; [do 3 right; by exists a, b, c, d|apply IH; lia]. }
  by apply (H (String.length s)).
Qed.

(** The scanner inside a string, where it yields no token. *)
Fixpoint scan (st : lex_state) (s : string) : option lex_state :=
  match s with
  | EmptyString => Some st
  | String c r => match lex_char st c with Some (st', []) => scan st' r | _ => None end
  end.

Lemma scan_lex st s st' rest : scan st s = Some st' -> lex st (s ++ rest) = lex st' rest.
Proof.
  revert st. induction s as [|c s IH]; intros st H; [by injection H as ->|]. cbn [scan] in H. rewrite append_cons.
  destruct (lex_char st c) as [[st1 [|t ts]]|] eqn:E; try done. rewrite (lex_cons _ _ _ _ _ E), prepend_nil. by apply IH.
Qed.

Lemma scan_app st a b : scan st (a ++ b) = scan st a ≫= fun st' => scan st' b.
Proof.
  revert st. induction a as [|c a IH]; intros st; [done|]. rewrite append_cons. cbn [scan].
  destruct (lex_char st c) as [[st1 [|t ts]]|]; [apply IH|done..].
Qed.

Lemma scan_char us c : code c < 128 ->
  scan (InStr us) (escape_char c) = Some (InStr (us ++ [if hex_escaped c then U16 (code c) else Raw c])).
Proof. destruct c as [[] [] [] [] [] [] [] []]; intros H; solve [by vm_compute in H | reflexivity]. Qed.

Lemma high_byte_raw us c : 128 <= code c -> scan (InStr us) (str1 c) = Some (InStr (us ++ [Raw c])).
Proof.
  intros H. cbn [scan str1 lex_char].
  destruct (Ascii.eqb_spec c char_quote) as [->|_]; [by vm_compute in H|].
  destruct (Ascii.eqb_spec c char_backslash) as [->|_]; [by vm_compute in H|].
  by rewrite (proj2 (Z.ltb_ge _ _)) by lia.
Qed.

Lemma scan_raw us s : all_chars (fun c => 128 <=? code c) s = true -> scan (InStr us) s = Some (InStr (us ++ raw_units s)).
Proof.
  revert us. induction s as [|c s IH]; intros us H; [cbn; by rewrite app_nil_r|].
  cbn [all_chars] in H. apply andb_true_iff in H as [Hc%Z.leb_le Hs].
  change (String c s) with (str1 c ++ s)%string. rewrite scan_app, high_byte_raw by done. cbn [mbind option_bind].
  rewrite IH by done. cbn [raw_units]. by rewrite <-app_assoc.
Qed.

(** The encoded bytes of a rune. *)
Lemma within_spec lo hi c : within lo hi c = true <-> lo <= code c <= hi.
Proof. unfold within. rewrite andb_true_iff, !Z.leb_le. lia. Qed.

Lemma two_spec a b : two a b = true -> 194 <= code a <= 223 /\ 128 <= code b.
Proof. unfold two. rewrite andb_true_iff, !within_spec. lia. Qed.

Lemma three_spec a b c : three a b c = true -> 224 <= code a <= 239 /\ 128 <= code b /\ 128 <= code c.
Proof. unfold three. rewrite !andb_true_iff, !within_spec. destruct (code a =? 224), (code a =? 237); lia. Qed.

Lemma four_spec a b c d : four a b c d = true -> 240 <= code a <= 244 /\ 128 <= code b /\ 128 <= code c /\ 128 <= code d.
Proof. unfold four. rewrite !andb_true_iff, !within_spec. destruct (code a =? 240), (code a =? 244); lia. Qed.

Lemma two_false a b : 223 < code a -> two a b = false.
Proof. intros H. apply not_true_iff_false. intros H1%two_spec. lia. Qed.

Lemma three_false a b c : 239 < code a -> three a b c = false.
Proof. intros H. apply not_true_iff_false. intros H1%three_spec. lia. Qed.

Lemma append_str1 a t : (str1 a ++ t)%string = String a t.
Proof. done. Qed.

(** Reading back the bytes of a rune. *)
Lemma runes_rune r t : rune_ok r -> runes (rune_text r ++ t) = Rune (rune_text r) :: runes t.
Proof.
  intros Hr. assert (forall a b c, three a b c = true -> runes (str3 a b c ++ t) = Rune (str3 a b c) :: runes t) as H3.
  { intros a b c H. pose proof (three_spec _ _ _ H). change (str3 a b c ++ t)%string with (String a (String b (String c t))).
    cbn [runes]. rewrite (proj2 (Z.ltb_ge (code a) 128)), two_false, H by lia. done. }
  destruct r as [s|]; [|by apply H3]. destruct Hr as [(a & -> & Ha)|[(a & b & -> & H)|[(a & b & c & -> & H)|(a & b & c & d & -> & H)]]].
  - change (rune_text (Rune (str1 a)) ++ t)%string with (String a t). cbn [runes]. by rewrite (proj2 (Z.ltb_lt _ _) Ha).
  - pose proof (two_spec _ _ H). change (rune_text (Rune (str2 a b)) ++ t)%string with (String a (String b t)). cbn [runes].
    rewrite (proj2 (Z.ltb_ge (code a) 128)), H by lia. done.
  - by apply H3.
  - pose proof (four_spec _ _ _ _ H).
    change (rune_text (Rune (str4 a b c d)) ++ t)%string with (String a (String b (String c (String d t)))). cbn [runes].
    rewrite (proj2 (Z.ltb_ge (code a) 128)), two_false, three_false, H by lia. done.
Qed.

Lemma runes_flatten rs : Forall rune_ok rs -> runes (flatten (map rune_text rs)) = map (fun r => Rune (rune_text r)) rs.
Proof. induction 1 as [|r rs Hr _ IH]; [done|]. cbn [map]. by rewrite flatten_cons, runes_rune, IH. Qed.

Lemma sanitize_idem s : sanitize (sanitize s) = sanitize s.
Proof. unfold sanitize at 1. unfold sanitize at 1. rewrite runes_flatten by apply runes_ok. by rewrite map_map. Qed.

(** A rune as it is written and as it is read. *)
Lemma rune_written us r : rune_ok r ->
  scan (InStr us) (escape r) = Some (InStr (us ++ rune_units r)) /\
  flatten (map unit_text (rune_units r)) = rune_text r /\ forallb plain_unit (rune_units r) = true.
Proof.
  assert (forall s, (1 < String.length s)%nat -> all_chars (fun c => 128 <=? code c) s = true ->
    scan (InStr us) (escape (Rune s)) = Some (InStr (us ++ rune_units (Rune s))) /\
    flatten (map unit_text (rune_units (Rune s))) = s /\ forallb plain_unit (rune_units (Rune s)) = true) as Hlong.
  { intros [|x [|y s]] Hl Hs; cbn in Hl; try lia. unfold escape, rune_units.
    destruct (String.eqb_spec (String x (String y s)) line_separator) as [->|_]; [split; [reflexivity|done]|].
    destruct (String.eqb_spec (String x (String y s)) paragraph_separator) as [->|_]; [split; [reflexivity|done]|].
    split; [by apply scan_raw|]. split; [apply raw_units_text|apply raw_units_plain]. }
  destruct r as [s|]; [|split; [reflexivity|done]]. cbn [rune_text].
  intros [(a & -> & Ha)|[(a & b & -> & H%two_spec)|[(a & b & c & -> & H%three_spec)|(a & b & c & d & -> & H%four_spec)]]];
    try (apply Hlong; [cbn; lia|cbn [all_chars str1 str2 str3 str4]; rewrite !(proj2 (Z.leb_le 128 _)) by lia; done]).
  cbn [escape rune_units str1]. rewrite scan_char by done. split; [done|].
  destruct (hex_escaped a); [|done]. cbn [map unit_text forallb plain_unit]. split.
  - unfold utf8_encode. rewrite (proj2 (Z.ltb_lt _ _) Ha). unfold char_of, code. by rewrite N2Z.id, ascii_N_embedding.
  - unfold high, low. by rewrite (proj2 (Z.leb_gt 55296 _)), (proj2 (Z.leb_gt 56320 _)) by lia.
Qed.

Lemma runes_written us rs : Forall rune_ok rs ->
  scan (InStr us) (flatten (map escape rs)) = Some (InStr (us ++ concat (map rune_units rs))) /\
  flatten (map unit_text (concat (map rune_units rs))) = flatten (map rune_text rs) /\
  forallb plain_unit (concat (map rune_units rs)) = true.
Proof.
  intros H. revert us. induction H as [|r rs Hr _ IH]; intros us; [by cbn; rewrite app_nil_r|].
  destruct (rune_written us r Hr) as (E1 & E2 & E3). destruct (IH (us ++ rune_units r)) as (F1 & F2 & F3).
  cbn [map concat]. rewrite !flatten_cons, scan_app, E1. cbn [mbind option_bind]. rewrite F1, <-app_assoc. split; [done|].
  rewrite map_app, flatten_app, E2, F2, forallb_app, E3. done.
Qed.

Lemma lex_quote s rest : lex Between (quote s ++ rest) = prepend [TStr (sanitize s)] (lex Between rest).
Proof.
  destruct (runes_written [] (runes s) (runes_ok s)) as (E1 & E2 & E3). unfold quote. rewrite append_assoc, append_str1.
  rewrite (lex_cons _ _ _ (InStr []) []) by reflexivity. rewrite prepend_nil, append_assoc, (scan_lex _ _ _ _ E1), append_str1.
  cbn [app]. rewrite (lex_cons _ _ _ Between [TStr (sanitize s)]); [done|]. cbn [lex_char]. rewrite Ascii.eqb_refl.
  by rewrite units_text_plain, E2, <-(sanitize_idem s) by done.
Qed.

(** *** Trees *)

Section JsonInd.
Variable P : json -> Prop.
Hypothesis Hnull : P JNull.
Hypothesis Hbool : forall b, P (JBool b).
Hypothesis Hint : forall n, P (JInt n).
Hypothesis Hf32 : forall f, P (JFloat32 f).
Hypothesis Hf64 : forall f, P (JFloat64 f).
Hypothesis Hstr : forall s, P (JString s).
Hypothesis Harr : forall l, Forall P l -> P (JArray l).
Hypothesis Hobj : forall l, Forall (fun kv => P (snd kv)) l -> P (JObject l).

Fixpoint json_nested (j : json) : P j :=
  match j with
  | JNull => Hnull
  | JBool b => Hbool b
  | JInt n => Hint n
  | JFloat32 f => Hf32 f
  | JFloat64 f => Hf64 f
  | JString s => Hstr s
  | JArray l => Harr l ((fix go l := match l return Forall P l with
                                     | [] => Forall_nil_2 P
                                     | x :: l => Forall_cons_2 P x l (json_nested x) (go l)
                                     end) l)
  | JObject l => Hobj l ((fix go l := match l return Forall (fun kv => P (snd kv)) l with
                                      | [] => Forall_nil_2 _
                                      | (k, x) :: l => Forall_cons_2 (fun kv => P (snd kv)) (k, x) l (json_nested x) (go l)
                                      end) l)
  end.
End JsonInd.

Section Trees.
Context {FT : FloatText}.

(** The tokens of a tree, and the syntax they spell. *)
Fixpoint between_commas (tss : list (list token)) : list token :=
  match tss with
  | [] => []
  | [ts] => ts
  | ts :: tss => ts ++ TComma :: between_commas tss
  end.

Fixpoint tokens (j : json) : list token :=
  match j with
  | JNull => [TNull]
  | JBool true => [TTrue]
  | JBool false => [TFalse]
  | JInt n => [TNum (FormatInt n)]
  | JFloat32 f => [TNum (text32 f)]
  | JFloat64 f => [TNum (text64 f)]
  | JString s => [TStr (sanitize s)]
  | JArray l => TOpenA :: between_commas (map tokens l) ++ [TCloseA]
  | JObject l => TOpen :: between_commas (map (fun '(k, v) => TStr (sanitize k) :: TColon :: tokens v) l) ++ [TClose]
  end.

Fixpoint syntax_of (j : json) : syntax :=
  match j with
  | JNull => SNull
  | JBool b => SBool b
  | JInt n => SNum (FormatInt n)
  | JFloat32 f => SNum (text32 f)
  | JFloat64 f => SNum (text64 f)
  | JString s => SStr (sanitize s)
  | JArray l => SArr (map syntax_of l)
  | JObject l => SObj (map (fun '(k, v) => (sanitize k, syntax_of v)) l)
  end.

(** Every float has a number for its text, and nothing is nested too deep. *)
Fixpoint printable (d : nat) (j : json) : Prop :=
  match j with
  | JFloat32 f => valid_number (text32 f) = true
  | JFloat64 f => valid_number (text64 f) = true
  | JArray l => match d with O => False | S d => Forall (printable d) l end
  | JObject l => match d with O => False | S d => Forall (fun kv => printable d (snd kv)) l end
  | _ => True
  end.

Lemma lex_punct c t rest : between c = Some (Between, [t]) -> lex Between (String c rest) = prepend [t] (lex Between rest).
Proof. apply (lex_cons Between). Qed.

(** A text that the scanner takes for the tokens [ts] wherever a word may end. *)
Definition reads (s : string) (ts : list token) : Prop :=
  forall rest, stops rest -> lex Between (s ++ rest) = prepend ts (lex Between rest).

Lemma reads_word w t : w <> "" -> all_chars word_char w = true -> word w = Some t -> reads w [t].
Proof. intros H1 H2 H3 rest Hr. by apply lex_word_start. Qed.

Lemma reads_number w : valid_number w = true -> reads w [TNum w].
Proof. intros (H1 & H2 & H3)%word_number. by apply reads_word. Qed.

Lemma reads_commas xs : Forall (fun x => reads (fst x) (snd x)) xs ->
  reads (String.concat "," (map fst xs)) (between_commas (map snd xs)).
Proof.
  induction 1 as [|[s ts] xs Hx Hxs IH]; intros rest Hr.
  { rewrite prepend_nil. done. }
  cbn [fst snd] in Hx. destruct xs as [|y xs]; [by apply (Hx rest)|]. cbn [map fst snd] in *.
  change (String.concat "," (s :: fst y :: map fst xs)) with (s ++ "," ++ String.concat "," (fst y :: map fst xs))%string.
  change (between_commas (ts :: snd y :: map snd xs)) with (ts ++ TComma :: between_commas (snd y :: map snd xs)).
  rewrite !append_assoc, Hx by done. change ("," ++ ?x)%string with (String "," x).
  rewrite (lex_punct "," TComma) by reflexivity. rewrite IH by done. by rewrite !prepend_prepend, <-app_assoc.
Qed.

Lemma reads_between open close t u s ts :
  between open = Some (Between, [t]) -> between close = Some (Between, [u]) -> word_char close = false -> reads s ts ->
  reads (str1 open ++ s ++ str1 close) (t :: ts ++ [u]).
Proof.
  intros Ho Hc Hw Hs rest Hr. rewrite append_assoc, append_str1, (lex_punct open t) by done.
  rewrite append_assoc, Hs by done. rewrite append_str1, (lex_punct close u) by done. by rewrite !prepend_prepend.
Qed.

Lemma reads_print d j : printable d j -> reads (print j) (tokens j).
Proof.
  revert d. induction j as [|[]|n|f|f|s|l IH|l IH] using json_nested; intros [|d] Hp; cbn [printable] in Hp; try done;
    try (by apply reads_word); try (by apply reads_number); try apply reads_number, FormatInt_number; try (intros rest _; apply lex_quote).
  - cbn [print tokens]. apply (reads_between "[" "]" TOpenA TCloseA); try done.
    pose proof (reads_commas (map (fun x => (print x, tokens x)) l)) as HR. rewrite !map_map in HR. apply HR, Forall_map.
    apply (Forall_impl _ _ _ (proj2 (Forall_and _ _) (conj IH Hp))). intros x [Hx ?]. by apply (Hx d).
  - cbn [print tokens]. apply (reads_between "{" "}" TOpen TClose); try done.
    pose proof (reads_commas (map (fun '(k, v) => (quote k ++ ":" ++ print v, TStr (sanitize k) :: TColon :: tokens v)%string) l)) as HR.
    rewrite !map_map in HR. erewrite (map_ext _ (fun '(k, v) => quote k ++ ":" ++ print v)%string) in HR by by intros [].
    erewrite (map_ext (fun x => snd _) (fun '(k, v) => TStr (sanitize k) :: TColon :: tokens v)) in HR by by intros [].
    apply HR, Forall_map. apply (Forall_impl _ _ _ (proj2 (Forall_and _ _) (conj IH Hp))). intros [k v] [Hv Hd] rest Hr. cbn [fst snd] in *.
    rewrite append_assoc, lex_quote. change (":" ++ ?x)%string with (String ":" x).
    rewrite append_cons, (lex_punct ":" TColon) by reflexivity. change ("" ++ print v)%string with (print v).
    rewrite (Hv d Hd) by done. by rewrite !prepend_prepend.
Qed.

Lemma tokens_head j : exists t ts, tokens j = t :: ts /\ t <> TCloseA.
Proof. destruct j as [|[]|n|f|f|s|l|l]; by do 2 eexists. Qed.

(** A value of tokens, read where one must follow. *)
Definition parses (d : nat) (ts : list token) (v : syntax) : Prop :=
  forall st rest, (length st + d <= maxNestingDepth)%nat ->
    parse_tokens (PValue st) (ts ++ rest) = parse_tokens (put_value v st) rest.

Lemma parses_items d l acc st rest : l <> [] -> Forall (fun x => parses d (fst x) (snd x)) l ->
  (S (length st) + d <= maxNestingDepth)%nat ->
  parse_tokens (PValue (FArr acc :: st)) (between_commas (map fst l) ++ TCloseA :: rest) =
  parse_tokens (put_value (SArr (acc ++ map snd l)) st) rest.
Proof.
  intros Hne H Hd. revert acc. induction H as [|[ts v] l Hx Hl IH]; intros acc; [done|].
  destruct l as [|y l].
  - cbn [map between_commas fst snd]. rewrite Hx by (cbn; lia). done.
  - cbn [map fst snd].
    change (between_commas (ts :: fst y :: map fst l)) with (ts ++ TComma :: between_commas (map fst (y :: l))).
    rewrite <-app_assoc, Hx by (cbn; lia). cbn [put_value app parse_tokens parse_token mbind option_bind].
    rewrite IH by done. by rewrite <-app_assoc.
Qed.

Lemma parses_members d l acc st rest : l <> [] -> Forall (fun x => parses d (snd (fst x)) (snd x)) l ->
  (S (length st) + d <= maxNestingDepth)%nat ->
  parse_tokens (PKey st acc) (between_commas (map (fun x => TStr (fst (fst x)) :: TColon :: snd (fst x)) l) ++ TClose :: rest) =
  parse_tokens (put_value (SObj (acc ++ map (fun x => (fst (fst x), snd x)) l)) st) rest.
Proof.
  intros Hne H Hd. revert acc. induction H as [|[[k ts] v] l Hx Hl IH]; intros acc; [done|].
  destruct l as [|y l].
  - cbn [map between_commas fst snd app parse_tokens parse_token mbind option_bind]. rewrite Hx by (cbn; lia). done.
  - cbn [map]. cbn [fst snd] in *.
    change (between_commas ((TStr k :: TColon :: ts) :: ?b :: ?c)) with (TStr k :: TColon :: ts ++ TComma :: between_commas (b :: c)).
    cbn [app parse_tokens parse_token mbind option_bind]. rewrite <-app_assoc, Hx by (cbn; lia).
    cbn [put_value app parse_tokens parse_token mbind option_bind]. specialize (IH ltac:(done)). cbn [map] in IH. rewrite IH.
    by rewrite <-app_assoc.
Qed.

Lemma parses_tree d j : printable d j -> parses d (tokens j) (syntax_of j).
Proof.
  revert d. induction j as [|[]|n|f|f|s|l IH|l IH] using json_nested; intros [|d] Hp st rest Hst; cbn [printable] in Hp; try done.
  - destruct l as [|x l].
    { cbn [tokens map between_commas app parse_tokens parse_token parse_value mbind option_bind].
      rewrite (proj2 (Nat.ltb_lt _ _)) by lia. done. }
    pose proof (parses_items d (map (fun x => (tokens x, syntax_of x)) (x :: l)) [] st rest ltac:(done)) as HI.
    rewrite !map_map in HI. cbn [app fst snd] in HI. cbn [tokens syntax_of]. etransitivity; [|apply HI; [apply Forall_map|lia]].
    + cbn [app parse_tokens parse_token parse_value mbind option_bind]. rewrite (proj2 (Nat.ltb_lt _ _)) by lia.
      cbn [mbind option_bind]. rewrite <-app_assoc. cbn [app].
      destruct (tokens_head x) as (t & ts & Et & Ht).
      assert (exists ts', between_commas (map tokens (x :: l)) = t :: ts') as [ts' Ets].
      { cbn [map between_commas]. rewrite Et. destruct (map tokens l); eexists; reflexivity. }
      change (map (fun x0 => tokens x0) (x :: l)) with (map tokens (x :: l)). rewrite Ets. cbn [app parse_tokens parse_token]. by destruct t.
    + apply (Forall_impl _ _ _ (proj2 (Forall_and _ _) (conj IH Hp))). intros y [Hy ?]. by apply Hy.
  - destruct l as [|x l].
    { cbn [tokens map between_commas app parse_tokens parse_token parse_value mbind option_bind].
      rewrite (proj2 (Nat.ltb_lt _ _)) by lia. done. }
    pose proof (parses_members d (map (fun kv => ((sanitize (fst kv), tokens (snd kv)), syntax_of (snd kv))) (x :: l)) [] st rest ltac:(done)) as HI.
    rewrite !map_map in HI. cbn [app fst snd] in HI. cbn [tokens syntax_of].
    rewrite (map_ext (fun '(k, v) => TStr (sanitize k) :: TColon :: tokens v)
      (fun kv => TStr (sanitize (fst kv)) :: TColon :: tokens (snd kv))) by by intros [].
    rewrite (map_ext (fun '(k, v) => (sanitize k, syntax_of v)) (fun kv => (sanitize (fst kv), syntax_of (snd kv)))) by by intros []. etransitivity; [|apply HI; [apply Forall_map|lia]].
    + cbn [app parse_tokens parse_token parse_value mbind option_bind]. rewrite (proj2 (Nat.ltb_lt _ _)) by lia.
      cbn [mbind option_bind]. rewrite <-app_assoc. cbn [app map]. by destruct (map _ l).
    + apply (Forall_impl _ _ _ (proj2 (Forall_and _ _) (conj IH Hp))). intros y [Hy ?]. by apply Hy.
Qed.

(** What is written is read: the text of a tree parses to what the tree spells. *)
Lemma parse_print d j : printable d j -> (d <= maxNestingDepth)%nat -> parse (print j) = Some (syntax_of j).
Proof.
  intros Hp Hd. unfold parse. rewrite <-(append_nil_r (print j)), (reads_print d j Hp) by done. cbn [lex prepend fmap option_map option_fmap mbind option_bind].
  by rewrite (parses_tree d j Hp [] []) by done.
Qed.
End Trees.
