(* ===== verification/Observability.v ===== *)
(** * Observability: log level, tracing set-up and metrics (internal/observability)

    The collectors are declared once, as a table of descriptions, and
    registered in a third-party registry, which is a class of operations with
    the laws its documentation gives. What the program does to a collector is
    an update of [Store], the values by collector and label values; that a
    call passes as many label values as were declared is part of its type. *)
From Stdlib Require Import ZArith Lia SpecFloat.
From stdpp Require Import vector.
From S2P Require Import Prelude GoBytes GoFloat.

Open Scope string_scope.
Open Scope list_scope.
Open Scope Z_scope.

(** ** Logging and tracing *)

Inductive Level := LevelDebug | LevelInfo | LevelWarn | LevelError.

(** The level of [NewLogger]. *)
Definition logger_level (ToLower : string -> string) (level : string) : Level :=
  let l := ToLower level in
  if String.eqb l "debug" then LevelDebug
  else if String.eqb l "warn" || String.eqb l "warning" then LevelWarn
  else if String.eqb l "error" then LevelError
  else LevelInfo.

Record TracingConfig := mkTracing {
  tcServiceName : string;
  tcServiceVersion : string;
  tcEndpoint : string;
  tcInsecure : bool;
  tcSampleRatio : float
}.

Definition sample_ratio (ratio : float) : float :=
  if fle ratio fzero || flt (of_Z 1) ratio then of_Z 1 else ratio.

Inductive TracingError (E : Type) := EResource (e : E) | EExporter (e : E).
Arguments EResource {E} e.
Arguments EExporter {E} e.

(** The provider [SetupTracing] installs: its resource, its sampling ratio and
    the exporter it batches to, if any. *)
Record Provider (Res Exp : Type) := mkProvider { pvResource : Res; pvRatio : float; pvExporter : option Exp }.
Arguments mkProvider {Res Exp}.

(** [merge] builds the resource, [exporter] connects to an endpoint, with TLS
    unless it is insecure. *)
Definition SetupTracing {Res Exp E : Type} (merge : string -> string -> result E Res)
    (exporter : string -> bool -> result E Exp) (cfg : TracingConfig) : result (TracingError E) (Provider Res Exp) :=
  match merge (tcServiceName cfg) (tcServiceVersion cfg) with
  | Err e => Err (EResource e)
  | Ok res =>
      let ratio := sample_ratio (tcSampleRatio cfg) in
      if String.eqb (tcEndpoint cfg) "" then Ok (mkProvider res ratio None)
      else
        match exporter (tcEndpoint cfg) (tcInsecure cfg) with
        | Err e => Err (EExporter e)
        | Ok x => Ok (mkProvider res ratio (Some x))
        end
  end.

(** ** Collectors *)

Inductive Kind := Counter | Gauge | Histogram (buckets : list float).

Record Desc := mkDesc { dKind : Kind; dSubsystem : string; dName : string; dLabels : list string }.

Definition namespace : string := "plantstream".

(** The factory [promauto]. *)
Definition counter (sub name : string) : Desc := mkDesc Counter sub name [].
Definition counterVec (sub name : string) (labels : list string) : Desc := mkDesc Counter sub name labels.
Definition gauge (sub name : string) : Desc := mkDesc Gauge sub name [].
Definition gaugeVec (sub name : string) (labels : list string) : Desc := mkDesc Gauge sub name labels.
Definition histogram (sub name : string) (buckets : list float) : Desc := mkDesc (Histogram buckets) sub name [].
Definition histogramVec (sub name : string) (buckets : list float) (labels : list string) : Desc :=
  mkDesc (Histogram buckets) sub name labels.

(** [n] thousandths. *)
Definition milli (n : Z) : float := SFdiv 53 1024 (of_Z n) (of_Z 1000).
Definition latency_buckets : list float := map milli [1; 5; 10; 25; 50; 100; 250; 500; 1000; 2500].

Definition HTTPRequests : Desc := counterVec "http" "requests_total" ["method"; "route"; "status"].
Definition HTTPDuration : Desc := histogramVec "http" "request_duration_seconds" latency_buckets ["method"; "route"].
Definition HTTPInflight : Desc := gauge "http" "inflight_requests".
Definition SSEClients : Desc := gauge "" "sse_clients".
Definition SourceUp : Desc := gaugeVec "source" "up" ["source"].
Definition SourcePolls : Desc := counterVec "source" "polls_total" ["source"; "result"].
Definition PollDuration : Desc :=
  histogramVec "source" "poll_duration_seconds" (latency_buckets ++ [of_Z 5]) ["source"].
Definition Samples : Desc := counterVec "" "samples_total" ["source"].
Definition Published : Desc := counterVec "uns" "published_total" ["type"].
Definition PublishErrors : Desc := counter "uns" "publish_errors_total".
Definition QualityTrans : Desc := counterVec "quality" "transitions_total" ["quality"; "rule"].
Definition TagsByQuality : Desc := gaugeVec "quality" "tags" ["quality"].
Definition BridgeForwarded : Desc := counter "bridge" "forwarded_total".
Definition BridgeSpilled : Desc := counterVec "bridge" "spilled_total" ["reason"].
Definition BridgeDropped : Desc := counter "bridge" "dropped_total".
Definition BridgeCoalesced : Desc := counter "bridge" "coalesced_total".
Definition BridgeErrors : Desc := counter "bridge" "sink_errors_total".
Definition BridgeQueueLen : Desc := gauge "bridge" "queue_depth".
Definition BridgeQueueByte : Desc := gauge "bridge" "queue_bytes".
Definition BridgeEvicted : Desc := gauge "bridge" "queue_evicted_total".
Definition BridgeSinkUp : Desc := gauge "bridge" "sink_up".
Definition BridgeLag : Desc := histogram "bridge" "delivery_lag_seconds"
  (map milli [10; 50; 100; 500; 1000; 5000; 30000; 120000; 600000; 3600000]).

(** The fields of [Metrics] in the order [NewMetrics] registers them. *)
Definition Metrics : list Desc :=
  [HTTPRequests; HTTPDuration; HTTPInflight; SSEClients; SourceUp; SourcePolls; PollDuration; Samples; Published;
   PublishErrors; QualityTrans; TagsByQuality; BridgeForwarded; BridgeSpilled; BridgeDropped; BridgeCoalesced;
   BridgeErrors; BridgeEvicted; BridgeQueueLen; BridgeQueueByte; BridgeSinkUp; BridgeLag].

(** The registry: [register] is MustRegister, [None] its panic; [built_in] is
    a registry with the Go and process collectors. *)
Class RegistryOps (R : Type) := {
  built_in : R;
  register : Desc -> R -> option R
}.

Definition NewMetrics {R} `{!RegistryOps R} : option R :=
  fold_left (fun r d => r ≫= register d) Metrics (Some built_in).

(** What is documented of a registry: a description that is well formed and
    whose full name is new can be registered. *)
Fixpoint increasing (xs : list float) : bool :=
  match xs with
  | x :: ((y :: _) as rest) => flt x y && increasing rest
  | _ => true
  end.

Definition name_char (first : bool) (c : Ascii.ascii) : bool :=
  let n := Z.of_nat (Ascii.nat_of_ascii c) in
  ((97 <=? n) && (n <=? 122)) || ((65 <=? n) && (n <=? 90)) || (n =? 95) || (negb first && (48 <=? n) && (n <=? 57)).

Definition valid_name (s : string) : bool :=
  match s with
  | EmptyString => false
  | String c rest => name_char true c && forallb (name_char false) (list_ascii_of_string rest)
  end.

Definition well_formed (d : Desc) : bool :=
  valid_name (dName d) && (String.eqb (dSubsystem d) "" || valid_name (dSubsystem d)) &&
  forallb (fun l => valid_name l && negb (String.prefix "__" l)) (dLabels d) && bool_decide (NoDup (dLabels d)) &&
  match dKind d with Histogram bs => increasing bs && negb (bool_decide ("le" ∈ dLabels d)) | _ => true end.

(** The components of a full name, joined with underscores. *)
Definition full_name (d : Desc) : string :=
  (namespace ++ "_" ++ (if String.eqb (dSubsystem d) "" then "" else dSubsystem d ++ "_") ++ dName d)%string.

Class RegistryLaws (R : Type) `{!RegistryOps R} := {
  registered : R -> list string;
  built_in_names : Forall (fun n => String.prefix "plantstream_" n = false) (registered built_in);
  register_new : forall d r, well_formed d = true -> full_name d ∉ registered r ->
    exists r', register d r = Some r' /\ registered r' = full_name d :: registered r
}.

(** ** Samples *)

Abbreviation Store := (gmap (string * string * list string) Z).

(** [WithLabelValues]: one value for each declared label. *)
Definition series (d : Desc) (vs : vec string (length (dLabels d))) : string * string * list string :=
  (dSubsystem d, dName d, vec_to_list vs).

(** The value of a series that was touched; the others read 0. *)
Definition touched (d : Desc) (vs : vec string (length (dLabels d))) (s : Store) : option Z := s !! series d vs.
Definition sample (d : Desc) (vs : vec string (length (dLabels d))) (s : Store) : Z := default 0 (touched d vs s).

Definition Add (d : Desc) (vs : vec string (length (dLabels d))) (n : Z) (s : Store) : Store :=
  <[series d vs := sample d vs s + n]> s.
Definition Inc (d : Desc) (vs : vec string (length (dLabels d))) (s : Store) : Store := Add d vs 1 s.
Definition Dec (d : Desc) (vs : vec string (length (dLabels d))) (s : Store) : Store := Add d vs (-1) s.
Definition SetTo (d : Desc) (vs : vec string (length (dLabels d))) (n : Z) (s : Store) : Store :=
  <[series d vs := n]> s.

(** A histogram is the number of its observations. *)
Definition ObserveOne (d : Desc) (vs : vec string (length (dLabels d))) (s : Store) : Store := Add d vs 1 s.

#[global] Arguments touched : simpl never.
#[global] Arguments sample : simpl never.
#[global] Arguments Add : simpl never.
#[global] Arguments SetTo : simpl never.

(** ** Lemmas *)

Lemma touched_SetTo d vs d' vs' n s :
  touched d vs (SetTo d' vs' n s) = if decide (series d' vs' = series d vs) then Some n else touched d vs s.
Proof. unfold touched, SetTo. case_decide as E; [by rewrite <-E, lookup_insert_eq|by rewrite lookup_insert_ne]. Qed.

Lemma touched_Add d vs d' vs' n s :
  touched d vs (Add d' vs' n s) = if decide (series d' vs' = series d vs) then Some (sample d vs s + n) else touched d vs s.
Proof.
  unfold Add. change (<[series d' vs' := ?x]> s) with (SetTo d' vs' x s). rewrite touched_SetTo. case_decide as E; [|done].
  unfold sample, touched. by rewrite E.
Qed.

Lemma sample_SetTo d vs d' vs' n s :
  sample d vs (SetTo d' vs' n s) = if decide (series d' vs' = series d vs) then n else sample d vs s.
Proof. unfold sample. rewrite touched_SetTo. by case_decide. Qed.

Lemma sample_Add d vs d' vs' n s :
  sample d vs (Add d' vs' n s) = sample d vs s + (if decide (series d' vs' = series d vs) then n else 0).
Proof. unfold sample at 1. rewrite touched_Add. case_decide; cbn [default from_option]; [done|]. unfold sample. unfold id. lia. Qed.

(** Reads through updates of named series. *)
Ltac read_store :=
  unfold Inc, Dec, ObserveOne in *;
  repeat (rewrite touched_SetTo || rewrite touched_Add || rewrite sample_SetTo || rewrite sample_Add);
  repeat match goal with |- context [decide (?a = ?b)] =>
    first [rewrite (decide_True (P := a = b)) by reflexivity | rewrite (decide_False (P := a = b)) by discriminate]
  end.

Lemma full_name_prefix d : String.prefix "plantstream_" (full_name d) = true.
Proof. unfold full_name, namespace. generalize ((if String.eqb (dSubsystem d) "" then "" else dSubsystem d ++ "_") ++ dName d)%string. by intros []. Qed.

Lemma metrics_well_formed : forallb well_formed Metrics = true.
Proof. by vm_compute. Qed.

Lemma metrics_names : NoDup (map full_name Metrics).
Proof. apply (bool_decide_unpack _). by vm_compute. Qed.

Lemma register_all {R} `{!RegistryOps R} `{!RegistryLaws R} ds (r : R) :
  forallb well_formed ds = true -> NoDup (map full_name ds) ->
  (forall d, d ∈ ds -> full_name d ∉ registered r) ->
  exists r', fold_left (fun r d => r ≫= register d) ds (Some r) = Some r' /\
    registered r' = rev (map full_name ds) ++ registered r.
Proof.
  revert r. induction ds as [|d ds IH]; intros r Hw Hn Hf; cbn [fold_left]; [by exists r|].
  cbn in Hw, Hn. apply andb_true_iff in Hw as [Hd Hw]. apply NoDup_cons in Hn as [Hin Hn].
  destruct (register_new d r Hd) as (r1 & E1 & En); [by apply Hf; left|]. cbn [mbind option_bind]. rewrite E1.
  destruct (IH r1 Hw Hn) as (r2 & E2 & En2).
  - intros x Hx. rewrite En. intros [E|H]%elem_of_cons; [apply Hin; rewrite <-E; by apply list_elem_of_fmap_2|].
    by apply (Hf x); [right|].
  - exists r2. split; [done|]. rewrite En2, En. cbn [rev map]. by rewrite <-app_assoc.
Qed.

(** The service's collectors register. On a registry that keeps its
    documented laws [NewMetrics] does not panic, and what it adds to the
    built-in collectors are the 22 of the table, under distinct names. *)
Theorem NewMetrics_registers {R} `{!RegistryOps R} `{!RegistryLaws R} :
  exists r : R, NewMetrics = Some r /\ registered r = rev (map full_name Metrics) ++ registered built_in /\
    NoDup (map full_name Metrics).
Proof.
  destruct (register_all Metrics (built_in : R) metrics_well_formed metrics_names) as (r & E & En); [|by exists r; split_and!; [..|apply metrics_names]].
  intros d _ Hin. pose proof (proj1 (Forall_forall _ _) built_in_names _ Hin) as H. cbn beta in H.
  by rewrite full_name_prefix in H.
Qed.

(** The ratio handed to the sampler is always one it can use, and equals the
    configured one when that is positive and at most one. A ratio of 0, which
    the configuration accepts, samples everything. *)
Lemma sample_ratio_spec (r : float) :
  (fle r fzero = false /\ flt (of_Z 1) r = false -> sample_ratio r = r) /\
  (fle r fzero = true \/ flt (of_Z 1) r = true -> sample_ratio r = of_Z 1) /\
  sample_ratio fzero = of_Z 1.
Proof.
  unfold sample_ratio. split; [|split; [|done]].
  - intros [-> ->]. done.
  - intros [-> | ->]; [done|]. by rewrite orb_true_r.
Qed.
