(* ===== verification/Ports.v ===== *)
(** * Ports: the interfaces between the domain and the outside (internal/ports)

    [Message] is the unit of exchange. [Queue] is the durable FIFO the bridge
    stores to: [QueueOps] are the methods the code calls and [QueueLaws] what a
    client may rely on, stated over the list of pending messages. The two
    implementations (the in-memory twin and the disk queue) are instances. *)
From Stdlib Require Import ZArith.
From S2P Require Import Prelude.

Open Scope Z_scope.

Record Message := mkMessage {
  Topic : string;
  Payload : list byte;
  Retain : bool;
  At : Time
}.

Global Instance Message_eq_dec : EqDecision Message.
Proof. solve_decision. Defined.

(** The method of [ports.Broker] the edge node calls. *)
Class BrokerOps (B E : Type) := {
  bPublish : Message -> GoM B E unit
}.

(** The methods of [ports.Queue] on an implementation's state [Q]. *)
Class QueueOps (Q E : Type) := {
  qPush : Message -> GoM Q E unit;
  qPeek : GoM Q E (option Message);
  qAck : GoM Q E unit;
  qLen : Q -> Z;
  qBytes : Q -> Z;
  qDropped : Q -> Z
}.

(** What the methods promise: in a state satisfying [q_inv] the queue is the
    list [q_abs] of pending messages, oldest first. A push appends and may
    evict [k] of the oldest, which [Dropped] counts, but never the newest.
    [q_storable] says which messages a queue in a given state can hold. *)
Class QueueLaws (Q E : Type) `{!QueueOps Q E} := {
  q_inv : Q -> Prop;
  q_abs : Q -> list Message;
  q_storable : Q -> Message -> Prop;
  q_push : forall q m, q_inv q -> q_storable q m ->
    exists q' k, qPush m q = (Ok tt, q') /\ q_inv q' /\ (k <= length (q_abs q))%nat /\
      q_abs q' = drop k (q_abs q ++ [m]) /\ qDropped q' = qDropped q + Z.of_nat k;
  q_peek : forall q, q_inv q ->
    exists q', qPeek q = (Ok (head (q_abs q)), q') /\ q_inv q' /\
      q_abs q' = q_abs q /\ qDropped q' = qDropped q;
  q_ack : forall q, q_inv q ->
    exists q', qAck q = (Ok tt, q') /\ q_inv q' /\
      q_abs q' = tail (q_abs q) /\ qDropped q' = qDropped q;
  q_len : forall q, q_inv q -> qLen q = zlength (q_abs q)
}.
