(* ===== verification/ModbusFrame.v ===== *)
(** * ModbusFrame: MBAP framing and the PDUs of FC 3/4 (internal/modbus/frame.go) *)
From Stdlib Require Import ZArith Lia.
From S2P Require Import Prelude GoBytes.

Open Scope Z_scope.

Definition FuncReadHoldingRegisters : byte := x03.
Definition FuncReadInputRegisters : byte := x04.
Definition exceptionFlag : Z := 0x80.
Definition MaxRegistersPerRead : Z := 125.
Definition MaxPDU : Z := 253.
Definition mbapHeaderLen : Z := 7.
Definition protocolID : Z := 0.

Definition ExIllegalFunction : byte := x01.
Definition ExIllegalDataAddress : byte := x02.
Definition ExIllegalDataValue : byte := x03.
Definition ExServerDeviceFailure : byte := x04.
Definition ExGatewayTargetFailed : byte := x0b.

(** The errors of the package, and those of the connection under it. *)
Inductive Error :=
| ErrShortFrame
| ErrBadProtocolID
| ErrFrameTooLarge
| ErrUnexpectedFunc (got want : byte)
| ErrByteCount (n payload want : Z)
| ErrQuantity
| ErrAddressOverflow
| ExceptionError (Function Code : byte)
| EOF
| ErrUnexpectedEOF
| ErrTimeout
| ErrDeadlineExceeded
| ErrTransport (reason : string).

Global Instance Error_eq_dec : EqDecision Error.
Proof. solve_decision. Defined.

Record PDU := mkPDU { Function : byte; Data : list byte }.

Record ADU := mkADU { TransactionID : Z; UnitID : byte; aPDU : PDU }.

(** [b | exceptionFlag] on bytes. *)
Definition with_exception_flag (b : byte) : byte :=
  byte_of_Z (Z.lor (Z_of_byte b) exceptionFlag).

Definition MarshalBinary (a : ADU) : result Error (list byte) :=
  let data := Data (aPDU a) in
  if MaxPDU <? zlength data + 1 then Err ErrFrameTooLarge
  else Ok (PutUint16 (TransactionID a) ++ PutUint16 protocolID
           ++ PutUint16 (u16 (2 + zlength data))
           ++ [UnitID a; Function (aPDU a)] ++ data).

(** A reader is the bytes that will still arrive and the error met after
    them ([EOF] when the peer closes the connection). *)
Record Reader := mkReader { pending : list byte; at_end : Error }.

(** [io.ReadFull] into a buffer of [n > 0] bytes. *)
Definition ReadFull (n : nat) : GoM Reader Error (list byte) := fun r =>
  if (n <=? length (pending r))%nat
  then (Ok (take n (pending r)), mkReader (drop n (pending r)) (at_end r))
  else
    let e := match pending r, at_end r with
             | [], e => e
             | _, EOF => ErrUnexpectedEOF
             | _, e => e
             end in
    (Err e, mkReader [] (at_end r)).

Definition ReadADU : GoM Reader Error ADU :=
  hdr ← ReadFull (Z.to_nat mbapHeaderLen);
  if negb (Uint16 (slice 2 4 hdr) =? protocolID) then throw ErrBadProtocolID
  else
    let length := Uint16 (slice 4 6 hdr) in
    if length <? 2 then throw ErrShortFrame
    else if MaxPDU <? length - 1 then throw ErrFrameTooLarge
    else
      body ← ReadFull (Z.to_nat (length - 1));
      mret (mkADU (Uint16 (slice 0 2 hdr)) (nth 6 hdr x00)
                  (mkPDU (nth 0 body x00) (drop 1 body))).

Definition ReadRegistersRequest (fn : byte) (addr qty : Z) : result Error PDU :=
  if negb (bool_decide (fn = FuncReadHoldingRegisters)) && negb (bool_decide (fn = FuncReadInputRegisters))
  then Err (ExceptionError fn ExIllegalFunction)
  else if (qty =? 0) || (MaxRegistersPerRead <? qty) then Err ErrQuantity
  else if 0x10000 <? u32 (addr + qty) then Err ErrAddressOverflow
  else Ok (mkPDU fn (PutUint16 addr ++ PutUint16 qty)).

Definition ParseReadRegistersRequest (p : PDU) : result Error (Z * Z) :=
  if negb (zlength (Data p) =? 4) then Err ErrShortFrame
  else
    let addr := Uint16 (slice 0 2 (Data p)) in
    let qty := Uint16 (slice 2 4 (Data p)) in
    if (qty =? 0) || (MaxRegistersPerRead <? qty) then Err ErrQuantity
    else if 0x10000 <? u32 (addr + qty) then Err ErrAddressOverflow
    else Ok (addr, qty).

Definition ReadRegistersResponse (fn : byte) (regs : list Z) : PDU :=
  mkPDU fn (byte_of_Z (2 * zlength regs) :: concat (map PutUint16 regs)).

(** [for i := range regs { regs[i] = BigEndian.Uint16(data[1+2*i:]) }] *)
Fixpoint read_regs (n : nat) (data : list byte) : list Z :=
  match n with
  | O => []
  | S n' => Uint16 data :: read_regs n' (drop 2 data)
  end.

Definition ParseReadRegistersResponse (p : PDU) (wantFn : byte) (wantQty : Z) : result Error (list Z) :=
  if bool_decide (Function p = with_exception_flag wantFn) then
    let code := match Data p with c :: _ => c | [] => ExServerDeviceFailure end in
    Err (ExceptionError wantFn code)
  else if negb (bool_decide (Function p = wantFn)) then Err (ErrUnexpectedFunc (Function p) wantFn)
  else
    match Data p with
    | [] => Err ErrShortFrame
    | b0 :: payload =>
        let n := Z_of_byte b0 in
        if negb (n =? 2 * wantQty) || negb (zlength (Data p) - 1 =? n)
        then Err (ErrByteCount n (zlength (Data p) - 1) (u16 (2 * wantQty)))
        else Ok (read_regs (Z.to_nat wantQty) payload)
    end.

Definition ExceptionResponse (fn code : byte) : PDU :=
  mkPDU (with_exception_flag fn) [code].

(** ** Well-formed frames *)

Definition adu_ok (a : ADU) : Prop :=
  is_u16 (TransactionID a) /\ zlength (Data (aPDU a)) + 1 <= MaxPDU.

Definition read_fn (fn : byte) : Prop :=
  fn = FuncReadHoldingRegisters \/ fn = FuncReadInputRegisters.

(** A quantity and a start address the protocol admits. *)
Definition read_ok (addr qty : Z) : Prop :=
  0 <= addr /\ 1 <= qty <= MaxRegistersPerRead /\ addr + qty <= 0x10000.

(** ** Lemmas *)

Lemma MarshalBinary_ok a : adu_ok a ->
  MarshalBinary a = Ok (PutUint16 (TransactionID a) ++ PutUint16 protocolID
    ++ PutUint16 (2 + zlength (Data (aPDU a))) ++ [UnitID a; Function (aPDU a)] ++ Data (aPDU a)).
Proof.
  intros [_ H]. unfold MarshalBinary. rewrite (proj2 (Z.ltb_ge _ _)) by lia.
  unfold u16. rewrite uwrap_id; [done|]. unfold in_u, MaxPDU in *.
  pose proof (zlength_nonneg (Data (aPDU a))). lia.
Qed.

Lemma MarshalBinary_error a : MaxPDU < zlength (Data (aPDU a)) + 1 -> MarshalBinary a = Err ErrFrameTooLarge.
Proof. intros H. unfold MarshalBinary. by rewrite (proj2 (Z.ltb_lt _ _)). Qed.

Lemma ReadFull_app n xs ys e :
  length xs = n -> ReadFull n (mkReader (xs ++ ys) e) = (Ok xs, mkReader ys e).
Proof.
  intros <-. unfold ReadFull. cbn [pending at_end].
  rewrite (proj2 (Nat.leb_le _ _)) by (rewrite length_app; lia).
  by rewrite take_app_length, drop_app_length.
Qed.

Lemma PutUint16_cons x : PutUint16 x = [byte_of_Z (Z.shiftr x 8); byte_of_Z x].
Proof. unfold PutUint16. cbn [be_bytes]. by rewrite Z.shiftr_0_r. Qed.

Lemma Uint16_PutUint16 x : is_u16 x -> Uint16 (PutUint16 x) = x.
Proof. intros H. rewrite <- (app_nil_r (PutUint16 x)), Uint16_app. by apply uwrap_id. Qed.

Lemma Uint16_slice_at pre x post lo hi :
  lo = zlength pre -> hi = lo + 2 -> is_u16 x -> Uint16 (slice lo hi (pre ++ PutUint16 x ++ post)) = x.
Proof.
  intros -> -> Hx. rewrite slice_app_exact; [by apply Uint16_PutUint16|done|done].
Qed.

(** The header of a frame: seven bytes, and what is read back from them. *)
Definition header (tid len : Z) (unit : byte) : list byte :=
  PutUint16 tid ++ PutUint16 protocolID ++ PutUint16 len ++ [unit].

Lemma header_fields tid len unit : is_u16 tid -> is_u16 len ->
  let h := header tid len unit in
  length h = 7%nat /\ Uint16 (slice 0 2 h) = tid /\ Uint16 (slice 2 4 h) = protocolID
  /\ Uint16 (slice 4 6 h) = len /\ nth 6 h x00 = unit.
Proof.
  intros Ht Hl h. repeat split; try done.
  - by apply (Uint16_slice_at []).
  - unfold h, header. rewrite (app_assoc (PutUint16 tid)).
    by apply (Uint16_slice_at (PutUint16 tid ++ PutUint16 protocolID)).
Qed.

Lemma ReadADU_frame tid unit fn data rest e :
  is_u16 tid -> zlength data + 1 <= MaxPDU ->
  ReadADU (mkReader (header tid (2 + zlength data) unit ++ (fn :: data) ++ rest) e)
  = (Ok (mkADU tid unit (mkPDU fn data)), mkReader rest e).
Proof.
  intros Ht Hd. pose proof (zlength_nonneg data). unfold MaxPDU in *.
  assert (is_u16 (2 + zlength data)) as Hl by (unfold in_u; lia).
  destruct (header_fields tid (2 + zlength data) unit Ht Hl) as (Hh & H1 & H2 & H3 & H4).
  unfold ReadADU, mbind, GoM_bind. rewrite ReadFull_app by done. rewrite H2, H3.
  cbn [negb]. rewrite Z.eqb_refl. cbn [negb].
  rewrite (proj2 (Z.ltb_ge _ _)) by lia. unfold MaxPDU. rewrite (proj2 (Z.ltb_ge _ _)) by lia.
  rewrite ReadFull_app by (unfold zlength; cbn [length]; lia).
  unfold mret, GoM_ret. by rewrite H1, H4.
Qed.

Lemma MarshalBinary_header a : adu_ok a ->
  MarshalBinary a = Ok (header (TransactionID a) (2 + zlength (Data (aPDU a))) (UnitID a)
                        ++ Function (aPDU a) :: Data (aPDU a)).
Proof. intros H. rewrite MarshalBinary_ok by done. unfold header. by rewrite <- !app_assoc. Qed.

Lemma ReadFull_inv n r bs r' : ReadFull n r = (Ok bs, r') ->
  length bs = n /\ pending r = bs ++ pending r' /\ at_end r' = at_end r.
Proof.
  unfold ReadFull. destruct (Nat.leb_spec n (length (pending r))); [|done].
  intros [= <- <-]. cbn. rewrite length_take, take_drop. split; [lia|done].
Qed.

Lemma be_Z_split hdr : length hdr = 7%nat ->
  hdr = header (Uint16 (slice 0 2 hdr)) (Uint16 (slice 4 6 hdr)) (nth 6 hdr x00)
  \/ Uint16 (slice 2 4 hdr) <> protocolID.
Proof.
  intros H. destruct (Z.eq_dec (Uint16 (slice 2 4 hdr)) protocolID) as [E|]; [left|by right].
  destruct hdr as [|a [|b [|c [|d [|f [|g [|h [|]]]]]]]]; try done.
  unfold header. cbn [nth]. rewrite <- E. unfold Uint16, PutUint16, slice. cbn [Z.to_nat Z.sub Z.opp Z.add Pos.add take drop Pos.to_nat Pos.iter_op Nat.add].
  by rewrite !be_bytes_be_Z'.
Qed.

Lemma ReadADU_inv r a r' : ReadADU r = (Ok a, r') ->
  adu_ok a /\ at_end r' = at_end r /\
  pending r = (header (TransactionID a) (2 + zlength (Data (aPDU a))) (UnitID a)
              ++ Function (aPDU a) :: Data (aPDU a)) ++ pending r'.
Proof.
  unfold ReadADU, mbind, GoM_bind. destruct (ReadFull _ r) as [[hdr|e] r1] eqn:E1; [|done].
  apply ReadFull_inv in E1 as (Hl1 & Hp1 & He1). change (Z.to_nat mbapHeaderLen) with 7%nat in Hl1.
  destruct (Uint16 (slice 2 4 hdr) =? protocolID) eqn:Eid; [cbn [negb]|done].
  set (len := Uint16 (slice 4 6 hdr)). unfold throw.
  destruct (len <? 2) eqn:Elt; [done|]. destruct (MaxPDU <? len - 1) eqn:Emx; [done|].
  destruct (ReadFull _ r1) as [[body|e] r2] eqn:E2; [|done].
  apply ReadFull_inv in E2 as (Hl2 & Hp2 & He2). bool_to_prop. intros [= <- <-].
  destruct body as [|fn data]; cbn [length] in Hl2; [lia|].
  cbn [aPDU Data Function TransactionID UnitID nth skipn]. rewrite drop_0.
  assert (zlength data = len - 2) as Hd by (unfold zlength; lia).
  split; [|split; [congruence|]].
  - split; [apply Uint16_range|]. cbn [aPDU Data]. lia.
  - rewrite Hp1, Hp2. destruct (be_Z_split hdr Hl1) as [Hh|]; [|done].
    replace (2 + zlength data) with len by lia. unfold len. rewrite <- app_assoc. by rewrite <- Hh.
Qed.

Lemma read_regs_concat regs rest :
  Forall is_u16 regs -> read_regs (length regs) (concat (map PutUint16 regs) ++ rest) = regs.
Proof.
  induction 1 as [|r regs Hr _ IH]; [done|]. cbn [length read_regs map concat].
  rewrite <- app_assoc. rewrite Uint16_app. unfold u16. rewrite uwrap_id by done. f_equal. apply IH.
Qed.

Lemma concat_put_length regs : zlength (concat (map PutUint16 regs)) = 2 * zlength regs.
Proof.
  induction regs as [|r regs IH]; [done|]. cbn [map concat].
  rewrite zlength_app, IH, zlength_cons. change (zlength (PutUint16 r)) with 2. lia.
Qed.

Lemma flag_ne fn : read_fn fn -> fn <> with_exception_flag fn.
Proof. by intros [-> | ->]. Qed.

Lemma read_regs_length n data : length (read_regs n data) = n.
Proof. revert data. induction n; intros; cbn; [done|]. by f_equal. Qed.

#[export] Hint Resolve MarshalBinary_ok flag_ne : go.

(** ** Properties *)

(** Encoding a frame and reading it back from the connection yields the
    frame, and leaves exactly the bytes that followed it unread. *)
Theorem ReadADU_MarshalBinary (a : ADU) (rest : list byte) (e : Error) :
  adu_ok a ->
  exists frame, MarshalBinary a = Ok frame /\
    ReadADU (mkReader (frame ++ rest) e) = (Ok a, mkReader rest e).
Proof.
  intros Ha. eexists. split; [by apply MarshalBinary_header|].
  destruct Ha as [Ht Hd]. rewrite <- app_assoc. cbn [app].
  pose proof (ReadADU_frame (TransactionID a) (UnitID a) (Function (aPDU a)) (Data (aPDU a)) rest e Ht Hd) as H.
  destruct a as [t u [f d]]. apply H.
Qed.

Lemma ReadADU_MarshalBinary_witness :
  exists frame, MarshalBinary (mkADU 7 x01 (mkPDU x03 [x00; x01; x00; x02])) = Ok frame /\
    ReadADU (mkReader (frame ++ [xff]) EOF)
    = (Ok (mkADU 7 x01 (mkPDU x03 [x00; x01; x00; x02])), mkReader [xff] EOF).
Proof. apply ReadADU_MarshalBinary. split; vm_compute; [split|]; congruence. Defined.

(** A frame is accepted only if the bytes read are exactly the encoding of
    the returned unit: parsing is the inverse of encoding, the length field
    included, and never accepts more than [MaxPDU] bytes. *)
Theorem ReadADU_canonical (r r' : Reader) (a : ADU) :
  ReadADU r = (Ok a, r') ->
  exists frame, MarshalBinary a = Ok frame /\ pending r = frame ++ pending r' /\
    zlength frame <= mbapHeaderLen + MaxPDU.
Proof.
  intros H. apply ReadADU_inv in H as (Ha & _ & Hp). eexists.
  split; [by apply MarshalBinary_header|]. split; [done|].
  rewrite zlength_app, zlength_cons. destruct Ha as [_ Hd]. unfold mbapHeaderLen.
  change (zlength (header _ _ _)) with 7. lia.
Qed.

Lemma ReadADU_canonical_witness :
  exists frame, MarshalBinary (mkADU 258 x01 (mkPDU x03 [x00])) = Ok frame /\
    [x01; x02; x00; x00; x00; x03; x01; x03; x00; xee] = frame ++ [xee] /\
    zlength frame <= mbapHeaderLen + MaxPDU.
Proof.
  apply (ReadADU_canonical (mkReader [x01; x02; x00; x00; x00; x03; x01; x03; x00; xee] EOF) (mkReader [xee] EOF)).
  vm_compute. reflexivity.
Defined.

(** A read request is built exactly for FC 3/4, a quantity of 1 to 125 and
    a range inside the 16-bit address space, and the server decodes the same
    address and quantity from it; every other argument is refused with the
    error of the first check it fails. *)
Theorem ReadRegistersRequest_spec (fn : byte) (addr qty : Z) :
  is_u16 addr -> is_u16 qty ->
  match ReadRegistersRequest fn addr qty with
  | Ok p => read_fn fn /\ read_ok addr qty /\ Function p = fn /\
            ParseReadRegistersRequest p = Ok (addr, qty)
  | Err (ExceptionError f c) => ~ read_fn fn /\ f = fn /\ c = ExIllegalFunction
  | Err ErrQuantity => read_fn fn /\ ~ (1 <= qty <= MaxRegistersPerRead)
  | Err ErrAddressOverflow => read_fn fn /\ 1 <= qty <= MaxRegistersPerRead /\ 0x10000 < addr + qty
  | Err _ => False
  end.
Proof.
  intros Ha Hq. pose proof Ha as [A1 A2]. pose proof Hq as [Q1 Q2]. unfold ReadRegistersRequest, read_fn.
  destruct (decide (fn = FuncReadHoldingRegisters \/ fn = FuncReadInputRegisters)) as [Hfn|Hfn].
  - assert (negb (bool_decide (fn = FuncReadHoldingRegisters)) &&
      negb (bool_decide (fn = FuncReadInputRegisters)) = false) as ->.
    { destruct Hfn as [-> | ->]; reflexivity. }
    assert (u32 (addr + qty) = addr + qty) as Hu by (apply uwrap_id; unfold in_u; lia).
    destruct ((qty =? 0) || (MaxRegistersPerRead <? qty)) eqn:E1.
    { split; [done|]. bool_to_prop. destruct E1; bool_to_prop; lia. }
    rewrite Hu. destruct (0x10000 <? addr + qty) eqn:E2; bool_to_prop; [split; [done|lia]|].
    split; [done|]. split; [unfold read_ok; lia|]. split; [done|].
    unfold ParseReadRegistersRequest. cbn [Data].
    rewrite <- (app_nil_r (PutUint16 qty)).
    change (zlength _ =? 4) with true. cbn [negb].
    rewrite (Uint16_slice_at [] addr (PutUint16 qty ++ []) 0 2 eq_refl eq_refl Ha : Uint16 (slice 0 2 (PutUint16 addr ++ _)) = addr). rewrite (Uint16_slice_at (PutUint16 addr) qty) by done.
    rewrite Hu. rewrite (proj2 (Z.eqb_neq qty 0)) by done. rewrite (proj2 (Z.ltb_ge _ _)) by done.
    rewrite (proj2 (Z.ltb_ge _ _)) by done. done.
  - rewrite !bool_decide_eq_false_2 by tauto. done.
Qed.

Lemma ReadRegistersRequest_spec_witness :
  exists p, ReadRegistersRequest x03 100 10 = Ok p /\ ParseReadRegistersRequest p = Ok (100, 10).
Proof.
  pose proof (ReadRegistersRequest_spec x03 100 10 ltac:(vm_compute; split; congruence)
    ltac:(vm_compute; split; congruence)) as H.
  eexists. split; [reflexivity|]. apply H.
Defined.

(** The response to a read of [regs] is decoded to [regs] by the client
    that asked for that many registers with the same function; the client
    rejects it, with an error, for another function or another quantity. *)
Theorem ReadRegistersResponse_roundtrip (fn wantFn : byte) (regs : list Z) (wantQty : Z) :
  read_fn fn -> read_fn wantFn -> Forall is_u16 regs -> zlength regs <= MaxRegistersPerRead ->
  match ParseReadRegistersResponse (ReadRegistersResponse fn regs) wantFn wantQty with
  | Ok rs => fn = wantFn /\ wantQty = zlength regs /\ rs = regs
  | Err (ErrUnexpectedFunc g w) => fn <> wantFn /\ g = fn /\ w = wantFn
  | Err (ErrByteCount _ _ _) => fn = wantFn /\ wantQty <> zlength regs
  | Err _ => False
  end.
Proof.
  intros Hfn Hw Hr Hl. unfold ParseReadRegistersResponse, ReadRegistersResponse. cbn [Function Data].
  pose proof (zlength_nonneg regs). unfold MaxRegistersPerRead in Hl.
  rewrite bool_decide_eq_false_2 by (destruct Hfn as [-> | ->], Hw as [-> | ->]; discriminate).
  destruct (decide (fn = wantFn)) as [->|Hne]; [|by rewrite bool_decide_eq_false_2].
  rewrite bool_decide_eq_true_2 by done. cbn [negb].
  rewrite zlength_cons, concat_put_length, Z_of_byte_of_Z.
  unfold u8. rewrite uwrap_id by (unfold in_u; lia).
  replace (1 + 2 * zlength regs - 1) with (2 * zlength regs) by lia. rewrite Z.eqb_refl.
  destruct (Z.eqb_spec (2 * zlength regs) (2 * wantQty)); cbn [negb orb].
  - split; [done|]. assert (wantQty = zlength regs) as -> by lia. split; [done|].
    unfold zlength. rewrite Nat2Z.id. rewrite <- (app_nil_r (concat _)). by apply read_regs_concat.
  - split; [done|]. lia.
Qed.

Lemma ReadRegistersResponse_roundtrip_witness :
  match ParseReadRegistersResponse (ReadRegistersResponse x03 [1; 65535]) x03 2 with
  | Ok rs => rs = [1; 65535] | Err _ => False end.
Proof.
  pose proof (ReadRegistersResponse_roundtrip x03 x03 [1; 65535] 2 ltac:(by left) ltac:(by left)
    ltac:(repeat constructor; vm_compute; congruence) ltac:(vm_compute; congruence)) as H.
  vm_compute in H |- *. apply H.
Defined.
