(* ===== verification/ModbusRegs.v ===== *)
(** * ModbusRegs: the register codec (internal/modbus/regs.go)

    Five data types over one or two 16-bit registers, in four byte orders,
    decoded to and encoded from float64. *)
From Stdlib Require Import ZArith Lia SpecFloat.
From S2P Require Import Prelude GoBytes GoFloat.

Open Scope Z_scope.

Abbreviation DataType := string.
Definition Int16 : DataType := "int16".
Definition UInt16 : DataType := "uint16".
Definition Int32 : DataType := "int32".
Definition UInt32 : DataType := "uint32".
Definition Float32 : DataType := "float32".

Abbreviation ByteOrder := string.
Definition ABCD : ByteOrder := "ABCD".
Definition DCBA : ByteOrder := "DCBA".
Definition BADC : ByteOrder := "BADC".
Definition CDAB : ByteOrder := "CDAB".

(** [RegPanic] is the runtime panic of an index out of range. *)
Inductive RegError :=
| ErrTypeRequired
| ErrUnsupportedType (s : string)
| ErrUnsupportedOrder (s : string)
| ErrRegisterCount (t : DataType) (words got : Z)
| RegPanic.

Definition ParseDataType (s : string) : result RegError DataType :=
  if bool_decide (s = Int16 \/ s = UInt16 \/ s = Int32 \/ s = UInt32 \/ s = Float32) then Ok s
  else if bool_decide (s = EmptyString) then Err ErrTypeRequired
  else Err (ErrUnsupportedType s).

Definition ParseByteOrder (s : string) : result RegError ByteOrder :=
  if bool_decide (s = EmptyString \/ s = ABCD) then Ok ABCD
  else if bool_decide (s = DCBA \/ s = BADC \/ s = CDAB) then Ok s
  else Err (ErrUnsupportedOrder s).

Definition Words (t : DataType) : Z :=
  if bool_decide (t = Int32 \/ t = UInt32 \/ t = Float32) then 2 else 1.

Definition canonical (order : ByteOrder) (regs : list Z) : option (list byte) :=
  match regs with
  | [] => None
  | [r] =>
      let b0 := byte_of_Z (Z.shiftr r 8) in
      let b1 := byte_of_Z r in
      Some (if bool_decide (order = DCBA \/ order = BADC) then [b1; b0] else [b0; b1])
  | r0 :: r1 :: _ =>
      let a := byte_of_Z (Z.shiftr r0 8) in
      let b := byte_of_Z r0 in
      let c := byte_of_Z (Z.shiftr r1 8) in
      let d := byte_of_Z r1 in
      Some (if bool_decide (order = DCBA) then [d; c; b; a]
            else if bool_decide (order = BADC) then [b; a; d; c]
            else if bool_decide (order = CDAB) then [c; d; a; b]
            else [a; b; c; d])
  end.

(** [uint16(hi)<<8 | uint16(lo)] *)
Definition word (hi lo : byte) : Z := Z.lor (Z.shiftl (Z_of_byte hi) 8) (Z_of_byte lo).

Definition fromCanonical (order : ByteOrder) (bytes : list byte) : option (list Z) :=
  match bytes with
  | [b0; b1] =>
      Some (if bool_decide (order = DCBA \/ order = BADC) then [word b1 b0] else [word b0 b1])
  | a :: b :: c :: d :: _ =>
      Some (if bool_decide (order = DCBA) then [word d c; word b a]
            else if bool_decide (order = BADC) then [word b a; word d c]
            else if bool_decide (order = CDAB) then [word c d; word a b]
            else [word a b; word c d])
  | _ => None
  end.

Definition Decode (t : DataType) (o : ByteOrder) (regs : list Z) : result RegError float :=
  if negb (Words t =? zlength regs) then Err (ErrRegisterCount t (Words t) (zlength regs))
  else
    match canonical o regs with
    | None => Err RegPanic
    | Some b =>
        if bool_decide (t = Int16) then Ok (of_Z (i16 (Uint16 b)))
        else if bool_decide (t = UInt16) then Ok (of_Z (Uint16 b))
        else if bool_decide (t = Int32) then Ok (of_Z (i32 (Uint32 b)))
        else if bool_decide (t = UInt32) then Ok (of_Z (Uint32 b))
        else if bool_decide (t = Float32) then Ok (to_f64 (Float32frombits (Uint32 b)))
        else Err (ErrUnsupportedType t)
    end.

Definition clamp (v lo hi : float) : float :=
  if IsNaN v then fzero
  else if flt v lo then lo
  else if flt hi v then hi
  else Trunc v.

Definition MinInt16 : Z := - 2 ^ 15.
Definition MaxInt16 : Z := 2 ^ 15 - 1.
Definition MaxUint16 : Z := 2 ^ 16 - 1.
Definition MinInt32 : Z := - 2 ^ 31.
Definition MaxInt32 : Z := 2 ^ 31 - 1.
Definition MaxUint32 : Z := 2 ^ 32 - 1.

(** The conversions of a clamped float to an integer are in range, where Go
    defines them as truncation. *)
Definition Encode (t : DataType) (o : ByteOrder) (v : float) : result RegError (list Z) :=
  let finish b := match fromCanonical o b with Some regs => Ok regs | None => Err RegPanic end in
  if bool_decide (t = Int16) then
    finish (PutUint16 (u16 (i16 (trunc_Z (clamp v (of_Z MinInt16) (of_Z MaxInt16))))))
  else if bool_decide (t = UInt16) then
    finish (PutUint16 (u16 (trunc_Z (clamp v (of_Z 0) (of_Z MaxUint16)))))
  else if bool_decide (t = Int32) then
    finish (PutUint32 (u32 (i32 (trunc_Z (clamp v (of_Z MinInt32) (of_Z MaxInt32))))))
  else if bool_decide (t = UInt32) then
    finish (PutUint32 (u32 (trunc_Z (clamp v (of_Z 0) (of_Z MaxUint32)))))
  else if bool_decide (t = Float32) then
    finish (PutUint32 (Float32bits (to_f32 v)))
  else Err (ErrUnsupportedType t).

(** ** Specification *)

(** The range of an integer type. *)
Definition int_range (t : DataType) : option (Z * Z) :=
  if bool_decide (t = Int16) then Some (MinInt16, MaxInt16)
  else if bool_decide (t = UInt16) then Some (0, MaxUint16)
  else if bool_decide (t = Int32) then Some (MinInt32, MaxInt32)
  else if bool_decide (t = UInt32) then Some (0, MaxUint32)
  else None.

Definition is_type (t : DataType) : Prop :=
  t = Int16 \/ t = UInt16 \/ t = Int32 \/ t = UInt32 \/ t = Float32.

(** What a value saturates to in an integer type: truncated toward zero and
    clamped to the range; NaN becomes 0 and an infinity the bound. *)
Definition saturate (lo hi : Z) (v : float) : Z :=
  match v with
  | S754_nan => 0
  | S754_infinity true => lo
  | S754_infinity false => hi
  | _ => Z.max lo (Z.min hi (trunc_Z v))
  end.

(** ** Lemmas *)

Lemma word_be hi lo : word hi lo = be_Z [hi; lo].
Proof. unfold word. cbn. by rewrite Z.shiftl_0_r, Z.lor_0_r. Qed.

Lemma word_split r : is_u16 r -> word (byte_of_Z (Z.shiftr r 8)) (byte_of_Z r) = r.
Proof.
  intros H. rewrite word_be. etrans; [|by apply (uwrap_id 16)].
  rewrite <- (be_Z_be_bytes 2 r : _ = uwrap 16 r). cbn [be_bytes]. by rewrite Z.shiftr_0_r.
Qed.

Lemma word_hi hi lo : byte_of_Z (Z.shiftr (word hi lo) 8) = hi /\ byte_of_Z (word hi lo) = lo.
Proof.
  rewrite word_be. pose proof (be_bytes_be_Z [hi; lo]) as E. cbn [length be_bytes] in E.
  rewrite Z.shiftr_0_r in E. by injection E.
Qed.

Lemma word_range hi lo : is_u16 (word hi lo).
Proof. rewrite word_be. apply (be_Z_range [hi; lo]). Qed.

Lemma canonical_fromCanonical o bs :
  length bs = 2%nat \/ length bs = 4%nat ->
  exists regs, fromCanonical o bs = Some regs /\ canonical o regs = Some bs
    /\ zlength regs = zlength bs / 2 /\ Forall is_u16 regs.
Proof.
  intros [H|H].
  - destruct bs as [|a [|b [|]]]; try done. cbn [fromCanonical]. eexists. split; [done|].
    unfold canonical. case_bool_decide; rewrite !(proj1 (word_hi _ _)), !(proj2 (word_hi _ _));
      repeat split; auto using word_range.
  - destruct bs as [|a [|b [|c [|d [|]]]]]; try done. cbn [fromCanonical]. eexists. split; [done|].
    unfold canonical. repeat case_bool_decide; rewrite !(proj1 (word_hi _ _)), !(proj2 (word_hi _ _));
      repeat split; auto using word_range.
Qed.

Lemma fromCanonical_canonical o regs :
  Forall is_u16 regs -> length regs = 1%nat \/ length regs = 2%nat ->
  exists bs, canonical o regs = Some bs /\ fromCanonical o bs = Some regs
    /\ length bs = (2 * length regs)%nat.
Proof.
  intros Hf [H|H].
  - destruct regs as [|r [|]]; try done. apply Forall_cons in Hf as [Hr _].
    cbn [canonical]. eexists. split; [done|].
    case_bool_decide; cbn [fromCanonical].
    + rewrite bool_decide_eq_true_2 by done. by rewrite word_split.
    + rewrite bool_decide_eq_false_2 by done. by rewrite word_split.
  - destruct regs as [|r [|q [|]]]; try done.
    apply Forall_cons in Hf as [Hr Hf]. apply Forall_cons in Hf as [Hq _].
    cbn [canonical]. eexists. split; [done|].
    repeat case_bool_decide; subst; cbn [fromCanonical];
      repeat (first [rewrite bool_decide_eq_true_2 by done | rewrite bool_decide_eq_false_2 by done]);
      by rewrite !word_split.
Qed.

Lemma Words_cases t : Words t = 1 \/ Words t = 2.
Proof. unfold Words. case_bool_decide; auto. Qed.

(** Clamping then converting is saturation. *)
Lemma clamp_saturate lo hi v :
  valid64 v -> small lo -> small hi -> lo <= hi ->
  trunc_Z (clamp v (of_Z lo) (of_Z hi)) = saturate lo hi v.
Proof.
  intros V Hlo Hhi Hle.
  assert (is_finite v = true -> trunc_Z (clamp v (of_Z lo) (of_Z hi))
          = Z.max lo (Z.min hi (trunc_Z v))) as Hfin.
  { intros F. unfold clamp. replace (IsNaN v) with false by (by destruct v).
    rewrite !flt_scaled, !scaled_of_Z by auto using of_Z_valid, of_Z_finite.
    pose proof unit64_pos as HU. pose proof (trunc_scaled v V) as Et.
    destruct (Z.ltb_spec (scaled v) (lo * unit64)) as [L|L].
    - rewrite trunc_of_Z by done. pose proof (Z.quot_le_mono _ _ unit64 HU (Z.lt_le_incl _ _ L)) as Q.
      rewrite quot_unit64 in Q. lia.
    - pose proof (Z.quot_le_mono _ _ unit64 HU L) as Q. rewrite quot_unit64 in Q.
      destruct (Z.ltb_spec (hi * unit64) (scaled v)) as [G|G].
      + rewrite trunc_of_Z by done. pose proof (Z.quot_le_mono _ _ unit64 HU (Z.lt_le_incl _ _ G)) as Q'.
        rewrite quot_unit64 in Q'. lia.
      + rewrite trunc_Trunc by done. pose proof (Z.quot_le_mono _ _ unit64 HU G) as Q'.
        rewrite quot_unit64 in Q'. lia. }
  pose proof (of_Z_finite lo Hlo) as Flo. pose proof (of_Z_finite hi Hhi) as Fhi.
  destruct v as [s|[]| |s m e].
  - by rewrite Hfin.
  - cbn [saturate]. unfold clamp. cbn [IsNaN]. replace (flt _ (of_Z lo)) with true by (by destruct (of_Z lo)).
    by apply trunc_of_Z.
  - cbn [saturate]. unfold clamp. cbn [IsNaN]. replace (flt _ (of_Z lo)) with false by (by destruct (of_Z lo)).
    replace (flt (of_Z hi) _) with true by (by destruct (of_Z hi)). by apply trunc_of_Z.
  - done.
  - by rewrite Hfin.
Qed.

Lemma saturate_id lo hi n : small n -> lo <= n <= hi -> saturate lo hi (of_Z n) = n.
Proof.
  intros Hn Hr. pose proof (trunc_of_Z n Hn) as E. pose proof (of_Z_finite n Hn).
  destruct (of_Z n) as [s|[]| |s m e] eqn:Ef; try done; cbn [saturate]; rewrite E; lia.
Qed.

Lemma saturate_range lo hi v : lo <= 0 <= hi -> lo <= saturate lo hi v <= hi.
Proof. intros. destruct v as [s|[]| |s m e]; cbn [saturate]; lia. Qed.

(** The four byte buffers of a type and what they are read back as. *)
Lemma Uint_of_Put n k : in_u (8 * Z.of_nat k) n -> be_Z (be_bytes k n) = n.
Proof. intros H. rewrite be_Z_be_bytes. by apply Z.mod_small. Qed.

Lemma int_range_cases t lo hi : int_range t = Some (lo, hi) ->
  (t = Int16 /\ lo = MinInt16 /\ hi = MaxInt16) \/ (t = UInt16 /\ lo = 0 /\ hi = MaxUint16)
  \/ (t = Int32 /\ lo = MinInt32 /\ hi = MaxInt32) \/ (t = UInt32 /\ lo = 0 /\ hi = MaxUint32).
Proof. unfold int_range. repeat case_bool_decide; intros [= <- <-]; auto 6. Qed.

Lemma int_range_small t lo hi : int_range t = Some (lo, hi) -> small lo /\ small hi /\ lo <= 0 <= hi.
Proof.
  intros [(-> & -> & ->)|[(-> & -> & ->)|[(-> & -> & ->)|(-> & -> & ->)]]]%int_range_cases;
    unfold small; vm_compute; intuition congruence.
Qed.

(** Decides the closed tests on type names. *)
Ltac type_tests :=
  repeat first [rewrite bool_decide_eq_true_2 by done | rewrite bool_decide_eq_false_2 by discriminate].

(** What [Encode] stores for an integer type, and what [Decode] reads. *)
Definition int_bytes (t : DataType) (n : Z) : list byte :=
  if Words t =? 1 then PutUint16 (u16 n) else PutUint32 (u32 n).

Lemma Encode_int_bytes t lo hi o v :
  int_range t = Some (lo, hi) -> valid64 v ->
  Encode t o v = match fromCanonical o (int_bytes t (saturate lo hi v)) with
                 | Some regs => Ok regs | None => Err RegPanic end.
Proof.
  intros Hr V. destruct (int_range_small t lo hi Hr) as (Slo & Shi & Hle).
  apply int_range_cases in Hr as [(-> & -> & ->)|[(-> & -> & ->)|[(-> & -> & ->)|(-> & -> & ->)]]];
    unfold Encode; type_tests; rewrite clamp_saturate by (done || lia); try done.
  - unfold i16. by rewrite (uwrap_swrap 16 _ ltac:(lia) : u16 _ = u16 _).
  - unfold i32. by rewrite (uwrap_swrap 32 _ ltac:(lia) : u32 _ = u32 _).
Qed.

Lemma Decode_int_bytes t lo hi o regs n :
  int_range t = Some (lo, hi) -> lo <= n <= hi ->
  zlength regs = Words t -> canonical o regs = Some (int_bytes t n) ->
  Decode t o regs = Ok (of_Z n).
Proof.
  intros Hr Hn Hl Hc.
  apply int_range_cases in Hr as [(-> & -> & ->)|[(-> & -> & ->)|[(-> & -> & ->)|(-> & -> & ->)]]];
    unfold Decode; rewrite Hl, Hc; cbn [Z.eqb]; rewrite Z.eqb_refl; cbn [negb]; type_tests; do 2 f_equal.
  all: match goal with
       | |- context [int_bytes ?t ?n] =>
           (change (int_bytes t n) with (PutUint16 (u16 n)) || change (int_bytes t n) with (PutUint32 (u32 n)))
       end.
  all: rewrite <- (app_nil_r (_ : list byte)), ?Uint16_app, ?Uint32_app.
  all: unfold i16, i32, u16, u32, MinInt16, MaxInt16, MaxUint16, MinInt32, MaxInt32, MaxUint32 in *.
  - rewrite !swrap_uwrap by lia. apply swrap_id; unfold in_s; lia.
  - rewrite !uwrap_id by (rewrite ?uwrap_id; unfold in_u; lia). done.
  - rewrite !swrap_uwrap by lia. apply swrap_id; unfold in_s; lia.
  - rewrite !uwrap_id by (rewrite ?uwrap_id; unfold in_u; lia). done.
Qed.

Lemma int_bytes_length t n : length (int_bytes t n) = (2 * Z.to_nat (Words t))%nat.
Proof. unfold int_bytes. by destruct (Words_cases t) as [-> | ->]. Qed.

Lemma int_bytes_width t n :
  length (int_bytes t n) = 2%nat \/ length (int_bytes t n) = 4%nat.
Proof. rewrite int_bytes_length. destruct (Words_cases t) as [-> | ->]; auto. Qed.

Lemma be_words bs :
  (length bs = 2%nat -> Uint16 bs = be_Z bs /\ PutUint16 (be_Z bs) = bs /\ is_u16 (be_Z bs))
  /\ (length bs = 4%nat -> Uint32 bs = be_Z bs /\ PutUint32 (be_Z bs) = bs /\ is_u32 (be_Z bs)).
Proof.
  pose proof (be_Z_range bs) as Hr. unfold Uint16, Uint32, PutUint16, PutUint32.
  split; intros H; rewrite H in Hr; (rewrite take_ge by lia); repeat split; try lia;
    rewrite <- H; apply be_bytes_be_Z.
Qed.

(** The value decoded from registers is in range, and its bytes are those of
    the registers. *)
Lemma Decode_inv t lo hi o regs v :
  int_range t = Some (lo, hi) -> Forall is_u16 regs -> Decode t o regs = Ok v ->
  exists n, v = of_Z n /\ lo <= n <= hi /\ fromCanonical o (int_bytes t n) = Some regs.
Proof.
  intros Hr Hf. unfold Decode. destruct (Words t =? zlength regs) eqn:Hl; [cbn [negb]|done].
  apply Z.eqb_eq in Hl.
  destruct (fromCanonical_canonical o regs Hf) as (bs & Hc & Hfc & Hlb).
  { destruct (Words_cases t); unfold zlength in Hl; lia. }
  rewrite Hc. destruct (be_words bs) as [B2 B4].
  apply int_range_cases in Hr as [(-> & -> & ->)|[(-> & -> & ->)|[(-> & -> & ->)|(-> & -> & ->)]]];
    unfold zlength in Hl; type_tests; intros [= <-].
  - destruct B2 as (-> & Hb & Hu); [change (Words Int16) with 1 in Hl; lia|].
    exists (i16 (be_Z bs)). split; [done|]. split; [pose proof (swrap_range 16 (be_Z bs) ltac:(lia)) as R; unfold in_s in R; unfold MinInt16, MaxInt16, i16; lia|].
    change (int_bytes Int16 ?n) with (PutUint16 (u16 n)). unfold i16, u16.
    by rewrite uwrap_swrap, uwrap_id, Hb by (done || lia).
  - destruct B2 as (-> & Hb & Hu); [change (Words UInt16) with 1 in Hl; lia|].
    exists (be_Z bs). split; [done|]. split; [unfold in_u in Hu; unfold MaxUint16; lia|].
    change (int_bytes UInt16 ?n) with (PutUint16 (u16 n)). unfold u16. by rewrite uwrap_id, Hb by done.
  - destruct B4 as (-> & Hb & Hu); [change (Words Int32) with 2 in Hl; lia|].
    exists (i32 (be_Z bs)). split; [done|]. split; [pose proof (swrap_range 32 (be_Z bs) ltac:(lia)) as R; unfold in_s in R; unfold MinInt32, MaxInt32, i32; lia|].
    change (int_bytes Int32 ?n) with (PutUint32 (u32 n)). unfold i32, u32.
    by rewrite uwrap_swrap, uwrap_id, Hb by (done || lia).
  - destruct B4 as (-> & Hb & Hu); [change (Words UInt32) with 2 in Hl; lia|].
    exists (be_Z bs). split; [done|]. split; [unfold in_u in Hu; unfold MaxUint32; lia|].
    change (int_bytes UInt32 ?n) with (PutUint32 (u32 n)). unfold u32. by rewrite uwrap_id, Hb by done.
Qed.

Lemma is_type_int t : is_type t -> t <> Float32 -> exists lo hi, int_range t = Some (lo, hi).
Proof. by intros [-> |[-> |[-> |[-> | ->]]]] ?; try done; do 2 eexists. Qed.

Lemma float32_bits_decode o regs v :
  Forall is_u16 regs -> Decode Float32 o regs = Ok v ->
  exists b, is_u32 b /\ v = to_f64 (Float32frombits b) /\ fromCanonical o (PutUint32 b) = Some regs.
Proof.
  intros Hf. unfold Decode. destruct (Words Float32 =? zlength regs) eqn:Hl; [cbn [negb]|done].
  apply Z.eqb_eq in Hl. change (Words Float32) with 2 in Hl. unfold zlength in Hl.
  destruct (fromCanonical_canonical o regs Hf) as (bs & Hc & Hfc & Hlb); [lia|].
  rewrite Hc. type_tests. intros <-%Ok_inj.
  destruct (proj2 (be_words bs)) as (-> & Hb & Hu); [lia|].
  exists (be_Z bs). by rewrite Hb.
Qed.

(** A widened float32 is NaN only when the float32 is. *)
Lemma to_f64_NaN f : valid32 f -> IsNaN (to_f64 f) = IsNaN f.
Proof.
  intros V. destruct f as [s|s| |s m e]; try done. pose proof (to_f32_to_f64 _ V) as E.
  destruct (to_f64 (S754_finite s m e)); done.
Qed.

Lemma Encode_int (t : DataType) (lo hi : Z) (o : ByteOrder) (v : float) :
  int_range t = Some (lo, hi) -> valid64 v ->
  exists regs, Encode t o v = Ok regs /\ zlength regs = Words t /\ Forall is_u16 regs /\
    Decode t o regs = Ok (of_Z (saturate lo hi v)) /\ lo <= saturate lo hi v <= hi.
Proof.
  intros Hr V. rewrite (Encode_int_bytes t lo hi o v Hr V).
  destruct (int_range_small _ _ _ Hr) as (Slo & Shi & Hle).
  pose proof (saturate_range lo hi v Hle) as Hs.
  destruct (canonical_fromCanonical o _ (int_bytes_width t (saturate lo hi v))) as (regs & -> & Hc & Hl & Hf).
  exists regs. assert (zlength regs = Words t) as Hw.
  { rewrite Hl. unfold zlength. rewrite int_bytes_length. by destruct (Words_cases t) as [-> | ->]. }
  repeat split; try done; try lia. by apply (Decode_int_bytes t lo hi).
Qed.

(** A float32 register pair keeps the value rounded to single precision. *)
Lemma Encode_float32 (o : ByteOrder) (v : float) :
  valid32 (to_f32 v) ->
  exists regs, Encode Float32 o v = Ok regs /\ zlength regs = 2 /\ Forall is_u16 regs /\
    Decode Float32 o regs = Ok (to_f64 (to_f32 v)).
Proof.
  intros V. pose proof (Float32bits_range _ V) as Hu. unfold Encode. type_tests.
  destruct (canonical_fromCanonical o (PutUint32 (Float32bits (to_f32 v)))) as (regs & E1 & E2 & E3 & E4); [by right|].
  rewrite E1. exists regs. split; [done|]. assert (zlength regs = 2) as Hl by (rewrite E3; done).
  split_and!; [done..|]. unfold Decode. rewrite Hl, E2. change (Words Float32) with 2. rewrite Z.eqb_refl. cbn [negb].
  type_tests. rewrite <-(app_nil_r (PutUint32 _)), Uint32_app. unfold u32. rewrite ?uwrap_id by done.
  by rewrite Float32frombits_bits.
Qed.

(** ** Properties *)

(** Whatever the byte order, the layout of a 16- or 32-bit value over
    registers is a bijection: [fromCanonical] inverts [canonical] on register
    words and [canonical] inverts [fromCanonical] on bytes. *)
Theorem byte_orders_bijective (o : ByteOrder) (regs : list Z) (bs : list byte) :
  Forall is_u16 regs -> length regs = 1%nat \/ length regs = 2%nat ->
  length bs = 2%nat \/ length bs = 4%nat ->
  (canonical o regs ≫= fromCanonical o) = Some regs /\
  (fromCanonical o bs ≫= canonical o) = Some bs.
Proof.
  intros Hf Hr Hb.
  destruct (fromCanonical_canonical o regs Hf Hr) as (? & -> & H1 & _).
  destruct (canonical_fromCanonical o bs Hb) as (? & -> & H2 & _). done.
Qed.

Lemma byte_orders_bijective_witness :
  (canonical CDAB [0x1234; 0xABCD] ≫= fromCanonical CDAB) = Some [0x1234; 0xABCD] /\
  (fromCanonical CDAB [x01; x02; x03; x04] ≫= canonical CDAB) = Some [x01; x02; x03; x04].
Proof.
  apply byte_orders_bijective; [repeat constructor; vm_compute; congruence|by right|by right].
Defined.

(** C25: decoding registers and encoding the value again gives the registers
    back, for every supported type and byte order and every bit pattern, a
    float32 NaN excepted (its payload is not kept). *)
Theorem Encode_Decode (t : DataType) (o : ByteOrder) (regs : list Z) (v : float) :
  is_type t -> Forall is_u16 regs -> Decode t o regs = Ok v -> IsNaN v = false ->
  Encode t o v = Ok regs.
Proof.
  intros Ht Hf Hd Hn. destruct (decide (t = Float32)) as [->|Hne].
  - apply float32_bits_decode in Hd as (b & Hb & -> & Hfc); [|done].
    pose proof (Float32frombits_valid b Hb) as V. rewrite to_f64_NaN in Hn by done.
    unfold Encode. type_tests. by rewrite to_f32_to_f64, Float32bits_frombits, Hfc by done.
  - destruct (is_type_int t Ht Hne) as (lo & hi & Hr).
    destruct (int_range_small _ _ _ Hr) as (Slo & Shi & Hle).
    destruct (Decode_inv t lo hi o regs v Hr Hf Hd) as (n & -> & Hrn & Hfc).
    assert (small n) as Sn by (unfold small in *; lia).
    rewrite (Encode_int_bytes t lo hi) by auto using of_Z_valid.
    by rewrite saturate_id, Hfc by done.
Qed.

Lemma Encode_Decode_witness : Encode Float32 CDAB (of_Z 480) = Ok [0; 0x43F0].
Proof.
  apply (Encode_Decode Float32 CDAB [0; 0x43F0] (of_Z 480));
    [by do 4 right|repeat constructor; vm_compute; congruence|vm_compute; reflexivity|reflexivity].
Defined.

(** Encoding a value of an integer type never fails and stores the value
    truncated toward zero and saturated to the range of the type (NaN as 0):
    that integer is what the registers decode to. *)
Theorem Encode_saturates (t : DataType) (lo hi : Z) (o : ByteOrder) (v : float) :
  int_range t = Some (lo, hi) -> valid64 v ->
  exists regs, Encode t o v = Ok regs /\ zlength regs = Words t /\ Forall is_u16 regs /\
    Decode t o regs = Ok (of_Z (saturate lo hi v)) /\ lo <= saturate lo hi v <= hi.
Proof. apply Encode_int. Qed.

Lemma Encode_saturates_witness :
  exists regs, Encode Int16 BADC (of_Z 40000) = Ok regs /\
    Decode Int16 BADC regs = Ok (of_Z 32767).
Proof.
  destruct (Encode_saturates Int16 MinInt16 MaxInt16 BADC (of_Z 40000) eq_refl eq_refl)
    as (regs & H1 & _ & _ & H2 & _).
  exists regs. split; [exact H1|exact H2].
Defined.
