(* ===== verification/ModbusLink.v ===== *)
(** * ModbusLink: the Modbus TCP client and server (internal/modbus/client.go, server.go)

    The mutexes make each transaction and each bank access atomic, so both are
    functions of the state they lock. A connection is the bytes that arrive,
    the bytes written and the deadline set; that it expires shows as the error
    met when no more bytes arrive. *)
From Stdlib Require Import ZArith Lia.
From S2P Require Import Prelude GoBytes ModbusFrame.

Open Scope Z_scope.

(** ** Server *)

(** [RegisterBank]: the data source behind a server. *)
Class RegisterBank (B : Type) := {
  ReadHolding : B -> byte -> Z -> Z -> result Error (list Z);
  ReadInput : B -> byte -> Z -> Z -> result Error (list Z)
}.

Record MemoryBank := mkMemoryBank { holding : list Z; input : list Z }.

Definition NewMemoryBank (holdingSize inputSize : Z) : MemoryBank :=
  mkMemoryBank (repeat 0 (Z.to_nat holdingSize)) (repeat 0 (Z.to_nat inputSize)).

Definition slice_table (table : list Z) (addr qty : Z) (fn : byte) : result Error (list Z) :=
  let stop := addr + qty in
  if zlength table <? stop then Err (ExceptionError fn ExIllegalDataAddress)
  else Ok (slice addr stop table).

Definition write_table (table : list Z) (addr : Z) (regs : list Z) : option (list Z) :=
  let stop := addr + zlength regs in
  if zlength table <? stop then None
  else Some (take (Z.to_nat addr) table ++ regs ++ drop (Z.to_nat stop) table).

Global Instance MemoryBank_bank : RegisterBank MemoryBank := {
  ReadHolding b _ addr qty := slice_table (holding b) addr qty FuncReadHoldingRegisters;
  ReadInput b _ addr qty := slice_table (input b) addr qty FuncReadInputRegisters
}.

Definition SetHolding (addr : Z) (regs : list Z) : GoM MemoryBank Error unit := fun b =>
  match write_table (holding b) addr regs with
  | Some t => (Ok tt, mkMemoryBank t (input b))
  | None => (Err (ErrTransport "write exceeds table size"), b)
  end.

Definition SetInput (addr : Z) (regs : list Z) : GoM MemoryBank Error unit := fun b =>
  match write_table (input b) addr regs with
  | Some t => (Ok tt, mkMemoryBank (holding b) t)
  | None => (Err (ErrTransport "write exceeds table size"), b)
  end.

Definition dispatch {B} `{!RegisterBank B} (bank : B) (unit : byte) (req : PDU) : PDU :=
  if bool_decide (Function req = FuncReadHoldingRegisters \/ Function req = FuncReadInputRegisters) then
    match ParseReadRegistersRequest req with
    | Err _ => ExceptionResponse (Function req) ExIllegalDataValue
    | Ok (addr, qty) =>
        match (if bool_decide (Function req = FuncReadHoldingRegisters)
               then ReadHolding bank unit addr qty else ReadInput bank unit addr qty) with
        | Err (ExceptionError _ code) => ExceptionResponse (Function req) code
        | Err _ => ExceptionResponse (Function req) ExServerDeviceFailure
        | Ok regs =>
            if negb (zlength regs =? qty) then ExceptionResponse (Function req) ExServerDeviceFailure
            else ReadRegistersResponse (Function req) regs
        end
    end
  else ExceptionResponse (Function req) ExIllegalFunction.

(** One turn of [handle]'s loop: the bytes it writes, or [None] when the
    connection is closed. *)
Definition handle_step {B} `{!RegisterBank B} (bank : B) (r : Reader) : option (list byte * Reader) :=
  match ReadADU r with
  | (Err _, _) => None
  | (Ok req, r') =>
      let resp := mkADU (TransactionID req) (UnitID req) (dispatch bank (UnitID req) (aPDU req)) in
      match MarshalBinary resp with
      | Err _ => None
      | Ok frame => Some (frame, r')
      end
  end.

(** [handle]: everything written to the connection. [banks k] is what the bank
    holds when the [k]-th request is answered, [write_ok k] tells whether the
    response can be written. *)
Fixpoint handle {B} `{!RegisterBank B} (fuel : nat) (banks : nat -> B) (write_ok : nat -> bool) (r : Reader)
    : option (list byte) :=
  match fuel with
  | O => None
  | S fuel' =>
      match handle_step (banks O) r with
      | None => Some []
      | Some (frame, r') =>
          if write_ok O then
            option_map (app frame) (handle fuel' (fun k => banks (S k)) (fun k => write_ok (S k)) r')
          else Some []
      end
  end.

(** What [Accept] returns, and how [Serve] ends: it has not, the context was
    cancelled, or the listener failed. *)
Inductive accept :=
| Accepted (r : Reader) (write_ok : nat -> bool)
| AcceptTimeout
| AcceptError (e : Error).

Inductive serve_end := Serving | Shutdown | Failed (e : Error).

(** [Serve]: each event is what [Accept] returned and whether the context was
    cancelled then. The result is what each connection's goroutine writes. *)
Fixpoint Serve {B} `{!RegisterBank B} (banks : nat -> B) (evs : list (accept * bool))
    : list (option (list byte)) * serve_end :=
  match evs with
  | [] => ([], Serving)
  | (Accepted r write_ok, _) :: rest =>
      let '(served, e) := Serve banks rest in
      (handle (S (length (pending r))) banks write_ok r :: served, e)
  | (_, true) :: _ => ([], Shutdown)
  | (AcceptTimeout, false) :: rest => Serve banks rest
  | (AcceptError e, false) :: _ => ([], Failed e)
  end.

(** ** Client *)

Record Conn := mkConn {
  c_reader : Reader;
  c_written : list byte;
  c_deadline : option Time;
  c_deadline_error : option Error;
  c_write_error : option Error
}.

(** What a transaction sees of its context: the deadline, and [ctx.Err()] when
    the request is about to be written. *)
Record Ctx := mkCtx { ctx_deadline : option Time; ctx_err : option Error }.
Definition background : Ctx := mkCtx None None.

Record Client := mkClient { conn : Conn; timeout : Duration; tid : Z }.

Definition with_conn (c : Client) (k : Conn) : Client := mkClient k (timeout c) (tid c).

Definition ClientOption := Client -> Client.

Definition WithTimeout (d : Duration) : ClientOption := fun c =>
  if 0 <? d then mkClient (conn c) d (tid c) else c.

Definition NewClient (k : Conn) (opts : list ClientOption) : Client :=
  fold_left (fun c o => o c) opts (mkClient k (2 * Second) 0).

(** [dial] is the network's. *)
Definition Dial (dial : string -> result Error Conn) (addr : string) (opts : list ClientOption) : result Error Client :=
  match dial addr with Err e => Err e | Ok k => Ok (NewClient k opts) end.

(** [Close]: what is done on a closed connection fails. *)
Definition ErrClosed : Error := ErrTransport "use of closed network connection".

Definition CloseClient : GoM Client Error unit := fun c =>
  let k := conn c in
  match c_deadline_error k with
  | Some e => (Err e, c)
  | None => (Ok tt, with_conn c (mkConn (c_reader k) (c_written k) (c_deadline k) (Some ErrClosed) (Some ErrClosed)))
  end.

(** The loop of [transact]: discards frames of other transactions. *)
Fixpoint await (fuel : nat) (want : Z) : GoM Reader Error PDU :=
  match fuel with
  | O => throw (ErrTransport "out of fuel")
  | S fuel' => fun r =>
      match ReadADU r with
      | (Err ErrTimeout, r') => (Err ErrDeadlineExceeded, r')
      | (Err e, r') => (Err e, r')
      | (Ok resp, r') =>
          if TransactionID resp =? want then (Ok (aPDU resp), r') else await fuel' want r'
      end
  end.

(** The deadline of a transaction that starts at [now]. *)
Definition deadline (now : Time) (ctx : Ctx) (c : Client) : Time :=
  let d := now + timeout c in
  match ctx_deadline ctx with Some d' => if d' <? d then d' else d | None => d end.

(** Enough fuel for the loop is one more than the number of bytes that arrive. *)
Definition transact (now : Time) (ctx : Ctx) (unit : byte) (req : PDU) : GoM Client Error PDU := fun c =>
  let c := mkClient (conn c) (timeout c) (u16 (tid c + 1)) in
  match MarshalBinary (mkADU (tid c) unit req) with
  | Err e => (Err e, c)
  | Ok frame =>
      let k := conn c in
      match c_deadline_error k with
      | Some e => (Err e, c)
      | None =>
          let set := mkConn (c_reader k) (c_written k) (Some (deadline now ctx c)) None (c_write_error k) in
          match ctx_err ctx with
          | Some e => (Err e, with_conn c set)
          | None =>
              match c_write_error k with
              | Some e => (Err e, with_conn c set)
              | None =>
                  let '(res, r') := await (S (length (pending (c_reader k)))) (tid c) (c_reader k) in
                  (res, with_conn c (mkConn r' (c_written k ++ frame) (c_deadline set) None None))
              end
          end
      end
  end.

Definition readRegisters (now : Time) (ctx : Ctx) (fn unit : byte) (addr qty : Z)
    : GoM Client Error (list Z) := fun c =>
  match ReadRegistersRequest fn addr qty with
  | Err e => (Err e, c)
  | Ok req =>
      match transact now ctx unit req c with
      | (Err e, c') => (Err e, c')
      | (Ok resp, c') => (ParseReadRegistersResponse resp fn qty, c')
      end
  end.

Definition ReadHoldingRegisters now ctx := readRegisters now ctx FuncReadHoldingRegisters.
Definition ReadInputRegisters now ctx := readRegisters now ctx FuncReadInputRegisters.

(** ** Lemmas *)

Lemma read_consumes r a r' : ReadADU r = (Ok a, r') ->
  (length (pending r') + 8 <= length (pending r))%nat.
Proof.
  intros (_ & _ & ->)%ReadADU_inv. rewrite !length_app. cbn [length].
  change (length (header _ _ _)) with 7%nat. lia.
Qed.

(** Frames of other transactions, as bytes on the wire. *)
Definition wire (a : ADU) : list byte :=
  header (TransactionID a) (2 + zlength (Data (aPDU a))) (UnitID a) ++ Function (aPDU a) :: Data (aPDU a).

Lemma read_wire a rest e : adu_ok a -> ReadADU (mkReader (wire a ++ rest) e) = (Ok a, mkReader rest e).
Proof.
  intros [Ht Hd]. unfold wire. rewrite <- app_assoc. cbn [app].
  pose proof (ReadADU_frame (TransactionID a) (UnitID a) (Function (aPDU a)) (Data (aPDU a)) rest e Ht Hd) as H.
  destruct a as [t u [f d]]. exact H.
Qed.

Lemma wire_length a : (8 <= length (wire a))%nat.
Proof. unfold wire. rewrite length_app. cbn [length]. change (length (header _ _ _)) with 7%nat. lia. Qed.

Lemma await_stale stale want resp rest e fuel :
  Forall (fun a => adu_ok a /\ TransactionID a <> want) stale ->
  adu_ok resp -> TransactionID resp = want ->
  (length stale < fuel)%nat ->
  await fuel want (mkReader (concat (map wire stale) ++ wire resp ++ rest) e)
  = (Ok (aPDU resp), mkReader rest e).
Proof.
  intros Hs Hr Ht. revert fuel. induction Hs as [|a stale [Ha Hne] _ IH]; intros fuel Hfuel.
  - destruct fuel; [cbn in Hfuel; lia|]. cbn [map concat app await].
    rewrite read_wire by done. by rewrite Ht, Z.eqb_refl.
  - destruct fuel; [cbn in Hfuel; lia|]. cbn [map concat await]. rewrite <- app_assoc.
    rewrite read_wire by done. rewrite (proj2 (Z.eqb_neq _ _)) by done.
    apply IH. cbn [length] in Hfuel. lia.
Qed.

Lemma concat_wire_length stale : (length stale <= length (concat (map wire stale)))%nat.
Proof.
  induction stale as [|a stale IH]; [done|]. cbn [map concat length]. rewrite length_app.
  pose proof (wire_length a). lia.
Qed.

(** The fuel [transact] gives its loop is always enough. *)
Lemma await_total want r fuel :
  (length (pending r) < fuel)%nat -> forall fuel', (length (pending r) < fuel')%nat ->
  await fuel want r = await fuel' want r.
Proof.
  remember (length (pending r)) as n eqn:Hn. revert r Hn fuel.
  induction n as [n IH] using lt_wf_ind. intros r -> fuel Hf fuel' Hf'.
  destruct fuel as [|fuel]; [lia|]. destruct fuel' as [|fuel']; [lia|]. cbn [await].
  destruct (ReadADU r) as [[a|e] r'] eqn:E; [|done].
  destruct (_ =? want); [done|]. apply read_consumes in E.
  apply (IH (length (pending r'))); [lia|done|lia|lia].
Qed.

Lemma dispatch_size {B} `{!RegisterBank B} (bank : B) unit req :
  zlength (Data (dispatch bank unit req)) + 1 <= MaxPDU.
Proof.
  unfold dispatch, MaxPDU.
  assert (forall f c, zlength (Data (ExceptionResponse f c)) + 1 <= 253) as Hex by (intros; vm_compute; congruence).
  case_bool_decide; [|apply Hex].
  destruct (ParseReadRegistersRequest req) as [[addr qty]|] eqn:E; [|apply Hex].
  destruct (if bool_decide _ then _ else _) as [regs|[]]; try apply Hex.
  destruct (zlength regs =? qty) eqn:El; cbn [negb]; [|apply Hex].
  unfold ParseReadRegistersRequest in E. destruct (negb _); [done|].
  destruct (_ || _) eqn:Eq; [done|]. destruct (0x10000 <? _); [done|]. injection E as _ <-.
  cbn [ReadRegistersResponse Data]. rewrite zlength_cons, concat_put_length.
  bool_to_prop. unfold MaxRegistersPerRead in *. lia.
Qed.

Lemma handle_step_ok {B} `{!RegisterBank B} (bank : B) r req r' :
  ReadADU r = (Ok req, r') ->
  handle_step bank r = Some (wire (mkADU (TransactionID req) (UnitID req) (dispatch bank (UnitID req) (aPDU req))), r').
Proof.
  intros H. unfold handle_step. rewrite H. apply ReadADU_inv in H as ([Ht _] & _).
  rewrite MarshalBinary_header; [done|]. split; [done|]. apply dispatch_size.
Qed.

(** The table a function code reads. *)
Definition table_of (fn : byte) (b : MemoryBank) : list Z :=
  if bool_decide (fn = FuncReadHoldingRegisters) then holding b else input b.

Definition bank_ok (b : MemoryBank) : Prop := Forall is_u16 (holding b) /\ Forall is_u16 (input b).

Definition expected_read (fn : byte) (b : MemoryBank) (addr qty : Z) : result Error (list Z) :=
  if zlength (table_of fn b) <? addr + qty then Err (ExceptionError fn ExIllegalDataAddress)
  else Ok (slice addr (addr + qty) (table_of fn b)).

Lemma Forall_slice {A} (P : A -> Prop) lo hi xs : Forall P xs -> Forall P (slice lo hi xs).
Proof. intros. unfold slice. by apply Forall_take, Forall_drop. Qed.

Lemma table_of_ok fn b : bank_ok b -> Forall is_u16 (table_of fn b).
Proof. intros [? ?]. unfold table_of. by case_bool_decide. Qed.

(** What the server answers to a well-formed read request, and what the
    client that sent it makes of the answer. *)
Lemma dispatch_memory fn unit addr qty req b :
  read_fn fn -> is_u16 addr -> is_u16 qty -> read_ok addr qty -> bank_ok b ->
  ReadRegistersRequest fn addr qty = Ok req ->
  ParseReadRegistersResponse (dispatch b unit req) fn qty = expected_read fn b addr qty.
Proof.
  intros Hfn Ha Hq Hok Hb Hreq. pose proof (ReadRegistersRequest_spec fn addr qty Ha Hq) as H.
  rewrite Hreq in H. destruct H as (_ & _ & Hf & Hp). unfold dispatch, expected_read. rewrite Hf, Hp.
  assert ((if bool_decide (fn = FuncReadHoldingRegisters) then ReadHolding b unit addr qty
           else ReadInput b unit addr qty) = slice_table (table_of fn b) addr qty fn) as ->.
  { unfold table_of. by destruct Hfn as [-> | ->]. }
  rewrite bool_decide_eq_true_2 by done. unfold slice_table.
  destruct (Z.ltb_spec (zlength (table_of fn b)) (addr + qty)) as [Hlt|Hge].
  - unfold ParseReadRegistersResponse, ExceptionResponse. cbn [Function Data].
    by rewrite bool_decide_eq_true_2.
  - destruct Hok as (H0 & [H1 H2] & H3).
    assert (zlength (slice addr (addr + qty) (table_of fn b)) = qty) as Hl
      by (rewrite slice_length; lia).
    rewrite Hl, Z.eqb_refl. cbn [negb].
    pose proof (ReadRegistersResponse_roundtrip fn fn (slice addr (addr + qty) (table_of fn b)) qty
      Hfn Hfn (Forall_slice _ _ _ _ (table_of_ok fn b Hb)) ltac:(lia)) as H.
    destruct (ParseReadRegistersResponse _ _ _) as [rs|[]]; try done;
      [by destruct H as (_ & _ & ->)|by destruct H as [? _]|by destruct H].
Qed.

(** A request and its answer over the wire. *)
Lemma exchange_answers (b : MemoryBank) (c : Client) (now : Time) (ctx : Ctx)
    (fn unit : byte) (addr qty : Z)
    (stale : list ADU) (rest : list byte) :
  read_fn fn -> read_ok addr qty -> bank_ok b ->
  Forall (fun a => adu_ok a /\ TransactionID a <> u16 (tid c + 1)) stale ->
  ctx_err ctx = None -> c_deadline_error (conn c) = None -> c_write_error (conn c) = None ->
  exists req frame answer,
    ReadRegistersRequest fn addr qty = Ok req /\
    MarshalBinary (mkADU (u16 (tid c + 1)) unit req) = Ok frame /\
    handle 2 (fun _ => b) (fun _ => true) (mkReader frame EOF) = Some answer /\
    (pending (c_reader (conn c)) = concat (map wire stale) ++ answer ++ rest ->
     exists c', readRegisters now ctx fn unit addr qty c = (expected_read fn b addr qty, c') /\
       c_written (conn c') = c_written (conn c) ++ frame /\ pending (c_reader (conn c')) = rest /\
       tid c' = u16 (tid c + 1) /\ timeout c' = timeout c /\
       c_deadline (conn c') = Some (deadline now ctx c) /\ c_deadline_error (conn c') = None /\ c_write_error (conn c') = None).
Proof.
  intros Hfn Hok Hb Hst Hc Hd Hw. pose proof Hok as (H0 & [H1 H2] & H3). unfold MaxRegistersPerRead in H2.
  assert (is_u16 addr) as Ha by (unfold in_u; lia). assert (is_u16 qty) as Hq by (unfold in_u; lia).
  pose proof (ReadRegistersRequest_spec fn addr qty Ha Hq) as Hspec.
  destruct (ReadRegistersRequest fn addr qty) as [req|[]] eqn:Hreq;
    try (by destruct Hspec); try (by destruct Hspec as (? & ?)); try (exfalso; unfold MaxRegistersPerRead in Hspec; lia).
  set (t := u16 (tid c + 1)). assert (is_u16 t) as Ht by (apply uwrap_range; lia).
  assert (adu_ok (mkADU t unit req)) as Hreqok.
  { split; [done|]. unfold ReadRegistersRequest in Hreq. repeat case_match; try done.
    injection Hreq as <-. vm_compute. congruence. }
  set (resp := mkADU t unit (dispatch b unit req)).
  assert (adu_ok resp) as Hresp by (split; [done|apply dispatch_size]).
  exists req, (wire (mkADU t unit req)), (wire resp). split; [done|].
  split; [by apply MarshalBinary_header|]. split.
  - rewrite <- (app_nil_r (wire _)). cbn [handle].
    erewrite handle_step_ok by (by apply read_wire). cbn [TransactionID UnitID aPDU].
    change (option_map (app (wire resp)) (Some []) = Some (wire resp)). cbn [option_map].
    by rewrite app_nil_r.
  - intros Hp. unfold readRegisters. rewrite Hreq. unfold transact. cbn [tid conn].
    fold t. rewrite (MarshalBinary_header (mkADU t unit req)) by done. cbn [conn]. rewrite Hd, Hc, Hw.
    destruct (c_reader (conn c)) as [pend e] eqn:Er. cbn [pending] in Hp |- *. subst pend.
    rewrite (await_stale stale t resp rest e) by
      (done || (rewrite length_app; pose proof (concat_wire_length stale); lia)).
    cbn [aPDU]. unfold resp. cbn [aPDU]. rewrite (dispatch_memory fn unit addr qty) by done.
    eexists. split; [done|]. done.
Qed.

(** ** Properties *)

(** C9: a read over a connection to a server with a register bank returns the
    registers of the requested range, or the illegal-address exception when
    the range leaves the table, however many stale frames of other
    transactions arrive first; the connection's deadline is then the client's
    timeout from the start, or the caller's if that is earlier. *)
Theorem client_server_read (b : MemoryBank) (c : Client) (now : Time) (ctx : Ctx)
    (fn unit : byte) (addr qty : Z)
    (stale : list ADU) (rest : list byte) :
  read_fn fn -> read_ok addr qty -> bank_ok b ->
  Forall (fun a => adu_ok a /\ TransactionID a <> u16 (tid c + 1)) stale ->
  ctx_err ctx = None -> c_deadline_error (conn c) = None -> c_write_error (conn c) = None ->
  exists req frame answer,
    ReadRegistersRequest fn addr qty = Ok req /\
    MarshalBinary (mkADU (u16 (tid c + 1)) unit req) = Ok frame /\
    handle 2 (fun _ => b) (fun _ => true) (mkReader frame EOF) = Some answer /\
    (pending (c_reader (conn c)) = concat (map wire stale) ++ answer ++ rest ->
     exists c', readRegisters now ctx fn unit addr qty c = (expected_read fn b addr qty, c') /\
       c_written (conn c') = c_written (conn c) ++ frame /\ pending (c_reader (conn c')) = rest /\
       tid c' = u16 (tid c + 1) /\ timeout c' = timeout c /\
       c_deadline (conn c') = Some (deadline now ctx c) /\ c_deadline_error (conn c') = None /\ c_write_error (conn c') = None).
Proof. apply exchange_answers. Qed.

Lemma client_server_read_witness :
  exists c', readRegisters 0 background x03 x01 1 2
    (mkClient (mkConn (mkReader (wire (mkADU 9 x01 (mkPDU x03 [x00]))
       ++ wire (mkADU 8 x01 (mkPDU x03 [x04; x00; x0b; x00; x0c])) ++ []) EOF) [] None None None) Second 7)
  = (Ok [11; 12], c').
Proof.
  destruct (client_server_read (mkMemoryBank [10; 11; 12] [])
    (mkClient (mkConn (mkReader (wire (mkADU 9 x01 (mkPDU x03 [x00]))
       ++ wire (mkADU 8 x01 (mkPDU x03 [x04; x00; x0b; x00; x0c])) ++ []) EOF) [] None None None) Second 7)
    0 background x03 x01 1 2 [mkADU 9 x01 (mkPDU x03 [x00])] [])
    as (req & frame & answer & E1 & E2 & E3 & H);
    [by left|vm_compute; intuition congruence|split; repeat constructor; vm_compute; congruence
    |constructor; [split; [split; vm_compute; intuition congruence|vm_compute; congruence]|constructor]
    |done|done|done|].
  vm_compute in E1. injection E1 as <-. vm_compute in E2. injection E2 as <-.
  vm_compute in E3. injection E3 as <-.
  destruct H as (c' & Hc & _); [reflexivity|]. exists c'. exact Hc.
Defined.

(** The server answers every frame it can read, whatever the request and
    whatever its bank returns: the response fits a frame, carries the
    request's transaction and unit, and is either the registers asked for or
    an exception of the requested function. *)
Theorem server_answers {B} `{!RegisterBank B} (bank : B) (r r' : Reader) (req : ADU) :
  ReadADU r = (Ok req, r') ->
  exists resp, handle_step bank r = Some (wire resp, r') /\ adu_ok resp /\
    TransactionID resp = TransactionID req /\ UnitID resp = UnitID req /\
    ((exists code, aPDU resp = ExceptionResponse (Function (aPDU req)) code) \/
     (exists addr qty regs, ParseReadRegistersRequest (aPDU req) = Ok (addr, qty) /\
        zlength regs = qty /\ read_fn (Function (aPDU req)) /\
        aPDU resp = ReadRegistersResponse (Function (aPDU req)) regs)).
Proof.
  intros H. exists (mkADU (TransactionID req) (UnitID req) (dispatch bank (UnitID req) (aPDU req))).
  split; [by apply handle_step_ok|]. apply ReadADU_inv in H as ([Ht _] & _).
  split; [split; [done|apply dispatch_size]|]. do 2 (split; [done|]). cbn [aPDU].
  unfold dispatch. case_bool_decide as Hf; [|left; by eexists].
  destruct (ParseReadRegistersRequest (aPDU req)) as [[addr qty]|] eqn:E; [|left; by eexists].
  destruct (if bool_decide _ then _ else _) as [regs|[]]; try (left; by eexists).
  destruct (zlength regs =? qty) eqn:El; cbn [negb]; [|left; by eexists].
  right. exists addr, qty, regs. bool_to_prop. done.
Qed.

Lemma server_answers_witness :
  exists resp, handle_step (mkMemoryBank [10; 11; 12] []) (mkReader (wire (mkADU 5 x01 (mkPDU x10 []))) EOF)
    = Some (wire resp, mkReader [] EOF) /\ TransactionID resp = 5.
Proof.
  destruct (server_answers (mkMemoryBank [10; 11; 12] []) (mkReader (wire (mkADU 5 x01 (mkPDU x10 []))) EOF)
    (mkReader [] EOF) (mkADU 5 x01 (mkPDU x10 []))) as (resp & H1 & _ & H2 & _); [vm_compute; reflexivity|].
  exists resp. split; [exact H1|exact H2].
Defined.
