(* ===== verification/Collector.v ===== *)
(** * Collector: the Modbus source (internal/collectors/modbus.go)

    The read planner coalesces tags into blocks; [Read] polls the blocks over
    a lazily opened connection and decodes every tag from its block. *)
From Stdlib Require Import ZArith Lia.
From S2P Require Import Prelude GoBytes GoFloat ModbusFrame ModbusRegs ModbusLink.

Open Scope Z_scope.

Record modbusTag := mkTag {
  name : string;
  fn : byte;
  start : Z;
  words : Z;
  typ : DataType;
  order : ByteOrder
}.

Record Block := mkBlock {
  bFunction : byte;
  bStart : Z;
  bCount : Z;
  btags : list modbusTag
}.

Definition tag_end (t : modbusTag) : Z := start t + words t.

(** The order of [sort.Slice]: by function code, then start. Tags equal under
    it may come out in any order: the theorems hold for every sorted
    permutation. *)
Definition tag_le (a b : modbusTag) : Prop :=
  if bool_decide (fn a = fn b) then start a <= start b
  else Z_of_byte (fn a) < Z_of_byte (fn b).

Global Instance tag_le_dec a b : Decision (tag_le a b).
Proof. unfold tag_le. destruct (bool_decide (fn a = fn b)); apply _. Defined.

Definition single (t : modbusTag) : Block := mkBlock (fn t) (start t) (words t) [t].

(** One iteration of the loop: the block grown by [t], if [t] may join it. *)
Definition join (maxGap : Z) (cur : Block) (t : modbusTag) : option Block :=
  let stop := bStart cur + bCount cur in
  let tEnd := start t + words t in
  let gap := start t - stop in
  let newCount := Z.max tEnd stop - bStart cur in
  if bool_decide (fn t = bFunction cur) && (gap <=? maxGap) && (newCount <=? MaxRegistersPerRead)
  then Some (mkBlock (bFunction cur) (bStart cur) (u16 newCount) (btags cur ++ [t]))
  else None.

Fixpoint plan_loop (maxGap : Z) (cur : Block) (ts : list modbusTag) : list Block :=
  match ts with
  | [] => [cur]
  | t :: ts' =>
      match join maxGap cur t with
      | Some cur' => plan_loop maxGap cur' ts'
      | None => cur :: plan_loop maxGap (single t) ts'
      end
  end.

Definition plan_sorted (maxGap : Z) (sorted : list modbusTag) : list Block :=
  match sorted with
  | [] => []
  | t :: ts => plan_loop maxGap (single t) ts
  end.

Definition Plan (tags : list modbusTag) (maxGap : Z) : list Block :=
  plan_sorted maxGap (merge_sort tag_le tags).

Definition Tags (b : Block) : list string := map name (btags b).

(** ** The source *)

Record Reading := mkReading { rTag : string; rValue : float; rAt : Time }.

(** [modbusConn], and the dialer that opens one. *)
Class ModbusConn (C : Type) := {
  connRead : byte -> byte -> Z -> Z -> GoM C Error (list Z)
}.

Record ModbusSource (C : Type) := mkSource {
  sName : string;
  sAddr : string;
  sUnit : byte;
  sTimeout : Duration;
  sBlocks : list Block;
  sConn : option C
}.
Arguments mkSource {C}. Arguments sName {C}. Arguments sAddr {C}. Arguments sUnit {C}.
Arguments sTimeout {C}. Arguments sBlocks {C}. Arguments sConn {C}.

Definition set_conn {C} (k : option C) (s : ModbusSource C) : ModbusSource C :=
  mkSource (sName s) (sAddr s) (sUnit s) (sTimeout s) (sBlocks s) k.

Inductive SourceError :=
| EConnect (e : Error)
| ERead (fnc : byte) (blk_start blk_count : Z) (e : Error)
| EDecode (tag : string) (e : RegError)
| EPanic.

(** Decoding the tags of a block from its registers. *)
Fixpoint decode_tags (b : Block) (regs : list Z) (at_ : Time) (ts : list modbusTag)
    : result SourceError (list Reading) :=
  match ts with
  | [] => Ok []
  | t :: ts' =>
      let off := u16 (start t - bStart b) in
      if zlength regs <? off + words t then Err EPanic
      else
        match Decode (typ t) (order t) (slice off (off + words t) regs) with
        | Err e => Err (EDecode (name t) e)
        | Ok v =>
            match decode_tags b regs at_ ts' with
            | Err e => Err e
            | Ok rs => Ok (mkReading (name t) v at_ :: rs)
            end
        end
  end.

Definition is_exception (e : Error) : bool :=
  match e with ExceptionError _ _ => true | _ => false end.

Section Source.
Context {C : Type} `{!ModbusConn C}.
Variable dial : string -> Duration -> result Error C.

Fixpoint read_blocks (at_ : Time) (bs : list Block) (out : list Reading)
    : GoM (ModbusSource C) SourceError (list Reading) := fun s =>
  match bs with
  | [] => (Ok out, s)
  | b :: bs' =>
      match sConn s with
      | None => (Err EPanic, s)
      | Some c =>
          match connRead (bFunction b) (sUnit s) (bStart b) (bCount b) c with
          | (Err e, c') =>
              (Err (ERead (bFunction b) (bStart b) (bCount b) e),
               set_conn (if is_exception e then Some c' else None) s)
          | (Ok regs, c') =>
              match decode_tags b regs at_ (btags b) with
              | Err e => (Err e, set_conn (Some c') s)
              | Ok rs => read_blocks at_ bs' (out ++ rs) (set_conn (Some c') s)
              end
          end
      end
  end.

Definition Read (now : Time) : GoM (ModbusSource C) SourceError (list Reading) := fun s =>
  match sConn s with
  | Some _ => read_blocks now (sBlocks s) [] s
  | None =>
      match dial (sAddr s) (sTimeout s) with
      | Err e => (Err (EConnect e), s)
      | Ok c => read_blocks now (sBlocks s) [] (set_conn (Some c) s)
      end
  end.

Definition Close (s : ModbusSource C) : ModbusSource C := set_conn None s.
End Source.

(** ** Specification of a plan *)

(** A tag an asset model may define: one or two registers inside the table. *)
Definition tag_ok (t : modbusTag) : Prop :=
  1 <= words t <= 2 /\ 0 <= start t /\ tag_end t <= 0x10000.

(** [g] may be read by one request: one function code, at most 125 registers
    from the first to the last, and no run of more than [maxGap] unused
    registers between two of its tags. *)
Definition admissible (maxGap : Z) (g : list modbusTag) : Prop :=
  (forall t u, t ∈ g -> u ∈ g -> fn t = fn u /\ tag_end u - start t <= MaxRegistersPerRead) /\
  (forall x t u, t ∈ g -> u ∈ g -> tag_end t <= x -> x + maxGap < start u ->
     exists v, v ∈ g /\ x < tag_end v /\ start v <= x + maxGap).

(** A block covers exactly what its tags need. *)
Definition block_ok (maxGap : Z) (b : Block) : Prop :=
  btags b <> [] /\ 1 <= bCount b <= MaxRegistersPerRead /\ 0 <= bStart b /\
  bStart b + bCount b <= 0x10000 /\
  (forall t, t ∈ btags b -> fn t = bFunction b /\ bStart b <= start t /\ tag_end t <= bStart b + bCount b) /\
  admissible maxGap (btags b).

(** A device whose tables hold still while it is read, each as long as it may
    be: [I] is what a connection to it satisfies. *)
Definition serves {C} `{!ModbusConn C} (dev : byte -> list Z) (I : C -> Prop) : Prop :=
  forall c f u a q, I c -> read_fn f -> 0 <= a -> 1 <= q <= MaxRegistersPerRead -> a + q <= 0x10000 ->
    a + q <= zlength (dev f) ->
    exists c', connRead f u a q c = (Ok (slice a (a + q) (dev f)), c') /\ I c'.

(** The device has the registers of a tag. *)
Definition on_device (dev : byte -> list Z) (t : modbusTag) : Prop :=
  read_fn (fn t) /\ tag_end t <= zlength (dev (fn t)).

(** Every tag read on its own. *)
Fixpoint read_each (dev : byte -> list Z) (at_ : Time) (ts : list modbusTag)
    : result SourceError (list Reading) :=
  match ts with
  | [] => Ok []
  | t :: ts' =>
      match Decode (typ t) (order t) (slice (start t) (tag_end t) (dev (fn t))) with
      | Err e => Err (EDecode (name t) e)
      | Ok v =>
          match read_each dev at_ ts' with
          | Err e => Err e
          | Ok rs => Ok (mkReading (name t) v at_ :: rs)
          end
      end
  end.

(** The failures after which the connection is given up. *)
Definition transport_failure {A} (r : result SourceError A) : bool :=
  match r with
  | Err (EConnect _) => true
  | Err (ERead _ _ _ e) => negb (is_exception e)
  | _ => false
  end.

(** ** Lemmas *)

Lemma tag_le_iff a b :
  tag_le a b <-> Z_of_byte (fn a) < Z_of_byte (fn b) \/ (fn a = fn b /\ start a <= start b).
Proof.
  unfold tag_le. case_bool_decide as E.
  - split; [by right|]. intros [H|[_ H]]; [rewrite E in H; lia|done].
  - split; [by left|]. by intros [?|[? _]].
Qed.

Global Instance tag_le_trans : Transitive tag_le.
Proof.
  intros a b c. rewrite !tag_le_iff. intros [H1|[E1 H1]] [H2|[E2 H2]].
  - left; lia.
  - left. by rewrite <- E2.
  - left. by rewrite E1.
  - right. split; [congruence|lia].
Qed.

Global Instance tag_le_total : Total tag_le.
Proof.
  intros a b. rewrite !tag_le_iff. destruct (decide (fn a = fn b)) as [E|E].
  - destruct (Z_le_gt_dec (start a) (start b)); [left; by right|right; right; split; [done|lia]].
  - assert (Z_of_byte (fn a) <> Z_of_byte (fn b)) by (intros ?%Z_of_byte_inj; done). lia.
Qed.

Lemma tag_le_fn a b : tag_le a b -> Z_of_byte (fn a) <= Z_of_byte (fn b).
Proof. intros [?|[-> _]]%tag_le_iff; lia. Qed.

Lemma tag_le_start a b : tag_le a b -> fn a = fn b -> start a <= start b.
Proof. intros [H|[_ H]]%tag_le_iff E; [rewrite E in H; lia|done]. Qed.

Definition bStop (b : Block) : Z := bStart b + bCount b.

(** The first tag of a block. *)
Definition leader (b : Block) : option modbusTag := head (btags b).

Lemma leader_elem b c : leader b = Some c -> c ∈ btags b.
Proof. unfold leader. destruct (btags b); [done|]. intros [= ->]. left. Qed.

(** The invariant of the block under construction: its registers start at its
    first tag, end where its last-ending tag ends, and form a request. *)
Definition cur_ok (maxGap : Z) (b : Block) : Prop :=
  block_ok maxGap b /\ (exists c, leader b = Some c /\ start c = bStart b) /\
  (exists t, t ∈ btags b /\ tag_end t = bStart b + bCount b).

Lemma single_ok maxGap t : 0 <= maxGap -> tag_ok t -> cur_ok maxGap (single t).
Proof.
  intros Hg (Hw & Hs & He). unfold cur_ok, block_ok, single, admissible, tag_end, MaxRegistersPerRead in *.
  cbn [btags bFunction bStart bCount].
  setoid_rewrite list_elem_of_singleton. split; [|split; by exists t].
  split; [done|]. split; [lia|]. do 2 (split; [lia|]). split; [by intros ? -> |].
  split; [intros ? ? -> ->; split; [done|lia]|intros x ? ? -> -> ? ?; lia].
Qed.

Lemma join_inv maxGap cur t cur' : join maxGap cur t = Some cur' ->
  fn t = bFunction cur /\ start t - bStop cur <= maxGap /\
  Z.max (tag_end t) (bStop cur) - bStart cur <= MaxRegistersPerRead /\
  cur' = mkBlock (bFunction cur) (bStart cur) (u16 (Z.max (tag_end t) (bStop cur) - bStart cur)) (btags cur ++ [t]).
Proof.
  unfold join. destruct (bool_decide _ && _ && _) eqn:E; [|done]. intros [= <-]. bool_to_prop. done.
Qed.

Lemma join_none maxGap cur t : join maxGap cur t = None ->
  fn t <> bFunction cur \/ bStop cur + maxGap < start t \/
  MaxRegistersPerRead < Z.max (tag_end t) (bStop cur) - bStart cur.
Proof.
  unfold join. destruct (bool_decide _ && _ && _) eqn:E; [done|]. intros _.
  apply andb_false_iff in E as [E|E]; [apply andb_false_iff in E as [E|E]|]; bool_to_prop;
    unfold bStop, tag_end; [by left|right; left; lia|right; right; lia].
Qed.

(** A tag of the same function code that may not join ends beyond the block. *)
Lemma join_none_beyond maxGap cur t :
  0 <= maxGap -> 1 <= bCount cur <= MaxRegistersPerRead -> tag_ok t ->
  join maxGap cur t = None -> fn t = bFunction cur -> bStop cur < tag_end t.
Proof.
  intros Hg Hcnt [? _] Ej E. unfold tag_end, bStop in *.
  apply join_none in Ej as [?|Ej]; [done|]. unfold tag_end, bStop in *. lia.
Qed.

(** Joining a tag opens no hole: the gap to the block's end is small enough. *)
Lemma join_admissible maxGap ts t bs0 n w :
  0 <= maxGap -> admissible maxGap ts ->
  (forall v, v ∈ ts ++ [t] -> bs0 <= start v /\ tag_end v <= bs0 + n) -> n <= MaxRegistersPerRead ->
  (forall u, u ∈ ts -> fn u = fn t /\ start u <= start t) -> start t < tag_end t ->
  w ∈ ts -> (forall v, v ∈ ts -> tag_end v <= tag_end w) -> start t - tag_end w <= maxGap ->
  admissible maxGap (ts ++ [t]).
Proof.
  intros Hg [Hfn Hhole] Hcov Hn Hle Hpos Hw Hmax Hgap. split.
  - intros u v Hu Hv. pose proof (Hcov u Hu). pose proof (Hcov v Hv). split; [|lia].
    assert (forall z, z ∈ ts ++ [t] -> fn z = fn t) as E.
    { intros z [Hz | ->%list_elem_of_singleton]%elem_of_app; [by apply Hle|done]. }
    by rewrite (E u Hu), (E v Hv).
  - intros x u v Hu Hv Hux Hxv.
    assert (forall g, (exists z, z ∈ ts /\ x < tag_end z /\ start z <= x + maxGap) -> g ->
            exists z, z ∈ ts ++ [t] /\ x < tag_end z /\ start z <= x + maxGap) as Hlift.
    { intros g (z & Hz & ?) _. exists z. split; [|done]. apply elem_of_app. by left. }
    apply elem_of_app in Hu as [Hu | ->%list_elem_of_singleton].
    + apply elem_of_app in Hv as [Hv | ->%list_elem_of_singleton]; apply (Hlift True); try done.
      * by apply (Hhole x u v).
      * destruct (Z_le_dec (start w) (x + maxGap)); [exists w; split; [done|lia]|].
        apply (Hhole x u w); done || lia.
    + apply elem_of_app in Hv as [Hv | ->%list_elem_of_singleton]; [|lia].
      apply Hle in Hv. lia.
Qed.

Lemma join_ok maxGap cur t cur' :
  0 <= maxGap -> join maxGap cur t = Some cur' -> cur_ok maxGap cur -> tag_ok t ->
  (forall u, u ∈ btags cur -> tag_le u t) ->
  cur_ok maxGap cur' /\ btags cur' = btags cur ++ [t] /\ bFunction cur' = bFunction cur /\
  bStart cur' = bStart cur /\ bStop cur' = Z.max (tag_end t) (bStop cur).
Proof.
  intros Hg (Hf & Hgap & Hmax & ->)%join_inv (Hb & (c & Hlead & Hcs) & (w & Hw & Hwe)) (Htw & Ht0 & Hte) Hle.
  destruct Hb as (Hne & Hcnt & Hs0 & Hend & Hcov & Hadm). fold (bStop cur) in *.
  assert (forall u, u ∈ btags cur -> fn u = fn t /\ start u <= start t) as Hle'.
  { intros u Hu. assert (fn u = fn t) as E by (rewrite Hf; by apply Hcov).
    split; [done|]. by apply tag_le_start; [apply Hle|]. }
  pose proof (leader_elem _ _ Hlead) as Hc. pose proof (proj2 (Hle' c Hc)).
  set (n := Z.max (tag_end t) (bStop cur) - bStart cur) in *. unfold tag_end in Hte; fold (tag_end t) in Hte.
  assert (start t < tag_end t) by (unfold tag_end; lia).
  assert (bStart cur < bStop cur) by (unfold bStop; lia).
  assert (u16 n = n) as Hn by (apply uwrap_id; unfold in_u, MaxRegistersPerRead in *; lia).
  assert (forall v, v ∈ btags cur ++ [t] -> bStart cur <= start v /\ tag_end v <= bStart cur + n) as Hcov'.
  { intros v [Hv | ->%list_elem_of_singleton]%elem_of_app; [|lia].
    pose proof (Hcov v Hv) as (_ & ? & ?). lia. }
  rewrite Hn. cbn [btags bFunction bStart bCount]. unfold bStop at 1. cbn [bStart bCount].
  split; [|repeat split; lia].
  split; [|split].
  - unfold block_ok. cbn [btags bFunction bStart bCount]. split; [by destruct (btags cur)|].
    split; [lia|]. do 2 (split; [lia|]). split.
    + intros v Hv. split; [|by apply Hcov'].
      apply elem_of_app in Hv as [Hv | ->%list_elem_of_singleton]; [by apply Hcov|done].
    + apply (join_admissible maxGap (btags cur) t (bStart cur) n w); try done; [|lia].
      intros v Hv. rewrite Hwe. by apply Hcov.
  - exists c. split; [|done]. unfold leader in *. cbn. by destruct (btags cur).
  - cbn [btags bStart bCount]. destruct (Z_le_dec (tag_end t) (bStop cur)).
    + exists w. split; [apply elem_of_app; by left|]. lia.
    + exists t. split; [apply elem_of_app; right; by apply list_elem_of_singleton|lia].
Qed.

(** Every block of a plan is well formed, and together they hold the tags in
    order. *)
Lemma plan_loop_ok maxGap ts cur :
  0 <= maxGap -> cur_ok maxGap cur -> Forall tag_ok ts -> StronglySorted tag_le (btags cur ++ ts) ->
  Forall (cur_ok maxGap) (plan_loop maxGap cur ts) /\
  concat (map btags (plan_loop maxGap cur ts)) = btags cur ++ ts.
Proof.
  intros Hg. revert cur. induction ts as [|t ts IH]; intros cur Hcur Hts Hsort; cbn [plan_loop].
  { cbn. split; [|done]. by constructor. }
  apply Forall_cons in Hts as [Ht Hts]. destruct (join maxGap cur t) as [cur'|] eqn:Ej.
  - destruct (join_ok _ _ _ _ Hg Ej Hcur Ht) as (Hcur' & Et & _).
    { intros u Hu. eapply StronglySorted_app_1_elem_of; [done..|left]. }
    specialize (IH cur' Hcur' Hts). rewrite Et, <- app_assoc in IH. by apply IH.
  - destruct (IH (single t) (single_ok _ _ Hg Ht) Hts) as [H1 H2].
    { by apply StronglySorted_app_1_r in Hsort. }
    cbn [map concat]. rewrite H2. split; [by constructor|done].
Qed.

Lemma plan_loop_cons maxGap ts cur :
  btags cur <> [] -> exists b bs, plan_loop maxGap cur ts = b :: bs /\ leader b = leader cur.
Proof.
  revert cur. induction ts as [|t ts IH]; intros cur Hne; cbn [plan_loop]; [by exists cur, []|].
  destruct (join maxGap cur t) as [cur'|] eqn:Ej; [|by eexists cur, _].
  apply join_inv in Ej as (_ & _ & _ & ->).
  destruct (IH (mkBlock (bFunction cur) (bStart cur) (u16 (Z.max (tag_end t) (bStop cur) - bStart cur)) (btags cur ++ [t])))
    as (b & bs & -> & Hb); [by destruct (btags cur)|].
  exists b, bs. split; [done|]. rewrite Hb. unfold leader. cbn. by destruct (btags cur).
Qed.

Lemma plan_loop_elem maxGap ts cur b :
  b ∈ plan_loop maxGap cur ts -> btags cur <> [] ->
  leader b = leader cur \/ b ∈ tail (plan_loop maxGap cur ts).
Proof.
  intros Hb Hne. destruct (plan_loop_cons maxGap ts cur Hne) as (b0 & bs & E & Hb0).
  rewrite E in *. apply elem_of_cons in Hb as [-> | Hb]; [by left|by right].
Qed.

(** A later block of the same function code is led by a tag that ends beyond
    every register read so far. *)
Lemma leaders_beyond maxGap ts cur b l :
  0 <= maxGap -> cur_ok maxGap cur -> Forall tag_ok ts -> StronglySorted tag_le (btags cur ++ ts) ->
  b ∈ tail (plan_loop maxGap cur ts) -> leader b = Some l ->
  l ∈ ts /\ (fn l = bFunction cur -> bStop cur < tag_end l).
Proof.
  intros Hg. revert cur. induction ts as [|t ts IH]; intros cur Hcur Hts Hsort Hb Hl; cbn [plan_loop] in Hb.
  { by apply elem_of_nil in Hb. }
  apply Forall_cons in Hts as [Ht Hts]. destruct (join maxGap cur t) as [cur'|] eqn:Ej.
  - destruct (join_ok _ _ _ _ Hg Ej Hcur Ht) as (Hcur' & Et & Ef & _ & Estop).
    { intros u Hu. eapply StronglySorted_app_1_elem_of; [done..|left]. }
    destruct (IH cur') as [Hin Hend]; try done.
    { by rewrite Et, <- app_assoc. }
    split; [by right|]. intros E. rewrite Ef in Hend. specialize (Hend E). lia.
  - cbn [tail] in Hb. pose proof (single_ok _ _ Hg Ht) as Hs.
    destruct Hcur as ((_ & Hcnt & _ & _ & Hcov & _) & (c & Hc%leader_elem & _) & _).
    destruct (Hcov c Hc) as (Hcf & _).
    pose proof (join_none_beyond _ _ _ Hg Hcnt Ht Ej) as Hbeyond.
    destruct (plan_loop_elem _ _ _ _ Hb) as [Hbt|Hb']; [done|rewrite Hl in Hbt; injection Hbt as ->; split; [left|done]|].
    destruct (IH (single t)) as [Hin Hend]; try done; [by apply StronglySorted_app_1_r in Hsort|].
      split; [by right|]. intros E.
      assert (tag_le c t) as Hct by (eapply StronglySorted_app_1_elem_of; [done..|left]).
      apply StronglySorted_app_1_r, StronglySorted_inv in Hsort as [_ Hall].
      pose proof (proj1 (Forall_forall _ _) Hall l Hin) as Htl.
      apply tag_le_fn in Hct, Htl. rewrite Hcf, E in *.
      assert (fn t = bFunction cur) as Eft by (apply Z_of_byte_inj; lia).
      specialize (Hend (eq_sym Eft)). specialize (Hbeyond Eft).
      unfold bStop in Hend. cbn [single bStart bCount] in Hend. unfold tag_end in Hbeyond. unfold bStop in *. lia.
Qed.

(** Two tags of [S] that no admissible group of tags of [S] holds together. *)
Definition separated (maxGap : Z) (S : list modbusTag) (l1 l2 : modbusTag) : Prop :=
  forall g, admissible maxGap g -> (forall v, v ∈ g -> v ∈ S) -> l1 ∈ g -> l2 ∈ g -> False.

Lemma leaders_separated maxGap P ts cur b c l :
  0 <= maxGap -> cur_ok maxGap cur -> Forall tag_ok ts ->
  StronglySorted tag_le (P ++ btags cur ++ ts) ->
  (forall p, p ∈ P -> fn p = bFunction cur -> tag_end p <= bStop cur) ->
  leader cur = Some c -> b ∈ tail (plan_loop maxGap cur ts) -> leader b = Some l ->
  separated maxGap (P ++ btags cur ++ ts) c l.
Proof.
  intros Hg. revert cur. induction ts as [|t ts IH]; intros cur Hcur Hts Hsort HP Hc Hb Hl; cbn [plan_loop] in Hb.
  { by apply elem_of_nil in Hb. }
  pose proof (StronglySorted_app_1_r _ _ _ Hsort) as Hsort'.
  pose proof (leaders_beyond _ _ _ _ _ Hg Hcur Hts Hsort' Hb Hl) as [Hlin Hlend].
  apply Forall_cons in Hts as [Ht Hts]. destruct (join maxGap cur t) as [cur'|] eqn:Ej.
  - destruct (join_ok _ _ _ _ Hg Ej Hcur Ht) as (Hcur' & Et & Ef & _ & Estop).
    { intros u Hu. eapply StronglySorted_app_1_elem_of; [done..|left]. }
    replace (P ++ btags cur ++ t :: ts) with (P ++ btags cur' ++ ts) in * by (by rewrite Et, <- !app_assoc).
    apply (IH cur'); try done.
    + rewrite Ef. intros p Hp E. specialize (HP p Hp E). lia.
    + unfold leader in *. rewrite Et. by destruct (btags cur).
  - destruct Hcur as ((_ & Hcnt & _ & _ & Hcov & _) & (c' & Hc' & Hcs) & _).
    rewrite Hc in Hc'. injection Hc' as <-. destruct (Hcov c (leader_elem _ _ Hc)) as (Hcf & _ & Hce).
    intros g [Hspan Hhole] Hsub Hcg Hlg.
    destruct (Hspan c l Hcg Hlg) as [Hfl Hlen]. rewrite Hcf in Hfl. symmetry in Hfl. specialize (Hlend Hfl).
    assert (tag_le t l) as Htl.
    { apply elem_of_cons in Hlin as [-> | Hlin]; [by apply tag_le_iff; right|].
      apply StronglySorted_app_1_r, StronglySorted_inv in Hsort' as [_ Hall].
      by apply (proj1 (Forall_forall _ _) Hall). }
    assert (tag_le c t) as Hct.
    { eapply StronglySorted_app_1_elem_of; [exact Hsort'|by apply leader_elem|left]. }
    assert (fn t = bFunction cur) as Hft.
    { apply Z_of_byte_inj. apply tag_le_fn in Hct, Htl. rewrite Hcf in Hct. rewrite Hfl in Htl. lia. }
    pose proof (tag_le_start t l Htl ltac:(congruence)) as Hstl.
    apply join_none in Ej as [?|[Hfar|Hlong]]; [done| |].
    + destruct (Hhole (bStop cur) c l) as (v & Hv & Hv1 & Hv2); [done..|lia|].
      destruct (Hspan c v Hcg Hv) as [Hcv _]. rewrite Hcf in Hcv.
      apply Hsub, elem_of_app in Hv as [Hv|[Hv|Hv]%elem_of_app].
      * specialize (HP v Hv (eq_sym Hcv)). lia.
      * destruct (Hcov v Hv) as (_ & _ & ?). unfold bStop in *. lia.
      * assert (tag_le t v) as Htv.
        { apply elem_of_cons in Hv as [-> | Hv]; [by apply tag_le_iff; right|].
          apply StronglySorted_app_1_r, StronglySorted_inv in Hsort' as [_ Hall].
          by apply (proj1 (Forall_forall _ _) Hall). }
        apply tag_le_start in Htv; [lia|congruence].
    + assert (tag_end t <= tag_end l); [|lia].
      destruct (plan_loop_elem _ _ _ _ Hb) as [E|Hb']; [done|rewrite Hl in E; by injection E as ->|].
      apply (leaders_beyond _ _ _ _ l) in Hb' as [_ Hend]; try done.
      * assert (fn l = fn t) as E by congruence. specialize (Hend E).
        unfold bStop in Hend. cbn [single bStart bCount] in Hend. unfold tag_end in *. lia.
      * by apply single_ok.
      * by apply StronglySorted_app_1_r in Hsort'.
Qed.

Definition blocks_separated (maxGap : Z) (S : list modbusTag) (b1 b2 : Block) : Prop :=
  forall l1 l2, leader b1 = Some l1 -> leader b2 = Some l2 -> separated maxGap S l1 l2.

Lemma plan_loop_separated maxGap P ts cur :
  0 <= maxGap -> cur_ok maxGap cur -> Forall tag_ok ts ->
  StronglySorted tag_le (P ++ btags cur ++ ts) ->
  (forall p, p ∈ P -> fn p = bFunction cur -> tag_end p <= bStop cur) ->
  ForallOrdPairs (blocks_separated maxGap (P ++ btags cur ++ ts)) (plan_loop maxGap cur ts).
Proof.
  intros Hg. revert P cur. induction ts as [|t ts IH]; intros P cur Hcur Hts Hsort HP.
  { cbn [plan_loop]. repeat constructor. }
  pose proof (fun b c l => leaders_separated maxGap P (t :: ts) cur b c l Hg Hcur Hts Hsort HP) as Hsep.
  cbn [plan_loop] in *. pose proof (StronglySorted_app_1_r _ _ _ Hsort) as Hsort'.
  apply Forall_cons in Hts as [Ht Hts]. destruct (join maxGap cur t) as [cur'|] eqn:Ej.
  - destruct (join_ok _ _ _ _ Hg Ej Hcur Ht) as (Hcur' & Et & Ef & _ & Estop).
    { intros u Hu. eapply StronglySorted_app_1_elem_of; [done..|left]. }
    replace (P ++ btags cur ++ t :: ts) with (P ++ btags cur' ++ ts) in * by (by rewrite Et, <- !app_assoc).
    apply IH; try done. rewrite Ef. intros p Hp E. specialize (HP p Hp E). lia.
  - constructor.
    + apply List.Forall_forall. intros b Hb l1 l2 Hl1 Hl2. apply (Hsep b); [done| |done].
      cbn [tail]. by apply list_elem_of_In.
    + replace (P ++ btags cur ++ t :: ts) with ((P ++ btags cur) ++ btags (single t) ++ ts) in *
        by (by rewrite <- !app_assoc).
      apply IH; [by apply single_ok|done|done|]. cbn [single bFunction]. intros p Hp E.
      pose proof Hcur as ((_ & Hcnt & _ & _ & Hcov & _) & (c & Hc & _) & _).
      destruct (Hcov c (leader_elem _ _ Hc)) as (Hcf & _).
      pose proof (join_none_beyond _ _ _ Hg Hcnt Ht Ej) as Hbeyond.
      change (bStop (single t)) with (tag_end t).
      apply elem_of_app in Hp as [Hp|Hp].
      * assert (tag_le p c) as Hpc.
        { rewrite <- !app_assoc in Hsort. eapply StronglySorted_app_1_elem_of; [exact Hsort|done|].
          apply elem_of_app. left. by apply leader_elem. }
        assert (tag_le c t) as Hct.
        { eapply StronglySorted_app_1_elem_of; [exact Hsort'|by apply leader_elem|left]. }
        apply tag_le_fn in Hpc, Hct. rewrite <- E, Hcf in *.
        assert (fn p = bFunction cur) as E' by (apply Z_of_byte_inj; lia).
        specialize (HP p Hp E'). rewrite E' in *. specialize (Hbeyond eq_refl). lia.
      * destruct (Hcov p Hp) as (E' & _ & ?). specialize (Hbeyond ltac:(congruence)). unfold bStop in *. lia.
Qed.

(** Items no two of which share a group need as many groups as items. *)
Lemma separated_groups {A B} (R : B -> B -> Prop) (key : B -> option A) (bs : list B) (groups : list (list A)) :
  ForallOrdPairs R bs ->
  (forall b, b ∈ bs -> exists l g, key b = Some l /\ g ∈ groups /\ l ∈ g) ->
  (forall b1 b2 l1 l2 g, R b1 b2 -> key b1 = Some l1 -> key b2 = Some l2 -> g ∈ groups -> l1 ∈ g -> l2 ∈ g -> False) ->
  (length bs <= length groups)%nat.
Proof.
  intros Hpairs. revert groups. induction Hpairs as [|b bs Hb Hbs IH]; intros groups Hcov Hsep; [cbn; lia|].
  destruct (Hcov b) as (l & g & Hl & Hg & Hlg); [left|].
  apply list_elem_of_split in Hg as (g1 & g2 & ->).
  assert (length bs <= length (g1 ++ g2))%nat; [|rewrite length_app in *; cbn; lia].
  apply IH.
  - intros b' Hb'. destruct (Hcov b') as (l' & g' & Hl' & Hg' & Hlg'); [by right|].
    exists l', g'. split; [done|]. split; [|done].
    rewrite !elem_of_app in *. rewrite elem_of_cons in Hg'. destruct Hg' as [?|[-> |?]]; [by left| |by right].
    exfalso. rewrite List.Forall_forall in Hb. apply (Hsep b b' l l' g); try done.
    + apply Hb. by apply list_elem_of_In.
    + apply elem_of_app. right. left.
  - intros b1 b2 l1 l2 g' HR H1 H2 Hg'. apply (Hsep b1 b2 l1 l2 g' HR H1 H2).
    rewrite !elem_of_app in *. rewrite elem_of_cons. tauto.
Qed.

Lemma plan_sorted_cur maxGap t ts :
  0 <= maxGap -> Forall tag_ok (t :: ts) -> cur_ok maxGap (single t) /\ Forall tag_ok ts.
Proof. intros Hg [Ht Hts]%Forall_cons. split; [by apply single_ok|done]. Qed.

Lemma Plan_sorted tags : StronglySorted tag_le (merge_sort tag_le tags).
Proof. apply (StronglySorted_merge_sort _). Qed.

Lemma plan_sorted_ok maxGap xs :
  0 <= maxGap -> Forall tag_ok xs -> StronglySorted tag_le xs ->
  Forall (cur_ok maxGap) (plan_sorted maxGap xs) /\ concat (map btags (plan_sorted maxGap xs)) = xs.
Proof.
  destruct xs as [|t ts]; intros Hg Hok Hs; [by split|]. destruct (plan_sorted_cur _ _ _ Hg Hok) as [H1 H2].
  by apply (plan_loop_ok maxGap ts (single t)).
Qed.

Lemma cur_ok_block maxGap bs : Forall (cur_ok maxGap) bs -> Forall (block_ok maxGap) bs.
Proof. intros H. apply (Forall_impl _ _ _ H). by intros b (? & _). Qed.

Lemma slice_slice {A} lo hi a b (xs : list A) :
  0 <= lo -> 0 <= a -> a <= b -> lo + b <= hi -> slice a b (slice lo hi xs) = slice (lo + a) (lo + b) xs.
Proof.
  intros. unfold slice. rewrite skipn_firstn_comm, drop_drop, take_take.
  replace (Z.to_nat lo + Z.to_nat a)%nat with (Z.to_nat (lo + a)) by lia. f_equal. lia.
Qed.

Lemma read_each_app dev at_ xs ys :
  read_each dev at_ (xs ++ ys) =
  match read_each dev at_ xs with
  | Err e => Err e
  | Ok rs => match read_each dev at_ ys with Err e => Err e | Ok rs' => Ok (rs ++ rs') end
  end.
Proof.
  induction xs as [|x xs IH]; cbn [app read_each]; [by destruct (read_each dev at_ ys)|].
  destruct (Decode _ _ _); [|done]. rewrite IH. destruct (read_each dev at_ xs); [|done].
  by destruct (read_each dev at_ ys).
Qed.

Lemma decode_tags_each maxGap dev b at_ ts :
  block_ok maxGap b -> Forall tag_ok (btags b) -> bStop b <= zlength (dev (bFunction b)) ->
  (forall t, t ∈ ts -> t ∈ btags b) ->
  decode_tags b (slice (bStart b) (bStart b + bCount b) (dev (bFunction b))) at_ ts = read_each dev at_ ts.
Proof.
  intros (_ & Hc & H0 & Hend & Hcov & _) Hok Hlen. unfold MaxRegistersPerRead in Hc. unfold bStop in Hlen.
  induction ts as [|t ts IH]; intros Hin; [done|]. cbn [decode_tags read_each].
  rewrite IH by (intros u Hu; apply Hin; by right). clear IH.
  assert (t ∈ btags b) as Ht by (apply Hin; left).
  destruct (Hcov t Ht) as (Hf & Hs & He). destruct (proj1 (Forall_forall _ _) Hok t Ht) as (Hw & _ & _).
  unfold tag_end in *. assert (u16 (start t - bStart b) = start t - bStart b) as ->.
  { apply uwrap_id. unfold in_u. lia. }
  rewrite slice_length by lia. destruct (Z.ltb_spec (bStart b + bCount b - bStart b) (start t - bStart b + words t)); [lia|].
  rewrite slice_slice by lia. rewrite Hf. by replace (bStart b + (start t - bStart b)) with (start t) by lia;
    replace (bStart b + (start t - bStart b + words t)) with (start t + words t) by lia.
Qed.

Lemma set_conn_set {C} (k k' : option C) s : set_conn k (set_conn k' s) = set_conn k s.
Proof. done. Qed.

Lemma read_blocks_each {C} `{!ModbusConn C} maxGap dev (I : C -> Prop) at_ bs out s c :
  serves dev I -> Forall (cur_ok maxGap) bs -> Forall tag_ok (concat (map btags bs)) ->
  Forall (on_device dev) (concat (map btags bs)) -> sConn s = Some c -> I c ->
  exists c', I c' /\ read_blocks at_ bs out s =
    (match read_each dev at_ (concat (map btags bs)) with Err e => Err e | Ok rs => Ok (out ++ rs) end,
     set_conn (Some c') s).
Proof.
  intros Hserve. revert out s c. induction bs as [|b bs IH]; intros out s c Hbs Hts Hdev Hc HI; cbn [read_blocks map concat].
  { exists c. split; [done|]. cbn [read_each]. rewrite app_nil_r. destruct s; cbn in *. by subst. }
  apply Forall_cons in Hbs as [Hb Hbs]. apply Forall_app in Hts as [Htb Hts]. apply Forall_app in Hdev as [Hdb Hdev].
  destruct Hb as (Hb & _ & Hlast). pose proof Hb as (_ & Hq & H0 & Hend & Hcov & _). rewrite Hc.
  assert (read_fn (bFunction b) /\ bStop b <= zlength (dev (bFunction b))) as [Hfn Hlen].
  { destruct Hlast as (t & Ht & Et). destruct (proj1 (Forall_forall _ _) Hdb t Ht) as [H1 H2].
    destruct (Hcov t Ht) as (<- & _). split; [done|]. unfold bStop. by rewrite <-Et. }
  destruct (Hserve c (bFunction b) (sUnit s) (bStart b) (bCount b) HI Hfn H0 Hq Hend Hlen) as (c1 & -> & HI1).
  rewrite (decode_tags_each maxGap) by done. rewrite read_each_app.
  destruct (read_each dev at_ (btags b)) as [rs|e]; [|by exists c1].
  destruct (IH (out ++ rs) (set_conn (Some c1) s) c1) as (c2 & HI2 & ->); try done.
  exists c2. split; [done|]. rewrite set_conn_set.
  destruct (read_each dev at_ _) as [rs'|]; [|done]. by rewrite app_assoc.
Qed.

Lemma read_blocks_conn {C} `{!ModbusConn C} at_ bs out s r s' :
  sConn s <> None -> read_blocks at_ bs out s = (r, s') ->
  set_conn None s' = set_conn None s /\ (sConn s' = None <-> transport_failure r = true).
Proof.
  revert out s. induction bs as [|b bs IH]; intros out s Hc; cbn [read_blocks].
  { intros [= <- <-]. by split; [|split]. }
  destruct (sConn s) as [c|] eqn:Ec; [clear Hc|done].
  destruct (connRead _ _ _ _ c) as [[regs|e] c'].
  - destruct (decode_tags _ _ _ _) as [rs|e] eqn:Ed; [by intros [? ?]%IH|]. intros [= <- <-]. split; [done|].
    split; [done|]. intros Ht. exfalso. revert Ed Ht. clear. generalize (btags b). intros ts. revert e.
    induction ts as [|t ts IH]; intros e; cbn [decode_tags]; [done|]. case_match; [by intros [= <-]|].
    case_match; [|by intros [= <-]]. case_match; [done|]. intros [= <-]. eauto.
  - intros [= <- <-]. split; [done|]. cbn. by destruct (is_exception e).
Qed.

Lemma read_coalesced {C} `{!ModbusConn C} (dial : string -> Duration -> result Error C)
    (dev : byte -> list Z) (I : C -> Prop) (maxGap : Z) (sorted : list modbusTag)
    (s : ModbusSource C) (now : Time) :
  serves dev I -> 0 <= maxGap -> Forall tag_ok sorted -> Forall (on_device dev) sorted ->
  StronglySorted tag_le sorted -> sBlocks s = plan_sorted maxGap sorted ->
  (exists c, (sConn s = Some c \/ sConn s = None /\ dial (sAddr s) (sTimeout s) = Ok c) /\ I c) ->
  exists c', I c' /\ Read dial now s = (read_each dev now sorted, set_conn (Some c') s).
Proof.
  intros Hserve Hg Hok Hdev Hs Hb (c & Hc & HI).
  destruct (plan_sorted_ok maxGap sorted Hg Hok Hs) as (Hbs & Hcat).
  assert (forall k, sBlocks k = sBlocks s -> sConn k = Some c -> set_conn None k = set_conn None s ->
    exists c', I c' /\ read_blocks now (sBlocks s) [] k = (read_each dev now sorted, set_conn (Some c') s)) as H.
  { intros k Ek Hk Eq. destruct (read_blocks_each maxGap dev I now (sBlocks s) [] k c) as (c' & HI' & ->); try done.
    - by rewrite Hb.
    - by rewrite Hb, Hcat.
    - by rewrite Hb, Hcat.
    - exists c'. split; [done|]. rewrite Hb, Hcat, <- (set_conn_set _ None k), Eq, set_conn_set.
      by destruct (read_each dev now sorted). }
  unfold Read. destruct Hc as [Hc | [Hc Hd]].
  - rewrite Hc. by apply H.
  - rewrite Hc, Hd. by apply H.
Qed.

(** ** Properties *)

(** A three-tag device for the witnesses: two float registers, a 16-bit one
    two registers on, and another far away. *)
Definition ex_tags : list modbusTag :=
  [mkTag "temp" x03 0 2 Float32 ABCD; mkTag "rpm" x03 4 1 UInt16 ABCD; mkTag "load" x03 200 1 Int16 ABCD].

(** A connection that answers every request from one table per function. *)
Local Instance table_conn : ModbusConn (byte -> list Z) := {
  connRead f _ a q c := (Ok (slice a (a + q) (c f)), c)
}.

Definition ex_dev : byte -> list Z := fun _ => repeat 7 (Z.to_nat 0x10000).

Lemma ex_tags_ok : Forall tag_ok ex_tags.
Proof. repeat constructor; vm_compute; intuition congruence. Qed.

Lemma ex_tags_sorted : StronglySorted tag_le ex_tags.
Proof. repeat constructor; vm_compute; congruence. Qed.

Lemma ex_dev_serves : serves ex_dev (fun c => c = ex_dev).
Proof.
  intros c f u a q -> _ _ _ _ _. by eexists.
Qed.

Lemma ex_tags_on_device : Forall (on_device ex_dev) ex_tags.
Proof. repeat constructor; try (by vm_compute); by left. Qed.

(** Whatever order [sort.Slice] leaves equal tags in, the plan holds
    every tag exactly once, in order, and every block is a request the protocol allows:
    at most 125 registers inside the table, of one function code, covering
    its tags and bridging no gap above [maxGap]. *)
Theorem plan_covers (maxGap : Z) (tags sorted : list modbusTag) :
  0 <= maxGap -> Forall tag_ok tags -> sorted ≡ₚ tags -> StronglySorted tag_le sorted ->
  Forall (block_ok maxGap) (plan_sorted maxGap sorted) /\
  concat (map btags (plan_sorted maxGap sorted)) = sorted /\
  concat (map btags (Plan tags maxGap)) ≡ₚ tags.
Proof.
  intros Hg Hok Hp Hs. destruct (plan_sorted_ok maxGap sorted) as [H1 H2]; [done|by rewrite Hp|done|].
  split; [by apply cur_ok_block|]. split; [done|]. unfold Plan. destruct (plan_sorted_ok maxGap (merge_sort tag_le tags)) as [_ ->]; try done.
  - by rewrite merge_sort_Permutation.
  - apply Plan_sorted.
  - apply merge_sort_Permutation.
Qed.

Lemma plan_covers_witness :
  length (plan_sorted 2 ex_tags) = 2%nat /\ concat (map btags (plan_sorted 2 ex_tags)) = ex_tags.
Proof.
  split; [reflexivity|].
  apply (plan_covers 2 ex_tags ex_tags);
    [lia|exact ex_tags_ok|reflexivity|exact ex_tags_sorted].
Defined.

(** C40: the plan is minimal. For sorted tags that lie in their tables, any
    set of requests the protocol and [maxGap] allow that reads every tag has
    at least as many requests as the plan. *)
Theorem plan_minimal (maxGap : Z) (sorted : list modbusTag) (groups : list (list modbusTag)) :
  0 <= maxGap -> Forall tag_ok sorted -> StronglySorted tag_le sorted ->
  Forall (admissible maxGap) groups ->
  (forall t, t ∈ sorted <-> exists g, g ∈ groups /\ t ∈ g) ->
  (length (plan_sorted maxGap sorted) <= length groups)%nat.
Proof.
  intros Hg Hok Hs Hadm Hcov. destruct sorted as [|t ts]; [cbn; lia|].
  destruct (plan_sorted_cur _ _ _ Hg Hok) as [Hcur Hts].
  pose proof (plan_loop_separated maxGap [] ts (single t) Hg Hcur Hts Hs) as Hsep.
  destruct (plan_loop_ok maxGap ts (single t) Hg Hcur Hts Hs) as [Hbs%cur_ok_block Hcat].
  cbn [plan_sorted]. apply (separated_groups (blocks_separated maxGap (t :: ts)) leader).
  - apply Hsep. by intros p ?%elem_of_nil.
  - intros b Hb. destruct (proj1 (Forall_forall _ _) Hbs b Hb) as (Hne & _).
    destruct (btags b) as [|l rest] eqn:E; [done|].
    assert (l ∈ t :: ts) as Hl.
    { change (t :: ts) with (btags (single t) ++ ts). rewrite <- Hcat, list_elem_of_In, in_concat.
      exists (btags b). split; [by apply in_map, list_elem_of_In|]. rewrite E. by left. }
    apply Hcov in Hl as (g & ? & ?). exists l, g. unfold leader. by rewrite E.
  - intros b1 b2 l1 l2 g HR H1 H2 Hgr. apply (HR l1 l2 H1 H2 g).
    + by apply (proj1 (Forall_forall _ _) Hadm).
    + intros v Hv. apply Hcov. by exists g.
Qed.

Lemma plan_minimal_witness : (length (plan_sorted 2 ex_tags) <= length (map (fun t => [t]) ex_tags))%nat.
Proof.
  apply (plan_minimal 2 ex_tags); [lia|exact ex_tags_ok|exact ex_tags_sorted| |].
  - apply Forall_map, Forall_forall. intros t Ht.
    destruct (single_ok 2 t ltac:(lia) (proj1 (Forall_forall _ _) ex_tags_ok t Ht)) as ((_ & _ & _ & _ & _ & H) & _).
    exact H.
  - intros t. split.
    + intros Ht. exists [t]. split; [|by apply list_elem_of_singleton].
      apply list_elem_of_In. apply (in_map (fun t => [t])). by apply list_elem_of_In.
    + intros (g & (u & <- & Hu)%list_elem_of_In%in_map_iff & ->%list_elem_of_singleton). by apply list_elem_of_In.
Defined.

(** C7: a coalesced read is indistinguishable from reading each tag on its
    own. Over a device whose tables hold still and have the tags' registers, [Read] of a planned source
    (dialling first when it has no connection) yields exactly the readings, or
    the first decoding error, of the individual reads, and keeps the
    connection. *)
Theorem Read_coalesced {C} `{!ModbusConn C} (dial : string -> Duration -> result Error C)
    (dev : byte -> list Z) (I : C -> Prop) (maxGap : Z) (sorted : list modbusTag)
    (s : ModbusSource C) (now : Time) :
  serves dev I -> 0 <= maxGap -> Forall tag_ok sorted -> Forall (on_device dev) sorted ->
  StronglySorted tag_le sorted -> sBlocks s = plan_sorted maxGap sorted ->
  (exists c, (sConn s = Some c \/ sConn s = None /\ dial (sAddr s) (sTimeout s) = Ok c) /\ I c) ->
  exists c', I c' /\ Read dial now s = (read_each dev now sorted, set_conn (Some c') s).
Proof. apply read_coalesced. Qed.

Lemma Read_coalesced_witness :
  exists c', Read (fun _ _ => Ok ex_dev) 0
      (mkSource "line" "plc:502" x01 Second (plan_sorted 2 ex_tags) None)
    = (read_each ex_dev 0 ex_tags, set_conn (Some c') (mkSource "line" "plc:502" x01 Second (plan_sorted 2 ex_tags) None)).
Proof.
  destruct (Read_coalesced (fun _ _ => Ok ex_dev) ex_dev (fun c => c = ex_dev) 2 ex_tags
    (mkSource "line" "plc:502" x01 Second (plan_sorted 2 ex_tags) None) 0
    ex_dev_serves ltac:(lia) ex_tags_ok ex_tags_on_device ex_tags_sorted eq_refl) as (c' & _ & H).
  - exists ex_dev. split; [right; split; reflexivity|reflexivity].
  - exists c'. exact H.
Defined.

(** A read changes nothing of a source but its connection, which is
    absent afterwards exactly when dialling failed or a request failed with
    something other than a protocol exception: the next read then dials
    again. *)
Theorem Read_conn {C} `{!ModbusConn C} (dial : string -> Duration -> result Error C)
    (now : Time) (s : ModbusSource C) :
  let '(r, s') := Read dial now s in
  set_conn None s' = set_conn None s /\ (sConn s' = None <-> transport_failure r = true).
Proof.
  unfold Read. destruct (sConn s) as [c|] eqn:Ec.
  - destruct (read_blocks now (sBlocks s) [] s) as [r s'] eqn:E. apply read_blocks_conn in E; [done|by rewrite Ec].
  - destruct (dial _ _) as [c|e]; [|done].
    destruct (read_blocks now (sBlocks s) [] (set_conn (Some c) s)) as [r s'] eqn:E. by apply read_blocks_conn in E.
Qed.
