(* ===== verification/Uns.v ===== *)
(** * Uns: the Unified Namespace contract (internal/domain/uns)

    Topics and filters (topic.go), the payload and its JSON form, quality codes
    and the sequence counter (payload.go). A Go string is its list of bytes.
    [Marshal] yields the JSON value tree that encoding/json writes. *)
From Stdlib Require Import ZArith Lia Strings.Ascii.
From S2P Require Import Prelude GoBytes GoFloat.
From S2P Require Export GoJson.

Open Scope string_scope.
Open Scope list_scope.
Open Scope Z_scope.

(** ** topic.go *)

Record UnsTopic := mkTopic {
  Enterprise : string;
  Site : string;
  Area : string;
  Line : string;
  Cell : string;
  Tag : string
}.

Definition EdgeSegment : string := "_edge".

Inductive SegmentProblem := SegEmpty | SegReserved | SegDollar | SegTooLong.

Inductive UnsError :=
| ErrInvalidSegment (p : SegmentProblem)
| ErrSegment (segment : string) (e : UnsError)
| ErrSegmentCount (n : Z)
| ErrEmptyFilter
| ErrHashNotLast
| ErrPartialWildcard
| ErrEmptySegment.

Definition char_tab : ascii := "009".
Definition char_lf : ascii := "010".
Definition char_cr : ascii := "013".

(** The characters of the literal in [ValidateSegment]. *)
Definition reserved_chars : string :=
  String "/" (String "+" (String "#" (String " " (String char_tab (String char_cr (String char_lf EmptyString)))))).

Definition ValidateSegment (s : string) : result UnsError unit :=
  if String.eqb s "" then Err (ErrInvalidSegment SegEmpty)
  else if ContainsAny s reserved_chars then Err (ErrInvalidSegment SegReserved)
  else if HasPrefix s "$" then Err (ErrInvalidSegment SegDollar)
  else if 128 <? Z.of_nat (String.length s) then Err (ErrInvalidSegment SegTooLong)
  else Ok tt.

Fixpoint validate_segments (segs : list (string * string)) : result UnsError unit :=
  match segs with
  | [] => Ok tt
  | (n, v) :: rest =>
      match ValidateSegment v with
      | Err e => Err (ErrSegment n e)
      | Ok _ => validate_segments rest
      end
  end.

Definition Validate (t : UnsTopic) : result UnsError unit :=
  validate_segments [("enterprise", Enterprise t); ("site", Site t); ("area", Area t);
                     ("line", Line t); ("cell", Cell t); ("tag", Tag t)].

Definition segments (t : UnsTopic) : list string :=
  [Enterprise t; Site t; Area t; Line t; Cell t; Tag t].

Definition TopicString (t : UnsTopic) : string := Join (segments t) "/".

Definition ParseTopic (s : string) : result UnsError UnsTopic :=
  match Split "/" s with
  | [p0; p1; p2; p3; p4; p5] =>
      let t := mkTopic p0 p1 p2 p3 p4 p5 in
      match Validate t with
      | Err e => Err e
      | Ok _ => Ok t
      end
  | parts => Err (ErrSegmentCount (zlength parts))
  end.

Definition LifecycleTopic (enterprise site node mt : string) : string :=
  Join [enterprise; site; EdgeSegment; node; mt] "/".

(** The loop of [MatchFilter] from segment [i] on: [fp] and [tp] are what is
    left of the two paths. *)
Fixpoint match_segments (fp tp : list string) : bool :=
  match fp with
  | [] => match tp with [] => true | _ => false end
  | f :: fp' =>
      if String.eqb f "#" then match fp' with [] => true | _ => false end
      else
        match tp with
        | [] => false
        | t :: tp' =>
            if negb (String.eqb f "+") && negb (String.eqb f t) then false
            else match_segments fp' tp'
        end
  end.

Definition MatchFilter (filter topic : string) : bool :=
  if String.eqb filter "#" then true
  else match_segments (Split "/" filter) (Split "/" topic).

Fixpoint validate_filter_parts (parts : list string) : result UnsError unit :=
  match parts with
  | [] => Ok tt
  | p :: rest =>
      if String.eqb p "#" then
        match rest with [] => validate_filter_parts rest | _ => Err ErrHashNotLast end
      else if String.eqb p "+" then validate_filter_parts rest
      else if ContainsAny p "+#" then Err ErrPartialWildcard
      else if String.eqb p "" then Err ErrEmptySegment
      else validate_filter_parts rest
  end.

Definition ValidateFilter (filter : string) : result UnsError unit :=
  if String.eqb filter "" then Err ErrEmptyFilter
  else validate_filter_parts (Split "/" filter).

(** ** payload.go *)

Abbreviation MessageType := string.
Definition Birth : MessageType := "BIRTH".
Definition Data : MessageType := "DATA".
Definition Death : MessageType := "DEATH".

Abbreviation MetricType := string.
Definition TypeInt16 : MetricType := "Int16".
Definition TypeUInt16 : MetricType := "UInt16".
Definition TypeInt32 : MetricType := "Int32".
Definition TypeUInt32 : MetricType := "UInt32".
Definition TypeFloat : MetricType := "Float".
Definition TypeDouble : MetricType := "Double".
Definition TypeBoolean : MetricType := "Boolean".
Definition TypeString : MetricType := "String".

Definition metric_types : list MetricType :=
  [TypeInt16; TypeUInt16; TypeInt32; TypeUInt32; TypeFloat; TypeDouble; TypeBoolean; TypeString].

Definition ParseMetricType (s : string) : option MetricType :=
  if String.eqb s "" then Some TypeFloat
  else if bool_decide (s ∈ metric_types) then Some s
  else None.

Abbreviation Quality := string.
Definition QualityGood : Quality := "GOOD".
Definition QualityStale : Quality := "STALE".
Definition QualityFlatline : Quality := "FLATLINE".
Definition QualityOutOfRange : Quality := "OUT_OF_RANGE".
Definition QualityBad : Quality := "BAD".

Definition Severity (q : Quality) : Z :=
  if String.eqb q QualityGood then 0
  else if String.eqb q QualityStale then 1
  else if String.eqb q QualityFlatline then 2
  else if String.eqb q QualityOutOfRange then 3
  else if String.eqb q QualityBad then 4
  else 5.

(** The dynamic types [Metric.Value] is given; a nil interface is [None]. *)
Inductive Value :=
| VInt (n : Z)
| VUint (n : Z)
| VBool (b : bool)
| VFloat32 (f : float)
| VFloat64 (f : float).

Record Context_ := mkContext {
  AssetID : string;
  AssetClass : string;
  cUnit : string;
  EngLow : option float;
  EngHigh : option float;
  cSource : string;
  cDescription : string;
  QualityRule : string
}.

(** [V] are the values it may hold: those the program gives it, or those the
    decoder makes. *)
Record MetricOf {V : Type} := mkMetric {
  mName : string;
  mTimestamp : Time;
  mDataType : MetricType;
  mValue : V;
  mQuality : Quality;
  mTopic : string;
  mContext : Context_
}.
Arguments MetricOf : clear implicits.
Arguments mkMetric {V}.
Abbreviation Metric := (MetricOf (option Value)).

(** A nil slice of metrics is [None]. *)
Record PayloadOf {V : Type} := mkPayload {
  pType : MessageType;
  pTimestamp : Time;
  pSeq : Z;
  pNode : string;
  pMetrics : option (list (MetricOf V))
}.
Arguments PayloadOf : clear implicits.
Arguments mkPayload {V}.
Abbreviation Payload := (PayloadOf (option Value)).

(** *** JSON *)

(** [Millis.MarshalJSON]. *)
Definition Millis_json (t : Time) : json := if IsZero t then JNull else JInt (UnixMilli t).

(** encoding/json refuses NaN and infinities. *)
Definition float_json (mk : float -> json) (f : float) : option json := if is_finite f then Some (mk f) else None.

Definition value_json (v : option Value) : option json :=
  match v with
  | None => Some JNull
  | Some (VInt n) | Some (VUint n) => Some (JInt n)
  | Some (VBool b) => Some (JBool b)
  | Some (VFloat32 f) => float_json JFloat32 f
  | Some (VFloat64 f) => float_json JFloat64 f
  end.

Definition omit_string (key s : string) : list (string * json) :=
  if String.eqb s "" then [] else [(key, JString s)].

Definition omit_float (key : string) (f : option float) : option (list (string * json)) :=
  match f with
  | None => Some []
  | Some x => j ← float_json JFloat64 x; Some [(key, j)]
  end.

Definition Context_json (c : Context_) : option json :=
  lo ← omit_float "eng_low" (EngLow c);
  hi ← omit_float "eng_high" (EngHigh c);
  Some (JObject ([("asset_id", JString (AssetID c)); ("asset_class", JString (AssetClass c))]
    ++ omit_string "unit" (cUnit c) ++ lo ++ hi ++ [("source", JString (cSource c))]
    ++ omit_string "description" (cDescription c) ++ omit_string "quality_rule" (QualityRule c))).

Definition Metric_json (m : Metric) : option json :=
  v ← value_json (mValue m);
  c ← Context_json (mContext m);
  Some (JObject ([("name", JString (mName m)); ("timestamp", Millis_json (mTimestamp m));
    ("datatype", JString (mDataType m)); ("value", v); ("quality", JString (mQuality m))]
    ++ omit_string "topic" (mTopic m) ++ [("properties", c)])).

Definition Marshal (p : Payload) : option json :=
  ms ← match pMetrics p with
       | None => Some JNull
       | Some ms => js ← mapM Metric_json ms; Some (JArray js)
       end;
  Some (JObject [("type", JString (pType p)); ("timestamp", Millis_json (pTimestamp p));
    ("seq", JInt (pSeq p)); ("node", JString (pNode p)); ("metrics", ms)]).

(** *** Sequencer: the state is the next number, a uint8. *)

Definition SequencerReset (s : Z) : Z := 0.
Definition Next (s : Z) : Z * Z := (s, u8 (s + 1)).

(** [n] calls of [Next]. *)
Fixpoint next_seq (n : nat) (s : Z) : list Z :=
  match n with
  | O => []
  | S n' => let '(x, s') := Next s in x :: next_seq n' s'
  end.

(** ** Specification *)

(** One segment of a filter against one segment of a topic. *)
Definition seg_matches (f t : string) : Prop := f <> "#" /\ (f = "+" \/ f = t).

(** A filter against a topic, segment by segment, a final [#] standing for any
    number of further segments (also none). *)
Definition levels_match (fs ts : list string) : Prop :=
  Forall2 seg_matches fs ts \/
  exists pre t1 t2, fs = pre ++ ["#"] /\ ts = t1 ++ t2 /\ Forall2 seg_matches pre t1.

(** The topics MQTT reserves, and the filters it keeps away from them. *)
Definition reserved (ts : list string) : Prop := exists t rest, ts = t :: rest /\ HasPrefix t "$" = true.
Definition wild_first (fs : list string) : Prop := exists rest, fs = "#" :: rest \/ fs = "+" :: rest.

(** The standard's relation (MQTT 4.7): level by level, except that a filter
    that begins with a wildcard does not match a topic that begins with [$]. *)
Definition filter_matches (fs ts : list string) : Prop := levels_match fs ts /\ ~ (wild_first fs /\ reserved ts).

Definition opt_finite (f : option float) : Prop :=
  match f with Some x => is_finite x = true | None => True end.

(** Every float a metric carries is finite. *)
Definition metric_finite (m : Metric) : Prop :=
  match mValue m with Some (VFloat32 f) | Some (VFloat64 f) => is_finite f = true | _ => True end /\
  opt_finite (EngLow (mContext m)) /\ opt_finite (EngHigh (mContext m)).

Definition payload_finite (p : Payload) : Prop :=
  match pMetrics p with None => True | Some ms => Forall metric_finite ms end.

(** ** Lemmas *)

Lemma match_segments_spec fp tp : match_segments fp tp = true <-> levels_match fp tp.
Proof.
  revert tp. induction fp as [|f fp IH]; intros tp; cbn [match_segments].
  { destruct tp as [|t tp]; split; try done.
    - intros _. by left.
    - intros [H|(pre & t1 & t2 & E & _)]; [by inversion H|by destruct pre]. }
  destruct (String.eqb_spec f "#") as [->|Hf].
  { destruct fp as [|g fp]; split; try done.
    - intros _. right. by exists [], [], tp.
    - intros [H|(pre & t1 & t2 & E & _ & H)].
      + inversion H as [|? ? ? ? [? _]]; congruence.
      + destruct pre as [|p pre]; [done|]. injection E as <- _. inversion H as [|? ? ? ? [? _]]; congruence. }
  destruct tp as [|t tp].
  { split; [done|]. intros [H|(pre & t1 & t2 & E & Et & H)]; [by inversion H|].
    symmetry in Et. apply app_nil in Et as [-> _]. inversion H; subst. by injection E. }
  destruct (negb _ && negb _) eqn:En.
  { bool_to_prop. apply String.eqb_neq in H, H0. split; [done|].
    intros [Hm|(pre & t1 & t2 & E & Et & Hm)].
    - inversion Hm as [|? ? ? ? [? [?|?]]]; done.
    - destruct Hm as [|p t1' pre t1 [? Hp] Hm]; [by injection E|]. injection E as <- _. injection Et as <- _.
      by destruct Hp. }
  assert (seg_matches f t) as Hft.
  { split; [done|]. apply andb_false_iff in En as [En|En]; apply negb_false_iff, String.eqb_eq in En; tauto. }
  rewrite IH. split.
  - intros [H|(pre & t1 & t2 & -> & -> & H)]; [left; by constructor|].
    right. exists (f :: pre), (t :: t1), t2. do 2 (split; [done|]). by constructor.
  - intros [H|(pre & t1 & t2 & E & Et & H)]; [left; by inversion H|].
    destruct H as [|p t1' pre t1 Hp H]; [by injection E|]. right. injection E as <- ->. injection Et as <- ->.
    by exists pre, t1, t2.
Qed.

Lemma ValidateSegment_ok s : ValidateSegment s = Ok tt ->
  s <> "" /\ ContainsAny s reserved_chars = false /\ HasPrefix s "$" = false.
Proof.
  unfold ValidateSegment. destruct (String.eqb_spec s ""); [done|].
  destruct (ContainsAny _ _) eqn:E1; [done|]. destruct (HasPrefix _ _) eqn:E2; [done|]. done.
Qed.

(** A valid segment contains none of the characters MQTT gives a meaning. *)
Lemma ValidateSegment_plain s c :
  ValidateSegment s = Ok tt -> Contains1 c reserved_chars = true -> Contains1 c s = false.
Proof. intros (_ & H & _)%ValidateSegment_ok Hc. by eapply ContainsAny_Contains1. Qed.

Lemma validate_segments_ok segs :
  validate_segments segs = Ok tt <-> Forall (fun s => ValidateSegment s = Ok tt) (map snd segs).
Proof.
  induction segs as [|[n v] segs IH]; cbn [validate_segments map snd]; [split; [constructor|done]|].
  rewrite Forall_cons. destruct (ValidateSegment v) as [[]|e]; rewrite ?IH; [tauto|].
  split; [done|]. by intros [? _].
Qed.

Lemma Validate_ok t : Validate t = Ok tt <-> Forall (fun s => ValidateSegment s = Ok tt) (segments t).
Proof. apply validate_segments_ok. Qed.

Lemma Split_topic t : Validate t = Ok tt -> Split "/" (TopicString t) = segments t.
Proof.
  intros H%Validate_ok. apply Split_Join; [done|]. eapply Forall_impl; [exact H|].
  intros s Hs. by apply (ValidateSegment_plain s "/").
Qed.

(** A segment that is neither a wildcard nor contains one. *)
Lemma valid_segment_filter s : ValidateSegment s = Ok tt ->
  String.eqb s "#" = false /\ String.eqb s "+" = false /\ ContainsAny s "+#" = false /\ String.eqb s "" = false.
Proof.
  intros H. pose proof (ValidateSegment_plain s "#" H eq_refl) as H1.
  pose proof (ValidateSegment_plain s "+" H eq_refl) as H2. apply ValidateSegment_ok in H as (H & _).
  assert (forall x, Contains1 "+" x = false -> Contains1 "#" x = false -> ContainsAny x "+#" = false) as HC.
  { clear. induction x as [|c x IH]; [done|]. cbn [Contains1 ContainsAny].
    intros [A B]%orb_false_iff [C D]%orb_false_iff. rewrite IH by done.
    by rewrite (Ascii.eqb_sym c), A, (Ascii.eqb_sym c), C. }
  rewrite !String.eqb_neq. repeat split; try done; try (by intros ->); by apply HC.
Qed.

Lemma match_segments_literal fs ts :
  Forall (fun s => ValidateSegment s = Ok tt) fs -> match_segments fs ts = true <-> fs = ts.
Proof.
  intros H. revert ts. induction H as [|f fs Hf Hfs IH]; intros ts; cbn [match_segments].
  { destruct ts; done. }
  destruct (valid_segment_filter f Hf) as (-> & -> & _). destruct ts as [|t ts]; [done|]. cbn [negb andb].
  destruct (String.eqb_spec f t) as [->|?]; cbn [negb]; [rewrite IH|]; split; intros; congruence.
Qed.

Lemma float_json_ok mk f : is_Some (float_json mk f) <-> is_finite f = true.
Proof. unfold float_json. destruct (is_finite f); split; [done|by eexists|by intros [? [=]]|done]. Qed.

Lemma bind_is_Some {A B} (o : option A) (k : A -> option B) :
  is_Some (o ≫= k) <-> exists a, o = Some a /\ is_Some (k a).
Proof. destruct o; cbn; split; [eauto|by intros (? & [= ->] & ?)|by intros []|by intros (? & ? & ?)]. Qed.

Lemma omit_float_ok key f : is_Some (omit_float key f) <-> opt_finite f.
Proof.
  destruct f as [x|]; cbn [omit_float opt_finite]; [|split; [done|by eexists]].
  rewrite bind_is_Some, <- (float_json_ok JFloat64). split; [intros (? & -> & _); by eexists|intros [j Hj]; by exists j].
Qed.

Lemma Metric_json_ok m : is_Some (Metric_json m) <-> metric_finite m.
Proof.
  unfold Metric_json, Context_json, metric_finite. rewrite !bind_is_Some.
  rewrite <- (omit_float_ok "eng_low"), <- (omit_float_ok "eng_high").
  assert (is_Some (value_json (mValue m)) <->
    match mValue m with Some (VFloat32 f) | Some (VFloat64 f) => is_finite f = true | _ => True end) as <-.
  { destruct (mValue m) as [[]|]; cbn [value_json]; rewrite ?float_json_ok; try done; split; try done; by eexists. }
  destruct (value_json _) as [v|], (omit_float "eng_low" _) as [lo|], (omit_float "eng_high" _) as [hi|]; cbn;
    rewrite ?is_Some_None_iff; naive_solver.
Qed.

Lemma next_seq_nth n k s : (k < n)%nat -> is_u8 s -> next_seq n s !! k = Some (u8 (s + Z.of_nat k)).
Proof.
  revert k s. induction n as [|n IH]; intros k s Hk Hs; [lia|]. cbn [next_seq Next].
  destruct k as [|k]; cbn [lookup list_lookup].
  - rewrite Z.add_0_r. f_equal. symmetry. by apply uwrap_id.
  - change (next_seq n (u8 (s + 1)) !! k = Some (u8 (s + Z.of_nat (S k)))).
    rewrite IH; [|lia|apply uwrap_range; lia]. f_equal. unfold u8, uwrap.
    rewrite Z.add_mod_idemp_l by lia. f_equal. lia.
Qed.

(** ** Properties *)

Lemma reserved_dec ts : reserved ts \/ ~ reserved ts.
Proof.
  destruct ts as [|t ts]; [right; by intros (? & ? & ? & _)|]. destruct (HasPrefix t "$") eqn:E; [left; by exists t, ts|right].
  intros (? & ? & [= <- <-] & ?). congruence.
Qed.

Lemma wild_first_dec fs : wild_first fs \/ ~ wild_first fs.
Proof.
  destruct fs as [|f fs]; [right; by intros [? [?|?]]|].
  destruct (String.eqb_spec f "#") as [->|]; [left; exists fs; by left|].
  destruct (String.eqb_spec f "+") as [->|]; [left; exists fs; by right|]. right. intros [? [?|?]]; congruence.
Qed.

(** C31: [MatchFilter] against the standard's relation, for any filter and
    topic, well-formed or not: it accepts everything the standard does, and
    beyond it exactly the topics beginning with [$] that a filter beginning
    with a wildcard matches level by level, which the standard excludes. *)
Theorem MatchFilter_spec (filter topic : string) :
  let fs := Split "/" filter in
  let ts := Split "/" topic in
  MatchFilter filter topic = true <-> filter_matches fs ts \/ (levels_match fs ts /\ wild_first fs /\ reserved ts).
Proof.
  cbv zeta. assert (MatchFilter filter topic = true <-> levels_match (Split "/" filter) (Split "/" topic)) as ->.
  { unfold MatchFilter. destruct (String.eqb_spec filter "#") as [->|_]; [|apply match_segments_spec].
    split; [|done]. intros _. right. by exists [], [], (Split "/" topic). }
  unfold filter_matches. destruct (reserved_dec (Split "/" topic)), (wild_first_dec (Split "/" filter)); tauto.
Qed.

(** Such a pair: [#] and a topic of the server itself. *)
Example MatchFilter_reserved : MatchFilter "#" "$SYS/uptime" = true /\ ~ filter_matches (Split "/" "#") (Split "/" "$SYS/uptime").
Proof.
  split; [done|]. intros [_ H]. apply H. split; [exists []; by left|]. by exists "$SYS", ["uptime"].
Qed.

(** C30: [ParseTopic] accepts exactly the renderings of valid topics and
    inverts [String] on them: no two valid topics share a path, and what is
    parsed renders back to the input byte for byte. *)
Theorem ParseTopic_spec (s : string) (t : UnsTopic) :
  ParseTopic s = Ok t <-> Validate t = Ok tt /\ s = TopicString t.
Proof.
  split.
  - unfold ParseTopic. pose proof (Join_Split "/" s) as HJ.
    destruct (Split "/" s) as [|p0 [|p1 [|p2 [|p3 [|p4 [|p5 [|p6 rest]]]]]]]; try done.
    destruct (Validate (mkTopic p0 p1 p2 p3 p4 p5)) as [[]|] eqn:E; [|done].
    intros <-%Ok_inj. by split.
  - intros [Hv ->]. unfold ParseTopic. rewrite (Split_topic t Hv). unfold segments.
    replace (mkTopic _ _ _ _ _ _) with t by (by destruct t). by rewrite Hv.
Qed.

(** A topic of the namespace is a concrete address. Used as a filter a
    valid topic is well formed and matches itself and nothing else; and no
    lifecycle topic, whatever its parts, is the address of a tag when its parts
    are plain segments. *)
Theorem topic_concrete (t : UnsTopic) :
  Validate t = Ok tt ->
  ValidateFilter (TopicString t) = Ok tt /\
  (forall topic, MatchFilter (TopicString t) topic = true <-> topic = TopicString t) /\
  (forall e s n mt, Forall (fun p => Contains1 "/" p = false) [e; s; n; mt] -> LifecycleTopic e s n mt <> TopicString t).
Proof.
  intros Hv. pose proof (Split_topic t Hv) as Hs. pose proof (proj1 (Validate_ok t) Hv) as Hall.
  assert (forall c, TopicString t = c -> length (Split "/" c) = 6%nat) as H6 by (intros c <-; by rewrite Hs).
  split; [|split].
  - unfold ValidateFilter. destruct (String.eqb_spec (TopicString t) ""); [by apply H6 in e|].
    rewrite Hs. clear -Hall. induction Hall as [|s l Hv Hall IH]; [done|]. cbn [validate_filter_parts].
    by destruct (valid_segment_filter s Hv) as (-> & -> & -> & ->).
  - intros topic. unfold MatchFilter. destruct (String.eqb_spec (TopicString t) "#"); [by apply H6 in e|].
    rewrite Hs, match_segments_literal by done. split; [|by intros ->].
    intros E. unfold TopicString. by rewrite E, Join_Split.
  - intros e s n mt Hp E. symmetry in E. apply H6 in E. revert E. unfold LifecycleTopic.
    rewrite Split_Join; [done..|]. repeat (apply Forall_cons in Hp as [? Hp]). by repeat constructor.
Qed.

Lemma topic_concrete_witness :
  let t := mkTopic "acme" "plant1" "packaging" "line1" "filler" "temp" in
  ValidateFilter (TopicString t) = Ok tt /\ MatchFilter (TopicString t) (TopicString t) = true.
Proof.
  destruct (topic_concrete (mkTopic "acme" "plant1" "packaging" "line1" "filler" "temp")) as (H1 & H2 & _);
    [vm_compute; reflexivity|]. split; [exact H1|]. by apply H2.
Defined.

(** Encoding a payload fails exactly when a value or an engineering
    limit in it is NaN or infinite. *)
Theorem Marshal_total (p : Payload) : is_Some (Marshal p) <-> payload_finite p.
Proof.
  unfold Marshal, payload_finite. rewrite bind_is_Some. destruct (pMetrics p) as [ms|].
  2:{ split; [done|]. intros _. by do 2 eexists. }
  transitivity (is_Some (mapM Metric_json ms)).
  { destruct (mapM Metric_json ms); cbn; rewrite ?is_Some_None_iff; naive_solver. }
  rewrite mapM_is_Some. split; intros H; (eapply Forall_impl; [exact H|]); intros m; apply Metric_json_ok.
Qed.

(** The [k]-th number after a reset is [k] modulo 256, so a consumer that
    expects the next number notices every loss of fewer than 256 messages in
    a row. *)
Theorem Sequencer_gaps (n k j : nat) (s : Z) :
  (k + j < n)%nat -> (0 < j < 256)%nat ->
  next_seq n (SequencerReset s) !! k = Some (Z.of_nat k mod 256) /\
  next_seq n (SequencerReset s) !! (k + j)%nat <> next_seq n (SequencerReset s) !! k.
Proof.
  intros Hk Hj. unfold SequencerReset. assert (is_u8 0) by (split; lia).
  rewrite !next_seq_nth by (done || lia). rewrite !Z.add_0_l. unfold u8, uwrap.
  split; [done|]. intros [= E]. rewrite Nat2Z.inj_add in E.
  pose proof (Z.div_mod (Z.of_nat k + Z.of_nat j) 256 ltac:(lia)).
  pose proof (Z.div_mod (Z.of_nat k) 256 ltac:(lia)). change (2 ^ 8) with 256 in E. lia.
Qed.

Lemma Sequencer_gaps_witness : next_seq 300 (SequencerReset 7) !! 257%nat = Some 1.
Proof. apply (Sequencer_gaps 300 257 3 7); lia. Defined.
