(* ===== verification/UnsWire.v ===== *)
(** * UnsWire: payloads on the wire (internal/domain/uns/payload.go)

    [Unmarshal]: what a consumer makes of the bytes of a message, and the round
    trip with [Marshal]. encoding/json fills a struct member by member: names
    match up to case, an unknown name is skipped, a later value overwrites an
    earlier one, null leaves a string or a number as it is. A value of the
    wrong kind makes the whole call fail, so that the order in which several
    are found does not show. *)
From Stdlib Require Import ZArith Lia Strings.Ascii SpecFloat.
From S2P Require Import Prelude GoBytes GoFloat Uns.

Open Scope string_scope.
Open Scope list_scope.
Open Scope Z_scope.

(** ** Names *)

(** [foldName]: upper case, with the two runes outside ASCII that fold to a letter. *)
Definition fold_rune (r : rune) : string :=
  match r with
  | Rune (String c EmptyString) => if within 97 122 c then str1 (char_of (code c - 32)) else str1 c
  | Rune s =>
      if String.eqb s (str2 "197" "191") then "S"
      else if String.eqb s (str3 "226" "132" "170") then "K"
      else s
  | Invalid => replacement
  end.

Definition foldName (s : string) : string := flatten (map fold_rune (runes s)).

Definition same_name (key name : string) : bool := String.eqb key name || String.eqb (foldName key) (foldName name).

(** ** Decoding *)

(** What the decoder puts in an interface; nil is [None], and an array or an
    object is kept as its syntax. *)
Inductive Any := AnyBool (b : bool) | AnyNum (f : float) | AnyStr (s : string) | AnyTree (v : syntax).

Section Decode.
Context {FT : FloatText}.

Definition decode_string (v : syntax) (old : string) : option string :=
  match v with SNull => Some old | SStr s => Some s | _ => None end.

Definition decode_u8 (v : syntax) (old : Z) : option Z :=
  match v with
  | SNull => Some old
  | SNum t => n ← ParseUint t; if n <? 256 then Some n else None
  | _ => None
  end.

(** [Millis.UnmarshalJSON]. *)
Definition decode_millis (v : syntax) : option Time :=
  match v with SNull => Some zeroTime | SNum t => (fun n => n * Millisecond) <$> ParseInt t | _ => None end.

Definition decode_pointer (v : syntax) : option (option float) :=
  match v with SNull => Some None | SNum t => Some <$> parse64 t | _ => None end.

Fixpoint numbers_ok (v : syntax) : bool :=
  match v with
  | SNum t => match parse64 t with Some _ => true | None => false end
  | SArr l => forallb numbers_ok l
  | SObj l => forallb (fun kv => numbers_ok (snd kv)) l
  | _ => true
  end.

Definition decode_any (v : syntax) : option (option Any) :=
  match v with
  | SNull => Some None
  | SBool b => Some (Some (AnyBool b))
  | SNum t => (fun f => Some (AnyNum f)) <$> parse64 t
  | SStr s => Some (Some (AnyStr s))
  | SArr _ | SObj _ => if numbers_ok v then Some (Some (AnyTree v)) else None
  end.

(** The members of an object, in order. *)
Fixpoint decode_members {S : Type} (step : S -> string -> syntax -> option S) (s : S) (l : list (string * syntax)) : option S :=
  match l with
  | [] => Some s
  | (k, v) :: l => s' ← step s k v; decode_members step s' l
  end.

Definition context_member (c : Context_) (k : string) (v : syntax) : option Context_ :=
  let '(mkContext id cls unit lo hi src desc rule) := c in
  if same_name k "asset_id" then (fun x => mkContext x cls unit lo hi src desc rule) <$> decode_string v id
  else if same_name k "asset_class" then (fun x => mkContext id x unit lo hi src desc rule) <$> decode_string v cls
  else if same_name k "unit" then (fun x => mkContext id cls x lo hi src desc rule) <$> decode_string v unit
  else if same_name k "eng_low" then (fun x => mkContext id cls unit x hi src desc rule) <$> decode_pointer v
  else if same_name k "eng_high" then (fun x => mkContext id cls unit lo x src desc rule) <$> decode_pointer v
  else if same_name k "source" then (fun x => mkContext id cls unit lo hi x desc rule) <$> decode_string v src
  else if same_name k "description" then (fun x => mkContext id cls unit lo hi src x rule) <$> decode_string v desc
  else if same_name k "quality_rule" then (fun x => mkContext id cls unit lo hi src desc x) <$> decode_string v rule
  else Some c.

Definition decode_context (v : syntax) (old : Context_) : option Context_ :=
  match v with SNull => Some old | SObj l => decode_members context_member old l | _ => None end.

Definition zeroContext : Context_ := mkContext "" "" "" None None "" "" "".

Definition zeroMetric : MetricOf (option Any) := mkMetric "" zeroTime "" None "" "" zeroContext.

Definition metric_member (m : MetricOf (option Any)) (k : string) (v : syntax) : option (MetricOf (option Any)) :=
  let '(mkMetric name ts dt value q topic ctx) := m in
  if same_name k "name" then (fun x => mkMetric x ts dt value q topic ctx) <$> decode_string v name
  else if same_name k "timestamp" then (fun x => mkMetric name x dt value q topic ctx) <$> decode_millis v
  else if same_name k "datatype" then (fun x => mkMetric name ts x value q topic ctx) <$> decode_string v dt
  else if same_name k "value" then (fun x => mkMetric name ts dt x q topic ctx) <$> decode_any v
  else if same_name k "quality" then (fun x => mkMetric name ts dt value x topic ctx) <$> decode_string v q
  else if same_name k "topic" then (fun x => mkMetric name ts dt value q x ctx) <$> decode_string v topic
  else if same_name k "properties" then (fun x => mkMetric name ts dt value q topic x) <$> decode_context v ctx
  else Some m.

Definition decode_metric (v : syntax) (old : MetricOf (option Any)) : option (MetricOf (option Any)) :=
  match v with SNull => Some old | SObj l => decode_members metric_member old l | _ => None end.

(** The elements of an array, over what the slice's memory held before. *)
Fixpoint decode_elements (l : list syntax) (memory : list (MetricOf (option Any))) : option (list (MetricOf (option Any))) :=
  match l with
  | [] => Some memory
  | v :: l =>
      m ← decode_metric v (default zeroMetric (head memory));
      rest ← decode_elements l (tail memory);
      Some (m :: rest)
  end.

(** The payload so far, with the memory behind its slice of metrics, which a
    second member of that name reuses. *)
Definition payload_member (s : PayloadOf (option Any) * list (MetricOf (option Any))) (k : string) (v : syntax) :
    option (PayloadOf (option Any) * list (MetricOf (option Any))) :=
  let '(mkPayload ty ts seq node ms, memory) := s in
  if same_name k "type" then (fun x => (mkPayload x ts seq node ms, memory)) <$> decode_string v ty
  else if same_name k "timestamp" then (fun x => (mkPayload ty x seq node ms, memory)) <$> decode_millis v
  else if same_name k "seq" then (fun x => (mkPayload ty ts x node ms, memory)) <$> decode_u8 v seq
  else if same_name k "node" then (fun x => (mkPayload ty ts seq x ms, memory)) <$> decode_string v node
  else if same_name k "metrics" then
    match v with
    | SNull => Some (mkPayload ty ts seq node None, [])
    | SArr [] => Some (mkPayload ty ts seq node (Some []), [])
    | SArr l =>
        (fun memory' => (mkPayload ty ts seq node (Some (take (length l) memory')), memory')) <$> decode_elements l memory
    | _ => None
    end
  else Some s.

Definition zeroPayload : PayloadOf (option Any) := mkPayload "" zeroTime 0 "" None.

Definition decode_payload (v : syntax) : option (PayloadOf (option Any)) :=
  match v with
  | SNull => Some zeroPayload
  | SObj l => fst <$> decode_members payload_member (zeroPayload, []) l
  | _ => None
  end.

Inductive UnmarshalError := EDecode | EUnknownType (t : string) | EMissingNode.

Definition Unmarshal (b : list byte) : result UnmarshalError (PayloadOf (option Any)) :=
  match parse (string_of b) ≫= decode_payload with
  | None => Err EDecode
  | Some p =>
      if negb (String.eqb (pType p) Birth || String.eqb (pType p) Data || String.eqb (pType p) Death) then Err (EUnknownType (pType p))
      else if String.eqb (pNode p) "" then Err EMissingNode
      else Ok p
  end.
End Decode.

(** What strconv documents of its decimals: they are numbers of JSON, the
    shortest ones are read back exactly, and a 64-bit integer is read as the
    nearest double. *)
Class FloatTextLaws (FT : FloatText) := {
  text32_number f : is_finite f = true -> valid_number (text32 f) = true;
  text64_number f : is_finite f = true -> valid_number (text64 f) = true;
  parse_text32 f : is_finite f = true -> is_Some (parse64 (text32 f));
  parse_text64 f : is_finite f = true -> valid64 f -> parse64 (text64 f) = Some f;
  parse_integer n : - 2 ^ 63 <= n < 2 ^ 64 -> parse64 (FormatInt n) = Some (of_Z n)
}.

(** ** What arrives *)

Section Received.
Context {FT : FloatText}.

(** Milliseconds are kept. *)
Definition received_time (t : Time) : Time := if IsZero t then zeroTime else t / Millisecond * Millisecond.

(** Every number arrives as a double; a float32 as what its shortest decimal says. *)
Definition received_value (v : option Value) : option Any :=
  (fun v => match v with
            | VInt n | VUint n => AnyNum (of_Z n)
            | VBool b => AnyBool b
            | VFloat32 f => AnyNum (default fzero (parse64 (text32 f)))
            | VFloat64 f => AnyNum f
            end) <$> v.

Definition received_context (c : Context_) : Context_ :=
  mkContext (sanitize (AssetID c)) (sanitize (AssetClass c)) (sanitize (cUnit c)) (EngLow c) (EngHigh c)
    (sanitize (cSource c)) (sanitize (cDescription c)) (sanitize (QualityRule c)).

Definition received_metric (m : Metric) : MetricOf (option Any) :=
  mkMetric (sanitize (mName m)) (received_time (mTimestamp m)) (sanitize (mDataType m)) (received_value (mValue m))
    (sanitize (mQuality m)) (sanitize (mTopic m)) (received_context (mContext m)).

Definition received (p : Payload) : PayloadOf (option Any) :=
  mkPayload (pType p) (received_time (pTimestamp p)) (pSeq p) (sanitize (pNode p)) (map received_metric <$> pMetrics p).
End Received.

(** Numbers that are of their machine types. *)
Definition time_ok (t : Time) : Prop := is_i64 (t / Millisecond).

Definition float_ok (f : option float) : Prop := match f with Some f => valid64 f | None => True end.

Definition value_ok (v : option Value) : Prop :=
  match v with
  | Some (VInt n) => is_i64 n
  | Some (VUint n) => is_u64 n
  | Some (VFloat64 f) => valid64 f
  | _ => True
  end.

Definition metric_ok (m : Metric) : Prop :=
  time_ok (mTimestamp m) /\ value_ok (mValue m) /\ float_ok (EngLow (mContext m)) /\ float_ok (EngHigh (mContext m)).

Definition payload_ok (p : Payload) : Prop :=
  (pType p = Birth \/ pType p = Data \/ pType p = Death) /\ pNode p <> "" /\ is_u8 (pSeq p) /\ time_ok (pTimestamp p) /\
  match pMetrics p with Some ms => Forall metric_ok ms | None => True end.

(** ** Lemmas *)

Lemma sanitize_empty s : sanitize s = "" -> s = "".
Proof.
  destruct s as [|c s]; [done|]. unfold sanitize. pose proof (runes_ok (String c s)) as Hok. cbn [runes] in *.
  assert (forall r rs, rune_ok r -> flatten (map rune_text (r :: rs)) = "" -> False) as Hne.
  { intros r rs Hr. cbn [map]. rewrite flatten_cons. destruct r as [x|]; [|done]. cbn [rune_text].
    by destruct Hr as [(a & -> & _)|[(a & b & -> & _)|[(a & b & d & -> & _)|(a & b & d & e & -> & _)]]]. }
  intros E. exfalso. repeat (case_match; try (inversion Hok; subst; by eapply Hne)).
Qed.

Lemma sanitize_literals : forallb (fun s => String.eqb (sanitize s) s)
  ["asset_id"; "asset_class"; "unit"; "eng_low"; "eng_high"; "source"; "description"; "quality_rule"; "name"; "timestamp";
   "datatype"; "value"; "quality"; "topic"; "properties"; "type"; "seq"; "node"; "metrics"; Birth; Data; Death] = true.
Proof. by vm_compute. Qed.

(** Evaluates the comparisons of names. *)
Ltac names :=
  repeat match goal with
  | |- context [sanitize (String ?c ?s)] => let x := eval vm_compute in (sanitize (String c s)) in change (sanitize (String c s)) with x
  end;
  repeat match goal with
  | |- context [same_name ?a ?b] => let x := eval vm_compute in (same_name a b) in change (same_name a b) with x
  end.

Lemma decode_members_app {S} (step : S -> string -> syntax -> option S) s a b :
  decode_members step s (a ++ b) = decode_members step s a ≫= fun s' => decode_members step s' b.
Proof.
  revert s. induction a as [|[k v] a IH]; intros s; [done|]. cbn [app decode_members].
  destruct (step s k v) as [s'|]; [apply IH|done].
Qed.

Section RoundTrip.
Context {FT : FloatText} {FTL : FloatTextLaws FT}.

Abbreviation members := (map (fun '(k, v) => (sanitize k, syntax_of v))).

Lemma decode_millis_json t : time_ok t -> decode_millis (syntax_of (Millis_json t)) = Some (received_time t).
Proof.
  intros Ht. unfold Millis_json, received_time. destruct (IsZero t); [done|]. cbn [syntax_of decode_millis].
  unfold UnixMilli. unfold i64. rewrite swrap_id by (try lia; exact Ht). by rewrite ParseInt_FormatInt_all.
Qed.

Lemma decode_value_json v j : value_json v = Some j -> value_ok v -> decode_any (syntax_of j) = Some (received_value v).
Proof.
  destruct v as [[n|n|b|f|f]|]; cbn [value_json value_ok]; intros E Hv.
  - injection E as <-. cbn [syntax_of decode_any]. rewrite parse_integer by (unfold in_s in Hv; cbn in Hv; lia). done.
  - injection E as <-. cbn [syntax_of decode_any]. rewrite parse_integer by (unfold in_u in Hv; lia). done.
  - by injection E as <-.
  - unfold float_json in E. destruct (is_finite f) eqn:Hf; [|done]. injection E as <-. cbn [syntax_of decode_any].
    destruct (parse_text32 f Hf) as [g Hg]. cbn. by rewrite Hg.
  - unfold float_json in E. destruct (is_finite f) eqn:Hf; [|done]. injection E as <-. cbn [syntax_of decode_any].
    by rewrite parse_text64.
  - by injection E as <-.
Qed.

Lemma decode_omit_float key f l : omit_float key f = Some l -> float_ok f ->
  (f = None /\ l = []) \/ exists x, f = Some x /\ members l = [(sanitize key, SNum (text64 x))] /\ parse64 (text64 x) = Some x.
Proof.
  destruct f as [x|]; cbn [omit_float]; intros E Hf; [|injection E as <-; by left]. right. exists x. split; [done|].
  unfold float_json in E. destruct (is_finite x) eqn:Hx; [|done]. injection E as <-. split; [done|]. by apply parse_text64.
Qed.

Lemma members_omit key s : members (omit_string key s) = if String.eqb s "" then [] else [(sanitize key, SStr (sanitize s))].
Proof. unfold omit_string. by destruct (String.eqb s ""). Qed.

Lemma decode_context_json c j : Context_json c = Some j -> float_ok (EngLow c) -> float_ok (EngHigh c) ->
  decode_context (syntax_of j) zeroContext = Some (received_context c).
Proof.
  destruct c as [id cls unit lo hi src desc rule]. unfold Context_json. cbn [EngLow EngHigh AssetID AssetClass cUnit cSource cDescription QualityRule].
  intros E Hlo Hhi. apply bind_Some in E as (los & Elo & E). apply bind_Some in E as (his & Ehi & E). injection E as <-.
  change (syntax_of (JObject ?l)) with (SObj (members l)). cbn [decode_context app]. rewrite !map_cons, !map_app, !map_cons, !map_app, !members_omit.
  apply decode_omit_float in Elo; [|done]. apply decode_omit_float in Ehi; [|done].
  destruct Elo as [[-> ->]|(x & -> & -> & Ex)]; destruct Ehi as [[-> ->]|(y & -> & -> & Ey)];
  destruct (String.eqb_spec unit "") as [->|_]; destruct (String.eqb_spec desc "") as [->|_]; destruct (String.eqb_spec rule "") as [->|_];
    cbn [map app decode_members]; unfold context_member, zeroContext; names;
    repeat (progress (cbn [decode_string decode_pointer fmap option_map option_fmap mbind option_bind]; rewrite ?Ex, ?Ey)); done.
Qed.

Lemma decode_metric_json m j : Metric_json m = Some j -> metric_ok m -> decode_metric (syntax_of j) zeroMetric = Some (received_metric m).
Proof.
  destruct m as [name ts dt v q topic ctx]. intros E (Ht & Hv & Hlo & Hhi). cbn [mTimestamp mValue mContext] in *.
  unfold Metric_json in E. cbn [mName mTimestamp mDataType mValue mQuality mTopic mContext] in E.
  apply bind_Some in E as (jv & Ev & E). apply bind_Some in E as (jc & Ec & E). injection E as <-.
  pose proof (decode_millis_json ts Ht) as Et. apply decode_value_json in Ev; [|done]. apply decode_context_json in Ec; [|done..].
  change (syntax_of (JObject ?l)) with (SObj (members l)). cbn [decode_metric app]. rewrite !map_cons, !map_app, !members_omit.
  destruct (String.eqb_spec topic "") as [->|_]; cbn [map app decode_members]; unfold metric_member, zeroMetric; names;
    repeat (progress (cbn [decode_string fmap option_map option_fmap mbind option_bind syntax_of]; rewrite ?Et, ?Ev, ?Ec)); done.
Qed.

Lemma decode_elements_json ms js : mapM Metric_json ms = Some js -> Forall metric_ok ms ->
  decode_elements (map syntax_of js) [] = Some (map received_metric ms).
Proof.
  revert js. induction ms as [|m ms IH]; intros js E H; [by injection E as <-|]. cbn [mapM] in E.
  apply bind_Some in E as (j & Ej & E). apply bind_Some in E as (js' & Es & E). injection E as <-.
  apply Forall_cons in H as [Hm H]. cbn [map decode_elements head default from_option tail].
  by rewrite (decode_metric_json m j), (IH js') by done.
Qed.

Lemma decode_payload_json p j : Marshal p = Some j -> payload_ok p -> decode_payload (syntax_of j) = Some (received p).
Proof.
  destruct p as [ty ts seq node ms]. intros E (Hty & Hn & Hs & Ht & Hms). cbn [pType pTimestamp pSeq pNode pMetrics] in *.
  unfold Marshal in E. cbn [pType pTimestamp pSeq pNode pMetrics] in E. apply bind_Some in E as (jms & Ems & E). injection E as <-.
  pose proof (decode_millis_json ts Ht) as Et.
  assert (ParseUint (FormatInt seq) = Some seq) as Eq.
  { unfold in_u in Hs. unfold FormatInt. rewrite (proj2 (Z.ltb_ge _ _)) by lia. apply ParseUint_FormatUint. unfold in_u. lia. }
  change (syntax_of (JObject ?l)) with (SObj (members l)). cbn [decode_payload map decode_members]. unfold payload_member, zeroPayload. names.
  cbn [syntax_of decode_string decode_u8 fmap option_map option_fmap mbind option_bind]. rewrite Et.
  cbn [fmap option_map option_fmap mbind option_bind]. rewrite Eq. cbn [mbind option_bind].
  rewrite (proj2 (Z.ltb_lt seq 256)) by (unfold in_u in Hs; lia). cbn [fmap option_map option_fmap mbind option_bind].
  assert (sanitize ty = ty) as -> by (by destruct Hty as [-> | [-> | ->]]).
  destruct ms as [ms|]; [|by injection Ems as <-]. apply bind_Some in Ems as (js & Ejs & Ems). injection Ems as <-.
  pose proof (decode_elements_json ms js Ejs Hms) as Ed. pose proof (length_mapM _ _ _ Ejs) as El. cbn [syntax_of].
  destruct js as [|j js]; [destruct ms; [done|discriminate]|]. cbn [map] in *. rewrite Ed.
  cbn [fmap option_map option_fmap mbind option_bind fst]. rewrite firstn_all2; [done|]. rewrite length_map, El. cbn. rewrite length_map. lia.
Qed.

(** The text of a payload is read whole. *)
Lemma Millis_printable d t : printable d (Millis_json t).
Proof. unfold Millis_json. by destruct (IsZero t), d. Qed.

Lemma value_printable d v j : value_json v = Some j -> printable d j.
Proof.
  destruct v as [[]|]; cbn [value_json]; unfold float_json; intros E; repeat case_match; simplify_eq; destruct d; cbn [printable]; try done;
    by first [apply text32_number | apply text64_number].
Qed.

Lemma omit_float_printable d key f l : omit_float key f = Some l -> Forall (fun kv => printable d (snd kv)) l.
Proof.
  destruct f as [x|]; cbn [omit_float]; intros E; [|by injection E as <-]. unfold float_json in E. destruct (is_finite x) eqn:Hx; [|done].
  injection E as <-. apply Forall_singleton. destruct d; by apply text64_number.
Qed.

Lemma omit_string_printable d key s : Forall (fun kv => printable d (snd kv)) (omit_string key s).
Proof. unfold omit_string. destruct (String.eqb s ""); [done|]. apply Forall_singleton. by destruct d. Qed.

Lemma Context_printable c j : Context_json c = Some j -> printable 1 j.
Proof.
  unfold Context_json. intros E. apply bind_Some in E as (los & Elo & E). apply bind_Some in E as (his & Ehi & E). injection E as <-.
  change (Forall (fun kv => printable 0 (snd kv)) ([("asset_id", JString (AssetID c)); ("asset_class", JString (AssetClass c))]
    ++ omit_string "unit" (cUnit c) ++ los ++ his ++ [("source", JString (cSource c))]
    ++ omit_string "description" (cDescription c) ++ omit_string "quality_rule" (QualityRule c))).
  repeat (apply Forall_app; split); try apply omit_string_printable; try (by repeat constructor);
    eauto using omit_float_printable.
Qed.

Lemma Metric_printable m j : Metric_json m = Some j -> printable 2 j.
Proof.
  unfold Metric_json. intros E. apply bind_Some in E as (jv & Ev & E). apply bind_Some in E as (jc & Ec & E). injection E as <-.
  change (Forall (fun kv => printable 1 (snd kv)) ([("name", JString (mName m)); ("timestamp", Millis_json (mTimestamp m));
    ("datatype", JString (mDataType m)); ("value", jv); ("quality", JString (mQuality m))]
    ++ omit_string "topic" (mTopic m) ++ [("properties", jc)])).
  apply Forall_app. split.
  - repeat (apply Forall_cons; split; [done || apply Millis_printable || by apply (value_printable _ _ _ Ev)|]). constructor.
  - apply Forall_app. split; [apply omit_string_printable|]. apply Forall_singleton. by apply (Context_printable (mContext m)).
Qed.

Lemma Marshal_printable p j : Marshal p = Some j -> printable 4 j.
Proof.
  unfold Marshal. intros E. apply bind_Some in E as (jms & Ems & E). injection E as <-.
  change (Forall (fun kv => printable 3 (snd kv)) [("type", JString (pType p)); ("timestamp", Millis_json (pTimestamp p));
    ("seq", JInt (pSeq p)); ("node", JString (pNode p)); ("metrics", jms)]).
  repeat (apply Forall_cons; split; [done || apply Millis_printable|]). apply Forall_singleton. cbn [snd].
  destruct (pMetrics p) as [ms|]; [|by injection Ems as <-]. apply bind_Some in Ems as (js & Ejs & Ems). injection Ems as <-.
  change (Forall (printable 2) js). apply mapM_Some in Ejs. clear -Ejs FTL. induction Ejs as [|m j ms js Hj _ IH]; constructor; [|done].
  by apply (Metric_printable m).
Qed.

(** ** Properties *)

(** C23: what is published is what a consumer reads. The bytes [Marshal] makes
    of any payload with a known type, a node and numbers of their machine
    types, whatever its strings hold, are valid JSON that [Unmarshal] accepts,
    and it yields the payload again: times to the millisecond, bytes that are
    not UTF-8 replaced, numeric values as doubles, every optional member that
    was left out empty. *)
Theorem payload_roundtrip (p : Payload) (j : json) : Marshal p = Some j -> payload_ok p ->
  Unmarshal (bytes_of (print j)) = Ok (received p).
Proof.
  intros E Hp. unfold Unmarshal. rewrite string_of_bytes_of, (parse_print 4 j) by (eauto using Marshal_printable; unfold maxNestingDepth; lia).
  cbn [mbind option_bind]. rewrite (decode_payload_json p j E Hp). destruct Hp as (Hty & Hn & _).
  assert (String.eqb (pType (received p)) Birth || String.eqb (pType (received p)) Data || String.eqb (pType (received p)) Death = true) as ->
    by (cbn; by destruct Hty as [-> | [-> | ->]]).
  cbn [negb received pNode]. destruct (String.eqb_spec (sanitize (pNode p)) "") as [Hs%sanitize_empty|_]; done.
Qed.
End RoundTrip.

(** *** Decimals that keep the laws: a double is written as an integer beyond 64
    bits that determines it. *)

Definition float_code (f : float) : Z :=
  match f with
  | S754_zero false => 0
  | S754_zero true => 2 ^ 64
  | S754_finite s m e => (if s then -1 else 1) * (2 ^ 65 + Z.pos m * 4096 + (e + 2048))
  | _ => 0
  end.

Definition code_float (n : Z) : float :=
  if (- 2 ^ 63 <=? n) && (n <? 2 ^ 64) then of_Z n
  else if n =? 2 ^ 64 then S754_zero true
  else let x := Z.abs n - 2 ^ 65 in S754_finite (n <? 0) (Z.to_pos (x / 4096)) (x mod 4096 - 2048).

Definition big_integer (s : string) : option Z :=
  match s with
  | String c r =>
      let '(neg, u) := if Ascii.eqb c "-" then (true, r) else (false, s) in
      (fun d => let n := Z.of_N (N.of_uint d) in if neg : bool then - n else n) <$> DecimalString.NilEmpty.uint_of_string u
  | EmptyString => None
  end.

#[export] Instance integer_text : FloatText :=
  {| text32 f := FormatInt (float_code f); text64 f := FormatInt (float_code f); parse64 s := code_float <$> big_integer s |}.

Lemma big_integer_FormatInt n : big_integer (FormatInt n) = Some n.
Proof.
  unfold FormatInt. destruct (Z.ltb_spec n 0) as [Hn|Hn].
  - unfold big_integer. rewrite Ascii.eqb_refl. rewrite (proj1 (FormatUint_empty (- n))). cbn.
    rewrite DecimalN.Unsigned.of_to, Z2N.id by lia. f_equal. lia.
  - pose proof (FormatUint_digits n) as Hd. destruct (FormatUint_empty n) as [He Hne]. destruct (FormatUint n) as [|c s]; [done|].
    unfold big_integer. cbn [all_chars] in Hd. destruct (Ascii.eqb_spec c "-") as [->|_]; [done|].
    rewrite He. cbn. by rewrite DecimalN.Unsigned.of_to, Z2N.id by lia.
Qed.

Lemma code_float_code f : is_finite f = true -> valid64 f -> code_float (float_code f) = f.
Proof.
  destruct f as [[]|s| |s m e]; try done. intros _ [Hm He]%valid_bounds. unfold code_float, float_code.
  assert (- 2048 < e < 2048) as Hb by (unfold fexp, SpecFloat.emin in Hm; lia). clear Hm He.
  set (x := Z.pos m * 4096 + (e + 2048)). assert (0 < x) as Hx by lia.
  replace (2 ^ 65 + Z.pos m * 4096 + (e + 2048)) with (2 ^ 65 + x) by (unfold x; lia).
  assert (Z.to_pos (x / 4096) = m /\ x mod 4096 - 2048 = e) as [E1 E2].
  { unfold x. rewrite Z.div_add_l, Z.div_small, Z.add_0_r by lia. rewrite Z.add_comm, Z.mod_add, Z.mod_small by lia. split; [done|lia]. }
  assert (forall b, Z.abs ((if b : bool then -1 else 1) * (2 ^ 65 + x)) - 2 ^ 65 = x /\ ((if b then -1 else 1) * (2 ^ 65 + x) <? 0) = b /\
    (- 2 ^ 63 <=? (if b then -1 else 1) * (2 ^ 65 + x)) && ((if b then -1 else 1) * (2 ^ 65 + x) <? 2 ^ 64) = false /\
    ((if b then -1 else 1) * (2 ^ 65 + x) =? 2 ^ 64) = false) as H.
  { intros []; (split; [lia|split; [(by apply Z.ltb_lt; lia) || (by apply Z.ltb_ge; lia)|split; [|apply Z.eqb_neq; lia]]]).
    - apply andb_false_iff. left. apply Z.leb_gt. lia.
    - apply andb_false_iff. right. apply Z.ltb_ge. lia. }
  destruct (H s) as (-> & -> & -> & ->). by rewrite E1, E2.
Qed.

#[export] Instance integer_laws : FloatTextLaws integer_text.
Proof.
  split; intros; cbn [text32 text64 parse64 integer_text]; rewrite ?big_integer_FormatInt.
  - apply FormatInt_number.
  - apply FormatInt_number.
  - by eexists.
  - cbn. by rewrite code_float_code.
  - cbn. unfold code_float. rewrite (proj2 (Z.leb_le _ _)), (proj2 (Z.ltb_lt _ _)) by lia. done.
Qed.

(** A sample with a unit, a range and a name that is not UTF-8. *)
Definition sample_payload : Payload :=
  mkPayload Data 1700000000123456789 7 "plc-line-1"
    (Some [mkMetric "speed" 1700000000123456789 TypeFloat (Some (VFloat64 (of_Z 42))) QualityGood ""
             (mkContext "filler-01" (String "255" "<&>") "bpm" (Some (of_Z 0)) None "plc-line-1" "" "")]).

Lemma payload_roundtrip_witness :
  match Marshal sample_payload with
  | Some j => Unmarshal (bytes_of (print j)) = Ok (received sample_payload) /\
      pTimestamp (received sample_payload) = 1700000000123000000
  | None => False
  end.
Proof.
  pose proof (payload_roundtrip sample_payload) as H. destruct (Marshal sample_payload) as [j|] eqn:E; [|vm_compute in E; discriminate].
  split; [|by vm_compute]. apply H; [done|].
  split; [by right; left|]. split; [done|]. split; [by split|]. split; [by split|]. apply Forall_singleton.
  split; [by split|]. split; [by vm_compute|]. split; [by vm_compute|done].
Defined.
