(* ===== verification/Quality.v ===== *)
(** * Quality: the data-quality rules (internal/domain/quality/quality.go)

    [Evaluator] is one tag's history; [Observe], [Comm] and [Check] are its
    steps, and [run] replays any interleaving of them. The formatted [Reason]
    of a verdict is kept as the data it is formatted from. *)
From Stdlib Require Import ZArith Lia SpecFloat.
From S2P Require Import Prelude GoBytes GoFloat Uns.

Open Scope Z_scope.

Definition RuleComm : string := "quality.comm@v1".
Definition RuleRange : string := "quality.range@v1".
Definition RuleFlatline : string := "quality.flatline@v1".
Definition RuleStale : string := "quality.stale@v1".
Definition RuleGood : string := "quality.good@v1".

Record Config := mkConfig {
  StaleAfter : Duration;
  FlatlineAfter : Duration;
  FlatlineMinSamples : Z;
  HasRange : bool;
  Min : float;
  Max : float;
  Epsilon : float
}.

Inductive Reason :=
| NoReason
| NotFinite
| Outside (v lo hi : float)
| Unchanged (d : Duration) (samples : Z)
| ReadFailed (err : option string)
| NoSample (age limit : Duration).

Record Verdict := mkVerdict { vQuality : Quality; vRule : string; vReason : Reason }.

Definition Good : Verdict := mkVerdict QualityGood RuleGood NoReason.

Record Evaluator := mkEvaluator {
  cfg : Config;
  seen : bool;
  last : float;
  lastAt : Time;
  lastChange : Time;
  unchanged : Z;
  current : Verdict;
  commDown : bool
}.

Definition New (c : Config) : Evaluator :=
  let c' := if FlatlineMinSamples c <=? 0
            then mkConfig (StaleAfter c) (FlatlineAfter c) 5 (HasRange c) (Min c) (Max c) (Epsilon c)
            else c in
  mkEvaluator c' false fzero zeroTime zeroTime 0 Good false.

Definition Observe (v : float) (at_ : Time) (e : Evaluator) : Verdict * Evaluator :=
  if IsNaN v || IsInf v then
    let verd := mkVerdict QualityBad RuleComm NotFinite in
    (verd, mkEvaluator (cfg e) (seen e) (last e) at_ (lastChange e) (unchanged e) verd false)
  else
    let same := seen e && fle (fabs (fsub v (last e))) (Epsilon (cfg e)) in
    let unchanged' := if same then unchanged e + 1 else 1 in
    let lastChange' := if same then lastChange e else at_ in
    let verd :=
      if HasRange (cfg e) && (flt v (Min (cfg e)) || flt (Max (cfg e)) v) then
        mkVerdict QualityOutOfRange RuleRange (Outside v (Min (cfg e)) (Max (cfg e)))
      else if (0 <? FlatlineAfter (cfg e)) && (FlatlineMinSamples (cfg e) <=? unchanged') &&
              (FlatlineAfter (cfg e) <=? Sub at_ lastChange') then
        mkVerdict QualityFlatline RuleFlatline (Unchanged (Sub at_ lastChange') unchanged')
      else Good in
    (verd, mkEvaluator (cfg e) true v at_ lastChange' unchanged' verd false).

Definition Comm (err : option string) (e : Evaluator) : Verdict * Evaluator :=
  let verd := mkVerdict QualityBad RuleComm (ReadFailed err) in
  (verd, mkEvaluator (cfg e) (seen e) (last e) (lastAt e) (lastChange e) (unchanged e) verd true).

Definition Check_ (now : Time) (e : Evaluator) : (Verdict * bool) * Evaluator :=
  if (StaleAfter (cfg e) <=? 0) || negb (seen e) || commDown e then ((current e, false), e)
  else if String.eqb (vQuality (current e)) QualityStale then ((current e, false), e)
  else
    let age := Sub now (lastAt e) in
    if age <? StaleAfter (cfg e) then ((current e, false), e)
    else
      let verd := mkVerdict QualityStale RuleStale (NoSample age (StaleAfter (cfg e))) in
      ((verd, true), mkEvaluator (cfg e) (seen e) (last e) (lastAt e) (lastChange e) (unchanged e) verd (commDown e)).

Definition Current (e : Evaluator) : Verdict := current e.
Definition Last (e : Evaluator) : float * Time * bool := (last e, lastAt e, seen e).

(** ** Histories *)

(** What the pipeline may do to an evaluator, in any order. *)
Inductive Event :=
| Sample (v : float) (at_ : Time)
| CommFailure (err : option string)
| Tick (now : Time).

Definition apply_event (e : Evaluator) (ev : Event) : Evaluator :=
  match ev with
  | Sample v at_ => snd (Observe v at_ e)
  | CommFailure err => snd (Comm err e)
  | Tick now => snd (Check_ now e)
  end.

Definition run (c : Config) (evs : list Event) : Evaluator := fold_left apply_event evs (New c).

(** ** Specification, on a history read backwards (newest event first) *)

(** The finite samples of a history. *)
Fixpoint finite_samples (evs : list Event) : list (float * Time) :=
  match evs with
  | [] => []
  | Sample v at_ :: evs' => if is_finite v then (v, at_) :: finite_samples evs' else finite_samples evs'
  | _ :: evs' => finite_samples evs'
  end.

(** The newest samples, each within [eps] of the one before it. *)
Fixpoint flat_run (eps : float) (l : list (float * Time)) : list (float * Time) :=
  match l with
  | [] => []
  | (v, t) :: l' =>
      (v, t) ::
      match l' with
      | [] => []
      | (v', _) :: _ => if fle (fabs (fsub v v')) eps then flat_run eps l' else []
      end
  end.

Definition last_sample_at (evs : list Event) : Time :=
  default zeroTime (head (omap (fun ev => match ev with Sample _ t => Some t | _ => None end) evs)).

(** The events since the newest sample. *)
Fixpoint silence (evs : list Event) : list Event :=
  match evs with
  | [] => []
  | Sample _ _ :: _ => []
  | ev :: evs' => ev :: silence evs'
  end.

Definition is_comm (ev : Event) : bool := match ev with CommFailure _ => true | _ => false end.

(** No tick of the silence came after the limit. *)
Definition quiet (limit : Duration) (at_ : Time) (evs : list Event) : Prop :=
  Forall (fun ev => match ev with Tick now => Sub now at_ < limit | _ => True end) evs.

Definition min_samples (c : Config) : Z := if FlatlineMinSamples c <=? 0 then 5 else FlatlineMinSamples c.

(** The verdict a sample deserves, from the finite samples up to and including it. *)
Definition expected (c : Config) (v : float) (at_ : Time) (samples : list (float * Time)) : Verdict :=
  let r := flat_run (Epsilon c) samples in
  let since := Sub at_ (snd (List.last r (v, at_))) in
  if negb (is_finite v) then mkVerdict QualityBad RuleComm NotFinite
  else if HasRange c && (flt v (Min c) || flt (Max c) v) then
    mkVerdict QualityOutOfRange RuleRange (Outside v (Min c) (Max c))
  else if bool_decide (0 < FlatlineAfter c /\ min_samples c <= zlength r /\ FlatlineAfter c <= since) then
    mkVerdict QualityFlatline RuleFlatline (Unchanged since (zlength r))
  else Good.

(** ** Lemmas *)

Lemma run_app c evs ev : run c (evs ++ [ev]) = apply_event (run c evs) ev.
Proof. unfold run. by rewrite fold_left_app. Qed.

(** What an evaluator remembers of its history. *)
Definition remembers (c : Config) (evs : list Event) (e : Evaluator) : Prop :=
  cfg e = cfg (New c) /\ lastAt e = last_sample_at evs /\
  commDown e = existsb is_comm (silence evs) /\
  match finite_samples evs with
  | [] => seen e = false
  | (v, t) :: _ =>
      let r := flat_run (Epsilon c) (finite_samples evs) in
      seen e = true /\ last e = v /\ unchanged e = zlength r /\ lastChange e = snd (List.last r (v, t))
  end.

Lemma not_finite v : IsNaN v || IsInf v = negb (is_finite v).
Proof. unfold is_finite. by rewrite negb_involutive. Qed.

Lemma flat_run_cons eps v t l :
  flat_run eps ((v, t) :: l) =
  (v, t) :: match l with [] => [] | (v', _) :: _ => if fle (fabs (fsub v v')) eps then flat_run eps l else [] end.
Proof. done. Qed.

Lemma flat_run_nonempty eps v t l : exists r, flat_run eps ((v, t) :: l) = (v, t) :: r.
Proof. rewrite flat_run_cons. by eexists. Qed.

Lemma cfg_New c : let k := cfg (New c) in
  StaleAfter k = StaleAfter c /\ FlatlineAfter k = FlatlineAfter c /\ FlatlineMinSamples k = min_samples c /\
  HasRange k = HasRange c /\ Min k = Min c /\ Max k = Max c /\ Epsilon k = Epsilon c.
Proof. unfold New, min_samples. by destruct (FlatlineMinSamples c <=? 0). Qed.

Lemma last_cons_indep {A} (x d d' : A) l : List.last (x :: l) d = List.last (x :: l) d'.
Proof. revert x. induction l as [|y l IH]; intros x; [done|]. cbn. apply IH. Qed.

Lemma remembers_tick c evs now e : remembers c evs e -> remembers c (Tick now :: evs) (snd (Check_ now e)).
Proof. intros H. unfold Check_. repeat case_match; exact H. Qed.

Lemma remembers_sample c evs v at_ e : remembers c evs e -> remembers c (Sample v at_ :: evs) (snd (Observe v at_ e)).
Proof.
  intros (Hc & Ha & Hd & Hs). unfold Observe. rewrite not_finite. unfold remembers. cbn [finite_samples silence existsb].
  destruct (is_finite v) eqn:Ef; cbn [negb snd cfg lastAt commDown seen last unchanged lastChange].
  2:{ done. }
  split; [done|]. do 2 (split; [done|]). destruct (cfg_New c) as (_ & _ & _ & _ & _ & _ & He).
  rewrite <- Hc in He. destruct (finite_samples evs) as [|[v' t'] s] eqn:Es.
  - rewrite Hs. done.
  - destruct Hs as (-> & -> & -> & ->). rewrite He, (flat_run_cons _ v at_). cbn [andb].
    destruct (fle _ _); [|done]. do 2 (split; [done|]).
    destruct (flat_run_nonempty (Epsilon c) v' t' s) as [r ->]. split; [rewrite !zlength_cons; lia|].
    change (List.last ((v, at_) :: (v', t') :: r) (v, at_)) with (List.last ((v', t') :: r) (v, at_)).
    by rewrite (last_cons_indep _ (v, at_) (v', t')).
Qed.

Lemma run_remembers c evs : remembers c evs (run c (rev evs)).
Proof.
  induction evs as [|ev evs IH]; cbn [rev]; [|rewrite run_app].
  { unfold remembers, run, New. by repeat split. }
  destruct ev as [v at_|err|now]; cbn [apply_event];
    [by apply remembers_sample| |by apply remembers_tick].
  destruct IH as (Hc & Ha & Hd & Hs). unfold Comm, remembers. done.
Qed.

Lemma Observe_not_stale v at_ e : vQuality (fst (Observe v at_ e)) <> QualityStale.
Proof. unfold Observe. repeat case_match; cbn; discriminate. Qed.

Lemma Observe_current v at_ e : current (snd (Observe v at_ e)) = fst (Observe v at_ e).
Proof. unfold Observe. by destruct (IsNaN v || IsInf v). Qed.

Global Instance quiet_dec limit at_ evs : Decision (quiet limit at_ evs).
Proof. unfold quiet. refine (Forall_dec _ _). intros []; apply _. Defined.

(** Whether a tick of the silence has already raised the alarm. *)
Definition alarmed (c : Config) (evs : list Event) : Prop :=
  0 < StaleAfter c /\ finite_samples evs <> [] /\ ~ quiet (StaleAfter c) (last_sample_at evs) (silence evs).

Lemma run_seen c evs : seen (run c (rev evs)) = bool_decide (finite_samples evs <> []).
Proof.
  pose proof (run_remembers c evs) as (_ & _ & _ & H). destruct (finite_samples evs) as [|[v t] s]; [done|].
  by destruct H as [-> _].
Qed.

Lemma run_stale c evs :
  existsb is_comm (silence evs) = false ->
  vQuality (current (run c (rev evs))) = QualityStale <-> alarmed c evs.
Proof.
  unfold alarmed. induction evs as [|ev evs IH].
  { intros _. unfold run, New. cbn. split; [done|]. by intros (_ & ? & _). }
  cbn [rev]. rewrite run_app. pose proof (run_remembers c evs) as (Hc & Ha & Hd & _).
  pose proof (run_seen c evs) as Hseen. destruct (cfg_New c) as (HS & _). rewrite <- Hc in HS.
  destruct ev as [v at_|err|now]; cbn [apply_event silence existsb is_comm orb finite_samples]; [|done|].
  - intros _. rewrite Observe_current. split; [intros H; by apply Observe_not_stale in H|].
    intros (_ & _ & H). destruct H. constructor.
  - intros Hno. specialize (IH Hno). rewrite Hno in Hd.
    change (last_sample_at (Tick now :: evs)) with (last_sample_at evs).
    unfold Check_. rewrite HS, Hd, Hseen, orb_false_r, Ha.
    unfold quiet. rewrite Forall_cons. fold (quiet (StaleAfter c) (last_sample_at evs) (silence evs)).
    destruct (Z.leb_spec (StaleAfter c) 0); cbn [orb snd]; [rewrite IH; intuition lia|].
    case_bool_decide as Hs; cbn [negb snd]; [|rewrite IH; tauto].
    destruct (String.eqb_spec (vQuality (current (run c (rev evs)))) QualityStale) as [E|E]; cbn [snd].
    + rewrite IH. apply IH in E as (_ & _ & ?). intuition.
    + destruct (decide (quiet (StaleAfter c) (last_sample_at evs) (silence evs))) as [Hq|Hq]; [|by destruct E; apply IH].
      destruct (Z.ltb_spec (Sub now (last_sample_at evs)) (StaleAfter c)); cbn [snd current vQuality].
      * split; [by intros ?|]. intros (_ & _ & []). by split.
      * split; [|done]. intros _. do 2 (split; [done|]). intros [? _]. lia.
Qed.

(** ** Properties *)

(** C24: after any history of samples, communication failures and ticks, the
    verdict of a sample is the one the rules give for the finite samples seen
    so far: BAD when it is not finite, else OUT_OF_RANGE, else FLATLINE when
    the run of samples each within epsilon of its predecessor is long enough
    and old enough, else GOOD. Failures, ticks and non-finite samples neither
    extend nor break the run. *)
Theorem Observe_expected (c : Config) (evs : list Event) (v : float) (at_ : Time) :
  fst (Observe v at_ (run c (rev evs))) = expected c v at_ (finite_samples (Sample v at_ :: evs)).
Proof.
  pose proof (run_remembers c (Sample v at_ :: evs)) as (_ & _ & _ & Hr).
  cbn [rev] in Hr. rewrite run_app in Hr. cbn [apply_event] in Hr.
  pose proof (run_remembers c evs) as (Hc & _). revert Hr. generalize dependent (run c (rev evs)). intros e Hc Hr.
  destruct (cfg_New c) as (_ & HF & HM & HR & Hmin & Hmax & HE). rewrite <- Hc in HF, HM, HR, Hmin, Hmax, HE.
  unfold Observe, expected in *. rewrite not_finite in *. cbn [finite_samples] in *.
  destruct (is_finite v); cbn [negb fst snd seen last unchanged lastChange] in *; [|done].
  destruct Hr as (_ & _ & -> & ->). rewrite HF, HM, HR, Hmin, Hmax.
  destruct (HasRange c && _); [done|]. generalize (flat_run (Epsilon c) ((v, at_) :: finite_samples evs)). intros r.
  destruct (Z.ltb_spec 0 (FlatlineAfter c)), (Z.leb_spec (min_samples c) (zlength r)),
    (Z.leb_spec (FlatlineAfter c) (Sub at_ (snd (List.last r (v, at_))))); cbn [andb];
    case_bool_decide; done || lia.
Qed.

(** C38: [Check] announces staleness once per silence. After any history it
    fires exactly when staleness is enabled, a finite sample was ever seen, no
    communication failure was recorded since the newest sample, that sample
    is at least [StaleAfter] old, and no earlier tick since it found it so. *)
Theorem Check_fires_once (c : Config) (evs : list Event) (now : Time) :
  snd (fst (Check_ now (run c (rev evs)))) = true <->
  0 < StaleAfter c /\ finite_samples evs <> [] /\ existsb is_comm (silence evs) = false /\
  quiet (StaleAfter c) (last_sample_at evs) (silence evs) /\ StaleAfter c <= Sub now (last_sample_at evs).
Proof.
  pose proof (run_remembers c evs) as (Hc & Ha & Hd & _). pose proof (run_seen c evs) as Hseen.
  destruct (cfg_New c) as (HS & _). rewrite <- Hc in HS. pose proof (run_stale c evs) as Hst. unfold alarmed in Hst.
  unfold Check_. rewrite HS, Hd, Hseen, Ha.
  destruct (Z.leb_spec (StaleAfter c) 0); cbn [orb fst snd]; [split; [done|lia]|].
  case_bool_decide as Hs; cbn [negb orb fst snd]; [|split; [done|tauto]].
  destruct (existsb is_comm (silence evs)); cbn [fst snd]; [split; [done|]; by intros (_ & _ & ? & _)|].
  specialize (Hst eq_refl).
  destruct (String.eqb_spec (vQuality (current (run c (rev evs)))) QualityStale) as [E|E]; cbn [fst snd].
  - apply Hst in E as (_ & _ & E). split; [done|tauto].
  - destruct (decide (quiet (StaleAfter c) (last_sample_at evs) (silence evs))); [|by destruct E; apply Hst].
    destruct (Z.ltb_spec (Sub now (last_sample_at evs)) (StaleAfter c)); cbn [fst snd]; intuition (lia || done).
Qed.

(** A communication failure holds until the next sample: whatever ticks
    follow it, the verdict stays BAD under the communication rule with the
    reason of the newest failure, and no tick announces staleness. *)
Theorem Comm_holds (c : Config) (evs : list Event) (err : option string) (now : Time) :
  head (omap (fun ev => match ev with CommFailure e => Some e | _ => None end) (silence evs)) = Some err ->
  Check_ now (run c (rev evs)) =
    ((mkVerdict QualityBad RuleComm (ReadFailed err), false), run c (rev evs)) /\
  Current (run c (rev evs)) = mkVerdict QualityBad RuleComm (ReadFailed err).
Proof.
  assert (forall e, commDown e = true -> Check_ now e = ((current e, false), e)) as HC.
  { intros e He. unfold Check_. by rewrite He, orb_true_r. }
  assert (forall evs', head (omap (fun ev => match ev with CommFailure e => Some e | _ => None end) (silence evs')) = Some err ->
    commDown (run c (rev evs')) = true /\ current (run c (rev evs')) = mkVerdict QualityBad RuleComm (ReadFailed err)) as Hrun.
  { intros evs'. induction evs' as [|ev evs' IH]; [done|]. cbn [rev]. rewrite run_app.
    destruct ev as [v at_|e|t]; cbn [apply_event silence]; [done|by intros [= ->]|].
    intros H. destruct (IH H) as [H1 H2]. unfold Check_. by rewrite H1, orb_true_r. }
  intros H. destruct (Hrun evs H) as [H1 H2]. unfold Current. rewrite (HC _ H1), H2. done.
Qed.

Lemma Comm_holds_witness :
  Current (run (mkConfig Second 0 0 false fzero fzero fzero)
    (rev [Tick (9 * Second); CommFailure (Some "timeout"); Sample fzero 0])) =
  mkVerdict QualityBad RuleComm (ReadFailed (Some "timeout")).
Proof.
  apply (Comm_holds (mkConfig Second 0 0 false fzero fzero fzero)
    [Tick (9 * Second); CommFailure (Some "timeout"); Sample fzero 0] (Some "timeout") 0). reflexivity.
Defined.

(** Staleness replaces codes that are worse. A tag whose newest sample
    was out of range, or was not a number and therefore BAD, becomes STALE on the first
    late tick: [Check] lowers the severity of its code. *)
Theorem stale_replaces_worse :
  let c := mkConfig Second 0 0 true (of_Z 0) (of_Z 10) fzero in
  let late := Tick (2 * Second) in
  let out := run c [Sample (of_Z 50) 0] in
  let nan := run c [Sample (of_Z 5) 0; Sample S754_nan 0] in
  vQuality (Current out) = QualityOutOfRange /\ vQuality (Current nan) = QualityBad /\
  vQuality (Current (apply_event out late)) = QualityStale /\
  vQuality (Current (apply_event nan late)) = QualityStale /\
  Severity QualityStale < Severity QualityOutOfRange < Severity QualityBad.
Proof. vm_compute. repeat split. Qed.
