(* ===== verification/Memory.v ===== *)
(** * Memory: the in-process adapters (internal/adapters/memory)

    [MemQueue] is the in-memory twin of the disk queue and the second instance
    of the queue contract; [MemSink] records what it is sent. [Broker] is the
    specification of the in-memory broker when its calls do not overlap; the
    broker itself, with its goroutines, channels and contexts, is [MemoryRace],
    which shows when this is what they do. *)
From Stdlib Require Import ZArith Lia.
From S2P Require Import Prelude GoBytes Uns Ports.

Open Scope Z_scope.

(** ** The queue (sink.go) *)

Module MemQueue.

Record Queue := mkQueue { items : list Message; bytes : Z; maxBytes : Z; dropped : Z }.

Definition NewQueue (max : Z) : Queue := mkQueue [] 0 max 0.

Definition size (m : Message) : Z := zlength (Payload m) + Z.of_nat (String.length (Topic m)).

(** The eviction loop of [Push]: one item less per iteration. *)
Fixpoint evict (max : Z) (its : list Message) (b d : Z) : list Message * Z * Z :=
  match its with
  | old :: ((_ :: _) as rest) =>
      if (0 <? max) && (max <? b) then evict max rest (b - size old) (d + 1) else (its, b, d)
  | _ => (its, b, d)
  end.

Definition Push (msg : Message) : GoM Queue unit unit := fun q =>
  let '(its, b, d) := evict (maxBytes q) (items q ++ [msg]) (bytes q + size msg) (dropped q) in
  (Ok tt, mkQueue its b (maxBytes q) d).

Definition Peek : GoM Queue unit (option Message) := fun q => (Ok (head (items q)), q).

Definition Ack : GoM Queue unit unit := fun q =>
  match items q with
  | [] => (Ok tt, q)
  | old :: rest => (Ok tt, mkQueue rest (bytes q - size old) (maxBytes q) (dropped q))
  end.

Definition Len (q : Queue) : Z := zlength (items q).
Definition Bytes (q : Queue) : Z := bytes q.
Definition Dropped (q : Queue) : Z := dropped q.
Definition Close (q : Queue) : Queue := q.

Global Instance MemQueue_ops : QueueOps Queue unit := {
  qPush := Push; qPeek := Peek; qAck := Ack; qLen := Len; qBytes := Bytes; qDropped := Dropped
}.

(** The counter is the size of what is held. *)
Definition inv (q : Queue) : Prop := bytes q = sumZ (map size (items q)).

Lemma size_nonneg m : 0 <= size m.
Proof. unfold size. pose proof (zlength_nonneg (Payload m)). lia. Qed.

Lemma evict_cons max old m rest b d :
  evict max (old :: m :: rest) b d =
  if (0 <? max) && (max <? b) then evict max (m :: rest) (b - size old) (d + 1) else (old :: m :: rest, b, d).
Proof. done. Qed.

Lemma evict_spec max its b d : b = sumZ (map size its) ->
  exists k, evict max its b d = (drop k its, sumZ (map size (drop k its)), d + Z.of_nat k) /\
    (k <= length its - 1)%nat /\
    (0 < max -> sumZ (map size (drop k its)) <= max \/ length (drop k its) = 1%nat \/ its = []).
Proof.
  revert b d. induction its as [|old rest IH]; intros b d ->.
  { exists 0%nat. cbn. rewrite Z.add_0_r. split_and!; [done|lia|]. intros _. by right; right. }
  destruct rest as [|m rest].
  { exists 0%nat. cbn [evict drop skipn]. rewrite Z.add_0_r. split_and!; [done|cbn; lia|]. intros _. by right; left. }
  rewrite evict_cons. destruct ((0 <? max) && (max <? _)) eqn:E.
  - destruct (IH (sumZ (map size (old :: m :: rest)) - size old) (d + 1)) as (k & -> & Hk & Hm).
    { cbn [map]. rewrite !sumZ_cons. lia. }
    exists (S k). cbn [drop skipn]. split_and!; [f_equal; lia|cbn in *; lia|].
    intros H. destruct (Hm H) as [?|[?|?]]; [by left|by right; left|done].
  - exists 0%nat. cbn [drop skipn]. rewrite Z.add_0_r. split_and!; [done|lia|]. intros H. left. bool_to_prop. lia.
Qed.

Lemma Push_spec q m : inv q ->
  exists q' k, Push m q = (Ok tt, q') /\ inv q' /\ (k <= length (items q))%nat /\
    items q' = drop k (items q ++ [m]) /\ dropped q' = dropped q + Z.of_nat k /\
    (0 < maxBytes q -> bytes q' <= maxBytes q \/ items q' = [m]).
Proof.
  intros Hi. unfold Push. destruct (evict_spec (maxBytes q) (items q ++ [m]) (bytes q + size m) (dropped q)) as (k & E & Hk & Hm).
  { rewrite map_app, sumZ_app, Hi. cbn. lia. }
  rewrite E. rewrite length_app in Hk. cbn [length] in Hk.
  eexists _, k. split_and!; [done|done|lia|done|done|]. cbn [bytes items maxBytes]. intros H.
  destruct (Hm H) as [?|[Hl|Hn]]; [by left| |by destruct (items q)]. right.
  assert (k = length (items q)) as -> by (rewrite length_drop, length_app in Hl; cbn in Hl; lia).
  by rewrite drop_app_length.
Qed.

Lemma Ack_spec q : inv q -> exists q', Ack q = (Ok tt, q') /\ inv q' /\ items q' = tail (items q) /\ dropped q' = dropped q.
Proof.
  intros Hi. unfold Ack, inv in *. destruct (items q) as [|old rest] eqn:E; [exists q; by rewrite E|].
  eexists. split_and!; [done| |done|done]. cbn [bytes items]. rewrite Hi. cbn [map]. rewrite sumZ_cons. lia.
Qed.

Global Instance MemQueue_laws : QueueLaws Queue unit.
Proof.
  refine {| q_inv := inv; q_abs := items; q_storable := fun _ _ => True |}.
  - intros q m Hi _. destruct (Push_spec q m Hi) as (q' & k & ? & ? & ? & ? & ? & _). by exists q', k.
  - intros q Hi. by exists q.
  - intros q Hi. by apply Ack_spec.
  - done.
Defined.

End MemQueue.

(** ** The sink (sink.go) *)

Module MemSink.

(** [ErrContext] is the error of a context that has ended. *)
Inductive SinkError := ErrClosed | ErrSinkDown | ErrContext.

Record Sink := mkSink { messages : list Message; failing : bool; closed : bool; max : Z }.

(** The last [n] of a list. *)
Definition lastn {A} (n : nat) (l : list A) : list A := drop (length l - n) l.

Definition NewSink (m : Z) : Sink := mkSink [] false false m.

Definition Send (ended : bool) (msg : Message) : GoM Sink SinkError unit := fun s =>
  if ended then (Err ErrContext, s)
  else if closed s then (Err ErrClosed, s)
  else if failing s then (Err ErrSinkDown, s)
  else
    let ms := messages s ++ [msg] in
    let ms' := if (0 <? max s) && (max s <? zlength ms) then drop (Z.to_nat (zlength ms - max s)) ms else ms in
    (Ok tt, mkSink ms' (failing s) (closed s) (max s)).

Definition SetFail (f : bool) (s : Sink) : Sink := mkSink (messages s) f (closed s) (max s).
Definition Ready (s : Sink) : bool := negb (failing s) && negb (closed s).
Definition Messages (s : Sink) : list Message := messages s.
Definition Len (s : Sink) : Z := zlength (messages s).
Definition Close (s : Sink) : Sink := mkSink (messages s) (failing s) true (max s).

(** The newest [max] messages, in order: nothing is kept of a refused one. *)
Lemma Send_spec ended msg s :
  Send ended msg s =
  if ended then (Err ErrContext, s)
  else if Ready s then (Ok tt, mkSink (if 0 <? max s then lastn (Z.to_nat (max s)) (messages s ++ [msg]) else messages s ++ [msg]) false false (max s))
  else (Err (if closed s then ErrClosed else ErrSinkDown), s).
Proof.
  unfold Send, Ready. destruct ended, (closed s) eqn:Hc, (failing s) eqn:Hf; try done. cbn [negb andb].
  destruct (Z.ltb_spec 0 (max s)) as [Hm|]; [|done]. cbn [andb]. do 2 f_equal. unfold lastn, zlength.
  destruct (Z.ltb_spec (max s) (Z.of_nat (length (messages s ++ [msg])))).
  - f_equal. lia.
  - replace (length (messages s ++ [msg]) - Z.to_nat (max s))%nat with 0%nat by lia. done.
Qed.

End MemSink.

(** ** The broker, specified (broker.go)

    What a call amounts to when nothing runs beside it and no channel is full:
    a publication reaches all subscriptions at once. [retain] and [backlog] are
    the code's; the rest is a specification, and the broker the examples of the
    node use. *)

Module Broker.

Inductive BrokerError := ErrClosed | ErrFilter (e : UnsError).

(** A subscription: its filter and the messages waiting for its handler, in
    the order the handler gets them (the retained backlog first). *)
Record subscription := mkSubscription { sFilter : string; sQueue : list Message }.

Record Broker := mkBroker {
  subs : gmap Z subscription;
  retained : gmap string Message;
  closed : bool;
  published : Z;
  nextId : Z
}.

Definition NewBroker : Broker := mkBroker ∅ ∅ false 0 0.

Definition deliver (msg : Message) (s : subscription) : subscription :=
  if MatchFilter (sFilter s) (Topic msg) then mkSubscription (sFilter s) (sQueue s ++ [msg]) else s.

Definition retain (msg : Message) (r : gmap string Message) : gmap string Message :=
  if Retain msg then
    match Payload msg with
    | [] => delete (Topic msg) r
    | _ => <[Topic msg := msg]> r
    end
  else r.

Definition Publish (msg : Message) : GoM Broker BrokerError unit := fun b =>
  if closed b then (Err ErrClosed, b)
  else (Ok tt, mkBroker (deliver msg <$> subs b) (retain msg (retained b)) (closed b) (published b + 1) (nextId b)).

Global Instance Memory_broker : BrokerOps Broker BrokerError := { bPublish := Publish }.

(** The retained messages a filter selects, in the map's iteration order. *)
Definition backlog (filter : string) (r : gmap string Message) : list Message :=
  map snd (List.filter (fun p => MatchFilter filter (fst p)) (map_to_list r)).

Definition Subscribe (filter : string) : GoM Broker BrokerError Z := fun b =>
  match ValidateFilter filter with
  | Err e => (Err (ErrFilter e), b)
  | Ok _ =>
      if closed b then (Err ErrClosed, b)
      else (Ok (nextId b),
            mkBroker (<[nextId b := mkSubscription filter (backlog filter (retained b))]> (subs b))
              (retained b) (closed b) (published b) (nextId b + 1))
  end.

Definition remove (id : Z) (b : Broker) : Broker :=
  mkBroker (delete id (subs b)) (retained b) (closed b) (published b) (nextId b).

Definition Ready (b : Broker) : bool := negb (closed b).
Definition Published (b : Broker) : Z := published b.
Definition Retained (topic : string) (b : Broker) : option Message := retained b !! topic.

Definition Close (b : Broker) : Broker :=
  if closed b then b else mkBroker ∅ (retained b) true (published b) (nextId b).

Definition publish_all (ms : list Message) (b : Broker) : Broker :=
  fold_left (fun b m => snd (Publish m b)) ms b.

(** The last retained publication on a topic. *)
Definition last_retained (topic : string) (ms : list Message) : option Message :=
  list.last (List.filter (fun m => Retain m && String.eqb (Topic m) topic) ms).

Lemma publish_all_app ms m b : publish_all (ms ++ [m]) b = snd (Publish m (publish_all ms b)).
Proof. unfold publish_all. by rewrite fold_left_app. Qed.

Lemma publish_all_open ms b : closed b = false -> closed (publish_all ms b) = false.
Proof.
  intros H. induction ms as [|m ms IH] using rev_ind; [done|]. rewrite publish_all_app.
  unfold Publish. by rewrite IH.
Qed.

Lemma publish_all_retained topic ms b : closed b = false -> retained b = ∅ ->
  Retained topic (publish_all ms b) =
  match last_retained topic ms with
  | Some m => match Payload m with [] => None | _ => Some m end
  | None => None
  end.
Proof.
  intros Hc Hr. induction ms as [|m ms IH] using rev_ind.
  { unfold Retained, last_retained. cbn. by rewrite Hr, lookup_empty. }
  rewrite publish_all_app. unfold Publish. rewrite publish_all_open by done. cbn [snd].
  unfold Retained, last_retained in *. cbn [retained]. rewrite List.filter_app. cbn [List.filter]. unfold retain.
  destruct (Retain m); cbn [andb]; [|by rewrite app_nil_r].
  destruct (String.eqb_spec (Topic m) topic) as [<-|Hne].
  - rewrite last_snoc. destruct (Payload m); [apply lookup_delete_eq|apply lookup_insert_eq].
  - rewrite app_nil_r. destruct (Payload m); [by rewrite lookup_delete_ne|by rewrite lookup_insert_ne].
Qed.

Lemma publish_all_queue ms b id s : closed b = false -> subs b !! id = Some s ->
  exists s', subs (publish_all ms b) !! id = Some s' /\ sFilter s' = sFilter s /\
    sQueue s' = sQueue s ++ List.filter (fun m => MatchFilter (sFilter s) (Topic m)) ms.
Proof.
  intros Hc Hs. induction ms as [|m ms (s' & Es & Ef & Eq)] using rev_ind.
  { exists s. cbn. by rewrite app_nil_r. }
  rewrite publish_all_app. unfold Publish. rewrite publish_all_open by done. cbn [snd subs].
  rewrite lookup_fmap, Es. cbn. eexists. split; [done|]. unfold deliver. rewrite Ef, List.filter_app. cbn [List.filter].
  destruct (MatchFilter (sFilter s) (Topic m)); cbn [sFilter sQueue]; rewrite ?app_nil_r; [|done].
  by rewrite Eq, app_assoc.
Qed.

End Broker.

(** ** Properties *)

(** The in-memory queue keeps its promise and its budget: a push appends,
    evicts only from the old end and counts what it evicts; afterwards the
    queue holds at most [maxBytes] or the new message alone; an
    acknowledgement removes the message a peek shows. *)
Theorem memory_queue_fifo (q : MemQueue.Queue) (m : Message) :
  MemQueue.inv q ->
  (exists q' k, MemQueue.Push m q = (Ok tt, q') /\ MemQueue.inv q' /\
     (k <= length (MemQueue.items q))%nat /\ MemQueue.items q' = drop k (MemQueue.items q ++ [m]) /\
     MemQueue.dropped q' = MemQueue.dropped q + Z.of_nat k /\
     (0 < MemQueue.maxBytes q -> MemQueue.bytes q' <= MemQueue.maxBytes q \/ MemQueue.items q' = [m])) /\
  MemQueue.Peek q = (Ok (head (MemQueue.items q)), q) /\
  (exists q', MemQueue.Ack q = (Ok tt, q') /\ MemQueue.inv q' /\ MemQueue.items q' = tail (MemQueue.items q) /\
     MemQueue.dropped q' = MemQueue.dropped q).
Proof. intros Hi. split; [by apply MemQueue.Push_spec|]. split; [done|by apply MemQueue.Ack_spec]. Qed.

Lemma memory_queue_fifo_witness :
  exists q' k, MemQueue.Push (mkMessage "t" [x01] false 0) (MemQueue.NewQueue 3) = (Ok tt, q') /\
    MemQueue.items q' = drop k [mkMessage "t" [x01] false 0].
Proof.
  destruct (memory_queue_fifo (MemQueue.NewQueue 3) (mkMessage "t" [x01] false 0)) as ((q' & k & E & _ & _ & Hi & _) & _);
    [reflexivity|]. exists q', k. split; [exact E|exact Hi].
Defined.

(** The broker's retained messages and deliveries. After any sequence of
    publications the retained message of a topic is the last one published
    with the retain flag, unless its payload was empty, which clears it; and
    every subscriber is owed, in order, exactly the publications its filter
    matches. *)
Theorem broker_delivers (ms : list Message) (b : Broker.Broker) (id : Z) (s : Broker.subscription) (topic : string) :
  Broker.closed b = false -> Broker.retained b = ∅ -> Broker.subs b !! id = Some s ->
  Broker.Retained topic (Broker.publish_all ms b) =
    match Broker.last_retained topic ms with
    | Some m => match Payload m with [] => None | _ => Some m end
    | None => None
    end /\
  exists s', Broker.subs (Broker.publish_all ms b) !! id = Some s' /\
    Broker.sQueue s' = Broker.sQueue s ++ List.filter (fun m => MatchFilter (Broker.sFilter s) (Topic m)) ms.
Proof.
  intros Hc Hr Hs. split; [by apply Broker.publish_all_retained|].
  destruct (Broker.publish_all_queue ms b id s Hc Hs) as (s' & ? & _ & ?). by exists s'.
Qed.

Lemma broker_delivers_witness :
  let b := snd (Broker.Subscribe "a/+" Broker.NewBroker) in
  let m := mkMessage "a/b" [x01] true 0 in
  Broker.Retained "a/b" (Broker.publish_all [m] b) = Some m.
Proof.
  destruct (broker_delivers [mkMessage "a/b" [x01] true 0] (snd (Broker.Subscribe "a/+" Broker.NewBroker)) 0
    (Broker.mkSubscription "a/+" []) "a/b") as [H _]; [reflexivity|reflexivity|reflexivity|exact H].
Defined.
