(* ===== verification/MemoryRace.v ===== *)
(** * MemoryRace: the in-memory broker and its goroutines (internal/adapters/memory/broker.go)

    The broker, step by step; [Memory.Broker] specifies its calls when they do
    not overlap. [Publish] is the block under the mutex followed by one send per subscriber, each of which may wait
    for room in the subscriber's channel, be released because the subscription
    ended, or be abandoned because the publisher's context did; every
    subscription has a goroutine that calls its handler. Publishers are
    numbered; one publisher's calls follow each other. [log], [sent], [start]
    and [handled] record what happened and are not part of the broker. *)
From Stdlib Require Import ZArith Lia.
From S2P Require Import Prelude GoBytes Uns Ports Memory.

Open Scope Z_scope.

Abbreviation entry := (nat * Message)%type.

Definition subscriberBuffer : nat := Z.to_nat 1024.

(** [waiting] is what is left of the backlog, [chan] the channel, [done] whether
    it was closed, [cancelled] whether its context ended. *)
Record sub := mkSub {
  filter : string;
  waiting : list Message;
  chan : list entry;
  done : bool;
  cancelled : bool;
  exited : bool;
  since : nat;
  start : list Message;
  sent : list entry;
  handled : list Message
}.

(** A call of [Publish] after its locked block: the subscriptions it still has
    to send to. *)
Record call := mkCall { cMsg : Message; cTargets : list Z }.

(** [live] is the map of subscriptions; [subs] also keeps those that left it. *)
Record broker := mkBroker {
  subs : gmap Z sub;
  live : gset Z;
  retained : gmap string Message;
  closed : bool;
  inflight : gmap nat call;
  nextId : Z;
  log : list entry;
  aborted : gset nat
}.

Definition NewBroker : broker := mkBroker ∅ ∅ ∅ false ∅ 0 [] ∅.

Definition set_subs (x : gmap Z sub) (b : broker) : broker :=
  mkBroker x (live b) (retained b) (closed b) (inflight b) (nextId b) (log b) (aborted b).
Definition set_live (x : gset Z) (b : broker) : broker :=
  mkBroker (subs b) x (retained b) (closed b) (inflight b) (nextId b) (log b) (aborted b).
Definition set_inflight (x : gmap nat call) (b : broker) : broker :=
  mkBroker (subs b) (live b) (retained b) (closed b) x (nextId b) (log b) (aborted b).

(** ** Publish *)

Definition matches (b : broker) (topic : string) (id : Z) : bool :=
  match subs b !! id with Some s => MatchFilter (filter s) topic | None => false end.

(** The subscriptions the locked block collects, in some order of the map. *)
Definition targets (b : broker) (topic : string) : list Z := List.filter (matches b topic) (elements (live b)).

Definition publish_begin (p : nat) (m : Message) (order : list Z) (b : broker) : broker :=
  mkBroker (subs b) (live b) (Broker.retain m (retained b)) (closed b) (<[p := mkCall m order]> (inflight b)) (nextId b)
    (log b ++ [(p, m)]) (aborted b).

(** [s.ch <- msg]. *)
Definition accept (e : entry) (s : sub) : sub :=
  mkSub (filter s) (waiting s) (chan s ++ [e]) (done s) (cancelled s) (exited s) (since s) (start s) (sent s ++ [e]) (handled s).

Definition publish_send (p : nat) (c : call) (id : Z) (rest : list Z) (b : broker) : broker :=
  set_inflight (<[p := mkCall (cMsg c) rest]> (inflight b)) (set_subs (alter (accept (p, cMsg c)) id (subs b)) b).

Definition publish_skip (p : nat) (c : call) (rest : list Z) (b : broker) : broker :=
  set_inflight (<[p := mkCall (cMsg c) rest]> (inflight b)) b.

(** The context ended first. *)
Definition publish_abort (p : nat) (b : broker) : broker :=
  mkBroker (subs b) (live b) (retained b) (closed b) (delete p (inflight b)) (nextId b) (log b) ({[p]} ∪ aborted b).

Definition publish_return (p : nat) (b : broker) : broker := set_inflight (delete p (inflight b)) b.

(** ** Subscribe and its goroutine *)

(** The backlog comes in some order of the map of retained messages. *)
Definition subscribe (f : string) (backlog : list Message) (b : broker) : broker :=
  mkBroker (<[nextId b := mkSub f backlog [] false false false (length (log b)) backlog [] []]> (subs b))
    ({[nextId b]} ∪ live b) (retained b) (closed b) (inflight b) (nextId b + 1) (log b) (aborted b).

(** One call of the handler: first the backlog, then the channel. *)
Definition handle (s : sub) : sub :=
  match waiting s with
  | m :: rest =>
      mkSub (filter s) rest (chan s) (done s) (cancelled s) (exited s) (since s) (start s) (sent s) (handled s ++ [m])
  | [] =>
      match chan s with
      | (_, m) :: rest =>
          mkSub (filter s) [] rest (done s) (cancelled s) (exited s) (since s) (start s) (sent s) (handled s ++ [m])
      | [] => s
      end
  end.

Definition finish (s : sub) : sub :=
  mkSub (filter s) (waiting s) (chan s) (done s) (cancelled s) true (since s) (start s) (sent s) (handled s).
Definition cancel (s : sub) : sub :=
  mkSub (filter s) (waiting s) (chan s) (done s) true (exited s) (since s) (start s) (sent s) (handled s).

(** [subscription.close]. *)
Definition close_sub (s : sub) : sub :=
  mkSub (filter s) (waiting s) (chan s) true (cancelled s) (exited s) (since s) (start s) (sent s) (handled s).

(** [remove] and [Close] take subscriptions from the map under the mutex and
    close them after it, [EndSub] below; a goroutine whose context ended has left
    its loop when it calls [remove]. [Close] then waits for the goroutines. *)
Definition remove (id : Z) (b : broker) : broker := set_live (live b ∖ {[id]}) b.

Definition close (b : broker) : broker :=
  mkBroker (subs b) ∅ (retained b) true (inflight b) (nextId b) (log b) (aborted b).

(** [Ready], [Published], [Retained]. *)
Definition Ready (b : broker) : bool := negb (closed b).
Definition Published (b : broker) : Z := Z.of_nat (length (log b)).
Definition Retained (topic : string) (b : broker) : option Message := retained b !! topic.

(** ** Steps *)

Inductive event :=
| Publish (p : nat) (m : Message) (order : list Z)
| Send (p : nat)
| Skip (p : nat)
| Abort (p : nat)
| Return (p : nat)
| Subscribe (f : string) (backlog : list Message)
| Handle (id : Z)
| Exit (id : Z)
| Cancel (id : Z)
| ExitCancelled (id : Z)
| Unsubscribe (id : Z)
| EndSub (id : Z)
| Close.

(** The goroutine of a subscription that is in its loop. *)
Definition looping (s : sub) : bool := negb (exited s) && bool_decide (waiting s = []).

(** An event that cannot happen changes nothing: a call on a closed broker
    returns an error, a send without room waits. *)
Definition step (b : broker) (e : event) : broker :=
  match e with
  | Publish p m order =>
      match inflight b !! p with
      | None => if negb (closed b) && bool_decide (order ≡ₚ targets b (Topic m)) then publish_begin p m order b else b
      | Some _ => b
      end
  | Send p =>
      match inflight b !! p with
      | Some (mkCall m (id :: rest)) =>
          match subs b !! id with
          | Some s => if (length (chan s) <? subscriberBuffer)%nat then publish_send p (mkCall m (id :: rest)) id rest b else b
          | None => b
          end
      | _ => b
      end
  | Skip p =>
      match inflight b !! p with
      | Some (mkCall m (id :: rest)) =>
          match subs b !! id with
          | Some s => if done s then publish_skip p (mkCall m (id :: rest)) rest b else b
          | None => b
          end
      | _ => b
      end
  | Abort p => match inflight b !! p with Some (mkCall _ (_ :: _)) => publish_abort p b | _ => b end
  | Return p => match inflight b !! p with Some (mkCall _ []) => publish_return p b | _ => b end
  | Subscribe f backlog =>
      if is_ok (ValidateFilter f) && negb (closed b) && bool_decide (backlog ≡ₚ Broker.backlog f (retained b)) then subscribe f backlog b else b
  | Handle id =>
      match subs b !! id with
      | Some s => if exited s then b else set_subs (<[id := handle s]> (subs b)) b
      | None => b
      end
  | Exit id =>
      match subs b !! id with
      | Some s => if looping s && done s then set_subs (<[id := finish s]> (subs b)) b else b
      | None => b
      end
  | Cancel id => match subs b !! id with Some s => set_subs (<[id := cancel s]> (subs b)) b | None => b end
  | ExitCancelled id =>
      match subs b !! id with
      | Some s => if looping s && cancelled s then set_subs (<[id := finish s]> (subs b)) (remove id b) else b
      | None => b
      end
  | Unsubscribe id => remove id b
  | EndSub id =>
      match subs b !! id with
      | Some s => if bool_decide (id ∈ live b) then b else set_subs (<[id := close_sub s]> (subs b)) b
      | None => b
      end
  | Close => if closed b then b else close b
  end.

Definition run (es : list event) : broker := fold_left step es NewBroker.

(** ** Specification *)

(** The entries of one publisher. *)
Definition from (p : nat) (es : list entry) : list entry := List.filter (fun e => Nat.eqb (fst e) p) es.

(** What was published since the subscription was made and its filter selects. *)
Definition due (l : list entry) (s : sub) : list entry :=
  List.filter (fun e => MatchFilter (filter s) (Topic (snd e))) (drop (since s) l).

(** What a publisher still has to send to a subscription. *)
Definition owed (calls : gmap nat call) (p : nat) (id : Z) : list entry :=
  match calls !! p with
  | Some c => if bool_decide (id ∈ cTargets c) then [(p, cMsg c)] else []
  | None => []
  end.

(** The retained messages after publications. *)
Definition retained_after (l : list entry) : gmap string Message := fold_left (fun r e => Broker.retain (snd e) r) l ∅.

(** ** Lemmas *)

Lemma from_app p a b : from p (a ++ b) = from p a ++ from p b.
Proof. apply List.filter_app. Qed.

Lemma due_app l e s : (since s <= length l)%nat ->
  due (l ++ [e]) s = due l s ++ (if MatchFilter (filter s) (Topic (snd e)) then [e] else []).
Proof. intros H. unfold due. rewrite drop_app_le, List.filter_app by done. done. Qed.

Lemma retained_after_app l e : retained_after (l ++ [e]) = Broker.retain (snd e) (retained_after l).
Proof. unfold retained_after. by rewrite fold_left_app. Qed.

(** A subscription against the broker's history. *)
Record sub_ok (b : broker) (id : Z) (s : sub) : Prop := {
  so_handled : start s ++ map snd (sent s) = handled s ++ waiting s ++ map snd (chan s);
  so_room : (length (chan s) <= subscriberBuffer)%nat;
  so_since : (since s <= length (log b))%nat;
  so_start : start s ≡ₚ Broker.backlog (filter s) (retained_after (take (since s) (log b)));
  so_id : id < nextId b;
  so_done : done s = true -> id ∉ live b;
  so_exited : exited s = true -> done s = true \/ id ∉ live b;
  so_order p : sublist (from p (sent s) ++ owed (inflight b) p id) (from p (due (log b) s));
  so_exact p : id ∈ live b -> p ∉ aborted b -> from p (due (log b) s) = from p (sent s) ++ owed (inflight b) p id
}.

Record ok (b : broker) : Prop := {
  ok_subs id s : subs b !! id = Some s -> sub_ok b id s;
  ok_live id : id ∈ live b -> is_Some (subs b !! id);
  ok_calls p c : inflight b !! p = Some c -> NoDup (cTargets c) /\ forall id, id ∈ cTargets c -> is_Some (subs b !! id);
  ok_retained : retained b = retained_after (log b)
}.

Lemma ok_new : ok NewBroker.
Proof. constructor; cbn; try done; intros *; by rewrite ?lookup_empty. Qed.

(** A change of what a goroutine or a context owns. *)
Lemma ok_local b id s s' : ok b -> subs b !! id = Some s ->
  filter s' = filter s -> since s' = since s -> start s' = start s -> sent s' = sent s ->
  (done s' = true -> done s = true \/ id ∉ live b) -> (exited s' = true -> done s' = true \/ id ∉ live b) -> (length (chan s') <= length (chan s))%nat ->
  handled s' ++ waiting s' ++ map snd (chan s') = handled s ++ waiting s ++ map snd (chan s) ->
  ok (set_subs (<[id := s']> (subs b)) b).
Proof.
  intros [Hs Hl Hc Hr] Hid Ef Esi Est Ese Hd Hx Hch Hh. constructor; cbn; try done.
  - intros id' s'' [(<- & <-)|[? H]]%lookup_insert_Some; [|by destruct (Hs id' s'' H)]. destruct (Hs id s Hid) as [H1 H2 H3 H4 H5 H6 H9 H7 H8].
    assert (due (log b) s' = due (log b) s) as Edue by (unfold due; by rewrite Ef, Esi).
    constructor; cbn; rewrite ?Ef, ?Esi, ?Est, ?Ese, ?Edue; try done; [by rewrite Hh|lia|]. intros [?|?]%Hd; auto.
  - intros id' H. destruct (decide (id = id')) as [<-|]; [rewrite lookup_insert_eq; by eexists|rewrite lookup_insert_ne by done; auto].
  - intros p c H. destruct (Hc p c H) as [H1 H2]. split; [done|]. intros id' Hin.
    destruct (decide (id = id')) as [<-|]; [rewrite lookup_insert_eq; by eexists|rewrite lookup_insert_ne by done; auto].
Qed.

Lemma ok_shrink b x : ok b -> x ⊆ live b -> ok (set_live x b).
Proof.
  intros [Hs Hl Hc Hr] Hx. constructor; cbn; try done; [|set_solver]. intros id s H. destruct (Hs id s H) as [H1 H2 H3 H4 H5 H6 H9 H7 H8].
  constructor; cbn; try done; [set_solver|set_solver|]. intros p Hp. apply H8. set_solver.
Qed.

Lemma owed_insert calls p c q id :
  owed (<[p := c]> calls) q id = if decide (p = q) then (if bool_decide (id ∈ cTargets c) then [(p, cMsg c)] else []) else owed calls q id.
Proof. unfold owed. case_decide as H; [subst; by rewrite lookup_insert_eq|by rewrite lookup_insert_ne]. Qed.

Lemma owed_delete calls p q id : owed (delete p calls) q id = if decide (p = q) then [] else owed calls q id.
Proof. unfold owed. case_decide as H; [subst; by rewrite lookup_delete_eq|by rewrite lookup_delete_ne]. Qed.

Lemma from_single p q m : from p [(q, m)] = if decide (q = p) then [(q, m)] else [].
Proof. unfold from. cbn. case_decide as H; [by rewrite (proj2 (Nat.eqb_eq q p) H)|]. by rewrite (proj2 (Nat.eqb_neq q p) H). Qed.

(** The locked block of [Publish]. *)
Lemma ok_begin b p m order : ok b -> inflight b !! p = None -> order ≡ₚ targets b (Topic m) -> ok (publish_begin p m order b).
Proof.
  intros [Hs Hl Hc Hr] Hp Ho.
  assert (forall id, id ∈ order <-> id ∈ live b /\ matches b (Topic m) id = true) as Hin.
  { intros id. rewrite Ho. unfold targets. rewrite list_elem_of_In, filter_In, <-list_elem_of_In. by rewrite elem_of_elements. }
  constructor; cbn [publish_begin subs live inflight retained log].
  - intros id s H. destruct (Hs id s H) as [H1 H2 H3 H4 H5 H6 H9 H7 H8].
    assert (matches b (Topic m) id = MatchFilter (filter s) (Topic m)) as Em by (unfold matches; by rewrite H).
    assert (owed (inflight b) p id = []) as E0 by (unfold owed; by rewrite Hp).
    constructor; cbn [publish_begin subs live inflight retained log nextId aborted]; try done; [rewrite length_app; lia|rewrite take_app_le by done; done|..].
    + intros q. rewrite due_app, from_app, owed_insert by done. cbn [snd]. case_decide as Hq; [subst q|].
      * specialize (H7 p). rewrite E0, app_nil_r in H7. cbn [cTargets cMsg]. case_bool_decide as Hi.
        -- apply Hin in Hi as [_ Hi]. rewrite Em in Hi. rewrite Hi, from_single, decide_True by done. by apply sublist_app.
        -- rewrite app_nil_r. by apply sublist_inserts_r.
      * destruct (MatchFilter _ _); [rewrite from_single, decide_False by done|]; by rewrite app_nil_r.
    + intros q Hlive Hq. rewrite due_app, from_app, owed_insert by done. cbn [snd]. rewrite (H8 q Hlive Hq). case_decide as Hpq; [subst q|].
      * rewrite E0, app_nil_r. f_equal. cbn [cTargets cMsg].
        destruct (MatchFilter (filter s) (Topic m)) eqn:Ef.
        -- rewrite from_single, decide_True by done. rewrite bool_decide_true; [done|]. apply Hin. by rewrite Em.
        -- rewrite bool_decide_false; [done|]. intros [_ Hi]%Hin. congruence.
      * destruct (MatchFilter _ _); [rewrite from_single, decide_False by done|]; by rewrite app_nil_r.
  - done.
  - intros q c [(<- & <-)|[? H]]%lookup_insert_Some; [|by apply (Hc q)]. cbn [cTargets]. split.
    + rewrite Ho. apply NoDup_ListNoDup, List.NoDup_filter, NoDup_ListNoDup, NoDup_elements.
    + intros id [Hlive _]%Hin. by apply Hl.
  - by rewrite retained_after_app, <-Hr.
Qed.

(** Calls that owe less: to subscriptions that ended, or because they gave up. *)
Lemma ok_release b calls x : ok b -> aborted b ⊆ x ->
  (forall p c, calls !! p = Some c -> NoDup (cTargets c) /\ forall id, id ∈ cTargets c -> is_Some (subs b !! id)) ->
  (forall p id, sublist (owed calls p id) (owed (inflight b) p id)) ->
  (forall p id s, subs b !! id = Some s -> id ∈ live b -> p ∉ x -> owed calls p id = owed (inflight b) p id) ->
  ok (mkBroker (subs b) (live b) (retained b) (closed b) calls (nextId b) (log b) x).
Proof.
  intros [Hs Hl Hc Hr] Hx Hcalls Hsub Heq. constructor; cbn; try done. intros id s H. destruct (Hs id s H) as [H1 H2 H3 H4 H5 H6 H9 H7 H8].
  constructor; cbn; try done.
  - intros p. etrans; [|apply H7]. by apply sublist_app.
  - intros p Hlive Hp. rewrite (Heq p id s) by done. apply H8; [done|set_solver].
Qed.

Lemma owed_tail calls p m id rest q id' : calls !! p = Some (mkCall m (id :: rest)) -> NoDup (id :: rest) ->
  owed (<[p := mkCall m rest]> calls) q id' =
  if decide (p = q /\ id = id') then [] else owed calls q id'.
Proof.
  intros Hp [Hn _]%NoDup_cons. rewrite owed_insert. cbn [cTargets cMsg]. destruct (decide (p = q)) as [<-|Hpq].
  - unfold owed. rewrite Hp. cbn [cTargets cMsg]. destruct (decide (id = id')) as [<-|Hid].
    + rewrite bool_decide_false by done. by rewrite decide_True.
    + rewrite decide_False by naive_solver. rewrite (bool_decide_ext (id' ∈ id :: rest) (id' ∈ rest)); [done|]. set_solver.
  - by rewrite decide_False by naive_solver.
Qed.

Lemma ok_skip b p m id rest s : ok b -> inflight b !! p = Some (mkCall m (id :: rest)) -> subs b !! id = Some s -> done s = true ->
  ok (publish_skip p (mkCall m (id :: rest)) rest b).
Proof.
  intros Hok Hp Hid Hd. destruct (ok_calls b Hok p _ Hp) as [Hn Hin]. cbn [cTargets] in *.
  apply (ok_release b (<[p := mkCall m rest]> (inflight b)) (aborted b)); [done|done|..].
  - intros q c [(<- & <-)|[? H]]%lookup_insert_Some; [|by apply (ok_calls b Hok q)]. cbn [cTargets]. apply NoDup_cons in Hn as [_ Hn].
    split; [done|]. intros id' ?. apply Hin. by right.
  - intros q id'. rewrite (owed_tail _ _ _ id) by done. case_decide; [apply sublist_nil_l|done].
  - intros q id' s' Hs' Hlive _. rewrite (owed_tail _ _ _ id) by done. case_decide as Hd'; [|done]. destruct Hd' as [<- <-].
    by destruct (so_done b id s (ok_subs b Hok id s Hid) Hd).
Qed.

Lemma ok_drop b p c x : ok b -> inflight b !! p = Some c -> aborted b ⊆ x -> (cTargets c = [] \/ p ∈ x) ->
  ok (mkBroker (subs b) (live b) (retained b) (closed b) (delete p (inflight b)) (nextId b) (log b) x).
Proof.
  intros Hok Hp Hx Hd. apply ok_release; [done|done|..].
  - intros q c' [_ H]%lookup_delete_Some. by apply (ok_calls b Hok q).
  - intros q id. rewrite owed_delete. case_decide; [apply sublist_nil_l|done].
  - intros q id s _ _ Hq. rewrite owed_delete. case_decide as Hpq; [|done]. subst q. destruct Hd as [Hd|?]; [|done].
    unfold owed. by rewrite Hp, Hd.
Qed.

Lemma ok_send b p m id rest s : ok b -> inflight b !! p = Some (mkCall m (id :: rest)) -> subs b !! id = Some s ->
  (length (chan s) < subscriberBuffer)%nat -> ok (publish_send p (mkCall m (id :: rest)) id rest b).
Proof.
  intros [Hs Hl Hc Hr] Hp Hid Hroom. destruct (Hc p _ Hp) as [Hn Hin]. cbn [cTargets] in *.
  assert (forall id', is_Some (subs b !! id') -> is_Some (alter (accept (p, m)) id (subs b) !! id')) as Hsome.
  { intros id'. destruct (decide (id = id')) as [<-|]; [rewrite lookup_alter_eq, fmap_is_Some; done|by rewrite lookup_alter_ne]. }
  constructor; cbn [publish_send set_inflight set_subs subs live inflight retained log cMsg]; try done.
  - intros id' s' H. destruct (decide (id = id')) as [<-|Hne].
    + rewrite lookup_alter_eq, Hid in H. injection H as <-. destruct (Hs id s Hid) as [H1 H2 H3 H4 H5 H6 H9 H7 H8].
      assert (owed (inflight b) p id = [(p, m)]) as Eo by (unfold owed; rewrite Hp; cbn; by rewrite bool_decide_true by left).
      assert (forall q, from q (sent s ++ [(p, m)]) ++ owed (<[p := mkCall m rest]> (inflight b)) q id =
        from q (sent s) ++ owed (inflight b) q id) as E.
      { intros q. rewrite from_app, from_single, (owed_tail _ _ _ id) by done. destruct (decide (p = q)) as [<-|Hpq].
        - rewrite decide_True by done. by rewrite Eo, app_nil_r.
        - rewrite decide_False by naive_solver. by rewrite app_nil_r. }
      constructor; cbn [accept start sent handled waiting chan since filter done inflight live log aborted set_inflight set_subs nextId]; try done.
      * rewrite !map_app, !app_assoc, H1. by rewrite <-!app_assoc.
      * rewrite length_app. cbn. lia.
      * intros q. rewrite E. exact (H7 q).
      * intros q Hlive Hq. rewrite E. exact (H8 q Hlive Hq).
    + rewrite lookup_alter_ne in H by done. destruct (Hs id' s' H) as [H1 H2 H3 H4 H5 H6 H9 H7 H8].
      assert (forall q, owed (<[p := mkCall m rest]> (inflight b)) q id' = owed (inflight b) q id') as E.
      { intros q. rewrite (owed_tail _ _ _ id) by done. by rewrite decide_False by naive_solver. }
      constructor; cbn [inflight live log aborted set_inflight set_subs nextId]; try done; [intros q; by rewrite E|intros q ??; rewrite E; by apply H8].
  - intros id' H. by apply Hsome, Hl.
  - intros q c [(<- & <-)|[? H]]%lookup_insert_Some; cbn [cTargets].
    + apply NoDup_cons in Hn as [_ Hn]. split; [done|]. intros id' ?. apply Hsome, Hin. by right.
    + destruct (Hc q c H) as [Hn' Hin']. split; [done|]. intros id' ?. by apply Hsome, Hin'.
Qed.

Lemma ok_subscribe b f l : ok b -> l ≡ₚ Broker.backlog f (retained b) -> ok (subscribe f l b).
Proof.
  intros [Hs Hl Hc Hr] Hperm.
  assert (subs b !! nextId b = None) as Hnew.
  { destruct (subs b !! nextId b) as [s|] eqn:H; [|done]. pose proof (so_id b _ s (Hs _ s H)). lia. }
  assert (forall id, is_Some (subs b !! id) -> nextId b <> id) as Hne by (intros id [s H] <-; congruence).
  constructor; cbn [subscribe subs live inflight retained log]; try done.
  - intros id s [(<- & <-)|[? H]]%lookup_insert_Some.
    + constructor; cbn; try done; rewrite ?firstn_all, <-?Hr; try done; try lia.
      * by rewrite Hr in Hperm.
      * intros p. unfold due. cbn. rewrite drop_all. cbn. unfold owed. destruct (inflight b !! p) as [c|] eqn:Hp; [|done].
        rewrite bool_decide_false; [done|]. intros Hin. by destruct (Hne _ (proj2 (Hc p c Hp) _ Hin)).
      * intros p _ _. unfold due. cbn. rewrite drop_all. cbn. unfold owed. destruct (inflight b !! p) as [c|] eqn:Hp; [|done].
        rewrite bool_decide_false; [done|]. intros Hin. by destruct (Hne _ (proj2 (Hc p c Hp) _ Hin)).
    + assert (nextId b <> id) as Hnid by (apply Hne; by eexists).
      destruct (Hs id s H) as [H1 H2 H3 H4 H5 H6 H9 H7 H8]. constructor; cbn; try done; [lia|..].
      * intros Hd Hin. apply elem_of_union in Hin as [Hin%elem_of_singleton|Hin]; [congruence|by apply (H6 Hd)].
      * intros [?|Hx]%H9; [by left|right]. intros [Hin%elem_of_singleton|Hin]%elem_of_union; [congruence|done].
      * intros p [Hin%elem_of_singleton|Hin]%elem_of_union Hp; [congruence|by apply H8].
  - intros id [->%elem_of_singleton|H]%elem_of_union; [rewrite lookup_insert_eq; by eexists|].
    rewrite lookup_insert_ne by by apply Hne, Hl. by apply Hl.
  - intros p c H. destruct (Hc p c H) as [Hn Hin]. split; [done|]. intros id H'. rewrite lookup_insert_ne by by apply Hne, Hin. by apply Hin.
Qed.

Lemma handle_frame s : filter (handle s) = filter s /\ since (handle s) = since s /\ start (handle s) = start s /\
  sent (handle s) = sent s /\ done (handle s) = done s /\ exited (handle s) = exited s /\ (length (chan (handle s)) <= length (chan s))%nat /\
  handled (handle s) ++ waiting (handle s) ++ map snd (chan (handle s)) = handled s ++ waiting s ++ map snd (chan s).
Proof.
  unfold handle. destruct (waiting s) as [|m rest] eqn:Hw; [destruct (chan s) as [|[q m] rest] eqn:Hc|];
    cbn; rewrite ?Hw, ?Hc; cbn; split_and!; rewrite <-?app_assoc; (done || lia).
Qed.

Lemma ok_step b e : ok b -> ok (step b e).
Proof.
  intros Hok. destruct e as [p m order|p|p|p|p|f l|id|id|id|id|id|id|]; cbn [step].
  - destruct (inflight b !! p) eqn:Hp; [done|]. destruct (closed b); [done|]. cbn [negb andb]. case_bool_decide; [by apply ok_begin|done].
  - destruct (inflight b !! p) as [[m [|id rest]]|] eqn:Hp; try done. destruct (subs b !! id) as [s|] eqn:Hid; [|done].
    destruct (Nat.ltb_spec (length (chan s)) subscriberBuffer); [by apply (ok_send b p m id rest s)|done].
  - destruct (inflight b !! p) as [[m [|id rest]]|] eqn:Hp; try done. destruct (subs b !! id) as [s|] eqn:Hid; [|done].
    destruct (done s) eqn:Hd; [by apply (ok_skip b p m id rest s)|done].
  - destruct (inflight b !! p) as [[m [|id rest]]|] eqn:Hp; try done.
    apply (ok_drop b p (mkCall m (id :: rest))); [done|done|set_solver|right; set_solver].
  - destruct (inflight b !! p) as [[m [|id rest]]|] eqn:Hp; try done. apply (ok_drop b p (mkCall m [])); [done|done|done|by left].
  - destruct (is_ok _ && negb _); [|done]. cbn [andb]. case_bool_decide; [by apply ok_subscribe|done].
  - destruct (subs b !! id) as [s|] eqn:Hid; [|done]. destruct (exited s); [done|].
    destruct (handle_frame s) as (? & ? & ? & ? & Hd & Hx & ? & ?). apply (ok_local b id s); try done; rewrite Hd; [by left|rewrite Hx; apply (so_exited b id s), Hok; done].
  - destruct (subs b !! id) as [s|] eqn:Hid; [|done]. destruct (looping s && done s) eqn:E; [|done]. apply andb_true_iff in E as [_ E].
    apply (ok_local b id s); try done; [by left|]. intros _. by left.
  - destruct (subs b !! id) as [s|] eqn:Hid; [|done]. apply (ok_local b id s); try done; [by left|]. apply (so_exited b id s), Hok; done.
  - destruct (subs b !! id) as [s|] eqn:Hid; [|done]. destruct (looping s && cancelled s); [|done].
    apply (ok_local (remove id b) id s); try done; [apply ok_shrink; [done|set_solver]|by left|right; set_solver].
  - apply ok_shrink; [done|set_solver].
  - destruct (subs b !! id) as [s|] eqn:Hid; [|done]. case_bool_decide; [done|]. apply (ok_local b id s); try done; cbn; [by right|by left].
  - destruct (closed b); [done|]. unfold close. pose proof (ok_shrink b ∅ Hok ltac:(set_solver)) as [Hs Hl Hc Hr].
    constructor; try done. intros id s H. destruct (Hs id s H). by constructor.
Qed.

Lemma ok_run es : ok (run es).
Proof. unfold run. induction es as [|e es IH] using rev_ind; [apply ok_new|]. rewrite fold_left_app. by apply ok_step. Qed.

Lemma ok_fold es b : ok b -> ok (fold_left step es b).
Proof. revert b. induction es as [|e es IH]; intros b H; [done|]. by apply IH, ok_step. Qed.

(** ** What a step leaves alone *)

(** A subscription changes in its handler's history only when its handler is called. *)
Lemma step_keeps b e id s : ok b -> subs b !! id = Some s -> e <> Handle id ->
  exists s', subs (step b e) !! id = Some s' /\ filter s' = filter s /\ start s' = start s /\ since s' = since s /\ handled s' = handled s.
Proof.
  intros Hok Hid He.
  assert (forall id' s' s0, subs b !! id' = Some s0 -> filter s' = filter s0 -> start s' = start s0 -> since s' = since s0 -> handled s' = handled s0 ->
    exists s1, <[id' := s']> (subs b) !! id = Some s1 /\ filter s1 = filter s /\ start s1 = start s /\ since s1 = since s /\ handled s1 = handled s) as Hset.
  { intros id' s' s0 H0 E1 E2 E3 E4. destruct (decide (id' = id)) as [->|Hne].
    - rewrite lookup_insert_eq. rewrite Hid in H0. injection H0 as <-. by exists s'.
    - rewrite lookup_insert_ne by done. by exists s. }
  assert (exists s1, subs b !! id = Some s1 /\ filter s1 = filter s /\ start s1 = start s /\ since s1 = since s /\ handled s1 = handled s) as Hsame
    by (by exists s).
  destruct e as [p m order|p|p|p|p|f l|id'|id'|id'|id'|id'|id'|]; cbn [step]; try done.
  - destruct (inflight b !! p); [done|]. by destruct (_ && _).
  - destruct (inflight b !! p) as [[m [|id' rest]]|]; try done. destruct (subs b !! id') as [s0|] eqn:H0; [|done].
    destruct (_ <? _)%nat; [|done]. cbn. destruct (decide (id' = id)) as [->|Hne].
    + rewrite lookup_alter_eq, Hid. by eexists.
    + by rewrite lookup_alter_ne.
  - destruct (inflight b !! p) as [[m [|id' rest]]|]; try done. destruct (subs b !! id') as [s0|]; [|done]. by destruct (done s0).
  - by destruct (inflight b !! p) as [[m [|id' rest]]|].
  - by destruct (inflight b !! p) as [[m [|id' rest]]|].
  - destruct (_ && _ && _); [|done]. cbn. rewrite lookup_insert_ne; [done|]. intros <-. pose proof (so_id b _ s (ok_subs b Hok _ s Hid)). lia.
  - destruct (subs b !! id') as [s0|] eqn:H0; [|done]. destruct (exited s0); [done|]. cbn. rewrite lookup_insert_ne; [done|]. by intros ->.
  - destruct (subs b !! id') as [s0|] eqn:H0; [|done]. destruct (_ && _); [|done]. by apply (Hset id' (finish s0) s0).
  - destruct (subs b !! id') as [s0|] eqn:H0; [|done]. by apply (Hset id' (cancel s0) s0).
  - destruct (subs b !! id') as [s0|] eqn:H0; [|done]. destruct (_ && _); [|done]. by apply (Hset id' (finish s0) s0).
  - destruct (subs b !! id') as [s0|] eqn:H0; [|done]. case_bool_decide; [done|]. by apply (Hset id' (close_sub s0) s0).
  - by destruct (closed b).
Qed.

(** Only the locked block of [Publish] adds to the history, and only [close] closes. *)
Lemma step_log b e : (forall p m order, e <> Publish p m order) -> log (step b e) = log b.
Proof.
  intros He. destruct e as [p m order|p|p|p|p|f l|id'|id'|id'|id'|id'|id'|]; cbn [step]; [by destruct (He p m order)|..].
  all: repeat match goal with |- log (match ?x with _ => _ end) = _ => destruct x | |- log (if ?x then _ else _) = _ => destruct x end; done.
Qed.

Lemma step_closed b e : e <> Close -> closed (step b e) = closed b.
Proof.
  intros He. destruct e as [p m order|p|p|p|p|f l|id'|id'|id'|id'|id'|id'|]; cbn [step]; [..|done].
  all: repeat match goal with |- closed (match ?x with _ => _ end) = _ => destruct x | |- closed (if ?x then _ else _) = _ => destruct x end; done.
Qed.

(** The messages of a subscription were published. *)
Lemma retained_logged l t m : retained_after l !! t = Some m -> m ∈ map snd l.
Proof.
  induction l as [|e l IH] using rev_ind; [unfold retained_after; cbn; by rewrite lookup_empty|]. rewrite retained_after_app, map_app. intros H. apply elem_of_app.
  unfold Broker.retain in H. destruct (Retain (snd e)); [|left; auto]. destruct (Payload (snd e)).
  - apply lookup_delete_Some in H as [_ H]. left; auto.
  - apply lookup_insert_Some in H as [[_ <-]|[_ H]]; [right; left|left; auto].
Qed.

Lemma start_logged b id s m : ok b -> subs b !! id = Some s -> m ∈ start s -> m ∈ map snd (log b).
Proof.
  intros Hok Hid. rewrite (so_start b id s (ok_subs b Hok id s Hid)). unfold Broker.backlog.
  intros ([t m'] & -> & [Hin%list_elem_of_In _]%list_elem_of_In%filter_In)%list_elem_of_fmap.
  apply elem_of_map_to_list, retained_logged in Hin. cbn [snd]. revert Hin. rewrite !list_elem_of_fmap.
  intros (e & -> & He). exists e. split; [done|]. rewrite <- (take_drop (since s) (log b)). apply elem_of_app. by left.
Qed.

Lemma sent_logged b id s e : ok b -> subs b !! id = Some s -> e ∈ sent s -> e ∈ log b.
Proof.
  intros Hok Hid He. pose proof (so_order b id s (ok_subs b Hok id s Hid) (fst e)) as H.
  assert (e ∈ from (fst e) (sent s)) as Hin.
  { unfold from. apply list_elem_of_In, filter_In. split; [by apply list_elem_of_In|]. apply Nat.eqb_refl. }
  assert (e ∈ from (fst e) (due (log b) s)) as Hin' by (eapply sublist_subseteq; [exact H|]; apply elem_of_app; by left).
  unfold from, due in Hin'. apply list_elem_of_In, filter_In in Hin' as [Hin' _]. apply filter_In in Hin' as [Hin' _].
  apply list_elem_of_In in Hin'. rewrite <- (take_drop (since s) (log b)). apply elem_of_app. by right.
Qed.

(** One call of the handler takes the first message that waits. *)
Lemma handle_takes s m rest : waiting s ++ map snd (chan s) = m :: rest ->
  handled (handle s) = handled s ++ [m] /\ waiting (handle s) ++ map snd (chan (handle s)) = rest.
Proof.
  unfold handle. destruct (waiting s) as [|x w]; [destruct (chan s) as [|[p x] ch]|]; cbn; [done|..]; by intros [= -> <-].
Qed.

(** ** Progress of a publication *)

(** What happens without anybody's context ending: the publication itself,
    handlers that return, the second half of a [remove]. *)
Definition helps (p : nat) (e : event) : bool :=
  match e with
  | Send q | Skip q | Return q => Nat.eqb p q
  | Handle _ | EndSub _ => true
  | _ => false
  end.

Lemma empty_chan n : forall b p id s, subs b !! id = Some s -> exited s = false -> (length (waiting s) + length (chan s) <= n)%nat ->
  exists es s', Forall (fun e => helps p e = true) es /\ inflight (fold_left step es b) = inflight b /\
    aborted (fold_left step es b) = aborted b /\ subs (fold_left step es b) !! id = Some s' /\ chan s' = [].
Proof.
  induction n as [|n IH]; intros b p id s Hid Hx Hn; [exists [], s; cbn; destruct (chan s); cbn in *; split_and!; (done || lia)|].
  set (b' := set_subs (<[id := handle s]> (subs b)) b).
  assert (step b (Handle id) = b') as E by (cbn [step]; by rewrite Hid, Hx).
  destruct (IH b' p id (handle s)) as (es & s' & He & Hi & Ha & Hs & Hc).
  - apply lookup_insert_eq.
  - by destruct (handle_frame s) as (_ & _ & _ & _ & _ & -> & _).
  - unfold handle. destruct (waiting s) eqn:Hw; [destruct (chan s) as [|[]] eqn:Hc|]; cbn in *; rewrite ?Hw, ?Hc; cbn; lia.
  - exists (Handle id :: es), s'. cbn [fold_left]. rewrite E. split_and!; [by constructor|done..].
Qed.

Lemma one_target b p m id rest : ok b -> inflight b !! p = Some (mkCall m (id :: rest)) ->
  exists es, Forall (fun e => helps p e = true) es /\ inflight (fold_left step es b) !! p = Some (mkCall m rest) /\
    aborted (fold_left step es b) = aborted b.
Proof.
  intros Hok Hp. destruct (proj2 (ok_calls b Hok p _ Hp) id) as [s Hid]; [by left|].
  assert (forall b' s', inflight b' = inflight b -> aborted b' = aborted b -> subs b' !! id = Some s' ->
    done s' = true \/ (length (chan s') < subscriberBuffer)%nat -> exists e, helps p e = true /\
    inflight (step b' e) !! p = Some (mkCall m rest) /\ aborted (step b' e) = aborted b) as Hlast.
  { intros b' s' Ei Ea Es [Hd|Hl].
    - exists (Skip p). cbn [helps step]. rewrite Nat.eqb_refl, Ei, Hp, Es, Hd. split_and!; [done|apply lookup_insert_eq|done].
    - exists (Send p). cbn [helps step]. rewrite Nat.eqb_refl, Ei, Hp, Es, (proj2 (Nat.ltb_lt _ _) Hl).
      split_and!; [done|cbn; rewrite Ei; apply lookup_insert_eq|done]. }
  assert (exists es s', Forall (fun e => helps p e = true) es /\ inflight (fold_left step es b) = inflight b /\
    aborted (fold_left step es b) = aborted b /\ subs (fold_left step es b) !! id = Some s' /\
    (done s' = true \/ (length (chan s') < subscriberBuffer)%nat)) as (es & s' & He & Hi & Ha & Hs & Hd).
  { destruct (exited s) eqn:Hx.
    - destruct (so_exited b id s (ok_subs b Hok id s Hid) Hx) as [Hd|Hl]; [exists [], s; split_and!; [by constructor|done..|by left]|].
      exists [EndSub id], (close_sub s). cbn [fold_left step]. rewrite Hid, bool_decide_false by done.
      split_and!; [by repeat constructor|done|done|apply lookup_insert_eq|by left].
    - destruct (empty_chan _ b p id s Hid Hx (le_n _)) as (es & s' & ? & ? & ? & ? & Hc). exists es, s'.
      split_and!; [done..|]. right. rewrite Hc. unfold subscriberBuffer. cbn [length]. lia. }
  destruct (Hlast _ s' Hi Ha Hs Hd) as (e & ? & ? & ?). exists (es ++ [e]). rewrite fold_left_app. cbn [fold_left].
  split_and!; [|done|done]. apply Forall_app. by repeat constructor.
Qed.

Lemma publication_ends m ids : forall b p, ok b -> inflight b !! p = Some (mkCall m ids) ->
  exists es, Forall (fun e => helps p e = true) es /\ inflight (fold_left step es b) !! p = None /\ aborted (fold_left step es b) = aborted b.
Proof.
  induction ids as [|id ids IH]; intros b p Hok Hp.
  - exists [Return p]. cbn [fold_left step]. rewrite Hp. split_and!; [|apply lookup_delete_eq|done].
    repeat constructor. cbn. apply Nat.eqb_refl.
  - destruct (one_target b p m id ids Hok Hp) as (es & He & Hi & Ha).
    destruct (IH _ p (ok_fold es b Hok) Hi) as (es' & He' & Hi' & Ha'). exists (es ++ es'). rewrite fold_left_app.
    split_and!; [by apply Forall_app|done|by rewrite Ha'].
Qed.

(** ** A publication nothing interrupts *)

(** What [Memory.Broker] keeps of a subscription and of the broker. *)
Definition abs_sub (s : sub) : Broker.subscription := Broker.mkSubscription (filter s) (waiting s ++ map snd (chan s)).

Definition abs (b : broker) : Broker.Broker :=
  Broker.mkBroker (map_imap (fun id s => if bool_decide (id ∈ live b) then Some (abs_sub s) else None) (subs b))
    (retained b) (closed b) (Z.of_nat (length (log b))) (nextId b).

Definition publish_alone (p : nat) (m : Message) (order : list Z) (b : broker) : broker :=
  fold_left step (Publish p m order :: replicate (length order) (Send p) ++ [Return p]) b.

Lemma sends_spec p m ids : forall b, inflight b !! p = Some (mkCall m ids) -> NoDup ids ->
  (forall id, id ∈ ids -> exists s, subs b !! id = Some s /\ (length (chan s) < subscriberBuffer)%nat) ->
  fold_left step (replicate (length ids) (Send p)) b =
  set_inflight (<[p := mkCall m []]> (inflight b))
    (set_subs (fold_left (fun ss id => alter (accept (p, m)) id ss) ids (subs b)) b).
Proof.
  induction ids as [|id ids IH]; intros b Hp Hn Hroom.
  { cbn. unfold set_inflight, set_subs. cbn. rewrite insert_id by done. by destruct b. }
  destruct (Hroom id) as (s & Hid & Hl); [by left|]. apply NoDup_cons in Hn as [Hni Hn].
  assert (step b (Send p) = publish_send p (mkCall m (id :: ids)) id ids b) as E.
  { cbn [step]. by rewrite Hp, Hid, (proj2 (Nat.ltb_lt _ _) Hl). }
  cbn [length replicate fold_left]. rewrite E, IH; [|cbn; apply lookup_insert_eq|done|].
  - unfold set_inflight, set_subs, publish_send, set_inflight, set_subs. cbn. by rewrite insert_insert_eq.
  - intros id' Hid'. destruct (Hroom id') as (s' & Hs' & Hl'); [by right|]. exists s'. split; [|done]. cbn.
    rewrite lookup_alter_ne; [done|]. by intros ->.
Qed.

Lemma alters_lookup e ids (ss : gmap Z sub) id : NoDup ids ->
  fold_left (fun ss id => alter (accept e) id ss) ids ss !! id = (if bool_decide (id ∈ ids) then accept e else fun s => s) <$> ss !! id.
Proof.
  revert ss. induction ids as [|id' ids IH]; intros ss Hn; cbn [fold_left].
  { rewrite bool_decide_false by apply not_elem_of_nil. by destruct (ss !! id). }
  apply NoDup_cons in Hn as [Hni Hn]. rewrite IH by done. destruct (decide (id' = id)) as [->|Hne].
  - rewrite lookup_alter_eq, bool_decide_false, bool_decide_true by (done || by left). by destruct (ss !! id).
  - rewrite lookup_alter_ne by done. by rewrite (bool_decide_ext (id ∈ id' :: ids) (id ∈ ids)) by set_solver.
Qed.

(** The broker of [Memory] is what an uninterrupted call does when every
    channel has room. *)
Theorem publish_alone_refines b p m order : ok b -> closed b = false -> inflight b !! p = None -> order ≡ₚ targets b (Topic m) ->
  (forall id s, subs b !! id = Some s -> (length (chan s) < subscriberBuffer)%nat) ->
  (Ok tt, abs (publish_alone p m order b)) = Broker.Publish m (abs b).
Proof.
  intros Hok Hc Hp Ho Hroom. unfold publish_alone. cbn [fold_left].
  assert (step b (Publish p m order) = publish_begin p m order b) as E by (cbn [step]; by rewrite Hp, Hc, bool_decide_true by done).
  destruct (ok_calls _ (ok_begin b p m order Hok Hp Ho) p (mkCall m order)) as [Hn Hin]; [apply lookup_insert_eq|].
  rewrite E, fold_left_app, (sends_spec p m order); [|apply lookup_insert_eq|done|].
  2:{ intros id [s Hs]%Hin. exists s. split; [done|]. by apply (Hroom id). }
  cbn [fold_left step]. unfold set_inflight, set_subs. cbn [inflight subs live retained closed nextId log aborted publish_begin].
  rewrite lookup_insert_eq. unfold Broker.Publish. cbn [abs Broker.closed]. rewrite Hc. f_equal. unfold abs, publish_return, set_inflight.
  cbn [inflight subs live retained closed nextId log aborted Broker.subs Broker.retained Broker.closed Broker.published Broker.nextId].
  f_equal; [|rewrite length_app; cbn; lia]. apply map_eq. intros id.
  rewrite lookup_fmap, !map_lookup_imap, alters_lookup by done. destruct (subs b !! id) as [s|] eqn:Hs; [|done]. cbn.
  case_bool_decide as Hlive; [|done]. cbn. f_equal. unfold Broker.deliver, abs_sub. cbn [Broker.sFilter Broker.sQueue].
  assert (bool_decide (id ∈ order) = MatchFilter (filter s) (Topic m)) as ->.
  { apply eq_true_iff_eq. rewrite bool_decide_eq_true, Ho. unfold targets.
    rewrite list_elem_of_In, filter_In, <-list_elem_of_In, elem_of_elements. unfold matches. rewrite Hs. naive_solver. }
  destruct (MatchFilter _ _); [|done]. cbn. by rewrite map_app, app_assoc.
Qed.

(** ** Properties *)

(** C13: What the in-memory broker promises a subscriber, for every interleaving
    of publishers, handlers, cancellations, unsubscriptions and a close. A
    subscription starts with the retained messages its filter selects among
    all that was published before it; what its handler got, then its backlog,
    then its channel is that backlog followed by everything sent to it, so
    nothing is lost, repeated or reordered between a send and the handler; the
    channel never holds more than its buffer; what one publisher sent it is,
    in that publisher's order, part of what the publisher published and the
    filter selects; and as long as it is subscribed and that publisher was
    never cut short it is all of it, the call still running apart. *)
Theorem memory_broker_delivers (es : list event) (id : Z) (s : sub) :
  let b := run es in
  subs b !! id = Some s ->
  start s ≡ₚ Broker.backlog (filter s) (retained_after (take (since s) (log b))) /\
  handled s ++ waiting s ++ map snd (chan s) = start s ++ map snd (sent s) /\
  (length (chan s) <= subscriberBuffer)%nat /\
  forall p,
    sublist (from p (sent s) ++ owed (inflight b) p id) (from p (due (log b) s)) /\
    (id ∈ live b -> p ∉ aborted b -> from p (due (log b) s) = from p (sent s) ++ owed (inflight b) p id).
Proof.
  intros b Hid. destruct (ok_subs b (ok_run es) id s Hid). split_and!; [done|by symmetry|done|]. intros p. split; auto.
Qed.

Definition race_events : list event :=
  let m := mkMessage "a/b" [x01] true 0 in
  [Publish 0 m []; Return 0; Subscribe "a/+" [m]; Publish 1 m [0]; Publish 0 m [0]; Handle 0; Send 0; Return 0; Send 1; Handle 0].

Lemma memory_broker_delivers_witness :
  from 1 (due (log (run race_events)) (default (mkSub "" [] [] false false false 0 [] [] []) (subs (run race_events) !! 0))) =
  [(1%nat, mkMessage "a/b" [x01] true 0)].
Proof.
  destruct (memory_broker_delivers race_events 0 (default (mkSub "" [] [] false false false 0 [] [] []) (subs (run race_events) !! 0)))
    as (_ & _ & _ & H); [by vm_compute|].
  destruct (H 1%nat) as [_ E]. rewrite E; [by vm_compute| |]; refine (bool_decide_eq_true_1 _ _); by vm_compute.
Defined.

(** C15: No publication waits for ever. Wherever a call of [Publish] stands,
    and whatever happened before, it returns without an error once the handlers
    of the subscriptions it waits for return and a [remove] that has begun is
    completed: no other publisher, no cancellation and no close is needed, and
    a subscription whose goroutine is gone is let go of. *)
Theorem memory_publish_returns (es : list event) (p : nat) (c : call) :
  inflight (run es) !! p = Some c ->
  exists es', Forall (fun e => helps p e = true) es' /\
    inflight (run (es ++ es')) !! p = None /\ aborted (run (es ++ es')) = aborted (run es).
Proof.
  intros Hp. destruct c as [m ids]. destruct (publication_ends m ids (run es) p (ok_run es) Hp) as (es' & He & Hi & Ha).
  exists es'. unfold run in *. rewrite fold_left_app. by split_and!.
Qed.

Definition stuck_events : list event :=
  let m := mkMessage "a" [x01] false 0 in
  [Subscribe "a" []; Publish 0 m [0]; Cancel 0; ExitCancelled 0].

Lemma memory_publish_returns_witness :
  exists es', Forall (fun e => helps 0 e = true) es' /\ inflight (run (stuck_events ++ es')) !! 0%nat = None.
Proof.
  destruct (memory_publish_returns stuck_events 0 (mkCall (mkMessage "a" [x01] false 0) [0])) as (es' & He & Hi & _);
    [by vm_compute|]. by exists es'.
Defined.
