(* ===== verification/LineSim.v ===== *)
(** * LineSim: the packaging line simulator (internal/domain/linesim/line.go)

    The machine states, the signals and the dynamic model. The generator of
    [math/rand] and [math.Exp] are parameters: a [Rand] instance is the state
    of a seeded generator with its two draws. *)
From Stdlib Require Import ZArith Lia SpecFloat.
From S2P Require Import Prelude GoBytes GoFloat.

Open Scope string_scope.
Open Scope list_scope.
Open Scope Z_scope.

(** [type State uint16]. *)
Inductive State := Stopped | Starting | Running | Starved | Faulted | Changeover.

Global Instance State_eq_dec : EqDecision State.
Proof. solve_decision. Defined.

Definition state_code (s : State) : Z :=
  match s with
  | Stopped => 0 | Starting => 1 | Running => 2
  | Starved => 3 | Faulted => 4 | Changeover => 5
  end.

Definition StateString (s : State) : string :=
  match s with
  | Stopped => "STOPPED" | Starting => "STARTING" | Running => "RUNNING"
  | Starved => "STARVED" | Faulted => "FAULTED" | Changeover => "CHANGEOVER"
  end.

Definition SignalSpeed : string := "speed".
Definition SignalTemperature : string := "temperature".
Definition SignalVibration : string := "vibration".
Definition SignalState : string := "state".
Definition SignalCount : string := "count".
Definition SignalAmbient : string := "ambient".
Definition SignalPressure : string := "pressure".

Definition Signals : list string :=
  merge_sort stdpp.strings.String.le
    [SignalSpeed; SignalTemperature; SignalVibration; SignalState; SignalCount; SignalAmbient; SignalPressure].

Definition IsSignal (name : string) : bool := existsb (fun s => String.eqb s name) Signals.

Record Snapshot := mkSnapshot {
  Speed : float;
  Temperature : float;
  Vibration : float;
  sState : State;
  Count : Z;
  Ambient : float;
  Pressure : float
}.

Definition Get (s : Snapshot) (name : string) : option float :=
  if String.eqb name SignalSpeed then Some (Speed s)
  else if String.eqb name SignalTemperature then Some (Temperature s)
  else if String.eqb name SignalVibration then Some (Vibration s)
  else if String.eqb name SignalState then Some (of_Z (state_code (sState s)))
  else if String.eqb name SignalCount then Some (of_Z (Count s))
  else if String.eqb name SignalAmbient then Some (Ambient s)
  else if String.eqb name SignalPressure then Some (Pressure s)
  else None.

(** ** Floating-point helpers *)

Definition fdiv : float -> float -> float := SFdiv 53 1024.

(** [float64(n)/float64(d)] for the decimal constants of the source. *)
Definition dec (n d : Z) : float := fdiv (of_Z n) (of_Z d).

(** [math.Round]: half away from zero. *)
Definition Round (v : float) : float :=
  match v with
  | S754_finite s m e =>
      if 0 <=? e then v
      else
        let n := (2 * Z.pos m + 2 ^ (- e)) / 2 ^ (1 - e) in
        binary_normalize 53 1024 (if s then - n else n) 0 s
  | _ => v
  end.

(** [math.Pow10] of a small exponent is exact. *)
Definition round (v : float) (places : Z) : float :=
  let p := of_Z (10 ^ places) in fdiv (Round (fmul v p)) p.

(** [Duration.Seconds]. *)
Definition Seconds (d : Duration) : float :=
  fadd (of_Z (Z.quot d Second)) (fdiv (of_Z (Z.rem d Second)) (of_Z 1000000000)).

(** ** The dynamic model *)

Class Rand (R : Type) := {
  NewSource : Z -> R;
  Float64 : R -> float * R;
  NormFloat64 : R -> float * R
}.

Record Line (R : Type) := mkLine {
  rng : R;
  targetSpeed : float;
  speed : float;
  temp : float;
  vib : float;
  state : State;
  count : float;
  dwell : Duration;
  ambient : float;
  pressure : float;
  elapsed : Duration
}.
Arguments mkLine {R}. Arguments rng {R}. Arguments targetSpeed {R}. Arguments speed {R}. Arguments temp {R}.
Arguments vib {R}. Arguments state {R}. Arguments count {R}. Arguments dwell {R}. Arguments ambient {R}.
Arguments pressure {R}. Arguments elapsed {R}.

Section Model.
Context {R : Type} `{!Rand R}.
Variable Exp : float -> float.

Definition NewLine (seed : Z) : Line R :=
  mkLine (NewSource seed) (of_Z 480) fzero (of_Z 24) (dec 4 10) Stopped fzero (3 * Second)
    (of_Z 22) (dec 62 10) 0.

Definition TakeSnapshot (l : Line R) : Snapshot :=
  mkSnapshot (round (speed l) 2) (round (temp l) 2) (round (vib l) 3) (state l)
    (u32 (trunc_Z (count l))) (round (ambient l) 2) (round (pressure l) 2).

Definition Elapsed (l : Line R) : Duration := elapsed l.

Definition set_rng (g : R) (l : Line R) : Line R :=
  mkLine g (targetSpeed l) (speed l) (temp l) (vib l) (state l) (count l) (dwell l) (ambient l) (pressure l) (elapsed l).

Definition set_state (s : State) (d : Duration) (l : Line R) : Line R :=
  mkLine (rng l) (targetSpeed l) (speed l) (temp l) (vib l) s (count l) d (ambient l) (pressure l) (elapsed l).

Definition set_times (e d : Duration) (l : Line R) : Line R :=
  mkLine (rng l) (targetSpeed l) (speed l) (temp l) (vib l) (state l) (count l) d (ambient l) (pressure l) e.

Definition set_values (sp am tm vb pr ct : float) (l : Line R) : Line R :=
  mkLine (rng l) (targetSpeed l) sp tm vb (state l) ct (dwell l) am pr (elapsed l).

Definition noise (sigma : float) (l : Line R) : float * Line R :=
  let '(x, g) := NormFloat64 (rng l) in (fmul x sigma, set_rng g l).

Definition jitter (d : Duration) (spread : float) (l : Line R) : Duration * Line R :=
  let '(x, g) := Float64 (rng l) in
  let f := fadd (of_Z 1) (fmul (fsub (fmul x (of_Z 2)) (of_Z 1)) spread) in
  (trunc_Z (fmul (of_Z d) f), set_rng g l).

(** [l.state, l.dwell = s, l.jitter(d, spread)]. *)
Definition goto (s : State) (d : Duration) (spread : float) (l : Line R) : Line R :=
  let '(w, l') := jitter d spread l in set_state s w l'.

Definition transition (l : Line R) : Line R :=
  let '(r, g) := Float64 (rng l) in
  let l := set_rng g l in
  match state l with
  | Stopped | Changeover => goto Starting (8 * Second) (dec 3 10) l
  | Starting => goto Running (90 * Second) (dec 5 10) l
  | Running =>
      if flt r (dec 12 100) then goto Faulted (20 * Second) (dec 5 10) l
      else if flt r (dec 35 100) then goto Starved (15 * Second) (dec 5 10) l
      else if flt r (dec 42 100) then goto Changeover (40 * Second) (dec 3 10) l
      else goto Running (90 * Second) (dec 5 10) l
  | Starved => goto Running (90 * Second) (dec 5 10) l
  | Faulted => goto Stopped (10 * Second) (dec 4 10) l
  end.

Definition setpoint (l : Line R) : float * Line R :=
  match state l with
  | Running => let '(x, l') := noise (of_Z 4) l in (fadd (targetSpeed l) x, l')
  | Starting => (fmul (targetSpeed l) (dec 6 10), l)
  | Starved => (fmul (targetSpeed l) (dec 25 100), l)
  | _ => (fzero, l)
  end.

Definition lag (s tau : float) : float := fsub (of_Z 1) (Exp (fdiv (SFopp s) tau)).

Definition producing (s : State) : bool :=
  match s with Running | Starting | Starved => true | _ => false end.

Definition dynamics (s : float) (l : Line R) : Line R :=
  let '(set, l) := setpoint l in
  let tau := if bool_decide (state l = Faulted) then dec 12 10 else of_Z 4 in
  let sp := fadd (speed l) (fmul (fsub set (speed l)) (lag s tau)) in
  let sp := if flt sp (dec 5 10) && feq set fzero then fzero else sp in
  let am := fadd (ambient l) (fmul (fmul (fsub (of_Z 22) (ambient l)) (dec 1 100)) s) in
  let '(x, l) := noise (dec 2 100) l in
  let am := fadd am (fmul x s) in
  let tempSet := fadd (fadd am (of_Z 55)) (fmul (dec 9 100) sp) in
  let '(x, l) := noise (dec 5 100) l in
  let tm := fadd (temp l) (fadd (fmul (fsub tempSet (temp l)) (lag s (of_Z 60))) x) in
  let vibSet := fadd (dec 4 10) (fmul (dec 45 10000) sp) in
  let vibSet := if bool_decide (state l = Faulted) then fadd vibSet (of_Z 6) else vibSet in
  let '(x, l) := noise (dec 3 100) l in
  let vb := fadd (vib l) (fadd (fmul (fsub vibSet (vib l)) (lag s (dec 15 10))) (fabs x)) in
  let '(x, l) := noise (dec 2 100) l in
  let pr := fadd (fsub (dec 64 10) (fmul (dec 9 10000) sp)) x in
  let ct := if producing (state l) then
              let c := fadd (count l) (fdiv (fmul sp s) (of_Z 60)) in
              if flt (of_Z (2 ^ 32 - 1)) c then fzero else c
            else count l in
  set_values sp am tm vb pr ct l.

Definition Step (dt : Duration) (l : Line R) : Line R :=
  if dt <=? 0 then l
  else
    let l := set_times (i64 (elapsed l + dt)) (i64 (dwell l - dt)) l in
    let l := if dwell l <=? 0 then transition l else l in
    dynamics (Seconds dt) l.
End Model.

(** ** The state machine *)

(** The edges a line may take when its dwell time has run out. *)
Definition edge (s s' : State) : Prop :=
  match s with
  | Stopped | Changeover => s' = Starting
  | Starting | Starved => s' = Running
  | Running => s' = Faulted \/ s' = Starved \/ s' = Changeover \/ s' = Running
  | Faulted => s' = Stopped
  end.

Section Machine.
Context {R : Type} `{!Rand R}.
Variable Exp : float -> float.

Lemma noise_keeps sigma (l : Line R) :
  state (snd (noise sigma l)) = state l /\ dwell (snd (noise sigma l)) = dwell l /\
  elapsed (snd (noise sigma l)) = elapsed l.
Proof. unfold noise. by destruct (NormFloat64 (rng l)). Qed.

Lemma goto_state s d spread (l : Line R) :
  state (goto s d spread l) = s /\ elapsed (goto s d spread l) = elapsed l.
Proof. unfold goto, jitter. by destruct (Float64 (rng l)). Qed.

Lemma transition_edge (l : Line R) :
  edge (state l) (state (transition l)) /\ elapsed (transition l) = elapsed l.
Proof.
  unfold transition. destruct (Float64 (rng l)) as [r g]. unfold edge. cbn [state set_rng].
  destruct (state l); repeat case_match;
    match goal with |- context [goto ?s ?d ?k ?m] => destruct (goto_state s d k m) as [-> ->] end; by auto.
Qed.

Lemma dynamics_keeps s (l : Line R) :
  state (dynamics Exp s l) = state l /\ dwell (dynamics Exp s l) = dwell l /\
  elapsed (dynamics Exp s l) = elapsed l.
Proof.
  unfold dynamics. set (p := setpoint l).
  assert (state (snd p) = state l /\ dwell (snd p) = dwell l /\ elapsed (snd p) = elapsed l) as (E1 & E2 & E3).
  { unfold p, setpoint. pose proof (noise_keeps (of_Z 4) l).
    destruct (state l) eqn:Es; cbn [snd]; rewrite ?Es; try done. by destruct (noise (of_Z 4) l). }
  destruct p as [set l0]. cbn [snd] in *.
  repeat match goal with
  | |- context [noise ?k ?m] =>
      let H := fresh in pose proof (noise_keeps k m) as H;
      let q := fresh in destruct (noise k m) as [? q]; cbn [snd] in H; destruct H as (? & ? & ?)
  end.
  cbn [state dwell elapsed set_values]. split_and!; congruence.
Qed.

Lemma Step_state dt (l : Line R) :
  0 < dt -> 
  elapsed (Step Exp dt l) = i64 (elapsed l + dt) /\
  (0 < i64 (dwell l - dt) ->
     state (Step Exp dt l) = state l /\ dwell (Step Exp dt l) = i64 (dwell l - dt)) /\
  (i64 (dwell l - dt) <= 0 -> edge (state l) (state (Step Exp dt l))).
Proof.
  intros Hdt. unfold Step. destruct (Z.leb_spec dt 0); [lia|]. cbv zeta.
  set (l0 := set_times _ _ l). change (i64 (dwell l - dt)) with (dwell l0).
  change (state l) with (state l0).
  match goal with |- context [dynamics Exp ?s ?m] => destruct (dynamics_keeps s m) as (-> & -> & ->) end.
  destruct (Z.leb_spec (dwell l0) 0) as [Hd|Hd].
  - destruct (transition_edge l0) as [He ->]. split_and!; [done|lia|done].
  - split_and!; [done|done|lia].
Qed.
End Machine.

(** The line only moves along the edges of its state machine, one per step
    and only when the dwell time has run out; in between it counts the dwell
    time down, and time only adds up. A step of no or negative duration
    changes nothing, whatever the generator draws. *)
Theorem Step_edges {R} `{!Rand R} (Exp : float -> float) (dt : Duration) (l : Line R) :
  let l' := Step Exp dt l in
  (dt <= 0 -> l' = l) /\
  (0 < dt -> elapsed l' = i64 (elapsed l + dt) /\
     (0 < i64 (dwell l - dt) -> state l' = state l /\ dwell l' = i64 (dwell l - dt)) /\
     (i64 (dwell l - dt) <= 0 -> edge (state l) (state l'))).
Proof.
  cbv zeta. split; [|apply Step_state]. intros H. unfold Step. by apply Z.leb_le in H as ->.
Qed.

(** Every signal can be read from a snapshot, and nothing else. *)
Lemma Get_signal (s : Snapshot) (name : string) : IsSignal name = true <-> is_Some (Get s name).
Proof.
  unfold IsSignal, Signals, Get. rewrite existsb_exists. setoid_rewrite String.eqb_eq.
  assert (forall x, In x (merge_sort stdpp.strings.String.le
    [SignalSpeed; SignalTemperature; SignalVibration; SignalState; SignalCount; SignalAmbient; SignalPressure]) <->
    In x [SignalSpeed; SignalTemperature; SignalVibration; SignalState; SignalCount; SignalAmbient; SignalPressure]) as Hin.
  { intros x. rewrite <-!list_elem_of_In. by rewrite merge_sort_Permutation. }
  setoid_rewrite Hin. cbn [In]. split.
  - intros (x & Hx & ->). by destruct_or! Hx; subst; eexists.
  - intros Hs. exists name. split; [|done]. revert Hs.
    repeat match goal with |- context [String.eqb name ?k] => destruct (String.eqb_spec name k); [by eauto 10|] end.
    by intros [? ?].
Qed.
