(* ===== verification/GoTime.v ===== *)
(** * GoTime: [time.ParseDuration]

    The decimal parser of durations such as "1.5s" or "-2m3ms". *)
From Stdlib Require Import ZArith Lia SpecFloat Strings.Ascii.
From S2P Require Import Prelude GoBytes GoFloat GoText.
From S2P Require LineSim.

Open Scope string_scope.
Open Scope list_scope.
Open Scope Z_scope.

Definition digit (c : Ascii.ascii) : Z := Z.of_nat (Ascii.nat_of_ascii c) - 48.

(** [leadingInt]: the number and what follows it; [None] above 2^63. *)
Fixpoint leading_int (x : Z) (s : string) : option (Z * string) :=
  match s with
  | String c s' =>
      if is_digit c then
        if 2 ^ 63 / 10 <? x then None
        else
          let x' := x * 10 + digit c in
          if 2 ^ 63 <? x' then None else leading_int x' s'
      else Some (x, s)
  | EmptyString => Some (x, s)
  end.

(** [leadingFraction]: the digits as a number and the power of ten they are
    divided by; digits that do not fit are dropped. *)
Fixpoint leading_fraction (x : Z) (scale : float) (overflow : bool) (s : string) : Z * float * string :=
  match s with
  | String c s' =>
      if is_digit c then
        if overflow || ((2 ^ 63 - 1) / 10 <? x) then leading_fraction x scale true s'
        else
          let y := x * 10 + digit c in
          if 2 ^ 63 <? y then leading_fraction x scale true s'
          else leading_fraction y (fmul scale (of_Z 10)) false s'
      else (x, scale, s)
  | EmptyString => (x, scale, s)
  end.

Fixpoint split_unit (s : string) : string * string :=
  match s with
  | String c s' =>
      if Ascii.eqb c "."%char || is_digit c then (EmptyString, s)
      else let '(u, rest) := split_unit s' in (String c u, rest)
  | EmptyString => (EmptyString, EmptyString)
  end.

Definition unitMap : list (string * Duration) :=
  [("ns", 1); ("us", 1000); (utf8 [xc2; xb5; x73], 1000); (utf8 [xce; xbc; x73], 1000);
   ("ms", Millisecond); ("s", Second); ("m", Minute); ("h", 60 * Minute)].

Definition unit_of (u : string) : option Duration :=
  match List.find (fun p => String.eqb u (fst p)) unitMap with Some (_, d) => Some d | None => None end.

(** One round of the loop: a number with its unit, and the rest. *)
Definition parse_term (s : string) : option (Z * string) :=
  match s with
  | EmptyString => None
  | String c _ =>
      if negb (Ascii.eqb c "."%char || is_digit c) then None
      else
        '(v, s1) ← leading_int 0 s;
        let pre := negb (String.length s =? String.length s1)%nat in
        let '(f, scale, s2, post) :=
          match s1 with
          | String d s1' =>
              if Ascii.eqb d "."%char then
                let '(f, scale, s2) := leading_fraction 0 (of_Z 1) false s1' in
                (f, scale, s2, negb (String.length s1' =? String.length s2)%nat)
              else (0, of_Z 1, s1, false)
          | EmptyString => (0, of_Z 1, s1, false)
          end in
        if negb pre && negb post then None
        else
          let '(u, s3) := split_unit s2 in
          match unit_of u with
          | None => None
          | Some unit =>
              if 2 ^ 63 / unit <? v then None
              else
                let v' := v * unit + (if 0 <? f then trunc_Z (fmul (of_Z f) (LineSim.fdiv (of_Z unit) scale)) else 0) in
                if 2 ^ 63 <? v' then None else Some (v', s3)
          end
  end.

Fixpoint parse_terms (fuel : nat) (d : Z) (s : string) : option Z :=
  match s with
  | EmptyString => Some d
  | _ =>
      match fuel with
      | O => None
      | S n =>
          '(v, s') ← parse_term s;
          let d' := u64 (d + v) in
          if 2 ^ 63 <? d' then None else parse_terms n d' s'
      end
  end.

(** Each round consumes at least a byte, so the length is enough fuel. *)
Definition ParseDuration (s : string) : option Duration :=
  let '(neg, u) :=
    match s with
    | String c s' =>
        if Ascii.eqb c "-"%char then (true, s') else if Ascii.eqb c "+"%char then (false, s') else (false, s)
    | EmptyString => (false, s)
    end in
  if String.eqb u "0" then Some 0
  else if String.eqb u "" then None
  else
    d ← parse_terms (String.length u) 0 u;
    if neg : bool then Some (- d)
    else if 2 ^ 63 - 1 <? d then None else Some d.

Example ParseDuration_examples :
  map ParseDuration ["10s"; "1.5s"; "-2m3ms"; "0"; "1"; "9223372036854775807ns"; "9223372036854775808ns";
    "-9223372036854775808ns"; "."; "1h30m"; ""; "+.5us"] =
  [Some (10 * Second); Some 1500000000; Some (- (2 * Minute + 3 * Millisecond)); Some 0; None;
   Some (2 ^ 63 - 1); None; Some (- 2 ^ 63); None; Some (90 * Minute); None; Some 500].
Proof. by vm_compute. Qed.

(** ** The fuel is enough, and the result fits *)

Lemma leading_int_length x s v s' : leading_int x s = Some (v, s') -> (String.length s' <= String.length s)%nat.
Proof.
  revert x. induction s as [|c s IH]; intros x; cbn; [by intros [= _ <-]|].
  destruct (is_digit c); [|by intros [= _ <-]]. destruct (_ <? x); [done|].
  destruct (2 ^ 63 <? _); [done|]. intros H. apply IH in H. lia.
Qed.

Lemma leading_fraction_length x sc o s v sc' s' :
  leading_fraction x sc o s = (v, sc', s') -> (String.length s' <= String.length s)%nat.
Proof.
  revert x sc o. induction s as [|c s IH]; intros x sc o; cbn; [by intros [= _ _ <-]|].
  destruct (is_digit c); [|by intros [= _ _ <-]].
  destruct (o || _); [|destruct (2 ^ 63 <? _)]; intros H; apply IH in H; lia.
Qed.

Lemma split_unit_length s u r : split_unit s = (u, r) -> (String.length u + String.length r = String.length s)%nat.
Proof.
  revert u. induction s as [|c s IH]; intros u; cbn; [by intros [= <- <-]|].
  destruct (_ || _); [by intros [= <- <-]|]. destruct (split_unit s) as [u' r'].
  intros [= <- <-]. cbn. by rewrite (IH u').
Qed.

Lemma unit_of_nonempty u d : unit_of u = Some d -> (0 < String.length u)%nat.
Proof. destruct u; [by vm_compute|cbn; lia]. Qed.

Lemma parse_term_shorter s v s' : parse_term s = Some (v, s') -> (String.length s' < String.length s)%nat.
Proof.
  destruct s as [|c s]; [done|]. unfold parse_term. destruct (negb _); [done|].
  destruct (leading_int 0 (String c s)) as [[x s1]|] eqn:E1; [|done]. cbn [mbind option_bind].
  apply leading_int_length in E1.
  destruct (match s1 with EmptyString => _ | String d s1' => _ end) as [[[f sc] s2] post] eqn:E2.
  assert (String.length s2 <= String.length s1)%nat as H2.
  { destruct s1 as [|d s1']; [by injection E2 as <- <- <- <-|]. destruct (Ascii.eqb d "."%char); [|by injection E2 as <- <- <- <-].
    destruct (leading_fraction _ _ _ s1') as [[f' sc'] s2'] eqn:E3. apply leading_fraction_length in E3.
    injection E2 as <- <- <- <-. cbn. lia. }
  destruct (_ && _); [done|]. destruct (split_unit s2) as [u s3] eqn:E4. apply split_unit_length in E4.
  destruct (unit_of u) as [d|] eqn:E5; [|done]. apply unit_of_nonempty in E5.
  destruct (_ <? x); [done|]. destruct (2 ^ 63 <? _); [done|]. intros [= _ <-]. lia.
Qed.

Lemma parse_terms_fuel n m d s :
  (String.length s <= n)%nat -> (String.length s <= m)%nat -> parse_terms n d s = parse_terms m d s.
Proof.
  revert m d s. induction n as [|n IH]; intros m d s Hn Hm.
  { destruct s; [by destruct m|cbn in Hn; lia]. }
  destruct s as [|c s]; [by destruct m|]. destruct m as [|m]; [cbn in Hm; lia|].
  cbn [parse_terms]. destruct (parse_term (String c s)) as [[v s']|] eqn:E; [|done]. cbn [mbind option_bind].
  apply parse_term_shorter in E. destruct (2 ^ 63 <? _); [done|]. apply IH; lia.
Qed.

Lemma parse_terms_range n d s r : 0 <= d <= 2 ^ 63 -> parse_terms n d s = Some r -> 0 <= r <= 2 ^ 63.
Proof.
  revert d s. induction n as [|n IH]; intros d s Hd; cbn [parse_terms]; [by destruct s as [|c s]; [intros [= <-]|]|].
  destruct s as [|c s]; [by intros [= <-]|]. destruct (parse_term _) as [[v s']|]; [|done]. cbn [mbind option_bind].
  pose proof (uwrap_range 64 (d + v) ltac:(lia)) as [H _]. destruct (Z.ltb_spec (2 ^ 63) (u64 (d + v))); [done|].
  by apply IH.
Qed.

Lemma ParseDuration_range s d : ParseDuration s = Some d -> in_s 64 d.
Proof.
  unfold ParseDuration, in_s.
  destruct (match s with EmptyString => _ | String c s' => _ end) as [neg u].
  destruct (String.eqb u "0"); [by intros [= <-]|]. destruct (String.eqb u ""); [done|].
  destruct (parse_terms _ 0 u) as [r|] eqn:E; [|done]. cbn [mbind option_bind].
  apply parse_terms_range in E; [|lia]. destruct neg; [intros [= <-]; lia|].
  destruct (Z.ltb_spec (2 ^ 63 - 1) r); [done|]. intros [= <-]. lia.
Qed.
