(* ===== verification/Config.v ===== *)
(** * Config: the environment configuration (internal/config/config.go)

    [LoadFrom] reads the variables through a lookup function, collecting every
    malformed value, and validates the result. Two functions of Go's library
    are parameters: [ToLower] (Unicode case mapping) and [ParseFloat] (decimal
    to binary conversion, [None] for its errors). [Load] is [LoadFrom] on the
    process environment. Error texts are the data they are made from. *)
From Stdlib Require Import ZArith Lia SpecFloat Strings.Ascii.
From S2P Require Import Prelude GoBytes GoFloat GoText GoTime.

Open Scope string_scope.
Open Scope list_scope.
Open Scope Z_scope.

Record Config := mkConfig {
  HTTPAddr : string;
  PlantFile : string;
  LogLevel : string;
  ShutdownTimeout : Duration;
  StaleCheck : Duration;
  Broker : string;
  MQTTURL : string;
  MQTTClientID : string;
  MQTTUsername : string;
  MQTTPassword : string;
  MQTTQoS : Z;
  MQTTKeepAlive : Z;
  MQTTConnectTmo : Duration;
  BridgeEnabled : bool;
  BridgeFilter : string;
  BridgePerTopicMax : Z;
  BridgeInboxSize : Z;
  Sink : string;
  KafkaBrokers : list string;
  KafkaTopic : string;
  QueueDir : string;
  QueueMaxBytes : Z;
  QueueSync : bool;
  OTelEndpoint : string;
  OTelInsecure : bool;
  TraceSampleRatio : float;
  ServiceVersion : string
}.

Definition zeroConfig : Config :=
  mkConfig "" "" "" 0 0 "" "" "" "" "" 0 0 0 false "" 0 0 "" [] "" "" 0 false "" false fzero "".

Definition Lookup : Type := string -> option string.

Definition Prefix : string := "PLANTSTREAM_".

Inductive Constraint :=
| NoHTTPAddr
| NoPlantFile
| BadBroker (b : string)
| NoMQTTURL
| BadQoS
| BadSink (s : string)
| NoKafkaBrokers
| NoKafkaTopic
| BadQueueMax
| BadBridgeSizes
| BadIntervals
| BadRatio.

Definition check {E} (c : bool) (e : E) : list E := if c then [e] else [].

(** [Validate]: the constraints that are violated. *)
Definition Validate (c : Config) : list Constraint :=
  check (String.eqb (HTTPAddr c) "") NoHTTPAddr ++
  check (String.eqb (PlantFile c) "") NoPlantFile ++
  check (negb (String.eqb (Broker c) "memory" || String.eqb (Broker c) "mqtt")) (BadBroker (Broker c)) ++
  check (String.eqb (Broker c) "mqtt" && String.eqb (MQTTURL c) "") NoMQTTURL ++
  check (1 <? MQTTQoS c) BadQoS ++
  check (negb (String.eqb (Sink c) "memory" || String.eqb (Sink c) "kafka")) (BadSink (Sink c)) ++
  check (BridgeEnabled c && String.eqb (Sink c) "kafka" && (zlength (KafkaBrokers c) =? 0)) NoKafkaBrokers ++
  check (BridgeEnabled c && String.eqb (Sink c) "kafka" && String.eqb (KafkaTopic c) "") NoKafkaTopic ++
  check (QueueMaxBytes c <=? 0) BadQueueMax ++
  check ((BridgePerTopicMax c <=? 0) || (BridgeInboxSize c <=? 0)) BadBridgeSizes ++
  check ((ShutdownTimeout c <=? 0) || (StaleCheck c <=? 0)) BadIntervals ++
  check (flt (TraceSampleRatio c) fzero || flt (of_Z 1) (TraceSampleRatio c)) BadRatio.

(** A variable whose value does not parse. *)
Record EnvProblem := BadValue { epKey : string; epValue : string }.

Inductive ConfigError :=
| BadEnv (es : list EnvProblem)
| Invalid (es : list Constraint).

Section Load.
Variables (ToLower : string -> string) (ParseFloat : string -> option float).
Variable lookup : Lookup.

(** The reader [env]: its state is the list of problems so far. *)
Abbreviation Env := (GoM (list EnvProblem) Empty_set).

Definition raw (key : string) : option string :=
  match lookup (Prefix ++ key)%string with
  | None => None
  | Some v => let v := TrimSpace v in if String.eqb v "" then None else Some v
  end.

Definition fail (key v : string) : Env unit := modify (fun es => es ++ [BadValue key v]).

Definition str (key def : string) : Env string := mret (default def (raw key)).

(** The common shape of [int], [int64], [float], [dur] and [boolean]. *)
Definition parsed {A} (parse : string -> option A) (key : string) (def : A) : Env A :=
  match raw key with
  | None => mret def
  | Some v =>
      match parse v with
      | Some a => mret a
      | None => _ ← fail key v; mret def
      end
  end.

Definition int : string -> Z -> Env Z := parsed ParseInt.
Definition int64 : string -> Z -> Env Z := parsed ParseInt.
Definition float_ : string -> float -> Env float := parsed ParseFloat.
Definition dur : string -> Duration -> Env Duration := parsed ParseDuration.
Definition boolean : string -> bool -> Env bool := parsed ParseBool.

(** The non-empty parts between commas. *)
Definition split_list (v : string) : list string :=
  List.filter (fun p => negb (String.eqb p "")) (map TrimSpace (Split ","%char v)).

Definition list_ (key def : string) : Env (list string) := v ← str key def; mret (split_list v).

Definition read : Env Config :=
  HTTPAddr ← str "HTTP_ADDR" ":8080";
  PlantFile ← str "PLANT_FILE" "examples/plant.yaml";
  LogLevel ← str "LOG_LEVEL" "info";
  ShutdownTimeout ← dur "SHUTDOWN_TIMEOUT" (10 * Second);
  StaleCheck ← dur "STALE_CHECK_INTERVAL" Second;
  Broker ← str "BROKER" "memory";
  MQTTURL ← str "MQTT_URL" "mqtt://localhost:1883";
  MQTTClientID ← str "MQTT_CLIENT_ID" "";
  MQTTUsername ← str "MQTT_USERNAME" "";
  MQTTPassword ← str "MQTT_PASSWORD" "";
  MQTTQoS ← int "MQTT_QOS" 1;
  MQTTKeepAlive ← int "MQTT_KEEPALIVE_SECONDS" 30;
  MQTTConnectTmo ← dur "MQTT_CONNECT_TIMEOUT" (10 * Second);
  BridgeEnabled ← boolean "BRIDGE_ENABLED" false;
  BridgeFilter ← str "BRIDGE_FILTER" "#";
  BridgePerTopicMax ← int "BRIDGE_PER_TOPIC_MAX" 64;
  BridgeInboxSize ← int "BRIDGE_INBOX_SIZE" 4096;
  Sink ← str "SINK" "memory";
  KafkaBrokers ← list_ "KAFKA_BROKERS" "localhost:9092";
  KafkaTopic ← str "KAFKA_TOPIC" "uns.events";
  QueueDir ← str "QUEUE_DIR" "";
  QueueMaxBytes ← int64 "QUEUE_MAX_BYTES" (64 * 2 ^ 20);
  QueueSync ← boolean "QUEUE_SYNC" false;
  OTelEndpoint ← str "OTEL_ENDPOINT" "";
  OTelInsecure ← boolean "OTEL_INSECURE" true;
  TraceSampleRatio ← float_ "TRACE_SAMPLE_RATIO" (of_Z 1);
  ServiceVersion ← str "VERSION" "dev";
  mret (mkConfig HTTPAddr PlantFile LogLevel ShutdownTimeout StaleCheck (ToLower Broker) MQTTURL MQTTClientID
    MQTTUsername MQTTPassword (u8 MQTTQoS) (u16 MQTTKeepAlive) MQTTConnectTmo BridgeEnabled BridgeFilter
    BridgePerTopicMax BridgeInboxSize (ToLower Sink) KafkaBrokers KafkaTopic QueueDir QueueMaxBytes QueueSync
    OTelEndpoint OTelInsecure TraceSampleRatio ServiceVersion).

Definition set_endpoint (v : string) (c : Config) : Config :=
  mkConfig (HTTPAddr c) (PlantFile c) (LogLevel c) (ShutdownTimeout c) (StaleCheck c) (Broker c) (MQTTURL c)
    (MQTTClientID c) (MQTTUsername c) (MQTTPassword c) (MQTTQoS c) (MQTTKeepAlive c) (MQTTConnectTmo c)
    (BridgeEnabled c) (BridgeFilter c) (BridgePerTopicMax c) (BridgeInboxSize c) (Sink c) (KafkaBrokers c)
    (KafkaTopic c) (QueueDir c) (QueueMaxBytes c) (QueueSync c) v (OTelInsecure c) (TraceSampleRatio c)
    (ServiceVersion c).

(** The fallback to OpenTelemetry's own variable. *)
Definition otel_fallback (c : Config) : Config :=
  if String.eqb (OTelEndpoint c) "" then
    match lookup "OTEL_EXPORTER_OTLP_ENDPOINT" with
    | Some v => set_endpoint (TrimPrefix (TrimPrefix v "http://") "https://") c
    | None => c
    end
  else c.

(** The configuration and the error, [None] for a nil error. *)
Definition LoadFrom : Config * option ConfigError :=
  match read [] with
  | (Ok c, es) =>
      let c := otel_fallback c in
      match es with
      | [] => (c, match Validate c with [] => None | cs => Some (Invalid cs) end)
      | _ => (zeroConfig, Some (BadEnv es))
      end
  | (Err e, _) => match e with end
  end.

(** ** Specification *)

(** The variables that are not plain strings, in the order they are read. *)
Definition typed_keys : list (string * (string -> bool)) :=
  let ok {A} (parse : string -> option A) v := match parse v with Some _ => true | None => false end in
  [("SHUTDOWN_TIMEOUT", ok ParseDuration); ("STALE_CHECK_INTERVAL", ok ParseDuration); ("MQTT_QOS", ok ParseInt);
   ("MQTT_KEEPALIVE_SECONDS", ok ParseInt); ("MQTT_CONNECT_TIMEOUT", ok ParseDuration);
   ("BRIDGE_ENABLED", ok ParseBool); ("BRIDGE_PER_TOPIC_MAX", ok ParseInt); ("BRIDGE_INBOX_SIZE", ok ParseInt);
   ("QUEUE_MAX_BYTES", ok ParseInt); ("QUEUE_SYNC", ok ParseBool); ("OTEL_INSECURE", ok ParseBool);
   ("TRACE_SAMPLE_RATIO", ok ParseFloat)].

(** The variables that are set to something else than white space and are malformed. *)
Definition malformed : list EnvProblem :=
  omap (fun '(key, ok) => v ← raw key; if ok v : bool then None else Some (BadValue key v)) typed_keys.
End Load.

(** What the rest of the program may rely on. *)
Record valid (c : Config) : Prop := {
  v_addr : HTTPAddr c <> "";
  v_plant : PlantFile c <> "";
  v_broker : Broker c = "memory" \/ Broker c = "mqtt" /\ MQTTURL c <> "";
  v_qos : MQTTQoS c <= 1;
  v_sink : Sink c = "memory" \/ Sink c = "kafka" /\
    (BridgeEnabled c = true -> KafkaBrokers c <> [] /\ KafkaTopic c <> "");
  v_queue : 0 < QueueMaxBytes c;
  v_topic_max : 0 < BridgePerTopicMax c;
  v_inbox : 0 < BridgeInboxSize c;
  v_shutdown : 0 < ShutdownTimeout c;
  v_stale : 0 < StaleCheck c;
  v_ratio : flt (TraceSampleRatio c) fzero = false /\ flt (of_Z 1) (TraceSampleRatio c) = false
}.

(** ** Lemmas *)

Lemma check_nil {E} c (e : E) : check c e = [] <-> c = false.
Proof. by destruct c. Qed.

Lemma Validate_valid c : Validate c = [] <-> valid c.
Proof.
  unfold Validate. rewrite !app_nil, !check_nil. split.
  - intros (H1 & H2 & H3 & H4 & H5 & H6 & H7 & H8 & H9 & H10 & H11 & H12).
    apply String.eqb_neq in H1, H2. apply orb_false_iff in H12.
    assert (forall b x y, (b && String.eqb x y)%bool = false -> b = true -> x <> y) as Hne.
    { intros b x y Hb ->. by apply String.eqb_neq. }
    constructor; try done; try lia.
    + destruct (String.eqb_spec (Broker c) "memory") as [E|N]; [by left|right].
      destruct (String.eqb_spec (Broker c) "mqtt") as [E|N']; [|done]. split; [done|]. by apply (Hne _ _ _ H4).
    + destruct (String.eqb_spec (Sink c) "memory") as [E|N]; [by left|right].
      destruct (String.eqb_spec (Sink c) "kafka") as [E|N']; [|done]. split; [done|]. intros Eb.
      split; [|apply (Hne _ _ _ H8); by rewrite Eb]. intros E0. by rewrite Eb, E0 in H7.
  - intros [H1 H2 H3 H4 H5 H6 H7 H8 H9 H10 [H11 H12]].
    apply String.eqb_neq in H1, H2. rewrite H1, H2, H11, H12. split_and!; try done; try lia.
    + destruct H3 as [-> |[-> _]]; done.
    + destruct H3 as [-> |[-> H3]]; [done|]. by apply String.eqb_neq.
    + destruct H5 as [-> |[-> _]]; done.
    + destruct H5 as [-> |[-> H5]]; [by rewrite andb_false_r|]. destruct (BridgeEnabled c); [|done].
      destruct H5 as [H5 _]; [done|]. unfold zlength. by destruct (KafkaBrokers c).
    + destruct H5 as [-> |[-> H5]]; [by rewrite andb_false_r|]. destruct (BridgeEnabled c); [|done].
      destruct H5 as [_ H5]; [done|]. by apply String.eqb_neq.
Qed.

Section Spec.
Variables (ToLower : string -> string) (ParseFloat : string -> option float).
Variable lookup : Lookup.

(** The value a variable is read as, and the problem it reports. *)
Definition value {A} (parse : string -> option A) (key : string) (def : A) : A :=
  default def (raw lookup key ≫= parse).

Definition problem {A} (parse : string -> option A) (key : string) : list EnvProblem :=
  match raw lookup key with
  | Some v => match parse v with Some _ => [] | None => [BadValue key v] end
  | None => []
  end.

Lemma bind_parsed {A C} (parse : string -> option A) key def (f : A -> GoM (list EnvProblem) Empty_set C) es :
  (parsed lookup parse key def ≫= f) es = f (value parse key def) (es ++ problem parse key).
Proof.
  unfold mbind, GoM_bind, parsed, value, problem. destruct (raw lookup key) as [v|]; cbn; [|by rewrite app_nil_r].
  destruct (parse v); cbn; [by rewrite app_nil_r|done].
Qed.

Lemma bind_str {C} key def (f : string -> GoM (list EnvProblem) Empty_set C) es :
  (str lookup key def ≫= f) es = f (default def (raw lookup key)) es.
Proof. done. Qed.

Lemma bind_list {C} key def (f : list string -> GoM (list EnvProblem) Empty_set C) es :
  (list_ lookup key def ≫= f) es = f (split_list (default def (raw lookup key))) es.
Proof. done. Qed.

Lemma problem_malformed {A} (parse : string -> option A) key :
  problem parse key =
  match (v ← raw lookup key; if (match parse v with Some _ => true | None => false end) : bool
         then None else Some (BadValue key v)) with Some e => [e] | None => [] end.
Proof. unfold problem. destruct (raw lookup key) as [v|]; [|done]. cbn. by destruct (parse v). Qed.

Lemma omap_cons_app {A C} (f : A -> option C) x xs :
  omap f (x :: xs) = (match f x with Some y => [y] | None => [] end) ++ omap f xs.
Proof. cbn. by destruct (f x). Qed.

(** Reading never stops early: every malformed variable is reported. *)
Lemma read_problems : exists c, read ToLower ParseFloat lookup [] = (Ok c, malformed ParseFloat lookup).
Proof.
  unfold read, dur, int, int64, float_, boolean.
  repeat (first [rewrite bind_parsed | rewrite bind_str | rewrite bind_list]; cbv beta).
  eexists. unfold mret, GoM_ret. f_equal. rewrite !problem_malformed.
  unfold malformed, typed_keys. cbv zeta. rewrite !omap_cons_app.
  change (omap _ []) with (@nil EnvProblem). by rewrite app_nil_r, <-!app_assoc.
Qed.

(** C34: the outcome of loading. Without an error every variable that is set
    parses and the configuration satisfies all constraints; with malformed
    variables the error lists each of them, in the order they are read, and
    the configuration is the zero one; otherwise the error lists the violated
    constraints. *)
Theorem LoadFrom_spec :
  let '(c, err) := LoadFrom ToLower ParseFloat lookup in
  match err with
  | None => malformed ParseFloat lookup = [] /\ valid c
  | Some (BadEnv es) => es = malformed ParseFloat lookup /\ es <> [] /\ c = zeroConfig
  | Some (Invalid cs) => malformed ParseFloat lookup = [] /\ cs = Validate c /\ ~ valid c
  end.
Proof.
  unfold LoadFrom. destruct read_problems as (c & ->). destruct (malformed ParseFloat lookup) as [|e es]; [|done].
  cbv zeta. destruct (Validate (otel_fallback lookup c)) as [|p ps] eqn:E.
  - split; [done|]. by apply Validate_valid.
  - split_and!; [done..|]. rewrite <-Validate_valid. by rewrite E.
Qed.
End Spec.

(** An environment given by its variables. *)
Definition env_of (vars : list (string * string)) : Lookup := fun k =>
  match List.find (fun p => String.eqb k (Prefix ++ fst p)%string) vars with Some (_, v) => Some v | None => None end.

(** An empty environment gives the documented defaults, whatever the library does. *)
Lemma LoadFrom_defaults ToLower ParseFloat : ToLower "memory" = "memory" ->
  LoadFrom ToLower ParseFloat (env_of []) =
  (mkConfig ":8080" "examples/plant.yaml" "info" (10 * Second) Second "memory" "mqtt://localhost:1883" "" "" "" 1 30
     (10 * Second) false "#" 64 4096 "memory" ["localhost:9092"] "uns.events" "" (64 * 2 ^ 20) false "" true
     (of_Z 1) "dev", None).
Proof. intros H. vm_compute. rewrite !H. by vm_compute. Qed.

(** The width of the MQTT settings is checked after they are cut. A QoS of
    256 and a keep-alive of 65566 seconds are accepted and mean QoS 0 and 30
    seconds, although the constraint on the QoS is that it is 0 or 1. *)
Theorem qos_wraps ToLower ParseFloat : ToLower "memory" = "memory" ->
  let '(c, err) := LoadFrom ToLower ParseFloat (env_of [("MQTT_QOS", "256"); ("MQTT_KEEPALIVE_SECONDS", "65566")]) in
  err = None /\ MQTTQoS c = 0 /\ MQTTKeepAlive c = 30.
Proof. intros H. vm_compute. rewrite !H. by vm_compute. Qed.

Lemma qos_wraps_witness :
  let '(c, err) := LoadFrom (fun s => s) (fun _ => None)
    (env_of [("MQTT_QOS", "256"); ("MQTT_KEEPALIVE_SECONDS", "65566")]) in
  err = None /\ MQTTQoS c = 0 /\ MQTTKeepAlive c = 30.
Proof. exact (qos_wraps (fun s => s) (fun _ => None) eq_refl). Defined.
