(* ===== verification/PlcSim.v ===== *)
(** * PlcSim: the simulated PLC (cmd/plc-sim/main.go)

    The register map, the main loop over its events (a tick, the end of the
    server, the cancellation of the context) and the exit status. Signals, the
    listener itself and the logs are left out. *)
From Stdlib Require Import ZArith Lia SpecFloat.
From S2P Require Import Prelude GoBytes GoFloat ModbusFrame ModbusRegs ModbusLink.
From S2P Require LineSim.

Open Scope string_scope.
Open Scope list_scope.
Open Scope Z_scope.

Inductive SimError :=
| ERegs (e : RegError)
| EBank (e : Error)
| EListen (e : Error)
| EServe (e : Error)
| EPanic.

Definition encoded (r : result RegError (list Z)) : GoM MemoryBank SimError (list Z) := fun b =>
  match r with Ok regs => (Ok regs, b) | Err e => (Err (ERegs e), b) end.

Definition on_bank (m : GoM MemoryBank Error unit) : GoM MemoryBank SimError unit := fun b =>
  match m b with (Ok a, b') => (Ok a, b') | (Err e, b') => (Err (EBank e), b') end.

(** The loop over the three float32 signals. *)
Fixpoint encode_floats (o : ByteOrder) (vs : list float) : GoM MemoryBank SimError (list Z) :=
  match vs with
  | [] => mret []
  | v :: rest =>
      regs ← encoded (Encode Float32 o v);
      more ← encode_floats o rest;
      mret (regs ++ more)
  end.

Definition writeRegisters (s : LineSim.Snapshot) (o : ByteOrder) : GoM MemoryBank SimError unit :=
  floats ← encode_floats o [LineSim.Speed s; LineSim.Temperature s; LineSim.Vibration s];
  let state := [LineSim.state_code (LineSim.sState s)] in
  count ← encoded (Encode UInt32 o (of_Z (LineSim.Count s)));
  _ ← on_bank (SetHolding 0 (floats ++ state ++ count));
  ambient ← encoded (Encode Int16 o (fmul (LineSim.Ambient s) (of_Z 10)));
  pressure ← encoded (Encode UInt16 o (fmul (LineSim.Pressure s) (of_Z 100)));
  on_bank (SetInput 0 (ambient ++ pressure)).

Section Loop.
Context {R : Type} `{!LineSim.Rand R}.
Variable Exp : float -> float.

(** One tick of [run]. *)
Definition sim_tick (tick : Duration) (o : ByteOrder) (st : LineSim.Line R * MemoryBank)
    : result SimError unit * (LineSim.Line R * MemoryBank) :=
  let line := LineSim.Step Exp tick (fst st) in
  let '(r, bank) := writeRegisters (LineSim.TakeSnapshot line) o (snd st) in
  (r, (line, bank)).

(** What the loop of [run] waits for. [served] is what the server returns. *)
Inductive loop_event :=
| CtxDone (served : option Error)
| ServeDone (served : option Error)
| Tick.

Definition from_server (served : option Error) : result SimError unit :=
  match served with Some e => Err (EServe e) | None => Ok tt end.

(** The loop: [None] while it runs. *)
Fixpoint run_loop (tick : Duration) (o : ByteOrder) (evs : list loop_event) (st : LineSim.Line R * MemoryBank)
    : option (result SimError unit) * (LineSim.Line R * MemoryBank) :=
  match evs with
  | [] => (None, st)
  | CtxDone e :: _ | ServeDone e :: _ => (Some (from_server e), st)
  | Tick :: rest =>
      match sim_tick tick o st with
      | (Err e, st') => (Some (Err e), st')
      | (Ok _, st') => run_loop tick o rest st'
      end
  end.

(** [run]. [listen] is what opening the listener returns; a ticker needs a
    positive interval. *)
Definition run (seed : Z) (listen : option Error) (tick : Duration) (o : ByteOrder) (evs : list loop_event)
    : option (result SimError unit) * (LineSim.Line R * MemoryBank) :=
  let line := LineSim.NewLine seed in
  match writeRegisters (LineSim.TakeSnapshot line) o (NewMemoryBank 16 8) with
  | (Err e, bank) => (Some (Err e), (line, bank))
  | (Ok _, bank) =>
      match listen with
      | Some e => (Some (Err (EListen e)), (line, bank))
      | None => if tick <=? 0 then (Some (Err EPanic), (line, bank)) else run_loop tick o evs (line, bank)
      end
  end.
End Loop.

(** [main]: the exit status, from the flags and what [run] returns. *)
Definition main_status (printMap : bool) (order : string) (run : ByteOrder -> result SimError unit) : Z :=
  if printMap then 0
  else
    match ParseByteOrder order with
    | Err _ => 2
    | Ok bo => match run bo with Err _ => 1 | Ok _ => 0 end
    end.

(** ** Specification *)

(** A snapshot whose values are in the domain of the conversions. *)
Record representable (s : LineSim.Snapshot) : Prop := {
  rp_speed : valid32 (to_f32 (LineSim.Speed s));
  rp_temperature : valid32 (to_f32 (LineSim.Temperature s));
  rp_vibration : valid32 (to_f32 (LineSim.Vibration s));
  rp_count : is_u32 (LineSim.Count s);
  rp_ambient : valid64 (fmul (LineSim.Ambient s) (of_Z 10));
  rp_pressure : valid64 (fmul (LineSim.Pressure s) (of_Z 100))
}.

(** The value of type [t] at register [addr] of a table. *)
Definition register_value (t : DataType) (o : ByteOrder) (addr : Z) (table : list Z) : result RegError float :=
  Decode t o (slice addr (addr + Words t) table).

(** ** Lemmas *)

Lemma write_table_0 table regs : zlength regs <= zlength table ->
  write_table table 0 regs = Some (regs ++ drop (length regs) table).
Proof.
  intros H. unfold write_table. rewrite Z.add_0_l. destruct (Z.ltb_spec (zlength table) (zlength regs)); [lia|].
  cbn. unfold zlength. by rewrite Nat2Z.id.
Qed.

Lemma slice_mid {A} (pre mid post : list A) lo hi :
  lo = zlength pre -> hi = lo + zlength mid -> slice lo hi (pre ++ mid ++ post) = mid.
Proof. intros -> ->. by apply slice_app_exact. Qed.

Lemma state_code_u16 st : is_u16 (LineSim.state_code st).
Proof. by destruct st. Qed.

(** What a snapshot leaves in the bank. *)
Lemma written_registers (s : LineSim.Snapshot) (o : ByteOrder) (bank : MemoryBank) :
  representable s -> 9 <= zlength (holding bank) -> 2 <= zlength (input bank) ->
  exists bank', writeRegisters s o bank = (Ok tt, bank') /\
    register_value Float32 o 0 (holding bank') = Ok (to_f64 (to_f32 (LineSim.Speed s))) /\
    register_value Float32 o 2 (holding bank') = Ok (to_f64 (to_f32 (LineSim.Temperature s))) /\
    register_value Float32 o 4 (holding bank') = Ok (to_f64 (to_f32 (LineSim.Vibration s))) /\
    holding bank' !! 6%nat = Some (LineSim.state_code (LineSim.sState s)) /\
    register_value UInt32 o 7 (holding bank') = Ok (of_Z (LineSim.Count s)) /\
    register_value Int16 o 0 (input bank') =
      Ok (of_Z (saturate MinInt16 MaxInt16 (fmul (LineSim.Ambient s) (of_Z 10)))) /\
    register_value UInt16 o 1 (input bank') =
      Ok (of_Z (saturate 0 MaxUint16 (fmul (LineSim.Pressure s) (of_Z 100)))) /\
    drop 9 (holding bank') = drop 9 (holding bank) /\ drop 2 (input bank') = drop 2 (input bank) /\
    length (holding bank') = length (holding bank) /\ length (input bank') = length (input bank) /\
    (bank_ok bank -> bank_ok bank').
Proof.
  intros [V1 V2 V3 Vc Va Vp] Hh Hi.
  destruct (Encode_float32 o _ V1) as (r1 & E1 & L1 & F1 & D1).
  destruct (Encode_float32 o _ V2) as (r2 & E2 & L2 & F2 & D2).
  destruct (Encode_float32 o _ V3) as (r3 & E3 & L3 & F3 & D3).
  assert (small (LineSim.Count s)) as Sc by (unfold small, in_u in *; lia).
  destruct (Encode_int UInt32 0 MaxUint32 o _ eq_refl (of_Z_valid _ Sc)) as (rc & Ec & Lc & Fc & Dc & _).
  rewrite saturate_id in Dc by (done || (unfold in_u, MaxUint32 in *; lia)).
  destruct (Encode_int Int16 MinInt16 MaxInt16 o _ eq_refl Va) as (ra & Ea & La & Fa & Da & _).
  destruct (Encode_int UInt16 0 MaxUint16 o _ eq_refl Vp) as (rp & Ep & Lp & Fp & Dp & _).
  change (Words UInt32) with 2 in Lc. change (Words Int16) with 1 in La. change (Words UInt16) with 1 in Lp.
  unfold zlength in L1, L2, L3, Lc, La, Lp, Hh, Hi.
  destruct r1 as [|r1 [|r1' []]], r2 as [|r2 [|r2' []]], r3 as [|r3 [|r3' []]], rc as [|rc [|rc' []]],
    ra as [|ra []], rp as [|rp []]; cbn in L1, L2, L3, Lc, La, Lp; try lia.
  eexists. split; [|split_and!].
  - unfold writeRegisters, encoded. cbn [encode_floats]. unfold encoded, mret, GoM_ret, mbind, GoM_bind.
    rewrite E1, E2, E3, Ec. unfold on_bank, SetHolding. rewrite write_table_0 by (unfold zlength; cbn; lia).
    rewrite Ea, Ep. cbn [input]. unfold SetInput. cbn [input holding].
    rewrite write_table_0 by (unfold zlength; cbn; lia). reflexivity.
  - exact D1.
  - exact D2.
  - exact D3.
  - done.
  - exact Dc.
  - exact Da.
  - exact Dp.
  - cbn. by rewrite drop_0.
  - cbn. by rewrite drop_0.
  - cbn. rewrite length_drop. lia.
  - cbn. rewrite length_drop. lia.
  - intros [Oh Oi]. split; cbn [holding input].
    + repeat apply Forall_app_2; try done; [|by apply Forall_drop].
      constructor; [apply state_code_u16|done].
    + repeat apply Forall_app_2; try done. by apply Forall_drop.
Qed.

(** ** Properties *)

(** The registers the simulator writes. Writing a snapshot succeeds for every
    byte order, in which it puts speed, temperature and
    vibration as float32 at holding registers 0, 2 and 4, the state code at 6
    and the counter as uint32 at 7; ambient, in tenths, and pressure, in
    hundredths, saturated, at input registers 0 and 1; decoding them gives the
    values back, rounded to single precision or truncated. No other register
    changes. *)
Theorem register_map (s : LineSim.Snapshot) (o : ByteOrder) (bank : MemoryBank) :
  representable s -> 9 <= zlength (holding bank) -> 2 <= zlength (input bank) ->
  exists bank', writeRegisters s o bank = (Ok tt, bank') /\
    register_value Float32 o 0 (holding bank') = Ok (to_f64 (to_f32 (LineSim.Speed s))) /\
    register_value Float32 o 2 (holding bank') = Ok (to_f64 (to_f32 (LineSim.Temperature s))) /\
    register_value Float32 o 4 (holding bank') = Ok (to_f64 (to_f32 (LineSim.Vibration s))) /\
    holding bank' !! 6%nat = Some (LineSim.state_code (LineSim.sState s)) /\
    register_value UInt32 o 7 (holding bank') = Ok (of_Z (LineSim.Count s)) /\
    register_value Int16 o 0 (input bank') =
      Ok (of_Z (saturate MinInt16 MaxInt16 (fmul (LineSim.Ambient s) (of_Z 10)))) /\
    register_value UInt16 o 1 (input bank') =
      Ok (of_Z (saturate 0 MaxUint16 (fmul (LineSim.Pressure s) (of_Z 100)))) /\
    drop 9 (holding bank') = drop 9 (holding bank) /\ drop 2 (input bank') = drop 2 (input bank) /\
    length (holding bank') = length (holding bank) /\ length (input bank') = length (input bank).
Proof.
  intros H1 H2 H3. destruct (written_registers s o bank H1 H2 H3) as (b & ? & ? & ? & ? & ? & ? & ? & ? & ? & ? & ? & ? & _).
  exists b. by split_and!.
Qed.

(** The snapshot the simulator starts with. *)
Definition first_snapshot : LineSim.Snapshot :=
  LineSim.mkSnapshot fzero (of_Z 24) (LineSim.dec 4 10) LineSim.Stopped 0 (of_Z 22) (LineSim.dec 62 10).

Lemma register_map_witness :
  exists bank', writeRegisters first_snapshot CDAB (NewMemoryBank 16 8) = (Ok tt, bank') /\
    register_value Float32 CDAB 2 (holding bank') = Ok (of_Z 24) /\
    register_value UInt16 CDAB 1 (input bank') = Ok (of_Z 620).
Proof.
  destruct (register_map first_snapshot CDAB (NewMemoryBank 16 8)) as (bank' & H1 & _ & H2 & _ & _ & _ & _ & H3 & _).
  { constructor; by vm_compute. }
  { by vm_compute. }
  { by vm_compute. }
  exists bank'. split_and!; [exact H1|rewrite H2; by vm_compute|rewrite H3; by vm_compute].
Defined.

(** A byte order also swaps the one-register inputs, although the header
    says it concerns the 32-bit values: with DCBA the pressure register holds
    620 with its bytes exchanged, and the state code next to it does not. *)
Theorem byte_order_swaps_words :
  let s := LineSim.mkSnapshot fzero fzero fzero LineSim.Running 0 (of_Z 22) (LineSim.dec 62 10) in
  let '(r, bank) := writeRegisters s DCBA (NewMemoryBank 16 8) in
  r = Ok tt /\ input bank !! 1%nat = Some 0x6C02 /\ 620 = 0x026C /\ holding bank !! 6%nat = Some 2.
Proof. by vm_compute. Qed.
