(* ===== verification/Asset.v ===== *)
(** * Asset: the plant model (internal/domain/asset)

    The records of plant.yaml, the defaults and the validation [Parse] applies
    to them, and the lookup tables of [Index]. Decoding YAML is third-party:
    a plant is whatever record it yields. [Validate] returns the list of the
    problems whose texts it joins. *)
From Stdlib Require Import ZArith Lia SpecFloat.
From S2P Require Import Prelude GoBytes GoFloat ModbusFrame ModbusRegs LineSim.
From S2P Require Uns.

Open Scope string_scope.
Open Scope list_scope.
Open Scope Z_scope.

(** ** model.go *)

Abbreviation SourceType := string.
Definition SourceModbus : SourceType := "modbus".
Definition SourceSim : SourceType := "sim".
Definition SourceCSV : SourceType := "csv".

Record QualityDefaults := mkQualityDefaults {
  qStaleAfter : Duration;
  qFlatlineAfter : Duration;
  qFlatlineMinSamples : Z
}.

(** The [modbus] block of a source. *)
Record ModbusConfig := mkModbusConfig {
  mcAddress : string;
  mcUnitID : byte;
  mcTimeout : Duration;
  mcMaxGap : Z
}.

Record SimConfig := mkSimConfig { Seed : Z }.
Record CSVConfig := mkCSVConfig { Path : string; Loop : bool }.

Record Source := mkSourceDef {
  Name : string;
  Type_ : SourceType;
  PollInterval : Duration;
  Modbus : option ModbusConfig;
  Sim : option SimConfig;
  CSV : option CSVConfig
}.

Record Range := mkRange { rMin : float; rMax : float }.
Record Scale := mkScale { Factor : float; Offset : float }.

(** [raw*s.Factor + s.Offset], each operation rounded. *)
Definition Apply (s : option Scale) (raw : float) : float :=
  match s with
  | None => raw
  | Some s => fadd (fmul raw (Factor s)) (Offset s)
  end.

Record ModbusAddress := mkModbusAddress {
  maFunction : string;
  maRegister : Z;
  maType : DataType;
  maByteOrder : ByteOrder
}.

Definition FunctionCode (m : ModbusAddress) : byte :=
  if String.eqb (maFunction m) "input" then FuncReadInputRegisters else FuncReadHoldingRegisters.

Record SimAddress := mkSimAddress { Signal : string }.
Record CSVAddress := mkCSVAddress { Column : string }.

Record Tag := mkTagDef {
  tName : string;
  tDescription : string;
  tUnit : string;
  tDataType : Uns.MetricType;
  tRange : option Range;
  tScale : option Scale;
  tQuality : option QualityDefaults;
  tModbus : option ModbusAddress;
  tSim : option SimAddress;
  tCSV : option CSVAddress
}.

Record Asset := mkAsset {
  aID : string;
  aClass : string;
  aDescription : string;
  aSource : string;
  aTags : list Tag
}.

Record Cell := mkCell { clName : string; clAssets : list Asset }.
Record Line := mkLine { lnName : string; lnCells : list Cell }.
Record Area := mkArea { arName : string; arLines : list Line }.

Record Plant := mkPlant {
  Enterprise : string;
  Site : string;
  pQuality : QualityDefaults;
  Sources : list Source;
  Areas : list Area
}.

(** ** load.go: defaults *)

Definition DefaultPollInterval : Duration := Second.
Definition DefaultModbusTimeout : Duration := 2 * Second.
Definition DefaultModbusMaxGap : Z := 8.
Definition DefaultFlatlineMinSamples : Z := 5.
Definition staleMultiplier : Z := 3.

Definition unsTypeFor (t : DataType) : Uns.MetricType :=
  if String.eqb t Int16 then Uns.TypeInt16
  else if String.eqb t UInt16 then Uns.TypeUInt16
  else if String.eqb t Int32 then Uns.TypeInt32
  else if String.eqb t UInt32 then Uns.TypeUInt32
  else Uns.TypeFloat.

Definition default_modbus (m : ModbusConfig) : ModbusConfig :=
  mkModbusConfig (mcAddress m)
    (if Z_of_byte (mcUnitID m) =? 0 then byte_of_Z 1 else mcUnitID m)
    (if mcTimeout m <=? 0 then DefaultModbusTimeout else mcTimeout m)
    (if mcMaxGap m <=? 0 then DefaultModbusMaxGap else mcMaxGap m).

Definition default_source (s : Source) : Source :=
  mkSourceDef (Name s) (Type_ s)
    (if PollInterval s <=? 0 then DefaultPollInterval else PollInterval s)
    (default_modbus <$> Modbus s) (Sim s) (CSV s).

Definition default_address (m : ModbusAddress) : ModbusAddress :=
  mkModbusAddress (if String.eqb (maFunction m) "" then "holding" else maFunction m)
    (maRegister m) (maType m)
    (if String.eqb (maByteOrder m) "" then ABCD else maByteOrder m).

Definition default_tag (t : Tag) : Tag :=
  let m := default_address <$> tModbus t in
  let dt := match m with
            | Some a => if String.eqb (tDataType t) "" then unsTypeFor (maType a) else tDataType t
            | None => tDataType t
            end in
  mkTagDef (tName t) (tDescription t) (tUnit t)
    (if String.eqb dt "" then Uns.TypeFloat else dt)
    (tRange t) (tScale t) (tQuality t) m
    ((fun s => mkSimAddress (if String.eqb (Signal s) "" then tName t else Signal s)) <$> tSim t)
    ((fun c => mkCSVAddress (if String.eqb (Column c) "" then tName t else Column c)) <$> tCSV t).

(** The update through the pointers that [assets] returns. *)
Definition map_assets (f : Asset -> Asset) (p : Plant) : Plant :=
  mkPlant (Enterprise p) (Site p) (pQuality p) (Sources p)
    (map (fun ar => mkArea (arName ar) (map (fun ln => mkLine (lnName ln)
       (map (fun cl => mkCell (clName cl) (map f (clAssets cl))) (lnCells ln))) (arLines ar))) (Areas p)).

Definition default_asset (a : Asset) : Asset :=
  mkAsset (aID a) (aClass a) (aDescription a) (aSource a) (map default_tag (aTags a)).

Definition applyDefaults (p : Plant) : Plant :=
  let q := pQuality p in
  let q' := mkQualityDefaults (qStaleAfter q) (qFlatlineAfter q)
              (if qFlatlineMinSamples q <=? 0 then DefaultFlatlineMinSamples else qFlatlineMinSamples q) in
  map_assets default_asset (mkPlant (Enterprise p) (Site p) q' (map default_source (Sources p)) (Areas p)).

(** ** load.go: validation *)

Inductive TagProblem :=
| BadDataType (s : string)
| BadRange (lo hi : float)
| BadScale
| NegativeDurations
| NoModbusAddress
| BadFunction (f : string)
| BadRegister (e : RegError)
| BeyondAddressSpace
| BadByteOrder (e : RegError)
| BadSignal (s : string)
| NoColumn.

Inductive Problem :=
| BadEnterprise (e : Uns.UnsError)
| BadSite (e : Uns.UnsError)
| NegativeQuality
| NoSources
| SourceUnnamed (i : nat)
| SourceName (s : string) (e : Uns.UnsError)
| SourceDuplicate (s : string)
| SourceNoModbus (s : string)
| SourceNoAddress (s : string)
| SourceUnit (s : string)
| SourceNoPath (s : string)
| SourceNoType (s : string)
| SourceUnsupported (s : string) (t : SourceType)
| NoAreas
| BadArea (e : Uns.UnsError)
| BadLine (area : string) (e : Uns.UnsError)
| BadCell (line : string) (e : Uns.UnsError)
| AssetUnnamed (cell : string)
| AssetDuplicate (id : string)
| AssetNoClass (id : string)
| AssetUnknownSource (id src : string)
| AssetNoTags (id : string)
| TagDuplicate (id tag : string)
| TagTopic (id tag : string) (e : Uns.UnsError)
| TopicTaken (id tag topic other : string)
| TagInvalid (id tag : string) (e : TagProblem)
| NoAsset.

(** [if c { fail(e) }]. *)
Definition fail_if {E} (c : bool) (e : E) : list E := if c then [e] else [].

Definition fail_err {E F A} (r : result E A) (f : E -> F) : list F :=
  match r with Err e => [f e] | Ok _ => [] end.

(** A loop that carries a state and reports problems. *)
Fixpoint walk {S A P} (step : S -> A -> S * list P) (s : S) (xs : list A) : S * list P :=
  match xs with
  | [] => (s, [])
  | x :: rest =>
      let '(s1, e1) := step s x in
      let '(s2, e2) := walk step s1 rest in
      (s2, e1 ++ e2)
  end.

Definition negative (q : QualityDefaults) : bool := (qStaleAfter q <? 0) || (qFlatlineAfter q <? 0).

Definition validate_modbus_tag (t : Tag) : list TagProblem :=
  match tModbus t with
  | None => [NoModbusAddress]
  | Some m =>
      fail_if (negb (String.eqb (maFunction m) "holding") && negb (String.eqb (maFunction m) "input"))
        (BadFunction (maFunction m)) ++
      match ParseDataType (maType m) with
      | Err e => [BadRegister e]
      | Ok dt => fail_if (0x10000 <? maRegister m + Words dt) BeyondAddressSpace
      end ++
      fail_err (ParseByteOrder (maByteOrder m)) BadByteOrder
  end.

Definition validateTag (t : Tag) (src : option Source) : list TagProblem :=
  fail_if (bool_decide (Uns.ParseMetricType (tDataType t) = None)) (BadDataType (tDataType t)) ++
  match tRange t with
  | Some r => fail_if (fle (rMax r) (rMin r)) (BadRange (rMin r) (rMax r))
  | None => []
  end ++
  match tScale t with
  | Some s => fail_if (feq (Factor s) fzero) BadScale
  | None => []
  end ++
  match tQuality t with
  | Some q => fail_if (negative q) NegativeDurations
  | None => []
  end ++
  match src with
  | None => []
  | Some s =>
      if String.eqb (Type_ s) SourceModbus then validate_modbus_tag t
      else if String.eqb (Type_ s) SourceSim then
        match tSim t with
        | None => [BadSignal ""]
        | Some a => fail_if (negb (IsSignal (Signal a))) (BadSignal (Signal a))
        end
      else if String.eqb (Type_ s) SourceCSV then
        match tCSV t with
        | None => [NoColumn]
        | Some a => fail_if (String.eqb (Column a) "") NoColumn
        end
      else []
  end.

Definition validate_source_type (s : Source) : list Problem :=
  if String.eqb (Type_ s) SourceModbus then
    match Modbus s with
    | None => [SourceNoModbus (Name s)]
    | Some m =>
        fail_if (String.eqb (mcAddress m) "") (SourceNoAddress (Name s)) ++
        fail_if (247 <? Z_of_byte (mcUnitID m)) (SourceUnit (Name s))
    end
  else if String.eqb (Type_ s) SourceSim then []
  else if String.eqb (Type_ s) SourceCSV then
    match CSV s with
    | None => [SourceNoPath (Name s)]
    | Some c => fail_if (String.eqb (Path c) "") (SourceNoPath (Name s))
    end
  else if String.eqb (Type_ s) "" then [SourceNoType (Name s)]
  else [SourceUnsupported (Name s) (Type_ s)].

Definition validate_source (st : nat * gmap string Source) (s : Source) : (nat * gmap string Source) * list Problem :=
  let '(i, sources) := st in
  if String.eqb (Name s) "" then ((S i, sources), [SourceUnnamed i])
  else
    ((S i, <[Name s := s]> sources),
     fail_err (Uns.ValidateSegment (Name s)) (SourceName (Name s)) ++
     fail_if (bool_decide (is_Some (sources !! Name s))) (SourceDuplicate (Name s)) ++
     validate_source_type s).

(** What the loop over the hierarchy carries. *)
Record VState := mkVState {
  assetIDs : gset string;
  vTopics : gmap string string;
  anyAsset : bool
}.

Section Hierarchy.
Variables (p : Plant) (sources : gmap string Source).

Definition topic_at (ar ln cl : string) (t : Tag) : Uns.UnsTopic :=
  Uns.mkTopic (Enterprise p) (Site p) ar ln cl (tName t).

Definition validate_tag (ar ln cl : string) (a : Asset) (st : gset string * gmap string string) (t : Tag)
    : (gset string * gmap string string) * list Problem :=
  let '(names, topics) := st in
  let topic := topic_at ar ln cl t in
  let '(topics', e) :=
    match Uns.Validate topic with
    | Err e => (topics, [TagTopic (aID a) (tName t) e])
    | Ok _ =>
        match topics !! Uns.TopicString topic with
        | Some other => (topics, [TopicTaken (aID a) (tName t) (Uns.TopicString topic) other])
        | None => (<[Uns.TopicString topic := aID a]> topics, [])
        end
    end in
  (({[tName t]} ∪ names, topics'),
   fail_if (bool_decide (tName t ∈ names)) (TagDuplicate (aID a) (tName t)) ++ e ++
   map (TagInvalid (aID a) (tName t)) (validateTag t (sources !! aSource a))).

Definition validate_asset (ar ln cl : string) (st : VState) (a : Asset) : VState * list Problem :=
  if String.eqb (aID a) "" then (mkVState (assetIDs st) (vTopics st) true, [AssetUnnamed cl])
  else
    let '((_, topics), e) := walk (validate_tag ar ln cl a) (∅, vTopics st) (aTags a) in
    (mkVState ({[aID a]} ∪ assetIDs st) topics true,
     fail_if (bool_decide (aID a ∈ assetIDs st)) (AssetDuplicate (aID a)) ++
     fail_if (String.eqb (aClass a) "") (AssetNoClass (aID a)) ++
     fail_if (bool_decide (sources !! aSource a = None)) (AssetUnknownSource (aID a) (aSource a)) ++
     fail_if (bool_decide (aTags a = [])) (AssetNoTags (aID a)) ++ e).

Definition validate_cell (ar ln : string) (st : VState) (cl : Cell) : VState * list Problem :=
  let '(st', e) := walk (validate_asset ar ln (clName cl)) st (clAssets cl) in
  (st', fail_err (Uns.ValidateSegment (clName cl)) (BadCell ln) ++ e).

Definition validate_line (ar : string) (st : VState) (ln : Line) : VState * list Problem :=
  let '(st', e) := walk (validate_cell ar (lnName ln)) st (lnCells ln) in
  (st', fail_err (Uns.ValidateSegment (lnName ln)) (BadLine ar) ++ e).

Definition validate_area (st : VState) (ar : Area) : VState * list Problem :=
  let '(st', e) := walk (validate_line (arName ar)) st (arLines ar) in
  (st', fail_err (Uns.ValidateSegment (arName ar)) BadArea ++ e).
End Hierarchy.

Definition Validate (p : Plant) : list Problem :=
  let '((_, sources), es) := walk validate_source (O, ∅) (Sources p) in
  let '(st, ea) := walk (validate_area p sources) (mkVState ∅ ∅ false) (Areas p) in
  fail_err (Uns.ValidateSegment (Enterprise p)) BadEnterprise ++
  fail_err (Uns.ValidateSegment (Site p)) BadSite ++
  fail_if (negative (pQuality p)) NegativeQuality ++
  fail_if (bool_decide (Sources p = [])) NoSources ++ es ++
  fail_if (bool_decide (Areas p = [])) NoAreas ++ ea ++
  fail_if (negb (anyAsset st)) NoAsset.

(** [Parse], after the YAML decoder: the plant, or the problems. *)
Definition Parse (decoded : Plant) : result (list Problem) Plant :=
  let p := applyDefaults decoded in
  match Validate p with
  | [] => Ok p
  | es => Err es
  end.

Definition EffectiveQuality (p : Plant) (t : Tag) (pollInterval : Duration) : QualityDefaults :=
  let pos x d := if 0 <? x then x else d in
  let q := match tQuality t with
           | None => pQuality p
           | Some tq =>
               mkQualityDefaults (pos (qStaleAfter tq) (qStaleAfter (pQuality p)))
                 (pos (qFlatlineAfter tq) (qFlatlineAfter (pQuality p)))
                 (pos (qFlatlineMinSamples tq) (qFlatlineMinSamples (pQuality p)))
           end in
  mkQualityDefaults
    (if qStaleAfter q <=? 0 then i64 (staleMultiplier * pollInterval) else qStaleAfter q)
    (qFlatlineAfter q)
    (if qFlatlineMinSamples q <=? 0 then DefaultFlatlineMinSamples else qFlatlineMinSamples q).

(** ** load.go: the index *)

Record AssetRef := mkAssetRef {
  rAsset : Asset;
  rArea : string;
  rLine : string;
  rCell : string;
  rSource : option Source
}.

Record TagRef := mkTagRef { trAsset : AssetRef; trTag : Tag; trTopic : Uns.UnsTopic }.

Record Index := mkIndex {
  iPlant : Plant;
  iAssets : gmap string AssetRef;
  iSources : gmap string Source;
  bySource : gmap string (list TagRef);
  byTopic : gmap string TagRef;
  ordered : list AssetRef;
  iTopics : list string
}.

Definition source_map (ss : list Source) : gmap string Source :=
  fold_left (fun m s => <[Name s := s]> m) ss ∅.

(** The assets in the order of the nested loops, with their position. *)
Definition cell_refs (sources : gmap string Source) (ar ln : string) (cl : Cell) : list AssetRef :=
  map (fun a => mkAssetRef a ar ln (clName cl) (sources !! aSource a)) (clAssets cl).

Definition line_refs (sources : gmap string Source) (ar : string) (ln : Line) : list AssetRef :=
  concat (map (cell_refs sources ar (lnName ln)) (lnCells ln)).

Definition area_refs (sources : gmap string Source) (ar : Area) : list AssetRef :=
  concat (map (line_refs sources (arName ar)) (arLines ar)).

Definition asset_refs (p : Plant) (sources : gmap string Source) : list AssetRef :=
  concat (map (area_refs sources) (Areas p)).

Definition tag_refs_of (p : Plant) (r : AssetRef) : list TagRef :=
  map (fun t => mkTagRef r t (topic_at p (rArea r) (rLine r) (rCell r) t)) (aTags (rAsset r)).

Definition topic_of (tr : TagRef) : string := Uns.TopicString (trTopic tr).

Definition index_tag (idx : Index) (tr : TagRef) : Index :=
  let src := aSource (rAsset (trAsset tr)) in
  mkIndex (iPlant idx) (iAssets idx) (iSources idx)
    (<[src := default [] (bySource idx !! src) ++ [tr]]> (bySource idx))
    (<[topic_of tr := tr]> (byTopic idx)) (ordered idx) (iTopics idx ++ [topic_of tr]).

Definition index_asset (p : Plant) (idx : Index) (r : AssetRef) : Index :=
  fold_left index_tag (tag_refs_of p r)
    (mkIndex (iPlant idx) (<[aID (rAsset r) := r]> (iAssets idx)) (iSources idx)
       (bySource idx) (byTopic idx) (ordered idx ++ [r]) (iTopics idx)).

Definition ref_le (a b : AssetRef) : Prop := stdpp.strings.String.le (aID (rAsset a)) (aID (rAsset b)).
Global Instance ref_le_dec a b : Decision (ref_le a b).
Proof. unfold ref_le. apply _. Defined.

Definition MakeIndex (p : Plant) : Index :=
  let sources := source_map (Sources p) in
  let idx := fold_left (index_asset p) (asset_refs p sources) (mkIndex p ∅ sources ∅ ∅ [] []) in
  mkIndex (iPlant idx) (iAssets idx) (iSources idx) (bySource idx) (byTopic idx)
    (merge_sort ref_le (ordered idx)) (merge_sort stdpp.strings.String.le (iTopics idx)).

Definition Assets (i : Index) : list AssetRef := ordered i.
Definition LookupAsset (i : Index) (id : string) : option AssetRef := iAssets i !! id.
Definition LookupSource (i : Index) (name : string) : option Source := iSources i !! name.
Definition TagsForSource (i : Index) (name : string) : list TagRef := default [] (bySource i !! name).
Definition TagByTopic (i : Index) (topic : string) : option TagRef := byTopic i !! topic.
Definition Topics (i : Index) : list string := iTopics i.
Definition TagCount (i : Index) : Z := zlength (iTopics i).

(** ** Specification *)

Definition valid_name (s : string) : Prop := Uns.ValidateSegment s = Ok tt.

Definition not_negative (q : QualityDefaults) : Prop := 0 <= qStaleAfter q /\ 0 <= qFlatlineAfter q.

Definition source_ok (s : Source) : Prop :=
  Name s <> "" /\ valid_name (Name s) /\
  ((Type_ s = SourceModbus /\
      exists m, Modbus s = Some m /\ mcAddress m <> "" /\ Z_of_byte (mcUnitID m) <= 247) \/
   Type_ s = SourceSim \/
   (Type_ s = SourceCSV /\ exists c, CSV s = Some c /\ Path c <> "")).

(** What a tag needs to be collected from a source. *)
Definition bound_to (t : Tag) (s : Source) : Prop :=
  (Type_ s = SourceModbus -> exists m dt o, tModbus t = Some m /\
     (maFunction m = "holding" \/ maFunction m = "input") /\
     ParseDataType (maType m) = Ok dt /\ maRegister m + Words dt <= 0x10000 /\
     ParseByteOrder (maByteOrder m) = Ok o) /\
  (Type_ s = SourceSim -> exists a, tSim t = Some a /\ IsSignal (Signal a) = true) /\
  (Type_ s = SourceCSV -> exists a, tCSV t = Some a /\ Column a <> "").

Definition tag_ok (t : Tag) : Prop :=
  Uns.ParseMetricType (tDataType t) <> None /\
  (forall r, tRange t = Some r -> fle (rMax r) (rMin r) = false) /\
  (forall s, tScale t = Some s -> feq (Factor s) fzero = false) /\
  (forall q, tQuality t = Some q -> not_negative q).

Definition ref_ok (p : Plant) (r : AssetRef) : Prop :=
  aID (rAsset r) <> "" /\ aClass (rAsset r) <> "" /\ aTags (rAsset r) <> [] /\
  exists s, rSource r = Some s /\
    Forall (fun t => Uns.Validate (topic_at p (rArea r) (rLine r) (rCell r) t) = Ok tt /\
                     tag_ok t /\ bound_to t s) (aTags (rAsset r)).

Definition cell_ok (cl : Cell) : Prop := valid_name (clName cl).
Definition line_ok (ln : Line) : Prop := valid_name (lnName ln) /\ Forall cell_ok (lnCells ln).
Definition area_ok (ar : Area) : Prop := valid_name (arName ar) /\ Forall line_ok (arLines ar).

Definition refs (p : Plant) : list AssetRef := asset_refs p (source_map (Sources p)).
Definition tag_refs (p : Plant) : list TagRef := concat (map (tag_refs_of p) (refs p)).

Record well_formed (p : Plant) : Prop := {
  wf_enterprise : valid_name (Enterprise p);
  wf_site : valid_name (Site p);
  wf_quality : not_negative (pQuality p);
  wf_some_source : Sources p <> [];
  wf_source_names : NoDup (map Name (Sources p));
  wf_sources : Forall source_ok (Sources p);
  wf_some_area : Areas p <> [];
  wf_areas : Forall area_ok (Areas p);
  wf_some_asset : refs p <> [];
  wf_ids : NoDup (map (fun r => aID (rAsset r)) (refs p));
  wf_refs : Forall (ref_ok p) (refs p);
  wf_topics : NoDup (map topic_of (tag_refs p))
}.
