(* ===== verification/Plants.v ===== *)
(** * Plants: concrete plants

    The site of examples/plant-modbus.yaml as the YAML decoder yields it, and
    plants that show the limits of the validation. The witnesses and the
    concrete runs of the other files use them. *)
From Stdlib Require Import ZArith Lia SpecFloat.
From S2P Require Import Prelude GoBytes GoFloat ModbusRegs LineSim Asset.
From S2P Require Uns.

Open Scope string_scope.
Open Scope list_scope.
Open Scope Z_scope.

(** A source, a tag, an asset with the fields their YAML gives and the zero
    values of the others. *)
Definition a_source (name : string) (interval : Duration) (m : ModbusConfig) : Source :=
  mkSourceDef name SourceModbus interval (Some m) None None.

Definition a_tag (name unit : string) (range : option Range) (scale : option Scale) (m : ModbusAddress) : Tag :=
  mkTagDef name "" unit "" range scale None (Some m) None None.

Definition no_quality : QualityDefaults := mkQualityDefaults 0 0 0.

Definition plc : Source :=
  a_source "plc-line-1" (500 * Millisecond) (mkModbusConfig "plc-sim:5020" x01 Second 8).

Definition filler : Asset := mkAsset "filler-01" "RotaryFiller" "24-head rotary filler read via Modbus TCP" "plc-line-1" [
  a_tag "speed" "bpm" (Some (mkRange fzero (of_Z 600))) None (mkModbusAddress "holding" 0 Float32 ABCD);
  a_tag "temperature" "degC" (Some (mkRange (of_Z 10) (of_Z 120))) None (mkModbusAddress "holding" 2 Float32 "");
  a_tag "vibration" "mm/s" (Some (mkRange fzero (dec 71 10))) None (mkModbusAddress "holding" 4 Float32 "");
  a_tag "state" "" None None (mkModbusAddress "holding" 6 UInt16 "");
  a_tag "count" "bottles" None None (mkModbusAddress "holding" 7 UInt32 "")].

Definition air : Asset := mkAsset "air-01" "AirSupply" "" "plc-line-1" [
  a_tag "ambient" "degC" (Some (mkRange (of_Z 5) (of_Z 40))) (Some (mkScale (dec 1 10) fzero))
    (mkModbusAddress "input" 0 Int16 "");
  a_tag "pressure" "bar" (Some (mkRange (dec 55 10) (of_Z 7))) (Some (mkScale (dec 1 100) fzero))
    (mkModbusAddress "input" 1 UInt16 "")].

(** examples/plant-modbus.yaml, decoded. *)
Definition plant_modbus : Plant := mkPlant "acme" "austin" (mkQualityDefaults (3 * Second) 0 0) [plc]
  [mkArea "packaging" [mkLine "line-1" [mkCell "filling" [filler]; mkCell "utilities" [air]]]].

(** Two cells of one line on one PLC, each with a tag named temperature. *)
Definition twin_plant : Plant := mkPlant "acme" "p1" (mkQualityDefaults (3 * Second) 0 0)
  [a_source "plc" Second (mkModbusConfig "plc:502" x01 Second 8)]
  [mkArea "a" [mkLine "l" [
    mkCell "c1" [mkAsset "m1" "Mixer" "" "plc"
      [a_tag "temperature" "degC" None None (mkModbusAddress "holding" 0 UInt16 "")]];
    mkCell "c2" [mkAsset "m2" "Mixer" "" "plc"
      [a_tag "temperature" "degC" None None (mkModbusAddress "holding" 1 UInt16 "")]]]]].

(** A tag with [range: {min: 0, max: .inf}]. *)
Definition open_plant : Plant := mkPlant "acme" "p1" (mkQualityDefaults (3 * Second) 0 0)
  [a_source "plc" Second (mkModbusConfig "plc:502" x01 Second 8)]
  [mkArea "a" [mkLine "l" [mkCell "c1" [mkAsset "m1" "Mixer" "" "plc"
    [a_tag "level" "m" (Some (mkRange fzero (S754_infinity false))) None (mkModbusAddress "holding" 0 UInt16 "")]]]]].

(** Two tags on the same register, read as different types. *)
Definition overlapping_plant : Plant := mkPlant "acme" "p1" (mkQualityDefaults (3 * Second) 0 0)
  [a_source "plc" Second (mkModbusConfig "plc:502" x01 Second 8)]
  [mkArea "a" [mkLine "l" [mkCell "c1" [mkAsset "m1" "Mixer" "" "plc"
    [a_tag "level" "m" None None (mkModbusAddress "holding" 0 Float32 "");
     a_tag "state" "" None None (mkModbusAddress "holding" 1 UInt16 "")]]]]].

(** A tag with [range: {min: .nan, max: 1}]. *)
Definition nan_plant : Plant := mkPlant "acme" "p1" (mkQualityDefaults (3 * Second) 0 0)
  [a_source "plc" Second (mkModbusConfig "plc:502" x01 Second 8)]
  [mkArea "a" [mkLine "l" [mkCell "c1" [mkAsset "m1" "Mixer" "" "plc"
    [a_tag "level" "m" (Some (mkRange S754_nan (of_Z 1))) None (mkModbusAddress "holding" 0 UInt16 "")]]]]].

(** Parsing accepts the first three. *)
Lemma plants_parse :
  Parse plant_modbus = Ok (applyDefaults plant_modbus) /\
  Parse twin_plant = Ok (applyDefaults twin_plant) /\
  Parse open_plant = Ok (applyDefaults open_plant).
Proof. by vm_compute. Qed.
