(* ===== verification/AssetValid.v ===== *)
(** * AssetValid: what a validated plant guarantees

    [Validate] walks the plant once, carrying the identifiers and topics seen
    so far; the walk is flattened to the list of placed assets and compared
    with the declarative [well_formed]. *)
From Stdlib Require Import ZArith Lia.
From S2P Require Import Prelude GoBytes GoFloat ModbusFrame ModbusRegs LineSim Asset.
From S2P Require Uns.

Open Scope string_scope.
Open Scope list_scope.
Open Scope Z_scope.

(** ** Problem lists *)

Lemma app_nil_iff {A} (l k : list A) : l ++ k = [] <-> l = [] /\ k = [].
Proof. destruct l; naive_solver. Qed.

Lemma fail_if_nil {E} (c : bool) (e : E) : fail_if c e = [] <-> c = false.
Proof. by destruct c. Qed.

Lemma fail_err_nil {E F} (r : result E unit) (f : E -> F) : fail_err r f = [] <-> r = Ok tt.
Proof. destruct r as [[]|e]; naive_solver. Qed.

Lemma fail_name_nil {F} (s : string) (f : Uns.UnsError -> F) :
  fail_err (Uns.ValidateSegment s) f = [] <-> valid_name s.
Proof. apply fail_err_nil. Qed.

(** ** Walks *)

Lemma walk_cons {S A P} (step : S -> A -> S * list P) s x xs :
  fst (walk step s (x :: xs)) = fst (walk step (fst (step s x)) xs) /\
  (snd (walk step s (x :: xs)) = [] <-> snd (step s x) = [] /\ snd (walk step (fst (step s x)) xs) = []).
Proof.
  cbn [walk]. destruct (step s x) as [s1 e1]. cbn [fst snd].
  destruct (walk step s1 xs) as [s2 e2]. cbn [fst snd]. by rewrite app_nil_iff.
Qed.

Lemma walk_app {S A P} (step : S -> A -> S * list P) s xs ys :
  fst (walk step s (xs ++ ys)) = fst (walk step (fst (walk step s xs)) ys) /\
  (snd (walk step s (xs ++ ys)) = [] <->
   snd (walk step s xs) = [] /\ snd (walk step (fst (walk step s xs)) ys) = []).
Proof.
  revert s. induction xs as [|x xs IH]; intros s; [cbn; naive_solver|].
  rewrite <-app_comm_cons. destruct (walk_cons step s x (xs ++ ys)) as [-> ->].
  destruct (walk_cons step s x xs) as [-> ->]. destruct (IH (fst (step s x))) as [-> ->]. tauto.
Qed.

Lemma walk_map {S A B P} (f : S -> B -> S * list P) (k : A -> B) s xs :
  walk (fun s a => f s (k a)) s xs = walk f s (map k xs).
Proof.
  revert s. induction xs as [|x xs IH]; intros s; [done|]. cbn [walk map].
  destruct (f s (k x)) as [s1 e1]. by rewrite IH.
Qed.

(** A walk whose steps are walks themselves is one walk over the concatenation. *)
Lemma walk_nest {S A B P} (step : S -> A -> S * list P) (f : S -> B -> S * list P)
    (g : A -> list B) (ok : A -> Prop) :
  (forall s x, fst (step s x) = fst (walk f s (g x)) /\
               (snd (step s x) = [] <-> ok x /\ snd (walk f s (g x)) = [])) ->
  forall xs s,
    fst (walk step s xs) = fst (walk f s (concat (map g xs))) /\
    (snd (walk step s xs) = [] <-> Forall ok xs /\ snd (walk f s (concat (map g xs))) = []).
Proof.
  intros H. induction xs as [|x xs IH]; intros s; [by cbn; repeat split; try constructor|].
  cbn [map concat]. destruct (walk_cons step s x xs) as [-> ->].
  destruct (walk_app f s (g x) (concat (map g xs))) as [-> ->].
  destruct (H s x) as [-> ->]. destruct (IH (fst (walk f s (g x)))) as [-> ->].
  rewrite Forall_cons. tauto.
Qed.

(** ** One tag *)

Lemma negative_false q : negative q = false <-> not_negative q.
Proof. unfold negative, not_negative. rewrite orb_false_iff, !Z.ltb_ge. tauto. Qed.

Lemma validate_modbus_tag_nil t :
  validate_modbus_tag t = [] <->
  exists m dt o, tModbus t = Some m /\ (maFunction m = "holding" \/ maFunction m = "input") /\
    ParseDataType (maType m) = Ok dt /\ maRegister m + Words dt <= 0x10000 /\
    ParseByteOrder (maByteOrder m) = Ok o.
Proof.
  unfold validate_modbus_tag. destruct (tModbus t) as [m|]; [|by split; [|intros (? & ? & ? & ? & _)]].
  rewrite !app_nil_iff, fail_if_nil, andb_false_iff, !negb_false_iff, !String.eqb_eq. split.
  - destruct (ParseDataType (maType m)) as [dt|e] eqn:Ed; [|by intros (_ & ? & _)].
    rewrite fail_if_nil, Z.ltb_ge. intros (Hf & Hr & Ho).
    destruct (ParseByteOrder (maByteOrder m)) as [o|e] eqn:Eo; [|done]. by exists m, dt, o.
  - intros (m' & dt & o & E & Hf & Ed & Hr & Eo). injection E as <-.
    rewrite Ed, Eo, fail_if_nil, Z.ltb_ge. by split_and!.
Qed.

Lemma source_types_distinct :
  SourceModbus <> SourceSim /\ SourceModbus <> SourceCSV /\ SourceSim <> SourceCSV.
Proof. done. Qed.

Lemma validateTag_nil t s : validateTag t (Some s) = [] <-> tag_ok t /\ bound_to t s.
Proof.
  assert (forall o : option Range, (match o with Some r => fail_if (fle (rMax r) (rMin r)) (BadRange (rMin r) (rMax r)) | None => [] end = []) <->
    forall r, o = Some r -> fle (rMax r) (rMin r) = false) as HR by (intros [r|]; [rewrite fail_if_nil|]; naive_solver).
  assert (forall o : option Scale, (match o with Some s => fail_if (feq (Factor s) fzero) BadScale | None => [] end = []) <->
    forall s, o = Some s -> feq (Factor s) fzero = false) as HS by (intros [r|]; [rewrite fail_if_nil|]; naive_solver).
  assert (forall o : option QualityDefaults, (match o with Some q => fail_if (negative q) NegativeDurations | None => [] end = []) <->
    forall q, o = Some q -> not_negative q) as HQ
    by (intros [q|]; [rewrite fail_if_nil, negative_false|]; naive_solver).
  unfold validateTag, tag_ok, bound_to.
  rewrite !app_nil_iff, fail_if_nil, bool_decide_eq_false, HR, HS, HQ.
  destruct source_types_distinct as (D1 & D2 & D3).
  destruct (String.eqb_spec (Type_ s) SourceModbus) as [E|N1].
  { rewrite validate_modbus_tag_nil. rewrite E. naive_solver. }
  destruct (String.eqb_spec (Type_ s) SourceSim) as [E|N2].
  { assert ((match tSim t with Some a => fail_if (negb (IsSignal (Signal a))) (BadSignal (Signal a)) | None => [BadSignal ""] end = []) <->
      exists a, tSim t = Some a /\ IsSignal (Signal a) = true) as ->
      by (destruct (tSim t); [rewrite fail_if_nil, negb_false_iff|]; naive_solver).
    rewrite E. naive_solver. }
  destruct (String.eqb_spec (Type_ s) SourceCSV) as [E|N3]; [|naive_solver].
  assert ((match tCSV t with Some a => fail_if (String.eqb (Column a) "") NoColumn | None => [NoColumn] end = []) <->
    exists a, tCSV t = Some a /\ Column a <> "") as ->
    by (destruct (tCSV t); [rewrite fail_if_nil, String.eqb_neq|]; naive_solver).
  rewrite E. naive_solver.
Qed.

(** ** The tags of an asset *)

Definition topic_str (p : Plant) (ar ln cl : string) (t : Tag) : string :=
  Uns.TopicString (topic_at p ar ln cl t).

Lemma TopicString_tag p ar ln cl t t' :
  tName t = tName t' -> topic_str p ar ln cl t = topic_str p ar ln cl t'.
Proof. intros E. unfold topic_str, topic_at. by rewrite E. Qed.

(** A tag is accepted in a state when its topic and its name are new in it. *)
Definition tag_fits (p : Plant) (ar ln cl : string) (s : Source) (t : Tag) : Prop :=
  Uns.Validate (topic_at p ar ln cl t) = Ok tt /\ tag_ok t /\ bound_to t s.

Lemma validate_tag_step p sources ar ln cl a s names topics t :
  sources !! aSource a = Some s ->
  (snd (validate_tag p sources ar ln cl a (names, topics) t) = [] <->
   tName t ∉ names /\ topics !! topic_str p ar ln cl t = None /\ tag_fits p ar ln cl s t) /\
  (snd (validate_tag p sources ar ln cl a (names, topics) t) = [] ->
   fst (validate_tag p sources ar ln cl a (names, topics) t) =
   ({[tName t]} ∪ names, <[topic_str p ar ln cl t := aID a]> topics)).
Proof.
  intros Hs. unfold validate_tag, tag_fits. rewrite Hs. fold (topic_str p ar ln cl t).
  destruct (Uns.Validate _) as [[]|e] eqn:Ev; cbn [fst snd].
  - destruct (topics !! topic_str p ar ln cl t) as [o|] eqn:Et; cbn [fst snd];
      rewrite !app_nil_iff, fail_if_nil, bool_decide_eq_false.
    + split; [split; [by intros (_ & ? & _)|by intros (_ & ? & _)]|by intros (_ & ? & _)].
    + split; [|done]. rewrite <-validateTag_nil. split.
      * intros (Hn & _ & Hv). split_and!; try done. by apply map_eq_nil in Hv.
      * intros (Hn & _ & _ & Hv). by rewrite Hv.
  - rewrite !app_nil_iff. split; [split; [by intros (_ & ? & _)|by intros (_ & _ & ? & _)]|by intros (_ & ? & _)].
Qed.

Lemma validate_tags_walk p sources ar ln cl a s ts names topics :
  sources !! aSource a = Some s ->
  (snd (walk (validate_tag p sources ar ln cl a) (names, topics) ts) = [] <->
   Forall (tag_fits p ar ln cl s) ts /\ NoDup (map (topic_str p ar ln cl) ts) /\
   NoDup (map tName ts) /\
   (forall t, t ∈ ts -> tName t ∉ names) /\ (forall t, t ∈ ts -> topics !! topic_str p ar ln cl t = None)) /\
  (snd (walk (validate_tag p sources ar ln cl a) (names, topics) ts) = [] ->
   forall k, snd (fst (walk (validate_tag p sources ar ln cl a) (names, topics) ts)) !! k = None <->
     topics !! k = None /\ k ∉ map (topic_str p ar ln cl) ts).
Proof.
  intros Hs. revert names topics. induction ts as [|t ts IH]; intros names topics.
  { cbn. split; [|set_solver]. split; [|done]. intros _. split_and!; try constructor; set_solver. }
  destruct (walk_cons (validate_tag p sources ar ln cl a) (names, topics) t ts) as [-> ->].
  destruct (validate_tag_step p sources ar ln cl a s names topics t Hs) as [Hok Hst].
  cbn [map]. rewrite Forall_cons, !NoDup_cons.
  split.
  - split.
    + intros [H1 H2]. rewrite (Hst H1) in H2. apply IH in H2 as (Hf & Ht & Hn & Hdn & Hdt).
      apply Hok in H1 as (Hn1 & Ht1 & Hf1). split_and!; try done.
      * intros (t' & E & Hin)%list_elem_of_fmap. specialize (Hdt t' Hin). rewrite <-E, lookup_insert_eq in Hdt. done.
      * intros (t' & E & Hin)%list_elem_of_fmap. apply (Hdn t' Hin). rewrite <-E. by apply elem_of_union_l, elem_of_singleton.
      * intros t' [->|Hin]%elem_of_cons; [done|]. intros Hin'. apply (Hdn t' Hin). by apply elem_of_union_r.
      * intros t' [->|Hin]%elem_of_cons; [done|]. specialize (Hdt t' Hin).
        apply lookup_insert_None in Hdt as [? _]. done.
    + intros ((Hf1 & Hf) & (Hnt & Ht) & (Hnn & Hn) & Hdn & Hdt).
      assert (snd (validate_tag p sources ar ln cl a (names, topics) t) = []) as H1.
      { apply Hok. split_and!; [apply Hdn|apply Hdt|done]; left. }
      split; [done|]. rewrite (Hst H1). apply IH. split_and!; try done.
      * intros t' Hin. assert (tName t <> tName t') as Hne by (intros E; apply Hnn; rewrite E; by apply list_elem_of_fmap_2).
        intros [E%elem_of_singleton|E]%elem_of_union; [by apply Hne|]. by eapply Hdn; [right|].
      * intros t' Hin. apply lookup_insert_None. split; [by apply Hdt; right|].
        intros E. apply Hnt. rewrite E. by apply list_elem_of_fmap_2.
  - intros [H1 H2] k. rewrite (Hst H1) in H2 |- *. rewrite (proj2 (IH _ _) H2), lookup_insert_None.
    rewrite not_elem_of_cons. split; [intros [[? Hk] ?]|intros [? [Hk ?]]]; split_and!; try done; congruence.
Qed.

(** ** The placed assets *)

Definition validate_ref (p : Plant) (sources : gmap string Source) (st : VState) (r : AssetRef) : VState * list Problem :=
  validate_asset p sources (rArea r) (rLine r) (rCell r) st (rAsset r).

Definition ref_id (r : AssetRef) : string := aID (rAsset r).

Lemma tag_topics_of p r : map topic_of (tag_refs_of p r) =
  map (topic_str p (rArea r) (rLine r) (rCell r)) (aTags (rAsset r)).
Proof. unfold tag_refs_of. by rewrite map_map. Qed.

(** Distinct topics have distinct names, so the duplicate check on names adds nothing. *)
Lemma names_distinct p ar ln cl ts : NoDup (map (topic_str p ar ln cl) ts) -> NoDup (map tName ts).
Proof.
  induction ts as [|t ts IH]; cbn [map]; [by constructor|]. rewrite !NoDup_cons. intros [Hn Hd].
  split; [|by apply IH]. intros (t' & E & Hin)%list_elem_of_fmap. apply Hn.
  rewrite (TopicString_tag p ar ln cl t t' E). by apply list_elem_of_fmap_2.
Qed.

Lemma validate_ref_step p sources st r :
  rSource r = sources !! aSource (rAsset r) ->
  (snd (validate_ref p sources st r) = [] <->
   ref_ok p r /\ ref_id r ∉ assetIDs st /\ NoDup (map topic_of (tag_refs_of p r)) /\
   (forall k, k ∈ map topic_of (tag_refs_of p r) -> vTopics st !! k = None)) /\
  (snd (validate_ref p sources st r) = [] ->
   assetIDs (fst (validate_ref p sources st r)) = {[ref_id r]} ∪ assetIDs st /\
   forall k, vTopics (fst (validate_ref p sources st r)) !! k = None <->
     vTopics st !! k = None /\ k ∉ map topic_of (tag_refs_of p r)).
Proof.
  intros Hs. unfold validate_ref, validate_asset, ref_ok. rewrite tag_topics_of.
  destruct (String.eqb_spec (aID (rAsset r)) "") as [E|Hid].
  { cbn [snd]. split; [split; [done|by intros ((? & _) & _)]|done]. }
  destruct (sources !! aSource (rAsset r)) as [s|] eqn:Es.
  2:{ destruct (walk _ _ _) as [[n t] e]. cbn [fst snd].
      rewrite !app_nil_iff, !fail_if_nil, !bool_decide_eq_false, Hs.
      split; [split; [by intros (_ & _ & ? & _)|]|by intros (_ & _ & ? & _)].
      intros ((_ & _ & _ & s & ? & _) & _). done. }
  destruct (validate_tags_walk p sources (rArea r) (rLine r) (rCell r) (rAsset r) s
              (aTags (rAsset r)) ∅ (vTopics st) Es) as [Hok Hst].
  destruct (walk _ _ _) as [[n t] e]. cbn [fst snd] in *.
  rewrite !app_nil_iff, !fail_if_nil, !bool_decide_eq_false, String.eqb_neq, Hok, Hs. unfold ref_id. split.
  - split.
    + intros (Hi & Hc & _ & Ht & Hf & Hd & _ & _ & Hk). split_and!; try done.
      * by exists s.
      * by intros k (t' & -> & Hin)%list_elem_of_fmap; apply Hk.
    + intros ((_ & Hc & Ht & s' & [= <-] & Hf) & Hi & Hd & Hk). split_and!; try done.
      * by eapply names_distinct.
      * intros t' Hin. apply Hk. by apply list_elem_of_fmap_2.
  - intros (_ & _ & _ & _ & He). split; [done|]. intros k. by apply Hst, Hok.
Qed.

(** Two duplicate-free lists with nothing in common. *)
Definition fresh_for {A} (l k : list A) : Prop := forall x, x ∈ l -> x ∉ k.

Lemma refs_walk p sources rs st :
  Forall (fun r => rSource r = sources !! aSource (rAsset r)) rs ->
  (snd (walk (validate_ref p sources) st rs) = [] <->
   Forall (ref_ok p) rs /\ NoDup (map ref_id rs) /\ (forall r, r ∈ rs -> ref_id r ∉ assetIDs st) /\
   NoDup (map topic_of (concat (map (tag_refs_of p) rs))) /\
   (forall k, k ∈ map topic_of (concat (map (tag_refs_of p) rs)) -> vTopics st !! k = None)).
Proof.
  revert st. induction rs as [|r rs IH]; intros st Hs.
  { cbn. split; [|done]. intros _. split_and!; try constructor; by intros ? ?%elem_of_nil. }
  apply Forall_cons in Hs as [Hr Hs].
  destruct (walk_cons (validate_ref p sources) st r rs) as [_ ->].
  destruct (validate_ref_step p sources st r Hr) as [Hok Hst].
  cbn [map concat]. rewrite map_app, Forall_cons, NoDup_cons, NoDup_app. split.
  - intros [H1 H2]. destruct (Hst H1) as [Hids Htop]. apply (IH _ Hs) in H2 as (Hf & Hd & Hn & Ht & Hk).
    apply Hok in H1 as (Ho & Hi & Hdt & Hkt). rewrite Hids in Hn. split_and!; try done.
    + intros (r' & E & Hin)%list_elem_of_fmap. apply (Hn r' Hin). rewrite <-E. by apply elem_of_union_l, elem_of_singleton.
    + intros r' [->|Hin]%elem_of_cons; [done|]. intros Hr'. apply (Hn r' Hin). by apply elem_of_union_r.
    + intros k Hin Hin'. by apply Hk, Htop in Hin' as [_ ?].
    + intros k [Hin|Hin]%elem_of_app; [by apply Hkt|]. by apply Hk, Htop in Hin as [? _].
  - intros ((Ho & Hf) & (Hi & Hd) & Hn & (Hdt & Hdis & Ht) & Hk).
    assert (snd (validate_ref p sources st r) = []) as H1.
    { apply Hok. split_and!; [done|apply Hn; left|done|]. intros k Hin. apply Hk, elem_of_app. by left. }
    split; [done|]. destruct (Hst H1) as [Hids Htop]. apply (IH _ Hs). split_and!; try done.
    + intros r' Hin. rewrite Hids. intros [E%elem_of_singleton|E]%elem_of_union.
      * apply Hi. rewrite <-E. by apply list_elem_of_fmap_2.
      * apply (Hn r'); [by right|done].
    + intros k Hin. apply Htop. split; [apply Hk, elem_of_app; by right|].
      intros Hin'. by eapply Hdis.
Qed.

Lemma refs_any p sources rs st :
  anyAsset (fst (walk (validate_ref p sources) st rs)) = anyAsset st || negb (bool_decide (rs = [])).
Proof.
  revert st. induction rs as [|r rs IH]; intros st; [cbn; by rewrite orb_false_r|].
  destruct (walk_cons (validate_ref p sources) st r rs) as [-> _]. rewrite IH.
  assert (anyAsset (fst (validate_ref p sources st r)) = true) as ->.
  { unfold validate_ref, validate_asset. destruct (String.eqb _ _); [done|]. by destruct (walk _ _ _) as [[? ?] ?]. }
  rewrite (bool_decide_false (r :: rs = [])) by done. by rewrite orb_true_r.
Qed.

(** The walk over the hierarchy is the walk over the placed assets, and the
    names of its areas, lines and cells. *)
Lemma validate_cell_nest p sources ar ln st cl :
  fst (validate_cell p sources ar ln st cl) = fst (walk (validate_ref p sources) st (cell_refs sources ar ln cl)) /\
  (snd (validate_cell p sources ar ln st cl) = [] <->
   cell_ok cl /\ snd (walk (validate_ref p sources) st (cell_refs sources ar ln cl)) = []).
Proof.
  unfold validate_cell, cell_refs. rewrite <-walk_map.
  change (fun s a => validate_ref p sources s (mkAssetRef a ar ln (clName cl) (sources !! aSource a)))
    with (fun s a => validate_asset p sources ar ln (clName cl) s a).
  change (fun s a => validate_asset p sources ar ln (clName cl) s a)
    with (validate_asset p sources ar ln (clName cl)).
  destruct (walk _ st (clAssets cl)) as [st' e]. cbn [fst snd]. by rewrite app_nil_iff, fail_name_nil.
Qed.

Lemma validate_line_nest p sources ar st ln :
  fst (validate_line p sources ar st ln) = fst (walk (validate_ref p sources) st (line_refs sources ar ln)) /\
  (snd (validate_line p sources ar st ln) = [] <->
   line_ok ln /\ snd (walk (validate_ref p sources) st (line_refs sources ar ln)) = []).
Proof.
  unfold validate_line, line_refs, line_ok.
  destruct (walk_nest _ _ _ _ (validate_cell_nest p sources ar (lnName ln)) (lnCells ln) st) as [Hf Hs].
  destruct (walk (validate_cell _ _ _ _) st (lnCells ln)) as [st' e]. cbn [fst snd] in *.
  rewrite app_nil_iff, fail_name_nil, Hs, Hf. split; [done|tauto].
Qed.

Lemma validate_area_nest p sources st ar :
  fst (validate_area p sources st ar) = fst (walk (validate_ref p sources) st (area_refs sources ar)) /\
  (snd (validate_area p sources st ar) = [] <->
   area_ok ar /\ snd (walk (validate_ref p sources) st (area_refs sources ar)) = []).
Proof.
  unfold validate_area, area_refs, area_ok.
  destruct (walk_nest _ _ _ _ (validate_line_nest p sources (arName ar)) (arLines ar) st) as [Hf Hs].
  destruct (walk (validate_line _ _ _) st (arLines ar)) as [st' e]. cbn [fst snd] in *.
  rewrite app_nil_iff, fail_name_nil, Hs, Hf. split; [done|tauto].
Qed.

Lemma refs_sources p sources : Forall (fun r => rSource r = sources !! aSource (rAsset r)) (asset_refs p sources).
Proof.
  apply Forall_forall. intros r Hr. unfold asset_refs, area_refs, line_refs, cell_refs in Hr.
  repeat match goal with
  | H : _ ∈ concat (map _ _) |- _ =>
      let l := fresh "l" in let E := fresh "E" in
      apply list_elem_of_In, in_concat in H as (l & E%list_elem_of_In & H%list_elem_of_In);
      apply list_elem_of_fmap in E as (? & -> & _)
  end.
  by apply list_elem_of_fmap in Hr as (a & -> & _).
Qed.

(** ** The sources *)

Lemma validate_source_type_nil s : validate_source_type s = [] <->
  (Type_ s = SourceModbus /\ exists m, Modbus s = Some m /\ mcAddress m <> "" /\ Z_of_byte (mcUnitID m) <= 247) \/
  Type_ s = SourceSim \/ (Type_ s = SourceCSV /\ exists c, CSV s = Some c /\ Path c <> "").
Proof.
  unfold validate_source_type. destruct source_types_distinct as (D1 & D2 & D3).
  destruct (String.eqb_spec (Type_ s) SourceModbus) as [E|N1].
  { rewrite E. split.
    - destruct (Modbus s) as [m|]; [|done]. rewrite app_nil_iff, !fail_if_nil, String.eqb_neq, Z.ltb_ge.
      intros [? ?]. left. split; [done|]. by exists m.
    - intros [(_ & m & -> & Ha & Hu)|[?|[? _]]]; [|done..].
      by rewrite app_nil_iff, !fail_if_nil, String.eqb_neq, Z.ltb_ge. }
  destruct (String.eqb_spec (Type_ s) SourceSim) as [E|N2]; [tauto|].
  destruct (String.eqb_spec (Type_ s) SourceCSV) as [E|N3].
  { split.
    - destruct (CSV s) as [c|]; [|done]. rewrite fail_if_nil, String.eqb_neq. intros ?. right. right.
      split; [done|]. by exists c.
    - intros [[? _]|[?|(_ & c & -> & Hc)]]; [done..|]. by rewrite fail_if_nil, String.eqb_neq. }
  destruct (String.eqb _ _); split; try done; tauto.
Qed.

Lemma sources_walk ss i m :
  snd (walk validate_source (i, m) ss) = [] <->
  Forall source_ok ss /\ NoDup (map Name ss) /\ (forall s, s ∈ ss -> m !! Name s = None).
Proof.
  revert i m. induction ss as [|s ss IH]; intros i m.
  { cbn. split; [|done]. intros _. split_and!; try constructor. by intros ? ?%elem_of_nil. }
  destruct (walk_cons validate_source (i, m) s ss) as [_ ->]. unfold validate_source at 1 3.
  cbn [map]. rewrite Forall_cons, NoDup_cons. unfold source_ok at 1.
  destruct (String.eqb_spec (Name s) "") as [E|Hn]; cbn [fst snd].
  { split; [by intros [? _]|]. by intros (((? & _) & _) & _). }
  rewrite !app_nil_iff, fail_name_nil, fail_if_nil, bool_decide_eq_false, validate_source_type_nil, IH.
  rewrite <-eq_None_not_Some. split.
  - intros ((Hv & Hm & Ht) & Hf & Hd & Hk). split_and!; try done.
    + intros (s' & E & Hin)%list_elem_of_fmap. specialize (Hk s' Hin). rewrite <-E, lookup_insert_eq in Hk. done.
    + intros s' [->|Hin]%elem_of_cons; [done|]. by apply Hk, lookup_insert_None in Hin as [? _].
  - intros (((_ & Hv & Ht) & Hf) & (Hni & Hd) & Hk). split_and!; try done; [apply Hk; left|].
    intros s' Hin. apply lookup_insert_None. split; [apply Hk; by right|].
    intros E. apply Hni. rewrite E. by apply list_elem_of_fmap_2.
Qed.

Lemma sources_map ss i m :
  Forall source_ok ss ->
  snd (fst (walk validate_source (i, m) ss)) = fold_left (fun m s => <[Name s := s]> m) ss m.
Proof.
  revert i m. induction ss as [|s ss IH]; intros i m; [done|]. intros [(Hn & _) Hss]%Forall_cons.
  destruct (walk_cons validate_source (i, m) s ss) as [-> _]. cbn [fold_left].
  unfold validate_source at 2. apply String.eqb_neq in Hn as ->. cbn [fst]. by apply IH.
Qed.
