(* ===== verification/AssetIndex.v ===== *)
(** * AssetIndex: validation and the index, specified

    [Validate] decides [well_formed], and the lookup tables of the index of a
    validated plant hold exactly what the plant defines. *)
From Stdlib Require Import ZArith Lia.
From S2P Require Import Prelude GoBytes GoFloat ModbusFrame ModbusRegs LineSim Asset AssetValid.
From S2P Require Uns Plants.

Open Scope string_scope.
Open Scope list_scope.
Open Scope Z_scope.

(** ** Maps built by a loop of insertions *)

Lemma fold_insert_fresh {A V} (k : A -> string) (v : A -> V) xs (m : gmap string V) j :
  j ∉ map k xs -> fold_left (fun m x => <[k x := v x]> m) xs m !! j = m !! j.
Proof.
  revert m. induction xs as [|x xs IH]; intros m; [done|]. cbn [map fold_left].
  intros [Hj Hx]%not_elem_of_cons. rewrite IH by done. by apply lookup_insert_ne.
Qed.

Lemma fold_insert_lookup {A V} (k : A -> string) (v : A -> V) xs j y :
  NoDup (map k xs) ->
  (fold_left (fun m x => <[k x := v x]> m) xs (∅ : gmap string V) !! j = Some y <->
   exists x, x ∈ xs /\ k x = j /\ v x = y).
Proof.
  generalize (∅ : gmap string V) (lookup_empty (M := gmap string) (A := V) j). revert y.
  assert (forall y xs (m : gmap string V), NoDup (map k xs) -> (j ∈ map k xs \/ m !! j = None) ->
    (fold_left (fun m x => <[k x := v x]> m) xs m !! j = Some y <-> exists x, x ∈ xs /\ k x = j /\ v x = y)) as H.
  { clear xs. intros y. induction xs as [|x xs IH]; intros m Hd Hj; cbn [fold_left].
    { destruct Hj as [Hj|Hj]; [by apply elem_of_nil in Hj|]. rewrite Hj.
      split; [done|]. by intros (x & Hx%elem_of_nil & _). }
    cbn [map] in Hd, Hj. apply NoDup_cons in Hd as [Hx Hd].
    destruct (decide (k x = j)) as [E|N].
    - rewrite fold_insert_fresh by congruence. rewrite E, lookup_insert_eq. split.
      + intros [= <-]. exists x. by split; [left|].
      + intros (x' & [->|Hin]%elem_of_cons & E' & <-); [done|].
        exfalso. apply Hx. rewrite E, <-E'. by apply list_elem_of_fmap_2.
    - rewrite IH; [|done|].
      + split; intros (x' & Hin & E & Ev); exists x'; split_and!; try done; [by right|].
        apply elem_of_cons in Hin as [->|Hin]; [done|exact Hin].
      + destruct Hj as [[->|Hj]%elem_of_cons|Hj]; [done|by left|].
        right. by rewrite lookup_insert_ne. }
  intros y m Hm Hd. apply H; [done|by right].
Qed.

Lemma by_key {A} (k : A -> string) (xs : list A) j y :
  (exists x, x ∈ xs /\ k x = j /\ x = y) <-> y ∈ xs /\ k y = j.
Proof. split; [by intros (x & ? & ? & <-)|]. intros [? ?]. by exists y. Qed.

(** ** Validation *)

Lemma source_map_lookup ss n s :
  NoDup (map Name ss) -> (source_map ss !! n = Some s <-> s ∈ ss /\ Name s = n).
Proof.
  intros Hd. unfold source_map. rewrite (fold_insert_lookup Name (fun s => s)) by done. apply (by_key Name).
Qed.

Lemma Validate_well_formed p : Validate p = [] <-> well_formed p.
Proof.
  unfold Validate. destruct (sources_walk (Sources p) O ∅) as [Hs1 Hs2].
  pose proof (sources_map (Sources p) O ∅) as Hsm.
  destruct (walk validate_source (O, ∅) (Sources p)) as [[n sources] es]. cbn [fst snd] in *.
  destruct (walk_nest _ _ _ _ (validate_area_nest p sources) (Areas p) (mkVState ∅ ∅ false)) as [Hst Hea].
  fold (asset_refs p sources) in Hst, Hea.
  rewrite (refs_walk p sources _ _ (refs_sources p sources)) in Hea.
  pose proof (refs_any p sources (asset_refs p sources) (mkVState ∅ ∅ false)) as Hany.
  destruct (walk (validate_area p sources) _ (Areas p)) as [st ea]. cbn [fst snd] in *.
  rewrite <-Hst in Hany. cbn in Hany.
  rewrite !app_nil_iff, !fail_name_nil, !fail_if_nil, negative_false, !bool_decide_eq_false.
  rewrite negb_false_iff, Hany, negb_true_iff, bool_decide_eq_false, Hea. split.
  - intros (He & Hsi & Hq & Hsn & Hes & Han & (Ha & Hr & Hi & _ & Ht & _) & Hne).
    destruct (Hs1 Hes) as (Hso & Hsd & _). specialize (Hsm Hso). subst sources. by constructor.
  - intros [He Hsi Hq Hsn Hsd Hso Han Ha Hne Hi Hr Ht]. specialize (Hsm Hso). subst sources.
    split_and!; try done. by apply Hs2.
Qed.

(** ** The index *)

Definition add_source (m : gmap string (list TagRef)) (tr : TagRef) : gmap string (list TagRef) :=
  <[aSource (rAsset (trAsset tr)) := default [] (m !! aSource (rAsset (trAsset tr))) ++ [tr]]> m.

Lemma index_tags_fields trs idx :
  fold_left index_tag trs idx =
  mkIndex (iPlant idx) (iAssets idx) (iSources idx) (fold_left add_source trs (bySource idx))
    (fold_left (fun m tr => <[topic_of tr := tr]> m) trs (byTopic idx)) (ordered idx)
    (iTopics idx ++ map topic_of trs).
Proof.
  revert idx. induction trs as [|tr trs IH]; intros idx; [destruct idx; cbn; by rewrite app_nil_r|].
  cbn [fold_left map]. rewrite IH. unfold index_tag, add_source. cbn. by rewrite <-app_assoc.
Qed.

Lemma index_assets_fields p rs idx :
  let trs := concat (map (tag_refs_of p) rs) in
  fold_left (index_asset p) rs idx =
  mkIndex (iPlant idx) (fold_left (fun m r => <[ref_id r := r]> m) rs (iAssets idx)) (iSources idx)
    (fold_left add_source trs (bySource idx))
    (fold_left (fun m tr => <[topic_of tr := tr]> m) trs (byTopic idx)) (ordered idx ++ rs)
    (iTopics idx ++ map topic_of trs).
Proof.
  cbv zeta. revert idx. induction rs as [|r rs IH]; intros idx; [destruct idx; cbn; by rewrite !app_nil_r|].
  cbn [fold_left map concat]. rewrite IH. unfold index_asset. rewrite index_tags_fields. cbn.
  by rewrite !fold_left_app, map_app, <-!app_assoc.
Qed.

Lemma add_source_lookup trs m n :
  default [] (fold_left add_source trs m !! n) =
  default [] (m !! n) ++ List.filter (fun tr => String.eqb (aSource (rAsset (trAsset tr))) n) trs.
Proof.
  revert m. induction trs as [|tr trs IH]; intros m; [by rewrite app_nil_r|].
  cbn [fold_left List.filter]. rewrite IH. unfold add_source.
  destruct (String.eqb_spec (aSource (rAsset (trAsset tr))) n) as [<-|Hn].
  - rewrite lookup_insert_eq. cbn. by rewrite <-app_assoc.
  - by rewrite lookup_insert_ne.
Qed.

Global Instance ref_le_total : Total ref_le.
Proof. intros a b. unfold ref_le. apply total. apply _. Qed.
Global Instance ref_le_trans : Transitive ref_le.
Proof. intros a b c. unfold ref_le. by apply transitivity. Qed.

(** ** Tags of the index *)

Lemma tag_refs_in p tr : tr ∈ tag_refs p <->
  trAsset tr ∈ refs p /\ trTag tr ∈ aTags (rAsset (trAsset tr)) /\
  trTopic tr = topic_at p (rArea (trAsset tr)) (rLine (trAsset tr)) (rCell (trAsset tr)) (trTag tr).
Proof.
  unfold tag_refs. rewrite list_elem_of_In, in_concat. split.
  - intros (l & Hl%list_elem_of_In & Htr%list_elem_of_In). apply list_elem_of_fmap in Hl as (r & -> & Hr).
    by apply list_elem_of_fmap in Htr as (t & -> & Ht).
  - destruct tr as [r t top]. cbn [trAsset trTag trTopic]. intros (Hr & Ht & ->).
    exists (tag_refs_of p r). rewrite <-!list_elem_of_In. split; [by apply list_elem_of_fmap_2|].
    unfold tag_refs_of. by apply (list_elem_of_fmap_2 (fun t => mkTagRef r t (topic_at p (rArea r) (rLine r) (rCell r) t))).
Qed.

Lemma TagsForSource_index p n :
  TagsForSource (MakeIndex p) n =
  List.filter (fun tr => String.eqb (aSource (rAsset (trAsset tr))) n) (tag_refs p).
Proof.
  unfold TagsForSource, MakeIndex. cbv zeta. fold (refs p). rewrite index_assets_fields. fold (tag_refs p).
  cbn [bySource]. rewrite add_source_lookup. by rewrite lookup_empty.
Qed.

(** A tag listed for a source of a well-formed plant is bound to that source. *)
Lemma TagsForSource_in p s tr :
  well_formed p -> s ∈ Sources p -> tr ∈ TagsForSource (MakeIndex p) (Name s) ->
  tr ∈ tag_refs p /\ rSource (trAsset tr) = Some s /\ Uns.Validate (trTopic tr) = Ok tt /\
  tag_ok (trTag tr) /\ bound_to (trTag tr) s.
Proof.
  intros H Hs Htr. rewrite TagsForSource_index in Htr.
  apply list_elem_of_In, filter_In in Htr as [Htr%list_elem_of_In En%String.eqb_eq].
  pose proof Htr as (Hr & Ht & ->)%tag_refs_in.
  pose proof (proj1 (Forall_forall _ _) (refs_sources p (source_map (Sources p))) _ Hr) as Es.
  destruct (proj1 (Forall_forall _ _) (wf_refs p H) _ Hr) as (_ & _ & _ & s' & Hs' & Hf).
  destruct (proj1 (Forall_forall _ _) Hf _ Ht) as (Hv & Hok & Hb). rewrite Es, En in Hs'.
  assert (source_map (Sources p) !! Name s = Some s) as Hs2
    by (apply source_map_lookup; [by apply wf_source_names|done]).
  rewrite Hs2 in Hs'. injection Hs' as <-. cbn beta in Es. by rewrite Es, En.
Qed.

Lemma Parse_ok d p : Parse d = Ok p -> p = applyDefaults d /\ well_formed p.
Proof.
  unfold Parse. destruct (Validate (applyDefaults d)) eqn:E; [|done]. intros [= <-].
  split; [done|]. by apply Validate_well_formed.
Qed.

(** ** Lookups *)

Lemma LookupAsset_iff p id r : well_formed p ->
  (LookupAsset (MakeIndex p) id = Some r <-> r ∈ refs p /\ aID (rAsset r) = id).
Proof.
  intros H. unfold LookupAsset, MakeIndex. cbv zeta. fold (refs p). rewrite index_assets_fields. cbn [iAssets].
  rewrite (fold_insert_lookup ref_id (fun r => r)) by apply (wf_ids p H). apply (by_key ref_id).
Qed.

Lemma LookupSource_iff p n s : well_formed p ->
  (LookupSource (MakeIndex p) n = Some s <-> s ∈ Sources p /\ Name s = n).
Proof.
  intros H. unfold LookupSource, MakeIndex. cbv zeta. rewrite index_assets_fields. cbn [iSources].
  by apply source_map_lookup, wf_source_names.
Qed.

Lemma TagByTopic_iff p t tr : well_formed p ->
  (TagByTopic (MakeIndex p) t = Some tr <-> tr ∈ tag_refs p /\ topic_of tr = t).
Proof.
  intros H. unfold TagByTopic, MakeIndex. cbv zeta. fold (refs p). rewrite index_assets_fields. fold (tag_refs p).
  cbn [byTopic]. rewrite (fold_insert_lookup topic_of (fun r => r)) by apply (wf_topics p H). apply (by_key topic_of).
Qed.

Lemma Assets_sorted p : Assets (MakeIndex p) ≡ₚ refs p /\ StronglySorted ref_le (Assets (MakeIndex p)).
Proof.
  unfold Assets, MakeIndex. cbv zeta. fold (refs p). rewrite index_assets_fields. cbn [ordered app].
  split; [by rewrite merge_sort_Permutation|apply StronglySorted_merge_sort; apply _].
Qed.

Lemma Topics_sorted p :
  Topics (MakeIndex p) ≡ₚ map topic_of (tag_refs p) /\ StronglySorted stdpp.strings.String.le (Topics (MakeIndex p)).
Proof.
  unfold Topics, MakeIndex. cbv zeta. fold (refs p). rewrite index_assets_fields. fold (tag_refs p).
  cbn [iTopics app]. split; [by rewrite merge_sort_Permutation|apply StronglySorted_merge_sort; apply _].
Qed.

Lemma MakeIndex_plant p : iPlant (MakeIndex p) = p.
Proof. unfold MakeIndex. cbv zeta. by rewrite index_assets_fields. Qed.

(** ** Properties *)

(** C10: validation is exact for what it checks. [Validate] reports nothing
    precisely for the well formed plants: valid names at every level, distinct
    source names, asset identifiers and topics, every asset with a class, a
    declared source and tags, and every tag with a known type, a range whose
    minimum is not at least its maximum (which a bound that is not a number
    passes: [nan_range_accepted]), a non-zero scale and an address its source
    can collect. That addresses do not overlap, which the README says is
    checked, is not among it ([overlap_accepted]). *)
Theorem Validate_spec (p : Plant) : Validate p = [] <-> well_formed p.
Proof. apply Validate_well_formed. Qed.

(** What validation lets through, against the README and its own message. *)
Example overlap_accepted :
  let p := applyDefaults Plants.overlapping_plant in
  Validate p = [] /\
  map (fun tr => (maFunction <$> tModbus (trTag tr), maRegister <$> tModbus (trTag tr), maType <$> tModbus (trTag tr))) (tag_refs p) =
    [(Some "holding", Some 0, Some Float32); (Some "holding", Some 1, Some UInt16)].
Proof. split; by vm_compute. Qed.

Example nan_range_accepted :
  let p := applyDefaults Plants.nan_plant in
  Validate p = [] /\ map (fun tr => flt (default fzero (rMin <$> tRange (trTag tr))) (default fzero (rMax <$> tRange (trTag tr)))) (tag_refs p) = [false].
Proof. split; by vm_compute. Qed.

(** C12: the index of a validated plant is faithful. Every lookup by asset,
    source or topic finds exactly the one entry of the plant with that key,
    the tags of a source are those of its assets in the order of the plant,
    assets and topics are listed completely and sorted, and every asset's
    source is resolved to the source it names. *)
Theorem Index_spec (p : Plant) :
  Validate p = [] ->
  let i := MakeIndex p in
  (forall id r, LookupAsset i id = Some r <-> r ∈ refs p /\ aID (rAsset r) = id) /\
  (forall n s, LookupSource i n = Some s <-> s ∈ Sources p /\ Name s = n) /\
  (forall t tr, TagByTopic i t = Some tr <-> tr ∈ tag_refs p /\ topic_of tr = t) /\
  (forall n, TagsForSource i n =
     List.filter (fun tr => String.eqb (aSource (rAsset (trAsset tr))) n) (tag_refs p)) /\
  (Assets i ≡ₚ refs p /\ StronglySorted ref_le (Assets i)) /\
  (Topics i ≡ₚ map topic_of (tag_refs p) /\ StronglySorted stdpp.strings.String.le (Topics i)) /\
  (forall r, r ∈ refs p -> exists s, rSource r = Some s /\ s ∈ Sources p /\ Name s = aSource (rAsset r)).
Proof.
  intros H%Validate_well_formed. cbv zeta. split_and!.
  - intros id r. by apply LookupAsset_iff.
  - intros n s. by apply LookupSource_iff.
  - intros t tr. by apply TagByTopic_iff.
  - intros n. apply TagsForSource_index.
  - apply Assets_sorted.
  - apply Assets_sorted.
  - apply Topics_sorted.
  - apply Topics_sorted.
  - intros r Hr. pose proof (proj1 (Forall_forall _ _) (refs_sources p (source_map (Sources p))) r Hr) as Es.
    destruct (proj1 (Forall_forall _ _) (wf_refs p H) r Hr) as (_ & _ & _ & s & Hs & _).
    exists s. split; [done|]. rewrite Es in Hs. by apply source_map_lookup in Hs; [|apply wf_source_names].
Qed.

Lemma Index_spec_witness :
  let p := applyDefaults Plants.plant_modbus in
  Assets (MakeIndex p) ≡ₚ refs p /\ length (refs p) = 2%nat /\ length (tag_refs p) = 7%nat.
Proof.
  assert (Validate (applyDefaults Plants.plant_modbus) = []) as H by (by vm_compute).
  destruct (Index_spec _ H) as (_ & _ & _ & _ & (Ha & _) & _). split_and!; [exact Ha|by vm_compute..].
Defined.
