(* ===== verification/Sources.v ===== *)
(** * Sources: the sources built from the plant (internal/collectors)

    [NewModbusSource] (modbus.go), the in-process simulator and the CSV replay
    (sim_csv.go), and [New] (source.go). Iterating a Go map has no fixed order:
    the readings of a simulator or CSV source come in the order of
    [map_to_list], which stands for any. What encoding/csv yields for a file is
    the list of its records, each a row or a parse error. *)
From Stdlib Require Import ZArith Lia.
From S2P Require Import Prelude GoBytes GoFloat GoText ModbusFrame ModbusRegs ModbusLink Collector.
From S2P Require LineSim Asset AssetValid AssetIndex Plants.
Import Asset (TagRef, Plant).

Open Scope string_scope.
Open Scope list_scope.
Open Scope Z_scope.

(** ** NewModbusSource *)

Inductive BuildError :=
| MissingConfig (source : string)
| NoAddress (tag : string)
| BadTag (tag : string) (e : RegError)
| InvalidSignal (tag : string)
| NoTags (source : string)
| UnsupportedType (source : string) (t : string).

Definition new_tag (t : Asset.Tag) : result BuildError modbusTag :=
  match Asset.tModbus t with
  | None => Err (NoAddress (Asset.tName t))
  | Some m =>
      match ParseDataType (Asset.maType m) with
      | Err e => Err (BadTag (Asset.tName t) e)
      | Ok ty =>
          match ParseByteOrder (Asset.maByteOrder m) with
          | Err e => Err (BadTag (Asset.tName t) e)
          | Ok o => Ok (mkTag (Asset.tName t) (Asset.FunctionCode m) (Asset.maRegister m) (Words ty) ty o)
          end
      end
  end.

Fixpoint new_tags (ts : list TagRef) : result BuildError (list modbusTag) :=
  match ts with
  | [] => Ok []
  | t :: rest =>
      match new_tag (Asset.trTag t) with
      | Err e => Err e
      | Ok x =>
          match new_tags rest with
          | Err e => Err e
          | Ok xs => Ok (x :: xs)
          end
      end
  end.

Definition NewModbusSource {C} (src : Asset.Source) (tags : list TagRef) : result BuildError (ModbusSource C) :=
  match Asset.Modbus src with
  | None => Err (MissingConfig (Asset.Name src))
  | Some m =>
      match new_tags tags with
      | Err e => Err e
      | Ok mtags =>
          Ok (mkSource (Asset.Name src) (Asset.mcAddress m) (Asset.mcUnitID m) (Asset.mcTimeout m)
                (Plan mtags (Asset.mcMaxGap m)) None)
      end
  end.

(** ** SimSource *)

Definition maxSimStep : Duration := 5 * Second.

Section Sim.
Context {R : Type} `{!LineSim.Rand R}.
Variable Exp : float -> float.

Record SimSource := mkSimSource {
  simName : string;
  simTags : gmap string string;
  simLine : LineSim.Line R;
  simLast : Time
}.

Fixpoint sim_tags (ts : list TagRef) (m : gmap string string) : result BuildError (gmap string string) :=
  match ts with
  | [] => Ok m
  | t :: rest =>
      match Asset.tSim (Asset.trTag t) with
      | Some a =>
          if LineSim.IsSignal (Asset.Signal a)
          then sim_tags rest (<[Asset.tName (Asset.trTag t) := Asset.Signal a]> m)
          else Err (InvalidSignal (Asset.tName (Asset.trTag t)))
      | None => Err (InvalidSignal (Asset.tName (Asset.trTag t)))
      end
  end.

Definition NewSimSource (src : Asset.Source) (tags : list TagRef) : result BuildError SimSource :=
  let seed := match Asset.Sim src with
              | Some c => if Asset.Seed c =? 0 then 1 else Asset.Seed c
              | None => 1
              end in
  match sim_tags tags ∅ with
  | Err e => Err e
  | Ok m => Ok (mkSimSource (Asset.Name src) m (LineSim.NewLine seed) zeroTime)
  end.

Definition sim_value (snap : LineSim.Snapshot) (sig : string) : float := default fzero (LineSim.Get snap sig).

Definition SimRead (now : Time) (s : SimSource) : list Reading * SimSource :=
  let line := if IsZero (simLast s) then simLine s
              else LineSim.Step Exp (Z.min (Sub now (simLast s)) maxSimStep) (simLine s) in
  let snap := LineSim.TakeSnapshot line in
  (map (fun '(tag, sig) => mkReading tag (sim_value snap sig) now) (map_to_list (simTags s)),
   mkSimSource (simName s) (simTags s) line now).
End Sim.

Arguments SimSource : clear implicits.
Arguments mkSimSource {R}. Arguments simName {R}. Arguments simTags {R}.
Arguments simLine {R}. Arguments simLast {R}.

(** ** CSVSource *)

(** A record of a file, and the file: [Err] when it cannot be opened. *)
Definition csv_row : Type := result string (list string).
Definition csv_file : Type := result string (list csv_row).

Inductive CSVError :=
| EOpen (e : CSVError)
| EReopen (e : CSVError)
| EFile (e : string)
| EHeader
| EColumn (tag column : string)
| ENoRows
| ERow (e : string)
| EFields (n : Z) (column : string)
| EValue (column : string).

(** [csReader] is what is left of an open file. *)
Record CSVSource := mkCSVSource {
  csName : string;
  csPath : string;
  csLoop : bool;
  csColumns : gmap string string;
  csReader : option (list csv_row);
  csIndex : gmap string nat;
  csDone : bool
}.

Definition set_reader (r : option (list csv_row)) (s : CSVSource) : CSVSource :=
  mkCSVSource (csName s) (csPath s) (csLoop s) (csColumns s) r (csIndex s) (csDone s).
Definition set_index (i : gmap string nat) (s : CSVSource) : CSVSource :=
  mkCSVSource (csName s) (csPath s) (csLoop s) (csColumns s) (csReader s) i (csDone s).
Definition set_done (s : CSVSource) : CSVSource :=
  mkCSVSource (csName s) (csPath s) (csLoop s) (csColumns s) (csReader s) (csIndex s) true.

Definition csv_column (t : Asset.Tag) : string :=
  match Asset.tCSV t with
  | Some c => if String.eqb (Asset.Column c) "" then Asset.tName t else Asset.Column c
  | None => Asset.tName t
  end.

Definition NewCSVSource (src : Asset.Source) (tags : list TagRef) : result BuildError CSVSource :=
  match Asset.CSV src with
  | None => Err (MissingConfig (Asset.Name src))
  | Some c =>
      if String.eqb (Asset.Path c) "" then Err (MissingConfig (Asset.Name src))
      else Ok (mkCSVSource (Asset.Name src) (Asset.Path c) (Asset.Loop c)
                 (fold_left (fun m t => <[Asset.tName (Asset.trTag t) := csv_column (Asset.trTag t)]> m) tags ∅)
                 None ∅ false)
  end.

Section CSV.
Variable ParseFloat : string -> option float.

(** The header's columns; a repeated name means its last position. *)
Fixpoint csv_index (i : nat) (header : list string) (m : gmap string nat) : gmap string nat :=
  match header with
  | [] => m
  | h :: rest => csv_index (S i) rest (<[TrimSpace h := i]> m)
  end.

Definition csv_open (f : csv_file) : GoM CSVSource CSVError unit := fun s =>
  match f with
  | Err e => (Err (EFile e), s)
  | Ok [] | Ok (Err _ :: _) => (Err EHeader, s)
  | Ok (Ok header :: rows) =>
      let idx := csv_index O header ∅ in
      match List.find (fun '(_, col) => bool_decide (idx !! col = None)) (map_to_list (csColumns s)) with
      | Some (tag, col) => (Err (EColumn tag col), s)
      | None => (Ok tt, set_index idx (set_reader (Some rows) s))
      end
  end.

(** [reader.Read]: the next record, [None] at the end of the file. *)
Definition csv_next : GoM CSVSource CSVError (option csv_row) := fun s =>
  match csReader s with
  | Some (r :: rest) => (Ok (Some r), set_reader (Some rest) s)
  | _ => (Ok None, s)
  end.

Fixpoint csv_values (now : Time) (idx : gmap string nat) (row : list string) (cols : list (string * string))
    : result CSVError (list Reading) :=
  match cols with
  | [] => Ok []
  | (tag, col) :: rest =>
      let i := default O (idx !! col) in
      match row !! i with
      | None => Err (EFields (zlength row) col)
      | Some field =>
          match ParseFloat (TrimSpace field) with
          | None => Err (EValue col)
          | Some v =>
              match csv_values now idx row rest with
              | Err e => Err e
              | Ok rs => Ok (mkReading tag v now :: rs)
              end
          end
      end
  end.

Definition csv_sample (now : Time) (row : list string) : GoM CSVSource CSVError (list Reading) := fun s =>
  (csv_values now (csIndex s) row (map_to_list (csColumns s)), s).

Definition wrap {A} (f : CSVError -> CSVError) (m : GoM CSVSource CSVError A) : GoM CSVSource CSVError A := fun s =>
  match m s with (Err e, s') => (Err (f e), s') | r => r end.

Definition CSVRead (f : csv_file) (now : Time) : GoM CSVSource CSVError (list Reading) := fun s =>
  if csDone s then (Ok [], s)
  else
    (_ ← (match csReader s with None => wrap EOpen (csv_open f) | Some _ => mret tt end);
     r ← csv_next;
     match r with
     | Some (Ok row) => csv_sample now row
     | Some (Err e) => throw (ERow e)
     | None =>
         _ ← modify (set_reader None);
         if csLoop s then
           _ ← wrap EReopen (csv_open f);
           r' ← csv_next;
           match r' with
           | Some (Ok row) => csv_sample now row
           | _ => throw ENoRows
           end
         else _ ← modify set_done; mret []
     end) s.

Definition CSVClose (s : CSVSource) : CSVSource := set_reader None s.
End CSV.

(** ** New *)

Inductive AnySource (C R : Type) :=
| AModbus (s : ModbusSource C)
| ASim (s : SimSource R)
| ACSV (s : CSVSource).
Arguments AModbus {C R}. Arguments ASim {C R}. Arguments ACSV {C R}.

Definition wrap_source {A B} (f : A -> B) (r : result BuildError A) : result BuildError B :=
  match r with Ok a => Ok (f a) | Err e => Err e end.

Definition New {C R} `{!LineSim.Rand R} (src : Asset.Source) (tags : list TagRef) : result BuildError (AnySource C R) :=
  match tags with
  | [] => Err (NoTags (Asset.Name src))
  | _ =>
      if String.eqb (Asset.Type_ src) Asset.SourceModbus then wrap_source AModbus (NewModbusSource src tags)
      else if String.eqb (Asset.Type_ src) Asset.SourceSim then wrap_source ASim (NewSimSource src tags)
      else if String.eqb (Asset.Type_ src) Asset.SourceCSV then wrap_source ACSV (NewCSVSource src tags)
      else Err (UnsupportedType (Asset.Name src) (Asset.Type_ src))
  end.

(** ** Lemmas *)

(** The registers of a decoded plant are uint16 values. *)
Definition typed_registers (p : Plant) : Prop :=
  forall tr m, tr ∈ Asset.tag_refs p -> Asset.tModbus (Asset.trTag tr) = Some m -> is_u16 (Asset.maRegister m).

Lemma Words_range t : 1 <= Words t <= 2.
Proof. unfold Words. case_bool_decide; lia. Qed.

(** What the collector is to read for a tag of the plant: the registers of its
    address, from the table of its function, in its type and byte order. *)
Definition collects (t : Asset.Tag) (x : modbusTag) : Prop :=
  exists a dt o, Asset.tModbus t = Some a /\ ParseDataType (Asset.maType a) = Ok dt /\ ParseByteOrder (Asset.maByteOrder a) = Ok o /\
    name x = Asset.tName t /\ start x = Asset.maRegister a /\ words x = Words dt /\ typ x = dt /\ order x = o /\
    ((Asset.maFunction a = "holding" /\ fn x = x03) \/ (Asset.maFunction a = "input" /\ fn x = x04)).

(** The collector's tag for a validated one. *)
Lemma new_tag_ok (t : Asset.Tag) (s : Asset.Source) :
  Asset.bound_to t s -> Asset.Type_ s = Asset.SourceModbus ->
  (forall m, Asset.tModbus t = Some m -> is_u16 (Asset.maRegister m)) ->
  exists x, new_tag t = Ok x /\ tag_ok x /\ collects t x.
Proof.
  intros (Hb & _) Ht Hr. destruct (Hb Ht) as (m & dt & o & Em & Hf & Ed & Hend & Eo).
  specialize (Hr m Em). unfold new_tag. rewrite Em, Ed, Eo. eexists. split; [done|]. split.
  - unfold tag_ok, tag_end, in_u in *. cbn [words start]. pose proof (Words_range dt). lia.
  - exists m, dt, o. unfold Asset.FunctionCode. split_and!; try done. by destruct Hf as [-> | ->]; [left|right].
Qed.

Lemma new_tags_ok ts :
  Forall (fun tr => exists x, new_tag (Asset.trTag tr) = Ok x /\ tag_ok x /\ collects (Asset.trTag tr) x) ts ->
  exists xs, new_tags ts = Ok xs /\ Forall tag_ok xs /\ Forall2 (fun tr x => collects (Asset.trTag tr) x) ts xs.
Proof.
  induction 1 as [|tr ts (x & Ex & Hx & Hn) Hts (xs & Exs & Hxs & Hns)].
  { exists []. by split_and!; constructor. }
  exists (x :: xs). cbn [new_tags]. rewrite Ex, Exs. split_and!; [done|by constructor..].
Qed.

(** What the defaults leave in a modbus block. *)
Lemma default_modbus_ok m :
  0 < Asset.mcMaxGap (Asset.default_modbus m) /\ 0 < Asset.mcTimeout (Asset.default_modbus m) /\
  Asset.mcUnitID (Asset.default_modbus m) <> x00.
Proof.
  unfold Asset.default_modbus, Asset.DefaultModbusMaxGap, Asset.DefaultModbusTimeout, Second, Millisecond.
  cbn [Asset.mcMaxGap Asset.mcTimeout Asset.mcUnitID]. split_and!; [split_ifs; lia..|].
  destruct (Z.eqb_spec (Z_of_byte (Asset.mcUnitID m)) 0) as [E|E]; [by vm_compute|]. intros E2. by rewrite E2 in E.
Qed.

Lemma parsed_source d p s : Asset.Parse d = Ok p -> s ∈ Asset.Sources p ->
  Asset.source_ok s /\ 0 < Asset.PollInterval s /\
  forall m, Asset.Modbus s = Some m -> 0 < Asset.mcMaxGap m /\ 0 < Asset.mcTimeout m /\ Asset.mcUnitID m <> x00.
Proof.
  intros (-> & H)%AssetIndex.Parse_ok Hs.
  split; [by apply (proj1 (Forall_forall _ _) (Asset.wf_sources _ H))|].
  apply list_elem_of_fmap in Hs as (s0 & -> & _). split.
  - cbn. unfold Asset.DefaultPollInterval, Second, Millisecond. split_ifs; lia.
  - cbn. intros m Hm. destruct (Asset.Modbus s0) as [m0|]; [|done]. injection Hm as <-. apply default_modbus_ok.
Qed.

(** *** Every constructor accepts the tags of a validated source *)

Lemma new_sim_tags ts m :
  Forall (fun tr => exists a, Asset.tSim (Asset.trTag tr) = Some a /\ LineSim.IsSignal (Asset.Signal a) = true) ts ->
  exists m', sim_tags ts m = Ok m'.
Proof.
  intros H. revert m. induction H as [|tr ts (a & Ea & Ha) _ IH]; intros m; [by exists m|].
  cbn [sim_tags]. rewrite Ea, Ha. apply IH.
Qed.

Lemma New_accepts {C R} `{!LineSim.Rand R} d p s :
  Asset.Parse d = Ok p -> typed_registers p -> s ∈ Asset.Sources p ->
  Asset.TagsForSource (Asset.MakeIndex p) (Asset.Name s) <> [] ->
  exists x, New (C := C) s (Asset.TagsForSource (Asset.MakeIndex p) (Asset.Name s)) = Ok x.
Proof.
  intros Hp Hty Hs Hne. destruct (parsed_source d p s Hp Hs) as ((_ & _ & Hsrc) & _ & _).
  apply AssetIndex.Parse_ok in Hp as (_ & Hwf).
  assert (forall tr, tr ∈ Asset.TagsForSource (Asset.MakeIndex p) (Asset.Name s) ->
    tr ∈ Asset.tag_refs p /\ Asset.bound_to (Asset.trTag tr) s) as Hb.
  { intros tr Htr. by destruct (AssetIndex.TagsForSource_in p s tr Hwf Hs Htr) as (? & _ & _ & _ & ?). }
  unfold New. destruct (Asset.TagsForSource _ _) as [|t ts] eqn:Et; [done|]. rewrite <-Et in Hb |- *. clear Et.
  destruct AssetValid.source_types_distinct as (D1 & D2 & D3).
  destruct Hsrc as [(E & m & Em & _)|[E|(E & c & Ec & Hc)]]; rewrite E; cbn [String.eqb].
  - rewrite String.eqb_refl. destruct (new_tags_ok (Asset.TagsForSource (Asset.MakeIndex p) (Asset.Name s))) as (xs & Exs & _).
    { apply Forall_forall. intros tr Htr. destruct (Hb tr Htr) as [Hin Hbt].
      apply (new_tag_ok _ s Hbt E). intros m' Hm'. by apply (Hty tr). }
    unfold NewModbusSource. rewrite Em, Exs. by eexists.
  - rewrite (proj2 (String.eqb_neq _ _) (not_eq_sym D1)), String.eqb_refl.
    destruct (new_sim_tags (Asset.TagsForSource (Asset.MakeIndex p) (Asset.Name s)) ∅) as (m' & Em').
    { apply Forall_forall. intros tr Htr. destruct (Hb tr Htr) as (_ & _ & Hsim & _). by apply Hsim. }
    unfold NewSimSource. rewrite Em'. by eexists.
  - rewrite (proj2 (String.eqb_neq _ _) (not_eq_sym D2)), (proj2 (String.eqb_neq _ _) (not_eq_sym D3)), String.eqb_refl.
    unfold NewCSVSource. rewrite Ec. apply String.eqb_neq in Hc as ->. by eexists.
Qed.

(** *** Replaying a CSV file *)

Lemma mod_succ n l : (0 < l)%nat ->
  (S n mod l = if decide (S (n mod l) = l) then 0 else S (n mod l))%nat.
Proof.
  intros Hl. pose proof (Nat.mod_upper_bound n l ltac:(lia)). rewrite (Nat.div_mod_eq n l) at 1.
  case_decide as E.
  - replace (S (l * (n / l) + n mod l))%nat with (0 + S (n / l) * l)%nat by lia.
    by rewrite Nat.Div0.mod_add, Nat.Div0.mod_0_l.
  - replace (S (l * (n / l) + n mod l))%nat with (S (n mod l) + (n / l) * l)%nat by lia.
    rewrite Nat.Div0.mod_add. apply Nat.mod_small. lia.
Qed.

Section Replay.
Variable ParseFloat : string -> option float.
Variables (header : list string) (rows : list (list string)) (now : Time).

Definition the_file : csv_file := Ok (Ok header :: map Ok rows).

(** [n] polls, whatever they return. *)
Fixpoint csv_polls (n : nat) (s : CSVSource) : CSVSource :=
  match n with
  | O => s
  | S n' => snd (CSVRead ParseFloat the_file now (csv_polls n' s))
  end.

Definition row_values (s : CSVSource) (k : nat) : result CSVError (list Reading) :=
  csv_values ParseFloat now (csv_index O header ∅) (default [] (rows !! k)) (map_to_list (csColumns s)).

Definition columns_in (s : CSVSource) : Prop :=
  forall tag col, csColumns s !! tag = Some col -> csv_index O header ∅ !! col <> None.

(** The source with [k] rows of the current pass read. *)
Definition at_row (k : nat) (s : CSVSource) : CSVSource :=
  set_index (csv_index O header ∅) (set_reader (Some (drop k (map Ok rows))) s).

Lemma csv_open_ok s : columns_in s -> csv_open the_file s = (Ok tt, at_row O s).
Proof.
  intros Hc. unfold csv_open, the_file. cbv zeta. destruct (List.find _ _) as [[tag col]|] eqn:E; [|done].
  apply find_some in E as [Hin Hn]. apply list_elem_of_In, elem_of_map_to_list in Hin.
  apply bool_decide_eq_true in Hn. by apply Hc in Hin.
Qed.

Lemma csv_next_row s k : (k < length rows)%nat ->
  csv_next (at_row k s) = (Ok (Some (Ok (default [] (rows !! k)))), at_row (S k) s).
Proof.
  intros Hk. assert (exists row, rows !! k = Some row) as [row Hrow] by (apply lookup_lt_is_Some; lia).
  assert (drop k (map (Ok (E := string)) rows) = Ok row :: drop (S k) (map Ok rows)) as Edrop.
  { apply drop_S. change (map Ok rows) with (Ok (E := string) <$> rows). by rewrite list_lookup_fmap, Hrow. }
  unfold csv_next. cbn [csReader at_row set_index set_reader]. by rewrite Edrop, Hrow.
Qed.

Lemma csv_read_row s k : csDone s = false -> (k < length rows)%nat ->
  CSVRead ParseFloat the_file now (at_row k s) = (row_values s k, at_row (S k) s).
Proof.
  intros Hd Hk. unfold CSVRead. change (csDone (at_row k s)) with (csDone s). rewrite Hd.
  unfold mbind, GoM_bind, mret, GoM_ret. cbn [csReader at_row set_index set_reader].
  change (set_index _ (set_reader _ s)) with (at_row k s). by rewrite csv_next_row.
Qed.

Lemma csv_first s : csDone s = false -> csReader s = None -> columns_in s -> (0 < length rows)%nat ->
  CSVRead ParseFloat the_file now s = (row_values s O, at_row 1 s).
Proof.
  intros Hd Hr Hc Hl. rewrite <-(csv_read_row s O Hd Hl). unfold CSVRead.
  cbn [csDone csReader at_row set_index set_reader]. rewrite Hd, Hr.
  unfold wrap, mbind, GoM_bind, mret, GoM_ret. by rewrite csv_open_ok.
Qed.

Lemma csv_end s : csDone s = false -> columns_in s -> (0 < length rows)%nat ->
  CSVRead ParseFloat the_file now (at_row (length rows) s) =
  if csLoop s then (row_values s O, at_row 1 s)
  else (Ok [], set_done (set_reader None (at_row (length rows) s))).
Proof.
  intros Hd Hc Hl. unfold CSVRead. cbn [csDone csReader at_row set_index set_reader]. rewrite Hd.
  unfold mbind, GoM_bind, mret, GoM_ret. unfold csv_next at 1. cbn [csReader at_row set_index set_reader].
  rewrite drop_ge by (by rewrite length_map). cbn. destruct (csLoop s) eqn:El; [|done].
  unfold wrap. rewrite csv_open_ok by done. change (at_row O _) with (at_row O s). by rewrite csv_next_row.
Qed.

(** The state and the answer of every poll of a fresh source. *)
Lemma csv_polls_state s n :
  csDone s = false -> csReader s = None -> columns_in s -> (0 < length rows)%nat ->
  if csLoop s then csv_polls (S n) s = at_row (S (n mod length rows)) s
  else if decide (n < length rows)%nat then csv_polls (S n) s = at_row (S n) s
  else csv_polls (S n) s = set_done (set_reader None (at_row (length rows) s)).
Proof.
  intros Hd Hr Hc Hl. induction n as [|n IH].
  { change (csv_polls 1 s) with (snd (CSVRead ParseFloat the_file now s)). rewrite csv_first by done.
    rewrite Nat.Div0.mod_0_l. case_match; [done|]. by rewrite decide_True by done. }
  change (csv_polls (S (S n)) s) with (snd (CSVRead ParseFloat the_file now (csv_polls (S n) s))).
  destruct (csLoop s) eqn:El.
  - rewrite IH. pose proof (Nat.mod_upper_bound n (length rows) ltac:(lia)) as Hb.
    rewrite (mod_succ n (length rows) Hl).
    destruct (decide (S (n mod length rows) = length rows)) as [E|N].
    + by rewrite E, csv_end, El.
    + by rewrite csv_read_row by (done || lia).
  - destruct (decide (n < length rows)%nat) as [Hn|Hn].
    + rewrite IH. destruct (decide (S n < length rows)%nat) as [Hn'|Hn'].
      * by rewrite csv_read_row.
      * replace (S n) with (length rows) by lia. by rewrite csv_end, El.
    + rewrite IH. rewrite decide_False by lia. done.
Qed.
End Replay.

(** ** Properties *)

(** C11: a plant that is accepted can be polled. For every Modbus source of a
    parsed plant whose registers are 16-bit numbers, [NewModbusSource] succeeds
    on the tags the index lists for it. What it will read of each tag are the
    registers of the tag's address, from the holding or input table its
    function names, in its type and byte order ([collects]); its blocks are
    read requests of function 3 or 4 the protocol allows, of at most 125
    registers inside the table and without a gap above the configured one,
    each covering the registers of its tags, and every tag of the source is in
    exactly one of them. Address and unit are the configured ones, a legal
    unit; timeout and gap are positive. *)
Theorem modbus_source_planned {C} (d p : Plant) (s : Asset.Source) :
  Asset.Parse d = Ok p -> typed_registers p -> s ∈ Asset.Sources p -> Asset.Type_ s = Asset.SourceModbus ->
  let tags := Asset.TagsForSource (Asset.MakeIndex p) (Asset.Name s) in
  exists m (ms : ModbusSource C) mtags, Asset.Modbus s = Some m /\ NewModbusSource s tags = Ok ms /\
    Forall2 (fun tr x => collects (Asset.trTag tr) x) tags mtags /\
    Forall (fun b => block_ok (Asset.mcMaxGap m) b /\ read_fn (bFunction b)) (sBlocks ms) /\
    concat (map btags (sBlocks ms)) ≡ₚ mtags /\
    sConn ms = None /\ sName ms = Asset.Name s /\ sAddr ms = Asset.mcAddress m /\ sAddr ms <> "" /\
    sUnit ms = Asset.mcUnitID m /\ 1 <= Z_of_byte (sUnit ms) <= 247 /\
    sTimeout ms = Asset.mcTimeout m /\ 0 < sTimeout ms /\ 0 < Asset.mcMaxGap m.
Proof.
  intros Hp Hty Hs Ht. destruct (parsed_source d p s Hp Hs) as ((_ & _ & Hsrc) & _ & Hdef).
  apply AssetIndex.Parse_ok in Hp as (_ & H).
  destruct Hsrc as [(_ & m & Em & Ha & Hu)|[E|(E & _)]]; [|by rewrite E in Ht..].
  destruct (Hdef m Em) as (Hg & Hto & Hu0). cbv zeta.
  destruct (new_tags_ok (Asset.TagsForSource (Asset.MakeIndex p) (Asset.Name s))) as (xs & Exs & Hok & Hn).
  { apply Forall_forall. intros tr Htr. destruct (AssetIndex.TagsForSource_in p s tr H Hs Htr) as (Hin & _ & _ & _ & Hb).
    apply (new_tag_ok _ s Hb Ht). intros m' Hm'. by apply (Hty tr). }
  exists m. eexists _, xs. split; [done|]. unfold NewModbusSource. rewrite Em, Exs. split; [done|].
  cbn [sBlocks sConn sTimeout sUnit sAddr sName]. unfold Plan.
  destruct (plan_sorted_ok (Asset.mcMaxGap m) (merge_sort tag_le xs)) as [Hb%cur_ok_block Hc];
    [lia|by rewrite merge_sort_Permutation|apply Plan_sorted|].
  assert (concat (map btags (plan_sorted (Asset.mcMaxGap m) (merge_sort tag_le xs))) ≡ₚ xs) as Hperm
    by (by rewrite Hc, merge_sort_Permutation).
  split_and!; try done.
  - apply Forall_forall. intros b Hin. pose proof (proj1 (Forall_forall _ _) Hb b Hin) as Hbk. split; [done|].
    destruct Hbk as (Hne & _ & _ & _ & Hcov & _). destruct (btags b) as [|x rest] eqn:Ex; [done|].
    destruct (Hcov x) as (<- & _); [left|].
    assert (x ∈ xs) as Hx.
    { rewrite <- Hperm. apply list_elem_of_In, in_concat. exists (btags b). split; [by apply in_map, list_elem_of_In|].
      rewrite Ex. by left. }
    apply list_elem_of_lookup in Hx as (i & Hi). destruct (Forall2_lookup_r _ _ _ _ _ Hn Hi) as (tr & _ & a & dt & o & Hx).
    destruct Hx as (_ & _ & _ & _ & _ & _ & _ & _ & [[_ ->]|[_ ->]]); [by left|by right].
  - pose proof (Z_of_byte_range (Asset.mcUnitID m)).
    assert (Z_of_byte (Asset.mcUnitID m) <> Z_of_byte x00) by (intros E; by apply Z_of_byte_inj in E).
    unfold in_u in *. change (Z_of_byte x00) with 0 in *. lia.
Qed.

Lemma plant_modbus_typed : typed_registers (Asset.applyDefaults Plants.plant_modbus).
Proof.
  intros tr m Htr Hm.
  assert (forallb (fun tr => match Asset.tModbus (Asset.trTag tr) with
    Some m => (0 <=? Asset.maRegister m) && (Asset.maRegister m <? 2 ^ 16) | None => true end)
    (Asset.tag_refs (Asset.applyDefaults Plants.plant_modbus)) = true) as H by (by vm_compute).
  rewrite forallb_forall in H. specialize (H tr (proj1 (list_elem_of_In _ _) Htr)). rewrite Hm in H.
  unfold in_u. lia.
Qed.

Lemma modbus_source_planned_witness :
  exists ms : ModbusSource unit,
    NewModbusSource (Asset.default_source Plants.plc)
      (Asset.TagsForSource (Asset.MakeIndex (Asset.applyDefaults Plants.plant_modbus)) "plc-line-1") = Ok ms /\
    exists mtags, concat (map btags (sBlocks ms)) ≡ₚ mtags /\
      Forall2 (fun tr x => collects (Asset.trTag tr) x)
        (Asset.TagsForSource (Asset.MakeIndex (Asset.applyDefaults Plants.plant_modbus)) "plc-line-1") mtags.
Proof.
  assert (Asset.Parse Plants.plant_modbus = Ok (Asset.applyDefaults Plants.plant_modbus)) as Hp by (by vm_compute).
  destruct (modbus_source_planned (C := unit) _ _ (Asset.default_source Plants.plc) Hp plant_modbus_typed
    ltac:(left) eq_refl) as (m & ms & mtags & _ & H1 & H2 & _ & H3 & _).
  exists ms. split; [exact H1|]. exists mtags. split; [exact H3|exact H2].
Defined.

(** C35: a CSV source replays its file row by row. With every bound column in
    the header, poll [n] of a fresh source answers with row [n] of the file;
    past the last row a looping source starts over, and the others return no
    readings for ever. *)
Theorem csv_replays (ParseFloat : string -> option float) (header : list string) (rows : list (list string))
    (now : Time) (s : CSVSource) (n : nat) :
  csDone s = false -> csReader s = None -> columns_in header s -> rows <> [] ->
  fst (CSVRead ParseFloat (the_file header rows) now (csv_polls ParseFloat header rows now n s)) =
  if csLoop s then row_values ParseFloat header rows now s (n mod length rows)
  else if decide (n < length rows)%nat then row_values ParseFloat header rows now s n
  else Ok [].
Proof.
  intros Hd Hr Hc Hne. assert (0 < length rows)%nat as Hl by (destruct rows; cbn; [done|lia]).
  destruct n as [|n].
  { cbn [csv_polls]. rewrite csv_first, Nat.Div0.mod_0_l by done. case_match; [done|]. by rewrite decide_True by done. }
  pose proof (csv_polls_state ParseFloat header rows now s n Hd Hr Hc Hl) as Hs.
  destruct (csLoop s) eqn:El.
  - rewrite Hs. pose proof (Nat.mod_upper_bound n (length rows) ltac:(lia)) as Hb.
    rewrite (mod_succ n (length rows) Hl).
    destruct (decide (S (n mod length rows) = length rows)) as [E|N].
    + by rewrite E, csv_end, El.
    + by rewrite csv_read_row by (done || lia).
  - destruct (decide (n < length rows)%nat) as [Hn|Hn]; rewrite Hs.
    + destruct (decide (S n < length rows)%nat) as [Hn'|Hn'].
      * by rewrite csv_read_row.
      * replace (S n) with (length rows) by lia. by rewrite csv_end, El.
    + rewrite decide_False by lia. done.
Qed.

Lemma csv_replays_witness :
  let parse s := if String.eqb s "1" then Some (of_Z 1) else if String.eqb s "2" then Some (of_Z 2) else None in
  let s := mkCSVSource "lab" "rig.csv" true {["temperature" := "temp"]} None ∅ false in
  fst (CSVRead parse (the_file ["time"; " temp "] [["0"; "1"]; ["1"; "2 "]]) 7
        (csv_polls parse ["time"; " temp "] [["0"; "1"]; ["1"; "2 "]] 7 3 s)) = Ok [mkReading "temperature" (of_Z 2) 7].
Proof.
  cbv zeta. rewrite csv_replays; [by vm_compute|done|done| |done].
  intros tag col H. cbn in H. apply lookup_singleton_Some in H as [_ <-]. by vm_compute.
Defined.
