(* ===== verification/Link.v ===== *)
(** * Link: from the simulated PLC to the readings of a poll

    The two ends of the Modbus connection put together: the simulator's main
    loop writes its registers ([PlcSim.run]), the server answers from them
    ([ModbusLink.handle]), the client reads over the connection
    ([ModbusLink.readRegisters]) and the source polls its planned blocks
    through it ([Collector.Read]). *)
From Stdlib Require Import ZArith Lia SpecFloat.
From S2P Require Import Prelude GoBytes GoFloat ModbusFrame ModbusRegs ModbusLink Collector PlcSim.
From S2P Require LineSim Asset Plants Sources.

Open Scope string_scope.
Open Scope list_scope.
Open Scope Z_scope.

(** ** A client connected to a server *)

Record Session := mkSession { client : Client; served : MemoryBank }.

Section Session.
Variables (now : Time) (ctx : Ctx).

(** One request: what the client writes reaches the server, and what the
    server answers with its bank arrives at the client. *)
Definition exchange (f unit : byte) (addr qty : Z) : GoM Session Error (list Z) := fun s =>
  let c := client s in
  let k := conn c in
  let frame := drop (length (c_written k)) (c_written (conn (snd (readRegisters now ctx f unit addr qty c)))) in
  let answer := default [] (handle 2 (fun _ => served s) (fun _ => true) (mkReader frame EOF)) in
  let arrived := mkConn (mkReader (pending (c_reader k) ++ answer) (at_end (c_reader k)))
                   (c_written k) (c_deadline k) (c_deadline_error k) (c_write_error k) in
  let '(r, c') := readRegisters now ctx f unit addr qty (with_conn c arrived) in
  (r, mkSession c' (served s)).

(** The client is the connection of a Modbus source. *)
Local Instance Session_conn : ModbusConn Session := { connRead := exchange }.

(** Nothing is on its way and the connection is sound. *)
Definition idle (bank : MemoryBank) (s : Session) : Prop :=
  served s = bank /\ pending (c_reader (conn (client s))) = [] /\
  c_deadline_error (conn (client s)) = None /\ c_write_error (conn (client s)) = None.
End Session.

(** [defaultDialer] towards the PLC, over a fresh connection. *)
Definition dial_plc (bank : MemoryBank) (addr : string) (timeout : Duration) : result Error Session :=
  match Dial (fun _ => Ok (mkConn (mkReader [] EOF) [] None None None)) addr [WithTimeout timeout] with
  | Ok c => Ok (mkSession c bank)
  | Err e => Err e
  end.

(** ** The register map *)

(** The tags of the register map documented at the head of plc-sim's main.go,
    with the value a snapshot gives each: byte order [o] is that of the 32-bit
    values. *)
Definition plc_map (o : ByteOrder) (s : LineSim.Snapshot) : list (modbusTag * float) := [
  (mkTag "speed" x03 0 2 Float32 o, to_f64 (to_f32 (LineSim.Speed s)));
  (mkTag "temperature" x03 2 2 Float32 o, to_f64 (to_f32 (LineSim.Temperature s)));
  (mkTag "vibration" x03 4 2 Float32 o, to_f64 (to_f32 (LineSim.Vibration s)));
  (mkTag "state" x03 6 1 UInt16 ABCD, of_Z (LineSim.state_code (LineSim.sState s)));
  (mkTag "count" x03 7 2 UInt32 o, of_Z (LineSim.Count s));
  (mkTag "ambient" x04 0 1 Int16 ABCD, of_Z (saturate MinInt16 MaxInt16 (fmul (LineSim.Ambient s) (of_Z 10))));
  (mkTag "pressure" x04 1 1 UInt16 ABCD, of_Z (saturate 0 MaxUint16 (fmul (LineSim.Pressure s) (of_Z 100))))].

(** The tags the simulator keeps the documented map for. The orders that
    exchange the bytes of a word are applied to the 16-bit input registers too
    ([PlcSim.byte_order_swaps_words]), so these are only right without them. *)
Definition kept (o : ByteOrder) (t : modbusTag) : Prop := fn t = x04 -> o <> DCBA /\ o <> BADC.

(** A reading of one of these tags shows the snapshot. *)
Definition shows (o : ByteOrder) (s : LineSim.Snapshot) (at_ : Time) (t : modbusTag) (r : Reading) : Prop :=
  exists v, (t, v) ∈ plc_map o s /\ r = mkReading (name t) v at_.

(** ** Lemmas *)

Lemma exchange_idle now ctx bank s f unit addr qty :
  ctx_err ctx = None -> bank_ok bank -> idle bank s -> read_fn f -> read_ok addr qty ->
  exists s', exchange now ctx f unit addr qty s = (expected_read f bank addr qty, s') /\ idle bank s'.
Proof.
  intros Hc Hb (Hs & Hp & Hd & Hw) Hf Hok.
  destruct (exchange_answers bank (client s) now ctx f unit addr qty [] [] Hf Hok Hb (Forall_nil_2 _) Hc Hd Hw)
    as (req & frame & answer & E1 & E2 & E3 & _).
  assert (c_written (conn (snd (readRegisters now ctx f unit addr qty (client s)))) = c_written (conn (client s)) ++ frame) as Ew.
  { unfold readRegisters. rewrite E1. unfold transact. cbn [tid]. rewrite E2. cbn [conn]. rewrite Hd, Hc, Hw.
    destruct (await _ _ _) as [[resp|e] r']; done. }
  unfold exchange. rewrite Ew, drop_app_length, Hs, E3, Hp. cbn [default app].
  set (c1 := with_conn (client s) _).
  destruct (exchange_answers bank c1 now ctx f unit addr qty [] [] Hf Hok Hb (Forall_nil_2 _) Hc Hd Hw)
    as (req' & frame' & answer' & E1' & E2' & E3' & H).
  rewrite E1 in E1'. injection E1' as <-. change (tid c1) with (tid (client s)) in E2', H. rewrite E2 in E2'. injection E2' as <-.
  rewrite E3 in E3'. injection E3' as <-.
  destruct H as (c' & Er & _ & Hp' & _ & _ & _ & Hd' & Hw'); [cbn; by rewrite app_nil_r|].
  rewrite Er. eexists. split; [done|]. by split_and!.
Qed.

Lemma session_serves now ctx bank :
  ctx_err ctx = None -> bank_ok bank -> @serves Session (Session_conn now ctx) (fun f => table_of f bank) (idle bank).
Proof.
  intros Hc Hb s f u a q HI Hf Ha Hq Hend Hin.
  destruct (exchange_idle now ctx bank s f u a q Hc Hb HI Hf) as (s' & E & HI'); [unfold read_ok; split_and!; lia|].
  exists s'. split; [|done]. cbn [connRead Session_conn]. rewrite E. unfold expected_read.
  destruct (Z.ltb_spec (zlength (table_of f bank)) (a + q)); [lia|done].
Qed.

(** The bank holds a snapshot under the register map. *)
Record holds (o : ByteOrder) (s : LineSim.Snapshot) (bank : MemoryBank) : Prop := {
  ho_holding : length (holding bank) = 16%nat;
  ho_input : length (input bank) = 8%nat;
  ho_ok : bank_ok bank;
  ho_map : Forall (fun p => kept o (fst p) -> Decode (typ (fst p)) (order (fst p))
             (slice (start (fst p)) (tag_end (fst p)) (table_of (fn (fst p)) bank)) = Ok (snd p)) (plc_map o s)
}.

Lemma Decode_state st : Decode UInt16 ABCD [LineSim.state_code st] = Ok (of_Z (LineSim.state_code st)).
Proof. by destruct st. Qed.

(** An order that keeps the bytes of a word reads one register as ABCD does. *)
Lemma Decode_word t o regs : Words t = 1 -> o <> DCBA -> o <> BADC -> Decode t o regs = Decode t ABCD regs.
Proof.
  intros Hw H1 H2. unfold Decode. rewrite Hw. destruct (Z.eqb_spec 1 (zlength regs)) as [Hl|]; [|done].
  unfold zlength in Hl. destruct regs as [|x [|]]; cbn [length] in Hl; try lia. cbn [negb canonical].
  rewrite !bool_decide_eq_false_2 with (P := _ = DCBA \/ _ = BADC) by (intros [?|?]; done). done.
Qed.

Lemma slice_one {A} (i : nat) (x : A) xs : xs !! i = Some x -> slice (Z.of_nat i) (Z.of_nat i + 1) xs = [x].
Proof.
  intros H. unfold slice. replace (Z.to_nat (Z.of_nat i + 1 - Z.of_nat i)) with 1%nat by lia.
  rewrite Nat2Z.id. rewrite (drop_S xs x i H). done.
Qed.

Lemma written_holds o s bank :
  representable s -> length (holding bank) = 16%nat -> length (input bank) = 8%nat -> bank_ok bank ->
  exists bank', writeRegisters s o bank = (Ok tt, bank') /\ holds o s bank'.
Proof.
  intros Hr Hh Hi Hb. destruct (written_registers s o bank Hr) as
    (b & Ew & D1 & D2 & D3 & Ds & Dc & Da & Dp & _ & _ & Lh & Li & Hok); [unfold zlength; lia..|].
  exists b. split; [done|]. constructor; [congruence|congruence|by apply Hok|].
  repeat (constructor; [cbn [fst snd typ order start fn words tag_end]; intros Hk; try done|]); [..|constructor].
  2,3: destruct (Hk eq_refl); rewrite <- (Decode_word _ o) by done; done.
  unfold tag_end. cbn [start words]. rewrite (slice_one 6 (LineSim.state_code (LineSim.sState s))) by done. apply Decode_state.
Qed.

Section Ticks.
Context {R : Type} `{!LineSim.Rand R}.
Variable Exp : float -> float.

(** The line after [n] ticks. *)
Definition line_after (tick : Duration) (n : nat) (l : LineSim.Line R) : LineSim.Line R := Nat.iter n (LineSim.Step Exp tick) l.

Lemma ticks_hold tick o n l bank :
  (forall k, (k <= n)%nat -> representable (LineSim.TakeSnapshot (line_after tick k l))) ->
  holds o (LineSim.TakeSnapshot l) bank ->
  exists bank', run_loop Exp tick o (repeat Tick n) (l, bank) = (None, (line_after tick n l, bank')) /\
    holds o (LineSim.TakeSnapshot (line_after tick n l)) bank'.
Proof.
  revert l bank. induction n as [|n IH]; intros l bank Hr Hb; [by exists bank|].
  cbn [repeat run_loop]. unfold sim_tick. cbn [fst snd].
  destruct (written_holds o (LineSim.TakeSnapshot (LineSim.Step Exp tick l)) bank) as (b & Ew & Hb');
    [apply (Hr 1%nat); lia|apply Hb..|].
  rewrite Ew. destruct (IH (LineSim.Step Exp tick l) b) as (b' & E & Hb''); [|done|].
  - intros k Hk. specialize (Hr (S k) ltac:(lia)). unfold line_after in *. by rewrite Nat.iter_succ_r in Hr.
  - exists b'. unfold line_after in *. by rewrite E, Nat.iter_succ_r.
Qed.

Lemma run_holds seed tick o n :
  0 < tick -> (forall k, (k <= n)%nat -> representable (LineSim.TakeSnapshot (line_after tick k (LineSim.NewLine seed)))) ->
  exists bank, run Exp seed None tick o (repeat Tick n) = (None, (line_after tick n (LineSim.NewLine seed), bank)) /\
    holds o (LineSim.TakeSnapshot (line_after tick n (LineSim.NewLine seed))) bank.
Proof.
  intros Ht Hr. unfold run. destruct (written_holds o (LineSim.TakeSnapshot (LineSim.NewLine seed)) (NewMemoryBank 16 8))
    as (b & -> & Hb); [apply (Hr 0%nat); lia|done|done|split; by repeat constructor|].
  destruct (Z.leb_spec tick 0); [lia|]. by apply ticks_hold.
Qed.
End Ticks.

Lemma map_tags_ok o s t v : (t, v) ∈ plc_map o s -> tag_ok t.
Proof.
  intros H. assert (Forall (fun p => tag_ok (fst p)) (plc_map o s)) as F by (repeat constructor; done).
  apply (proj1 (Forall_forall _ _) F _ H).
Qed.

Lemma map_on_device o s bank t v : holds o s bank -> (t, v) ∈ plc_map o s -> on_device (fun f => table_of f bank) t.
Proof.
  intros [Lh Li _ _] H. assert (Forall (fun p => on_device (fun f => table_of f bank) (fst p)) (plc_map o s)) as F.
  { repeat (constructor; [split|]); try (by left); try (by right); try done; unfold zlength, tag_end; cbn [fst fn start words];
      (change (table_of x03 bank) with (holding bank) || change (table_of x04 bank) with (input bank)); lia. }
  apply (proj1 (Forall_forall _ _) F _ H).
Qed.

Lemma dial_idle bank addr d : exists c, dial_plc bank addr d = Ok c /\ idle bank c.
Proof. unfold dial_plc, Dial, NewClient, WithTimeout. cbn [fold_left]. destruct (0 <? d); eexists; by split_and!. Qed.

(** Reading tags of the register map one by one shows the snapshot. *)
Lemma read_each_shows o s bank at_ ts :
  holds o s bank -> Forall (fun t => t ∈ map fst (plc_map o s) /\ kept o t) ts ->
  exists rs, read_each (fun f => table_of f bank) at_ ts = Ok rs /\ Forall2 (shows o s at_) ts rs.
Proof.
  intros Hb. induction 1 as [|t ts Ht _ (rs & E & F)]; [by exists []|].
  destruct Ht as [((t' & v) & -> & Hin)%list_elem_of_fmap Hk]. cbn [fst read_each] in *.
  pose proof (proj1 (Forall_forall _ _) (ho_map _ _ _ Hb) _ Hin Hk) as Ed. cbn [fst snd] in Ed. rewrite Ed, E.
  eexists. split; [done|]. constructor; [by exists v|done].
Qed.

(** ** Properties *)

(** C1: what the machine does is what a poll reads. For every byte order, after
    any number of ticks of the simulated PLC at each of which the line's values
    are in the domain of the conversions, its loop still runs, and a source
    whose blocks are planned over any tags of the documented register map (the
    byte order that of the 32-bit values), polling over a new or an idle
    connection to its server, gets one reading per tag, in the planner's order,
    with the value of the line's current snapshot: rounded to single precision,
    saturated to the register's type, or exact for the state and the counter;
    the connection stays idle for the next poll. Under DCBA and BADC this holds
    of the holding registers only: the simulator exchanges the bytes of the two
    16-bit input registers there, against its documentation. *)
Theorem plc_polled {R} `{!LineSim.Rand R} (Exp : float -> float) (seed : Z) (tick : Duration) (o : ByteOrder) (n : nat)
    (maxGap : Z) (tags : list modbusTag) (now : Time) (ctx : Ctx) :
  0 < tick -> 0 <= maxGap -> ctx_err ctx = None ->
  (forall k, (k <= n)%nat -> representable (LineSim.TakeSnapshot (line_after Exp tick k (LineSim.NewLine seed)))) ->
  let line := line_after Exp tick n (LineSim.NewLine seed) in
  let snap := LineSim.TakeSnapshot line in
  (forall t, t ∈ tags -> t ∈ map fst (plc_map o snap) /\ kept o t) ->
  exists bank, run Exp seed None tick o (repeat Tick n) = (None, (line, bank)) /\
    forall src : ModbusSource Session, sBlocks src = Plan tags maxGap ->
      (sConn src = None \/ exists c, sConn src = Some c /\ idle bank c) ->
      exists rs c, @Read _ (Session_conn now ctx) (dial_plc bank) now src = (Ok rs, set_conn (Some c) src) /\ idle bank c /\
        Forall2 (shows o snap now) (merge_sort tag_le tags) rs.
Proof.
  cbv zeta. intros Ht Hg Hc Hr Htags. destruct (run_holds Exp seed tick o n Ht Hr) as (bank & E & Hb).
  exists bank. split; [done|]. intros src Hbs Hconn. set (snap := LineSim.TakeSnapshot _) in *.
  assert (Forall (fun t => t ∈ map fst (plc_map o snap) /\ kept o t) (merge_sort tag_le tags)) as Hall.
  { rewrite merge_sort_Permutation. by apply Forall_forall. }
  assert (Forall (fun t => tag_ok t /\ on_device (fun f => table_of f bank) t) (merge_sort tag_le tags)) as [H1 H2]%Forall_and.
  { apply (Forall_impl _ _ _ Hall). intros t [((t' & v) & -> & Hin)%list_elem_of_fmap _]. cbn [fst].
    split; [by eapply map_tags_ok|by eapply map_on_device]. }
  destruct (read_each_shows o snap bank now _ Hb Hall) as (rs & Ers & Hrs).
  destruct (@read_coalesced _ (Session_conn now ctx) (dial_plc bank) (fun f => table_of f bank) (idle bank) maxGap
    (merge_sort tag_le tags) src now) as (c & HI & ERead); try done.
  - apply session_serves; [done|apply Hb].
  - apply Plan_sorted.
  - destruct Hconn as [Hn | (c & Hs & HI)].
    + destruct (dial_idle bank (sAddr src) (sTimeout src)) as (c & Hd & HI). exists c. by split; [right|].
    + exists c. by split; [left|].
  - rewrite Ers in ERead. by exists rs, c.
Qed.

(** The source plc-line-1 of examples/plant-modbus.yaml polls the simulator
    after two ticks of a second. *)
Definition plc_line_1 : result Sources.BuildError (ModbusSource Session) :=
  let p := Asset.applyDefaults Plants.plant_modbus in
  Sources.NewModbusSource (hd Plants.plc (Asset.Sources p)) (Asset.TagsForSource (Asset.MakeIndex p) "plc-line-1").

Definition still : LineSim.Rand unit := LineSim.Build_Rand unit (fun _ => tt) (fun r => (fzero, r)) (fun r => (fzero, r)).

Lemma plc_polled_witness :
  exists src bank rs c, plc_line_1 = Ok src /\
    fst (@run unit still (fun x => x) 42 None Second ABCD (repeat Tick 2)) = None /\
    @Read _ (Session_conn 0 background) (dial_plc bank) 0 src = (Ok rs, set_conn (Some c) src) /\
    map rTag rs = ["speed"; "temperature"; "vibration"; "state"; "count"; "ambient"; "pressure"].
Proof.
  set (snap := LineSim.TakeSnapshot (@line_after unit still (fun x => x) Second 2 (@LineSim.NewLine unit still 42))).
  destruct (@plc_polled unit still (fun x => x) 42 Second ABCD 2 8 (map fst (plc_map ABCD snap)) 0 background)
    as (bank & E & H); [done|done|done| |by intros t Ht|].
  { intros [|[|[|k]]] Hk; [constructor; by vm_compute..|lia]. }
  assert (plc_line_1 = Ok (mkSource "plc-line-1" "plc-sim:5020" x01 Second (Plan (map fst (plc_map ABCD snap)) 8) None))
    as Esrc by (by vm_compute).
  destruct (H (mkSource "plc-line-1" "plc-sim:5020" x01 Second (Plan (map fst (plc_map ABCD snap)) 8) None))
    as (rs & c & Hr & _ & Hf); [done|by left|].
  exists (mkSource "plc-line-1" "plc-sim:5020" x01 Second (Plan (map fst (plc_map ABCD snap)) 8) None), bank, rs, c.
  split; [exact Esrc|]. split; [by rewrite E|]. split; [exact Hr|].
  assert (map rTag rs = map name (merge_sort tag_le (map fst (plc_map ABCD snap)))) as ->; [|by vm_compute].
  clear -Hf. induction Hf as [|t r ts rs (v & _ & ->) _ IH]; [done|]. cbn. by rewrite IH.
Defined.
