(* ===== verification/Poller.v ===== *)
(** * Poller: source health and the poll cycle (internal/collectors/source.go)

    [Health] is the registry the API reports; [pollOnce] reads a source,
    accounts for the outcome and hands it to the observer; [Run] polls at once,
    then at every tick, and closes the source. The timeout of the read's
    context and the logs are left out; a poll is given whether the poller's
    context was cancelled before and after the read, and the clock's times. *)
From Stdlib Require Import ZArith Lia SpecFloat.
From S2P Require Import Prelude GoBytes GoFloat.
From S2P Require Collector LineSim.
Import Collector (Reading).

Open Scope string_scope.
Open Scope list_scope.
Open Scope Z_scope.

Record Status := mkStatus {
  stName : string;
  stType : string;
  Up : bool;
  Polls : Z;
  Failures : Z;
  ConsecutiveFailures : Z;
  LastSuccess : option Time;
  LastError : string;
  LastErrorAt : option Time;
  LastLatency : Duration;
  LastLatencyMS : float;
  Readings : Z
}.

Record Health := mkHealth { status : gmap string Status; order : list string }.

Definition NewHealth : Health := mkHealth ∅ [].

Definition Register (name typ : string) (h : Health) : Health :=
  mkHealth (<[name := mkStatus name typ false 0 0 0 None "" None 0 fzero 0]> (status h))
    (match status h !! name with None => order h ++ [name] | Some _ => order h end).

(** [float64(latency.Microseconds()) / 1000]. *)
Definition latency_ms (d : Duration) : float := LineSim.fdiv (of_Z (Z.quot d 1000)) (of_Z 1000).

Definition success (name : string) (at_ : Time) (latency : Duration) (readings : Z) (h : Health) : Health :=
  match status h !! name with
  | None => h
  | Some s =>
      mkHealth (<[name := mkStatus (stName s) (stType s) true (Polls s + 1) (Failures s) 0 (Some at_)
                   (LastError s) (LastErrorAt s) latency (latency_ms latency) (Readings s + readings)]> (status h))
        (order h)
  end.

Definition failure (name : string) (at_ : Time) (latency : Duration) (err : string) (h : Health) : Health :=
  match status h !! name with
  | None => h
  | Some s =>
      mkHealth (<[name := mkStatus (stName s) (stType s) false (Polls s + 1) (Failures s + 1)
                   (ConsecutiveFailures s + 1) (LastSuccess s) err (Some at_) latency (latency_ms latency)
                   (Readings s)]> (status h)) (order h)
  end.

(** [Snapshot]: a registered name without a status would panic. *)
Definition Snapshot (h : Health) : option (list Status) := mapM (fun n => status h !! n) (order h).

Definition Get (name : string) (h : Health) : option Status := status h !! name.

Definition AllUp (h : Health) : bool := forallb (fun p => Up (snd p)) (map_to_list (status h)).

(** ** The poller *)

(** [Source] and [Observer]; a read is given its clock's time, [errText] is the
    [Error] method of its errors, and an error of [Close] is only logged. *)
Class SourceOps (S E : Type) := {
  srcName : S -> string;
  srcRead : Time -> GoM S E (list Reading);
  srcClose : S -> S;
  errText : E -> string
}.

(** What the poller relies on: a source does not change its name. *)
Class SourceLaws (S E : Type) `{!SourceOps S E} := {
  read_name : forall t s, srcName (snd (srcRead t s)) = srcName s
}.

Class Observer (O : Type) := {
  onReadings : string -> list Reading -> O -> O;
  onError : string -> string -> O -> O
}.

Section Poller.
Context {S E O : Type} `{!SourceOps S E, !Observer O}.

Record PollState := mkPollState { pSrc : S; pHealth : Health; pObs : O }.

(** One poll: whether the context was cancelled before it and after the read,
    and the times of the poller's and the source's clocks. *)
Record cycle := mkCycle { cBefore : bool; cAfter : bool; cStart : Time; cRead : Time; cStop : Time }.

Definition pollOnce (p : PollState) (c : cycle) : PollState :=
  if cBefore c then p
  else
    let '(r, s) := srcRead (cRead c) (pSrc p) in
    let latency := Sub (cStop c) (cStart c) in
    match r with
    | Err e =>
        if cAfter c then mkPollState s (pHealth p) (pObs p)
        else mkPollState s (failure (srcName s) (cStart c) latency (errText e) (pHealth p))
               (onError (srcName s) (errText e) (pObs p))
    | Ok rs =>
        mkPollState s (success (srcName s) (cStart c) latency (zlength rs) (pHealth p))
          (onReadings (srcName s) rs (pObs p))
    end.

(** The first poll is immediate, the others are the ticks until the context is
    cancelled. *)
Definition Run (first : cycle) (ticks : list cycle) (p : PollState) : PollState :=
  let p := fold_left pollOnce ticks (pollOnce p first) in
  mkPollState (srcClose (pSrc p)) (pHealth p) (pObs p).
End Poller.

(** [NewPoller]'s interval. *)
Definition poll_interval (d : Duration) : Duration := if d <=? 0 then Second else d.

(** ** Specification *)

(** The outcomes a poller reports for a source, oldest first. *)
Inductive outcome :=
| Succeeded (at_ : Time) (latency : Duration) (readings : Z)
| Failed (at_ : Time) (latency : Duration) (err : string).

Definition report (name : string) (h : Health) (o : outcome) : Health :=
  match o with
  | Succeeded t d n => success name t d n h
  | Failed t d e => failure name t d e h
  end.

Definition reports (name : string) (os : list outcome) (h : Health) : Health := fold_left (report name) os h.

Definition failed (o : outcome) : bool := match o with Failed _ _ _ => true | _ => false end.

(** The failures since the last success. *)
Fixpoint streak (newest_first : list outcome) : Z :=
  match newest_first with
  | Failed _ _ _ :: rest => streak rest + 1
  | _ => 0
  end.

Definition last_success (os : list outcome) : option Time :=
  list.last (omap (fun o => match o with Succeeded t _ _ => Some t | _ => None end) os).
Definition last_error (os : list outcome) : option (string * Time) :=
  list.last (omap (fun o => match o with Failed t _ e => Some (e, t) | _ => None end) os).
Definition total_readings (os : list outcome) : Z :=
  sumZ (map (fun o => match o with Succeeded _ _ n => n | _ => 0 end) os).

(** What the registry says of a source after [os]. *)
Record accounts (typ name : string) (os : list outcome) (s : Status) : Prop := {
  acc_name : stName s = name /\ stType s = typ;
  acc_up : Up s = match list.last os with Some o => negb (failed o) | None => false end;
  acc_polls : Polls s = zlength os;
  acc_failures : Failures s = zlength (List.filter failed os);
  acc_streak : ConsecutiveFailures s = streak (rev os);
  acc_success : LastSuccess s = last_success os;
  acc_error : last_error os = match LastErrorAt s with Some t => Some (LastError s, t) | None => None end;
  acc_readings : Readings s = total_readings os
}.

(** ** Lemmas *)

Lemma reports_app name os o h : reports name (os ++ [o]) h = report name (reports name os h) o.
Proof. unfold reports. by rewrite fold_left_app. Qed.

Lemma report_order name h o : order (report name h o) = order h.
Proof. destruct o; cbn; unfold success, failure; by destruct (status h !! name). Qed.

Lemma report_other name h o n : n <> name -> status (report name h o) !! n = status h !! n.
Proof.
  intros Hn. destruct o; cbn; unfold success, failure; destruct (status h !! name); cbn [status]; try done;
    by rewrite lookup_insert_ne.
Qed.

Lemma reports_other name os h n : n <> name -> status (reports name os h) !! n = status h !! n.
Proof.
  intros Hn. induction os as [|o os IH] using rev_ind; [done|]. by rewrite reports_app, report_other.
Qed.

Lemma report_accounts typ name os s h o :
  status h !! name = Some s -> accounts typ name os s ->
  exists s', status (report name h o) !! name = Some s' /\ accounts typ name (os ++ [o]) s'.
Proof.
  intros Hs [[Hn Ht] Hu Hp Hf Hc Hls Hle Hr].
  unfold last_success, last_error, total_readings in *.
  destruct o as [t d n|t d e]; cbn [report]; unfold success, failure; rewrite Hs; cbn [status];
    rewrite lookup_insert_eq; eexists; (split; [done|]); constructor;
    cbn [stName stType Up Polls Failures ConsecutiveFailures LastSuccess LastErrorAt LastError Readings];
    unfold last_success, last_error, total_readings;
    rewrite ?last_snoc, ?zlength_app, ?List.filter_app, ?rev_app_distr, ?omap_app, ?map_app, ?sumZ_app; cbn;
    rewrite ?last_snoc, ?app_nil_r; try done; rewrite ?zlength_app; cbn; rewrite ?zlength_cons, ?zlength_nil; lia.
Qed.

Lemma reports_accounts typ name os h :
  status h !! name = None ->
  exists s, status (reports name os (Register name typ h)) !! name = Some s /\ accounts typ name os s.
Proof.
  intros Hn. induction os as [|o os (s & Hs & Ha)] using rev_ind.
  - eexists. split; [cbn; by rewrite lookup_insert_eq|]. by constructor.
  - rewrite reports_app. by apply (report_accounts typ name os s).
Qed.

(** Every listed source has a status, so [Snapshot] cannot panic. *)
Definition listed (h : Health) : Prop := Forall (fun n => is_Some (status h !! n)) (order h).

Lemma Snapshot_listed h : listed h -> exists snap, Snapshot h = Some snap /\ length snap = length (order h).
Proof.
  unfold Snapshot, listed. intros H. destruct (mapM_is_Some_2 (fun n => status h !! n) (order h) H) as [snap E].
  exists snap. split; [done|]. by apply mapM_Some_1, Forall2_length in E.
Qed.

Lemma listed_insert h n s :
  listed h -> Forall (fun m => is_Some (<[n := s]> (status h) !! m)) (order h).
Proof.
  intros H. eapply Forall_impl; [exact H|]. intros m Hm. cbv beta in Hm. destruct (decide (n = m)) as [<-|Hne];
    [rewrite lookup_insert_eq; by eexists|by rewrite lookup_insert_ne].
Qed.

Lemma Register_listed n t h : listed h -> listed (Register n t h).
Proof.
  intros H. unfold listed, Register. cbn [status order]. destruct (status h !! n); [by apply listed_insert|].
  apply Forall_app. split; [by apply listed_insert|]. constructor; [|done]. rewrite lookup_insert_eq. by eexists.
Qed.

Lemma report_listed n h o : listed h -> listed (report n h o).
Proof.
  intros H. destruct o; cbn [report]; unfold success, failure; destruct (status h !! n); try done;
    unfold listed; cbn [status order]; by apply listed_insert.
Qed.

(** ** Properties *)

(** The health registry is exact. After any outcomes reported for a newly
    registered source its status shows whether the last poll succeeded, the
    polls, failures and readings in total, the failures in a row since the
    last success, and the times of the last success and failure with that
    failure's error; no other source's status changes, and the source is
    listed once, last. *)
Theorem health_exact (typ name : string) (os : list outcome) (h : Health) :
  status h !! name = None ->
  (exists s, Get name (reports name os (Register name typ h)) = Some s /\ accounts typ name os s) /\
  (forall n, n <> name -> Get n (reports name os (Register name typ h)) = Get n h) /\
  order (reports name os (Register name typ h)) = order h ++ [name].
Proof.
  intros Hn. split; [by apply reports_accounts|]. split.
  - intros n Hne. unfold Get. rewrite reports_other by done. cbn. by rewrite lookup_insert_ne.
  - induction os as [|o os IH] using rev_ind; [cbn; by rewrite Hn|].
    by rewrite reports_app, report_order.
Qed.

Lemma health_exact_witness :
  NewHealth.(status) !! "plc" = None /\
  exists s, Get "plc" (reports "plc" [Failed 1 2 "timeout"] (Register "plc" "modbus" NewHealth)) = Some s.
Proof.
  split; [done|]. destruct (health_exact "modbus" "plc" [Failed 1 2 "timeout"] NewHealth eq_refl) as ((s & H & _) & _).
  by exists s.
Defined.

(** ** The story of a poller *)

Section Story.
Context {S E O : Type} `{!SourceOps S E, !SourceLaws S E, !Observer O}.

(** The polls of [cs] that have an outcome to report, with it: a poll of a
    cancelled poller has none, nor has a failed read during which the poller
    was cancelled. *)
Fixpoint story (cs : list cycle) (s : S) : list (cycle * result E (list Reading)) :=
  match cs with
  | [] => []
  | c :: rest =>
      if cBefore c then story rest s
      else
        let '(r, s') := srcRead (cRead c) s in
        match r with
        | Err _ => if cAfter c then story rest s' else (c, r) :: story rest s'
        | Ok _ => (c, r) :: story rest s'
        end
  end.

Definition outcome_of (x : cycle * result E (list Reading)) : outcome :=
  let '(c, r) := x in
  match r with
  | Ok rs => Succeeded (cStart c) (Sub (cStop c) (cStart c)) (zlength rs)
  | Err e => Failed (cStart c) (Sub (cStop c) (cStart c)) (errText e)
  end.

(** What the observer is told of an outcome. *)
Definition tell (name : string) (o : O) (x : cycle * result E (list Reading)) : O :=
  match snd x with Ok rs => onReadings name rs o | Err e => onError name (errText e) o end.

Lemma polls_story cs : forall p : PollState (S := S) (O := O),
  let name := srcName (pSrc p) in
  let p' := fold_left pollOnce cs p in
  pHealth p' = reports name (map outcome_of (story cs (pSrc p))) (pHealth p) /\
  pObs p' = fold_left (tell name) (story cs (pSrc p)) (pObs p).
Proof.
  induction cs as [|c cs IH]; intros p; [done|]. cbv zeta. cbn [fold_left story].
  pose proof (read_name (cRead c) (pSrc p)) as Hn. pose proof (IH (pollOnce p c)) as H. cbv zeta in H. revert H.
  generalize (fold_left pollOnce cs (pollOnce p c)). intros p'. unfold pollOnce.
  destruct (cBefore c); [done|]. destruct (srcRead (cRead c) (pSrc p)) as [[rs|e] s']; cbn [snd] in Hn;
    [|destruct (cAfter c)]; cbn [pSrc pHealth pObs]; rewrite Hn; done.
Qed.

(** C39: the registry and the observer are told the same story. Whatever the
    polls of a source registered last yield, after [Run] the registry's entry
    of the source shows whether its last reported poll succeeded, the polls,
    failures and readings in total, the failures in a row since the last
    success, and the last success and failure with its error; these outcomes
    are, in order, what the observer was told; no other source's entry changes. *)
Theorem Run_story (typ : string) (h : Health) (first : cycle) (ticks : list cycle) (s : S) (o : O) :
  let name := srcName s in
  let told := story (first :: ticks) s in
  let p := Run first ticks (mkPollState s (Register name typ h) o) in
  status h !! name = None ->
  (exists st, Get name (pHealth p) = Some st /\ accounts typ name (map outcome_of told) st) /\
  pObs p = fold_left (tell name) told o /\
  (forall n, n <> name -> Get n (pHealth p) = Get n h).
Proof.
  intros name told p Hn. destruct (polls_story (first :: ticks) (mkPollState s (Register name typ h) o)) as [H1 H2].
  cbv zeta in H1, H2. cbn [pSrc pHealth pObs] in H1, H2. fold name told in H1, H2.
  unfold p, Run. cbn [pHealth pObs fold_left] in *. rewrite H1, H2. split; [by apply reports_accounts|]. split; [done|].
  intros n Hne. unfold Get. rewrite reports_other by done. cbn. by rewrite lookup_insert_ne.
Qed.
End Story.
