(* ===== verification/Latest.v ===== *)
(** * Latest: the last-value cache of the edge node (internal/edge/latest.go)

    The last metric of every asset's tags and of every topic, and the number
    of tags in each quality. *)
From Stdlib Require Import ZArith Lia.
From S2P Require Import Prelude GoBytes GoFloat Uns.

Open Scope string_scope.
Open Scope list_scope.
Open Scope Z_scope.

Record Latest := mkLatest {
  byAsset : gmap string (gmap string Metric);
  byTopic : gmap string Metric;
  counts : gmap Quality Z
}.

Definition NewLatest : Latest := mkLatest ∅ ∅ ∅.

(** [m[k] += d] of a Go map of integers. *)
Definition bump (k : string) (d : Z) (m : gmap string Z) : gmap string Z :=
  <[k := default 0 (m !! k) + d]> m.

Definition SetMetric (assetID : string) (m : Metric) (l : Latest) : option Quality * Latest :=
  let tags := default ∅ (byAsset l !! assetID) in
  let prev := mQuality <$> tags !! mName m in
  let counts1 := match prev with Some q => bump q (-1) (counts l) | None => counts l end in
  (prev, mkLatest (<[assetID := <[mName m := m]> tags]> (byAsset l)) (<[mTopic m := m]> (byTopic l))
           (bump (mQuality m) 1 counts1)).

Definition metric_le (a b : Metric) : Prop := stdpp.strings.String.le (mName a) (mName b).
Global Instance metric_le_dec a b : Decision (metric_le a b).
Proof. unfold metric_le. apply _. Defined.

(** [Latest.Asset]. *)
Definition AssetMetrics (assetID : string) (l : Latest) : option (list Metric) :=
  (fun tags => merge_sort metric_le (map snd (map_to_list tags))) <$> byAsset l !! assetID.

(** [Latest.Topic] and [Latest.Counts]. *)
Definition TopicMetric (topic : string) (l : Latest) : option Metric := byTopic l !! topic.
Definition Counts (l : Latest) : gmap Quality Z := counts l.

(** ** Specification *)

(** The tags of the cache in quality [q]. *)
Definition with_quality (q : Quality) (l : Latest) : Z :=
  map_fold (fun _ tags n => n + Z.of_nat (size (filter (fun p => mQuality (snd p) = q) tags))) 0 (byAsset l).

Definition latest_ok (l : Latest) : Prop :=
  forall q, default 0 (counts l !! q) = with_quality q l.

(** The metric an update history leaves for a tag. *)
Definition record_all (sets : list (string * Metric)) : Latest :=
  fold_left (fun l s => snd (SetMetric (fst s) (snd s) l)) sets NewLatest.

Definition last_set (assetID name : string) (sets : list (string * Metric)) : option Metric :=
  list.last (map snd (List.filter (fun s => String.eqb (fst s) assetID && String.eqb (mName (snd s)) name) sets)).

(** ** Lemmas *)

Definition tag_count (q : Quality) (tags : gmap string Metric) : Z :=
  Z.of_nat (size (filter (fun p => mQuality (snd p) = q) tags)).

Lemma bump_lookup k d m j : default 0 (bump k d m !! j) = default 0 (m !! j) + (if decide (k = j) then d else 0).
Proof.
  unfold bump. case_decide as E; [subst; by rewrite lookup_insert_eq|]. rewrite lookup_insert_ne by done. lia.
Qed.

Lemma tag_count_insert q m tags :
  tag_count q (<[mName m := m]> tags) = tag_count q tags + (if decide (mQuality m = q) then 1 else 0) -
    (if decide ((mQuality <$> tags !! mName m) = Some q) then 1 else 0).
Proof.
  assert (forall tags, tags !! mName m = None ->
    tag_count q (<[mName m := m]> tags) = tag_count q tags + (if decide (mQuality m = q) then 1 else 0)) as Hnew.
  { intros t Ht. unfold tag_count. case_decide as E.
    - rewrite map_filter_insert_True by done. rewrite map_size_insert_None; [lia|].
      apply map_lookup_filter_None. by left.
    - rewrite map_filter_insert_False by done. rewrite delete_id by done. lia. }
  destruct (tags !! mName m) as [old|] eqn:E; cbn [fmap option_fmap option_map].
  2:{ rewrite Hnew by done. rewrite (decide_False (P := None = Some q)) by done. lia. }
  rewrite <-insert_delete_eq, Hnew by apply lookup_delete_eq.
  assert (tag_count q tags = tag_count q (delete (mName m) tags) + (if decide (mQuality old = q) then 1 else 0)) as ->.
  { unfold tag_count. rewrite map_filter_delete. destruct (decide (mQuality old = q)) as [Eq|Eq].
    - rewrite map_size_delete_Some by (exists old; by apply map_lookup_filter_Some).
      assert (size (filter (fun p => mQuality (snd p) = q) tags) <> 0%nat); [|lia].
      intros H%map_size_empty_inv. assert (filter (fun p => mQuality (snd p) = q) tags !! mName m = Some old) as H'
        by (by apply map_lookup_filter_Some). by rewrite H, lookup_empty in H'.
    - rewrite (delete_id (filter _ _)); [lia|]. apply map_lookup_filter_None. right. intros x Hx. rewrite E in Hx. by injection Hx as <-. }
  destruct (decide (mQuality old = q)) as [E1|E1], (decide (Some (mQuality old) = Some q)) as [E2|E2];
    try lia; exfalso; congruence.
Qed.

Lemma with_quality_insert q a tags l :
  with_quality q (mkLatest (<[a := tags]> (byAsset l)) (byTopic l) (counts l)) =
  with_quality q l - tag_count q (default ∅ (byAsset l !! a)) + tag_count q tags.
Proof.
  unfold with_quality. cbn [byAsset].
  assert (forall (m : gmap string (gmap string Metric)), m !! a = None ->
    map_fold (fun _ tags n => n + tag_count q tags) 0 (<[a := tags]> m) =
    map_fold (fun _ tags n => n + tag_count q tags) 0 m + tag_count q tags) as Hnew.
  { intros m Hm. rewrite map_fold_insert_L; [done| |done]. intros. lia. }
  change (map_fold (fun _ tags n => n + tag_count q tags) 0 (<[a := tags]> (byAsset l)) =
    map_fold (fun _ tags n => n + tag_count q tags) 0 (byAsset l) - tag_count q (default ∅ (byAsset l !! a)) + tag_count q tags).
  destruct (byAsset l !! a) as [old|] eqn:E; cbn [default from_option].
  - rewrite <-insert_delete_eq, Hnew by apply lookup_delete_eq.
    rewrite <-(insert_delete_id (byAsset l) a old) at 2 by done.
    rewrite (map_fold_insert_L (fun _ tags n => n + tag_count q tags) 0 a old); [unfold id; lia|intros; lia|apply lookup_delete_eq].
  - rewrite Hnew by done. assert (tag_count q ∅ = 0) as -> by done. lia.
Qed.

Lemma SetMetric_ok a m l : latest_ok l -> latest_ok (snd (SetMetric a m l)).
Proof.
  intros H q. specialize (H q). unfold SetMetric. cbn [snd counts].
  pose proof (with_quality_insert q a (<[mName m := m]> (default ∅ (byAsset l !! a))) l) as E.
  unfold with_quality in E |- *. cbn [byAsset] in *. rewrite E. fold (with_quality q l). rewrite <-H, tag_count_insert.
  rewrite bump_lookup. destruct (mQuality <$> _) as [prev|].
  - rewrite bump_lookup. destruct (decide (prev = q)), (decide (Some prev = Some q)); try (exfalso; congruence); lia.
  - rewrite (decide_False (P := None = Some q)) by done. lia.
Qed.

Lemma record_all_app sets a m :
  record_all (sets ++ [(a, m)]) = snd (SetMetric a m (record_all sets)).
Proof. unfold record_all. by rewrite fold_left_app. Qed.

Lemma record_all_ok sets : latest_ok (record_all sets).
Proof.
  induction sets as [|[a m] sets IH] using rev_ind; [done|]. rewrite record_all_app. by apply SetMetric_ok.
Qed.

Lemma record_all_lookup sets a n :
  byAsset (record_all sets) !! a ≫= lookup n = last_set a n sets.
Proof.
  induction sets as [|[b m] sets IH] using rev_ind; [cbn; by rewrite lookup_empty|].
  rewrite record_all_app. unfold last_set in *. rewrite List.filter_app, map_app. cbn [List.filter fst snd map].
  unfold SetMetric. cbn [snd byAsset]. destruct (String.eqb_spec b a) as [->|Hb]; cbn [andb].
  - rewrite lookup_insert_eq. cbn [mbind option_bind].
    destruct (String.eqb_spec (mName m) n) as [<-|Hn]; cbn [map].
    + by rewrite lookup_insert_eq, last_snoc.
    + rewrite lookup_insert_ne, app_nil_r, <-IH by done. by destruct (byAsset _ !! a).
  - by rewrite lookup_insert_ne, app_nil_r.
Qed.

(** ** Properties *)

(** The cache is exact. After any sequence of updates it holds for every
    tag of every asset the last metric set for it, an update returns the
    quality it replaces, and the counter of every quality code is the number
    of tags that are in it. *)
Theorem latest_exact (sets : list (string * Metric)) (a : string) (m : Metric) :
  (forall n, byAsset (record_all sets) !! a ≫= lookup n = last_set a n sets) /\
  fst (SetMetric a m (record_all sets)) = mQuality <$> last_set a (mName m) sets /\
  (forall q, default 0 (Counts (record_all sets) !! q) = with_quality q (record_all sets)).
Proof.
  split_and!; [apply record_all_lookup| |apply record_all_ok].
  rewrite <-record_all_lookup. unfold SetMetric. cbn [fst]. by destruct (byAsset _ !! a); cbn; rewrite ?lookup_empty.
Qed.
