(* ===== verification/Edge.v ===== *)
(** * Edge: the edge node pipeline (internal/edge/node.go)

    The node's mutex makes each locked block atomic; the callbacks of the
    poller and the staleness ticker are state transformers over the node, the
    broker included. Two things are parameters: [render], the text
    encoding/json writes for a value tree, and [impl_int], what the platform
    yields when a float outside the integer type's range is converted (Go
    leaves it open). Logs and metrics are left out. *)
From Stdlib Require Import ZArith Lia SpecFloat.
From S2P Require Import Prelude GoBytes GoFloat Uns Quality Ports Latest.
From S2P Require Collector Asset LineSim Sources Poller.
Import Collector (Reading, mkReading, rTag, rValue, rAt).
Import Asset (TagRef, trAsset, trTag, topic_of).

Open Scope string_scope.
Open Scope list_scope.
Open Scope Z_scope.

Inductive EdgeError :=
| EMarshal
| EPublish
| EBuild (e : Sources.BuildError)
| ENoSources
| EPanic.

Record sourceRun := mkRun {
  def : Asset.Source;
  tags : gmap string TagRef;
  seq : Z
}.

Record outgoing := mkOutgoing { oTr : TagRef; oMsg : Message; oM : Metric; oVerd : Verdict }.

(** [sortedKeys]. *)
Definition sortedKeys (m : gmap string TagRef) : list string :=
  merge_sort stdpp.strings.String.le (map fst (map_to_list m)).

(** Loops over a list in a monad: for each element, and collecting results. *)
Fixpoint each {S E A} (f : A -> GoM S E unit) (xs : list A) : GoM S E unit :=
  match xs with
  | [] => mret tt
  | x :: rest => f x ≫= fun _ => each f rest
  end.

Fixpoint collect {S E A B} (f : A -> GoM S E (option B)) (xs : list A) : GoM S E (list B) :=
  match xs with
  | [] => mret []
  | x :: rest =>
      y ← f x;
      ys ← collect f rest;
      mret (match y with Some b => b :: ys | None => ys end)
  end.

Section Edge.
Context {B E : Type} `{!BrokerOps B E}.
Variable render : json -> list byte.
Variable impl_int : float -> Z.

(** The node. Its [health] is the registry its pollers report to. [clock] is what successive calls of [n.now] return, [ticks] how
    many there were; [tPlant] is the plant of its index. *)
Record Node := mkNode {
  tPlant : Asset.Plant;
  broker : B;
  latest : Latest;
  clock : nat -> Time;
  ticks : nat;
  sources : gmap string sourceRun;
  order : list string;
  evals : gmap string Evaluator;
  health : Poller.Health
}.

Abbreviation M := (GoM Node EdgeError).

Definition set_broker (b : B) (n : Node) : Node :=
  mkNode (tPlant n) b (latest n) (clock n) (ticks n) (sources n) (order n) (evals n) (health n).
Definition set_latest (l : Latest) (n : Node) : Node :=
  mkNode (tPlant n) (broker n) l (clock n) (ticks n) (sources n) (order n) (evals n) (health n).
Definition set_ticks (k : nat) (n : Node) : Node :=
  mkNode (tPlant n) (broker n) (latest n) (clock n) k (sources n) (order n) (evals n) (health n).
Definition set_sources (s : gmap string sourceRun) (n : Node) : Node :=
  mkNode (tPlant n) (broker n) (latest n) (clock n) (ticks n) s (order n) (evals n) (health n).
Definition set_evals (e : gmap string Evaluator) (n : Node) : Node :=
  mkNode (tPlant n) (broker n) (latest n) (clock n) (ticks n) (sources n) (order n) e (health n).

Definition now : M Time := fun n => (Ok (clock n (ticks n)), set_ticks (S (ticks n)) n).

(** [run.seq.Next()] and [run.seq.Reset()] of the run named [source]. *)
Definition next_of (source : string) : M Z := fun n =>
  match sources n !! source with
  | None => (Err EPanic, n)
  | Some r =>
      let '(x, s) := Next (seq r) in
      (Ok x, set_sources (<[source := mkRun (def r) (tags r) s]> (sources n)) n)
  end.

Definition reset_of (source : string) : M unit := fun n =>
  match sources n !! source with
  | None => (Err EPanic, n)
  | Some r => (Ok tt, set_sources (<[source := mkRun (def r) (tags r) (SequencerReset (seq r))]> (sources n)) n)
  end.

(** The tags of a run, and the evaluator of a topic: a nil pointer panics. *)
Definition run_tags (source : string) : M (gmap string TagRef) := fun n =>
  match sources n !! source with None => (Err EPanic, n) | Some r => (Ok (tags r), n) end.

Definition eval_of (topic : string) : M Evaluator := fun n =>
  match evals n !! topic with None => (Err EPanic, n) | Some e => (Ok e, n) end.

Definition put_eval (topic : string) (e : Evaluator) : M unit :=
  modify (fun n => set_evals (<[topic := e]> (evals n)) n).

(** ** Metrics *)

Definition int64_of (v : float) : Z :=
  if is_finite v && (- 2 ^ 63 <=? trunc_Z v) && (trunc_Z v <? 2 ^ 63) then trunc_Z v else impl_int v.
Definition uint64_of (v : float) : Z :=
  if is_finite v && (trunc_Z v <? 2 ^ 64) then trunc_Z v else impl_int v.

Definition castValue (dt : MetricType) (v : float) : Value :=
  if String.eqb dt TypeInt16 || String.eqb dt TypeInt32 then VInt (int64_of v)
  else if String.eqb dt TypeUInt16 || String.eqb dt TypeUInt32 then
    if flt v fzero then VInt (int64_of v) else VUint (uint64_of v)
  else if String.eqb dt TypeBoolean then VBool (negb (feq v fzero))
  else if String.eqb dt TypeFloat then VFloat32 (to_f32 v)
  else VFloat64 v.

Definition metric (tr : TagRef) (source : string) (value : option Value) (at_ : Time) (v : Verdict) : Metric :=
  let t := trTag tr in
  let a := Asset.rAsset (trAsset tr) in
  let ctx := mkContext (Asset.aID a) (Asset.aClass a) (Asset.tUnit t)
               (Asset.rMin <$> Asset.tRange t) (Asset.rMax <$> Asset.tRange t) source (Asset.tDescription t)
               (if String.eqb (vQuality v) QualityGood then "" else vRule v) in
  mkMetric (Asset.tName t) at_ (Asset.tDataType t) value (vQuality v) (topic_of tr) ctx.

(** ** Publishing *)

Definition publish (m : Message) : M bool := fun n =>
  match bPublish m (broker n) with
  | (Ok _, b) => (Ok true, set_broker b n)
  | (Err _, b) => (Ok false, set_broker b n)
  end.

(** One iteration of [publishAll]: a failed publication is only counted. *)
Definition publish_one (o : outgoing) : M unit := fun n =>
  let '(_, l) := SetMetric (Asset.aID (Asset.rAsset (trAsset (oTr o)))) (oM o) (latest n) in
  (publish (oMsg o) ≫= fun _ => mret tt) (set_latest l n).

Definition publishAll (out : list outgoing) : M unit := each publish_one out.

(** The DATA message of one metric; [None] when it cannot be encoded. *)
Definition data_message (tr : TagRef) (source : string) (m : Metric) (at_ : Time) (verd : Verdict) : M (option outgoing) :=
  s ← next_of source;
  match Marshal (mkPayload Data at_ s source (Some [m])) with
  | None => mret None
  | Some j => mret (Some (mkOutgoing tr (mkMessage (topic_of tr) (render j) true at_) m verd))
  end.

Definition publishLifecycle (source : string) (mt : MessageType) : M unit := fun n =>
  (ms ← (if String.eqb mt Birth then
           _ ← reset_of source;
           ts ← run_tags source;
           ms ← collect (fun name =>
                  match ts !! name with
                  | None => mret None
                  | Some tr =>
                      ev ← eval_of (topic_of tr);
                      t ← now;
                      let m := metric tr source None t (Current ev) in
                      let '(v, at_, ok) := Last ev in
                      mret (Some (if ok : bool then
                        mkMetric (mName m) at_ (mDataType m) (Some (VFloat64 v)) (mQuality m) (mTopic m) (mContext m)
                        else m))
                  end) (sortedKeys ts);
           mret (Some ms)
         else mret None);
   t ← now;
   s ← next_of source;
   match Marshal (mkPayload mt t s source ms) with
   | None => throw EMarshal
   | Some j =>
       ok ← publish (mkMessage (LifecycleTopic (Asset.Enterprise (tPlant n)) (Asset.Site (tPlant n)) source mt)
                       (render j) (String.eqb mt Birth) t);
       if ok : bool then mret tt else throw EPublish
   end) n.

(** ** The observer and the staleness ticker *)

Definition on_reading (source : string) (r : Reading) : M (option outgoing) :=
  ts ← run_tags source;
  match ts !! rTag r with
  | None => mret None
  | Some tr =>
      at_ ← (if IsZero (rAt r) then now else mret (rAt r));
      let value := Asset.Apply (Asset.tScale (trTag tr)) (rValue r) in
      ev ← eval_of (topic_of tr);
      let '(verd, ev') := Observe value at_ ev in
      _ ← put_eval (topic_of tr) ev';
      data_message tr source (metric tr source (Some (castValue (Asset.tDataType (trTag tr)) value)) at_ verd) at_ verd
  end.

Definition OnReadings (source : string) (readings : list Reading) : M unit := fun n =>
  match sources n !! source with
  | None => (Ok tt, n)
  | Some _ => (out ← collect (on_reading source) readings; publishAll out) n
  end.

(** The last value of a tag, cast to its type. *)
Definition last_value (tr : TagRef) (ev : Evaluator) : option Value :=
  let '(v, _, ok) := Last ev in
  if ok : bool then Some (castValue (Asset.tDataType (trTag tr)) v) else None.

Definition on_error_tag (source : string) (ts : gmap string TagRef) (err : option string) (name : string)
    : M (option outgoing) :=
  match ts !! name with
  | None => mret None
  | Some tr =>
      ev ← eval_of (topic_of tr);
      if String.eqb (vQuality (Current ev)) QualityBad then mret None
      else
        let '(verd, ev') := Comm err ev in
        _ ← put_eval (topic_of tr) ev';
        at_ ← now;
        data_message tr source (metric tr source (last_value tr ev') at_ verd) at_ verd
  end.

Definition OnError (source : string) (err : option string) : M unit := fun n =>
  match sources n !! source with
  | None => (Ok tt, n)
  | Some r => (out ← collect (on_error_tag source (tags r) err) (sortedKeys (tags r)); publishAll out) n
  end.

Definition check_tag (source : string) (ts : gmap string TagRef) (t : Time) (name : string) : M (option outgoing) :=
  match ts !! name with
  | None => mret None
  | Some tr =>
      ev ← eval_of (topic_of tr);
      let '((verd, changed), ev') := Check_ t ev in
      _ ← put_eval (topic_of tr) ev';
      if changed : bool then data_message tr source (metric tr source (last_value tr ev') t verd) t verd
      else mret None
  end.

Fixpoint check_sources (t : Time) (names : list string) : M (list outgoing) :=
  match names with
  | [] => mret []
  | name :: rest =>
      ts ← run_tags name;
      out ← collect (check_tag name ts t) (sortedKeys ts);
      outs ← check_sources t rest;
      mret (out ++ outs)
  end.

Definition checkStale : M unit := fun n =>
  (t ← now; out ← check_sources t (order n); publishAll out) n.

(** ** Construction and life *)

Definition eval_config (p : Asset.Plant) (tr : TagRef) (poll : Duration) : Quality.Config :=
  let q := Asset.EffectiveQuality p (trTag tr) poll in
  match Asset.tRange (trTag tr) with
  | Some r => Quality.mkConfig (Asset.qStaleAfter q) (Asset.qFlatlineAfter q) (Asset.qFlatlineMinSamples q)
                true (Asset.rMin r) (Asset.rMax r) fzero
  | None => Quality.mkConfig (Asset.qStaleAfter q) (Asset.qFlatlineAfter q) (Asset.qFlatlineMinSamples q)
                false fzero fzero fzero
  end.

(** The loop body of [New]: the collector is only built here, the pollers own it. *)
Definition add_source {C R} `{!LineSim.Rand R} (p : Asset.Plant) (i : Asset.Index)
    (st : result EdgeError (gmap string sourceRun * list string * gmap string Evaluator * Poller.Health))
    (d : Asset.Source)
    : result EdgeError (gmap string sourceRun * list string * gmap string Evaluator * Poller.Health) :=
  match st with
  | Err e => Err e
  | Ok (ss, ord, evs, h) =>
      let ts := Asset.TagsForSource i (Asset.Name d) in
      match ts with
      | [] => st
      | _ =>
          match Sources.New (C := C) (R := R) d ts with
          | Err e => Err (EBuild e)
          | Ok _ =>
              Ok (<[Asset.Name d := mkRun d (fold_left (fun m t => <[Asset.tName (trTag t) := t]> m) ts ∅) 0]> ss,
                  ord ++ [Asset.Name d],
                  fold_left (fun m t => <[topic_of t := Quality.New (eval_config p t (Asset.PollInterval d))]> m) ts evs,
                  Poller.Register (Asset.Name d) (Asset.Type_ d) h)
          end
      end
  end.

Definition New {C R} `{!LineSim.Rand R} (i : Asset.Index) (b : B) (hl : Poller.Health) (ck : nat -> Time)
    : result EdgeError Node :=
  let p := Asset.iPlant i in
  match fold_left (add_source (C := C) (R := R) p i) (Asset.Sources p) (Ok (∅, [], ∅, hl)) with
  | Err e => Err e
  | Ok (ss, ord, evs, h) =>
      if decide (ss = ∅) then Err ENoSources
      else Ok (mkNode p b NewLatest ck O ss ord evs h)
  end.

(** The phases of [Run]: the births, any interleaving of the callbacks, and
    the deaths, whose failures are only logged. *)
Definition births : M unit := fun n => each (fun name => publishLifecycle name Birth) (order n) n.

Definition attempt (m : M unit) : M unit := fun n => let '(_, n') := m n in (Ok tt, n').

Definition deaths : M unit := fun n => each (fun name => attempt (publishLifecycle name Death)) (order n) n.

Inductive event :=
| Readings (source : string) (rs : list Reading)
| PollError (source : string) (err : option string)
| StaleTick.

Definition handle_event (ev : event) : M unit :=
  match ev with
  | Readings s rs => OnReadings s rs
  | PollError s err => OnError s err
  | StaleTick => checkStale
  end.

Definition Run (evs : list event) : M unit :=
  _ ← births;
  _ ← each handle_event evs;
  deaths.

End Edge.
Arguments Node : clear implicits.

(** The node observes its pollers. *)
Global Instance Edge_observer {B E} `{!BrokerOps B E} (render : json -> list byte) (impl_int : float -> Z) :
  Poller.Observer (Node B) := {
  Poller.onReadings s rs n := snd (OnReadings (E := E) render impl_int s rs n);
  Poller.onError s e n := snd (OnError (E := E) render impl_int s (Some e) n)
}.
