(* ===== verification/EdgeInv.v ===== *)
(** * EdgeInv: the edge node never loses its footing

    [runs] is the total-correctness judgement for the node's operations: the
    operation ends without an error and its result and final node satisfy the
    postcondition. [keeps] is what every operation leaves as it is; with the
    invariant [node_ok] it excludes every nil dereference. *)
From Stdlib Require Import ZArith Lia SpecFloat.
From S2P Require Import Prelude GoBytes GoFloat Uns Quality Ports Latest Edge.
From S2P Require Collector Asset AssetValid AssetIndex LineSim Sources.
Import Collector (Reading, mkReading, rTag, rValue, rAt).
Import Asset (TagRef, trAsset, trTag, topic_of).

Open Scope string_scope.
Open Scope list_scope.
Open Scope Z_scope.

Section Inv.
Context {B E : Type} `{!BrokerOps B E}.
Variable render : json -> list byte.
Variable impl_int : float -> Z.

Abbreviation Nd := (Node B).
Abbreviation M := (GoM (Node B) EdgeError).

Definition runs {A} (m : M A) (n : Nd) (post : A -> Nd -> Prop) : Prop :=
  exists a n', m n = (Ok a, n') /\ post a n'.

Lemma runs_ret {A} (a : A) n (post : A -> Nd -> Prop) : post a n -> runs (mret a) n post.
Proof. intros H. by exists a, n. Qed.

Lemma runs_bind {A A'} (m : M A) (f : A -> M A') n post :
  runs m n (fun a n' => runs (f a) n' post) -> runs (m ≫= f) n post.
Proof.
  intros (a & n1 & E1 & b & n2 & E2 & H). exists b, n2. split; [|done].
  unfold mbind, GoM_bind. by rewrite E1.
Qed.

Lemma runs_mono {A} (m : M A) n (post post' : A -> Nd -> Prop) :
  runs m n post -> (forall a n', post a n' -> post' a n') -> runs m n post'.
Proof. intros (a & n' & E1 & H) Hp. exists a, n'. by split; [|apply Hp]. Qed.

(** ** What the operations leave alone *)

Record keeps (n n' : Nd) : Prop := {
  k_plant : tPlant n' = tPlant n;
  k_order : order n' = order n;
  k_clock : clock n' = clock n;
  k_health : health n' = health n;
  k_runs : forall s, (fun r => (def r, tags r)) <$> sources n' !! s = (fun r => (def r, tags r)) <$> sources n !! s;
  k_evals : forall k, is_Some (evals n !! k) -> is_Some (evals n' !! k)
}.

Global Instance keeps_refl : Reflexive keeps.
Proof. by constructor. Qed.

Global Instance keeps_trans : Transitive keeps.
Proof.
  intros a b c [] []. constructor; try congruence; try by auto.
  all: intros s; etransitivity; eauto.
Qed.

Record node_ok (n : Nd) : Prop := {
  ok_evals : forall s r t tr, sources n !! s = Some r -> tags r !! t = Some tr -> is_Some (evals n !! topic_of tr);
  ok_order : forall s, s ∈ order n -> is_Some (sources n !! s)
}.

Lemma keeps_run n n' s r : keeps n n' -> sources n !! s = Some r ->
  exists r', sources n' !! s = Some r' /\ def r' = def r /\ tags r' = tags r.
Proof.
  intros [_ _ _ _ H _] Hs. specialize (H s). rewrite Hs in H. destruct (sources n' !! s) as [r'|]; [|done].
  injection H as E1 E2. by exists r'.
Qed.

Lemma keeps_ok n n' : keeps n n' -> node_ok n -> node_ok n'.
Proof.
  intros Hk [He Ho]. split.
  - intros s r t tr Hs Ht. pose proof (k_runs _ _ Hk s) as H. rewrite Hs in H.
    destruct (sources n !! s) as [r0|] eqn:E0; [|done]. injection H as _ Htags. apply (k_evals _ _ Hk).
    rewrite Htags in Ht. by apply (He s r0 t).
  - intros s Hin. rewrite (k_order _ _ Hk) in Hin. destruct (Ho s Hin) as [r Hr].
    destruct (keeps_run _ _ _ _ Hk Hr) as (r' & E' & _). by exists r'.
Qed.

(** ** The primitives *)

Lemma keeps_frame n b l k ev : (forall x, is_Some (evals n !! x) -> is_Some (ev !! x)) ->
  keeps n (mkNode (tPlant n) b l (clock n) k (sources n) (order n) ev (health n)).
Proof. by constructor. Qed.

Lemma runs_now n post : post (clock n (ticks n)) (set_ticks (S (ticks n)) n) -> runs now n post.
Proof. intros H. by exists (clock n (ticks n)), (set_ticks (S (ticks n)) n). Qed.

Definition with_seq (s : string) (r : sourceRun) (q : Z) (n : Nd) : Nd :=
  set_sources (<[s := mkRun (def r) (tags r) q]> (sources n)) n.

Lemma keeps_seq n s r q : sources n !! s = Some r -> keeps n (with_seq s r q n).
Proof.
  intros Hs. constructor; try done. intros s'. cbn. destruct (decide (s = s')) as [<-|Hne].
  - by rewrite lookup_insert_eq, Hs.
  - by rewrite lookup_insert_ne.
Qed.

Lemma runs_next n s r (post : Z -> Nd -> Prop) : sources n !! s = Some r ->
  post (seq r) (with_seq s r (u8 (seq r + 1)) n) -> runs (next_of s) n post.
Proof.
  intros Hs H. exists (seq r), (with_seq s r (u8 (seq r + 1)) n). split; [|done]. unfold next_of. by rewrite Hs.
Qed.

Lemma runs_tags n s r (post : gmap string TagRef -> Nd -> Prop) : sources n !! s = Some r ->
  post (tags r) n -> runs (run_tags s) n post.
Proof. intros Hs H. exists (tags r), n. split; [|done]. unfold run_tags. by rewrite Hs. Qed.

Lemma runs_eval n k e (post : Evaluator -> Nd -> Prop) : evals n !! k = Some e ->
  post e n -> runs (eval_of k) n post.
Proof. intros Hs H. exists e, n. split; [|done]. unfold eval_of. by rewrite Hs. Qed.

Lemma runs_put_eval n k e (post : unit -> Nd -> Prop) :
  post tt (set_evals (<[k := e]> (evals n)) n) -> runs (put_eval k e) n post.
Proof. intros H. by exists tt, (set_evals (<[k := e]> (evals n)) n). Qed.

Lemma keeps_put n k e : keeps n (set_evals (<[k := e]> (evals n)) n).
Proof.
  apply keeps_frame. intros x Hx. destruct (decide (k = x)) as [<-|Hne].
  - rewrite lookup_insert_eq. by eexists.
  - by rewrite lookup_insert_ne.
Qed.

(** ** Loops: an invariant of the nodes along the loop *)

Lemma runs_collect {A A'} (f : A -> M (option A')) (I : Nd -> Prop) xs n :
  I n -> (forall x n, x ∈ xs -> I n -> runs (f x) n (fun _ n' => I n')) ->
  runs (collect f xs) n (fun _ n' => I n').
Proof.
  intros Hn Hf. revert n Hn Hf. induction xs as [|x xs IH]; intros n Hn Hf; [by apply runs_ret|].
  cbn [collect]. apply runs_bind. eapply runs_mono; [by apply Hf; [left|]|]. intros y n1 H1.
  apply runs_bind. eapply runs_mono; [apply IH; [exact H1|]; intros; apply Hf; [by right|done]|].
  intros ys n2 H2. by apply runs_ret.
Qed.

Lemma runs_each {A} (f : A -> M unit) (I : Nd -> Prop) xs n :
  I n -> (forall x n, x ∈ xs -> I n -> runs (f x) n (fun _ n' => I n')) ->
  runs (each f xs) n (fun _ n' => I n').
Proof.
  intros Hn Hf. revert n Hn Hf. induction xs as [|x xs IH]; intros n Hn Hf; [by apply runs_ret|].
  cbn [each]. apply runs_bind. eapply runs_mono; [by apply Hf; [left|]|]. intros y n1 H1.
  apply IH; [exact H1|]. intros; apply Hf; [by right|done].
Qed.

(** ** The operations end, and keep what they must *)

Lemma data_message_keeps n tr s r m at_ verd : sources n !! s = Some r ->
  runs (data_message render tr s m at_ verd) n (fun o n' => keeps n n' /\ n' = with_seq s r (u8 (seq r + 1)) n /\
    o = (fun j => mkOutgoing tr (mkMessage (topic_of tr) (render j) true at_) m verd) <$>
        Marshal (mkPayload Data at_ (seq r) s (Some [m]))).
Proof.
  intros Hs. unfold data_message. apply runs_bind. eapply runs_next; [done|].
  destruct (Marshal _) as [j|]; apply runs_ret; split_and!; try done; by apply keeps_seq.
Qed.

Lemma publish_one_keeps n o : runs (publish_one o) n (fun _ n' => keeps n n' /\ evals n' = evals n /\ sources n' = sources n).
Proof.
  unfold runs, publish_one. cbv beta. destruct (SetMetric _ _ _) as [p l]. unfold publish.
  destruct (bPublish (oMsg o) (broker (set_latest l n))) as [[[]|e] b] eqn:Eb;
    eexists tt, _; (split; [unfold mbind, GoM_bind, mret, GoM_ret; by rewrite Eb|]);
    (split; [exact (keeps_frame n b l (ticks n) (evals n) (fun _ H => H))|done]).
Qed.

Lemma publishAll_keeps n out :
  runs (publishAll out) n (fun _ n' => keeps n n' /\ evals n' = evals n /\ sources n' = sources n).
Proof.
  apply runs_each; [done|]. intros o n1 _ (Hk & He & Hs). eapply runs_mono; [apply publish_one_keeps|].
  intros _ n2 (Hk2 & He2 & Hs2). split_and!; [by transitivity n1|congruence..].
Qed.

(** A loop that keeps what [n0] fixed; [I] may use it at every step. *)
Lemma collect_keeps {A A'} (f : A -> M (option A')) xs n0 n :
  keeps n0 n -> (forall x n, x ∈ xs -> keeps n0 n -> runs (f x) n (fun _ n' => keeps n n')) ->
  runs (collect f xs) n (fun _ n' => keeps n0 n').
Proof.
  intros Hn Hf. apply (runs_collect f (keeps n0)); [done|]. intros x n1 Hx H1.
  eapply runs_mono; [by apply Hf|]. intros ? n2 H2. cbv beta in H2. by transitivity n1.
Qed.

Lemma on_reading_keeps n s rd : node_ok n -> is_Some (sources n !! s) ->
  runs (on_reading render impl_int s rd) n (fun _ n' => keeps n n').
Proof.
  intros Hok [r Hr]. unfold on_reading. apply runs_bind. eapply runs_tags; [done|].
  destruct (tags r !! rTag rd) as [tr|] eqn:Et; [|by apply runs_ret].
  destruct (ok_evals n Hok s r _ tr Hr Et) as [ev Hev].
  assert (forall at_ n1, sources n1 = sources n -> evals n1 = evals n -> keeps n n1 ->
    runs (ev ← eval_of (topic_of tr);
          let '(verd, ev') := Observe (Asset.Apply (Asset.tScale (trTag tr)) (rValue rd)) at_ ev in
          _ ← put_eval (topic_of tr) ev';
          data_message render tr s (metric tr s (Some (castValue impl_int (Asset.tDataType (trTag tr))
            (Asset.Apply (Asset.tScale (trTag tr)) (rValue rd)))) at_ verd) at_ verd) n1 (fun _ n' => keeps n n')) as Hrest.
  { intros at_ n1 Es Ee Hk. apply runs_bind. rewrite <-Ee in Hev. eapply runs_eval; [done|].
    destruct (Observe _ _ _) as [verd ev']. apply runs_bind, runs_put_eval.
    eapply runs_mono; [apply (data_message_keeps _ tr s r); by rewrite <-Es in Hr|].
    intros o n2 (Hk2 & _). transitivity n1; [done|]. etransitivity; [apply keeps_put|done]. }
  apply runs_bind. destruct (IsZero (rAt rd)).
  - apply runs_now. apply Hrest; [done..|]. by apply keeps_frame.
  - apply runs_ret. by apply Hrest.
Qed.

Lemma publish_after (m : M (list outgoing)) n :
  runs m n (fun _ n' => keeps n n') -> runs (out ← m; publishAll out) n (fun _ n' => keeps n n').
Proof.
  intros H. apply runs_bind. eapply runs_mono; [done|]. intros out n1 H1. cbv beta in H1.
  eapply runs_mono; [apply publishAll_keeps|]. intros _ n2 (H2 & _). by transitivity n1.
Qed.

Lemma OnReadings_keeps n s rs : node_ok n -> runs (OnReadings render impl_int s rs) n (fun _ n' => keeps n n').
Proof.
  intros Hok. unfold runs, OnReadings. destruct (sources n !! s) as [r|] eqn:Hs; [|by exists tt, n].
  apply publish_after. apply (collect_keeps _ _ n); [done|].
  intros rd n1 _ Hk. apply on_reading_keeps; [by apply (keeps_ok n)|].
  destruct (keeps_run _ _ _ _ Hk Hs) as (r' & E' & _). by exists r'.
Qed.

Lemma on_error_tag_keeps n s r err name : node_ok n -> sources n !! s = Some r ->
  runs (on_error_tag render impl_int s (tags r) err name) n (fun _ n' => keeps n n').
Proof.
  intros Hok Hr. unfold on_error_tag. destruct (tags r !! name) as [tr|] eqn:Et; [|by apply runs_ret].
  destruct (ok_evals n Hok s r _ tr Hr Et) as [ev Hev].
  apply runs_bind. eapply runs_eval; [done|]. destruct (String.eqb _ _); [by apply runs_ret|].
  destruct (Comm err ev) as [verd ev']. apply runs_bind, runs_put_eval, runs_bind, runs_now.
  eapply runs_mono; [by apply (data_message_keeps _ tr s r)|]. intros o n2 (Hk2 & _).
  etransitivity; [apply (keeps_put n (topic_of tr) ev')|]. etransitivity; [|exact Hk2]. by apply keeps_frame.
Qed.

Lemma check_tag_keeps n s r t name : node_ok n -> sources n !! s = Some r ->
  runs (check_tag render impl_int s (tags r) t name) n (fun _ n' => keeps n n').
Proof.
  intros Hok Hr. unfold check_tag. destruct (tags r !! name) as [tr|] eqn:Et; [|by apply runs_ret].
  destruct (ok_evals n Hok s r _ tr Hr Et) as [ev Hev].
  apply runs_bind. eapply runs_eval; [done|]. destruct (Check_ t ev) as [[verd changed] ev'].
  apply runs_bind, runs_put_eval. destruct changed; [|apply runs_ret, keeps_put].
  eapply runs_mono; [by apply (data_message_keeps _ tr s r)|]. intros o n2 (Hk2 & _).
  etransitivity; [apply keeps_put|done].
Qed.

Lemma OnError_keeps n s err : node_ok n -> runs (OnError render impl_int s err) n (fun _ n' => keeps n n').
Proof.
  intros Hok. unfold runs, OnError. destruct (sources n !! s) as [r|] eqn:Hs; [|by exists tt, n].
  apply publish_after. apply (collect_keeps _ _ n); [done|].
  intros name n1 _ Hk. destruct (keeps_run _ _ _ _ Hk Hs) as (r' & E' & _ & <-).
  apply on_error_tag_keeps; [by apply (keeps_ok n)|done].
Qed.

Lemma check_sources_keeps n t names : node_ok n -> (forall s, s ∈ names -> is_Some (sources n !! s)) ->
  runs (check_sources render impl_int t names) n (fun _ n' => keeps n n').
Proof.
  revert n. induction names as [|s names IH]; intros n Hok Hs; [by apply runs_ret|]. cbn [check_sources].
  destruct (Hs s ltac:(left)) as [r Hr]. apply runs_bind. eapply runs_tags; [done|]. apply runs_bind.
  eapply runs_mono; [apply (collect_keeps _ _ n); [done|]|].
  { intros name n1 _ Hk. destruct (keeps_run _ _ _ _ Hk Hr) as (r' & E' & _ & <-).
    apply check_tag_keeps; [by apply (keeps_ok n)|done]. }
  intros out n1 Hk. cbv beta in Hk. apply runs_bind. eapply runs_mono; [apply IH|].
  - by apply (keeps_ok n).
  - intros s' Hin. destruct (Hs s' ltac:(by right)) as [r' Hr'].
    destruct (keeps_run _ _ _ _ Hk Hr') as (r2 & E2 & _). by exists r2.
  - intros outs n2 Hk2. cbv beta in Hk2. apply runs_ret. by transitivity n1.
Qed.

Lemma checkStale_keeps n : node_ok n -> runs (checkStale render impl_int) n (fun _ n' => keeps n n').
Proof.
  intros Hok. unfold runs, checkStale. apply runs_bind, runs_now.
  assert (keeps n (set_ticks (S (ticks n)) n)) as Hk by (by apply keeps_frame).
  eapply runs_mono; [apply publish_after, check_sources_keeps|].
  - by apply (keeps_ok n).
  - apply (ok_order _ Hok).
  - intros ? n2 H2. cbv beta in H2. etransitivity; [exact Hk|exact H2].
Qed.

Lemma event_keeps n ev : node_ok n -> runs (handle_event render impl_int ev) n (fun _ n' => keeps n n').
Proof. destruct ev; [apply OnReadings_keeps|apply OnError_keeps|apply checkStale_keeps]. Qed.

Lemma events_keep n evs : node_ok n -> runs (each (handle_event render impl_int) evs) n (fun _ n' => keeps n n').
Proof.
  intros Hok. apply (runs_each _ (keeps n)); [done|]. intros ev n1 _ Hk.
  eapply runs_mono; [by apply event_keeps, (keeps_ok n)|]. intros ? n2 H2. cbv beta in H2. by transitivity n1.
Qed.

(** ** The births and deaths, which may fail to encode or to publish *)

Definition tame {A} (m : M A) (n : Nd) : Prop :=
  exists r n', m n = (r, n') /\ keeps n n' /\ forall e, r = Err e -> e = EMarshal \/ e = EPublish.

Lemma tame_runs {A} (m : M A) n : runs m n (fun _ n' => keeps n n') -> tame m n.
Proof. intros (a & n' & E1 & H). exists (Ok a), n'. by split_and!. Qed.

Lemma tame_bind {A A'} (m : M A) (f : A -> M A') n (post : A -> Nd -> Prop) :
  runs m n (fun a n' => keeps n n' /\ post a n') ->
  (forall a n', keeps n n' -> post a n' -> tame (f a) n') -> tame (m ≫= f) n.
Proof.
  intros (a & n1 & E1 & Hk & Hp) Hf. destruct (Hf a n1 Hk Hp) as (r & n2 & E2 & Hk2 & He).
  exists r, n2. split; [unfold mbind, GoM_bind; by rewrite E1|]. split; [by transitivity n1|done].
Qed.

Lemma runs_publish n m : runs (publish (E := E) m) n (fun _ n' => keeps n n').
Proof.
  unfold runs, publish. destruct (bPublish m (broker n)) as [[a|e] b]; eexists _, _; (split; [done|]);
    exact (keeps_frame n b (latest n) (ticks n) (evals n) (fun _ H => H)).
Qed.

Lemma lifecycle_tame n s mt : node_ok n -> is_Some (sources n !! s) -> tame (publishLifecycle render s mt) n.
Proof.
  intros Hok [r Hr]. unfold tame, publishLifecycle.
  assert (forall n1 ms, node_ok n1 -> is_Some (sources n1 !! s) -> tame
    (t ← now; s0 ← next_of s;
     match Marshal (mkPayload mt t s0 s ms) with
     | Some j => ok ← publish (mkMessage (LifecycleTopic (Asset.Enterprise (tPlant n)) (Asset.Site (tPlant n)) s mt)
                       (render j) (String.eqb mt Birth) t);
                 if ok : bool then mret tt else throw EPublish
     | None => throw EMarshal
     end) n1) as Hrest.
  { intros n1 ms Hok1 [r1 Hr1]. apply (tame_bind _ _ _ (fun _ n' => sources n' = sources n1)).
    { apply runs_now. split; [by apply keeps_frame|done]. }
    intros t n2 Hk2 Hs2. apply (tame_bind _ _ _ (fun _ _ => True)).
    { rewrite <-Hs2 in Hr1. eapply runs_next; [done|]. split; [by apply keeps_seq|done]. }
    intros q n3 Hk3 _. destruct (Marshal _) as [j|]; [|exists (Err EMarshal), n3; split_and!; [done..|]; naive_solver].
    apply (tame_bind _ _ _ (fun _ _ => True)).
    { eapply runs_mono; [apply runs_publish|done]. }
    intros ok n4 Hk4 _. destruct ok; [by apply tame_runs, runs_ret|].
    exists (Err EPublish), n4. split_and!; [done..|]. naive_solver. }
  apply (tame_bind _ _ n (fun _ _ => True)).
  { destruct (String.eqb mt Birth); [|by apply runs_ret].
    apply runs_bind.
    exists tt, (with_seq s r (SequencerReset (seq r)) n). split; [unfold reset_of; by rewrite Hr|].
    pose proof (keeps_seq n s r (SequencerReset (seq r)) Hr) as Hk.
    set (n1 := with_seq s r _ n) in *.
    assert (sources n1 !! s = Some (mkRun (def r) (tags r) (SequencerReset (seq r)))) as Hr1
      by (cbn; by rewrite lookup_insert_eq).
    apply runs_bind. eapply runs_tags; [done|]. cbn [tags]. apply runs_bind.
    eapply runs_mono; [apply (collect_keeps _ _ n1); [done|]|].
    - intros name n2 _ Hk2. destruct (tags r !! name) as [tr|] eqn:Et; [|by apply runs_ret].
      assert (keeps n n2) as Hk3 by (by transitivity n1).
      destruct (keeps_run _ _ _ _ Hk3 Hr) as (r2 & E2 & _ & Et2). rewrite <-Et2 in Et.
      destruct (ok_evals n2 (keeps_ok _ _ Hk3 Hok) s r2 name tr E2 Et) as [ev Hev].
      apply runs_bind. eapply runs_eval; [done|]. apply runs_bind, runs_now.
      destruct (Last ev) as [[v at_] ok]. apply runs_ret. by apply keeps_frame.
    - intros ms n2 Hk2. cbv beta in Hk2. apply runs_ret. split; [by transitivity n1|done]. }
  intros ms n1 Hk _. apply Hrest; [by apply (keeps_ok n)|].
  destruct (keeps_run _ _ _ _ Hk Hr) as (r' & E' & _). by exists r'.
Qed.

Lemma each_tame {A} (f : A -> M unit) xs n :
  node_ok n -> (forall x n', x ∈ xs -> keeps n n' -> tame (f x) n') -> tame (each f xs) n.
Proof.
  intros Hok Hf. assert (forall n1, keeps n n1 -> tame (each f xs) n1) as H; [|by apply H].
  induction xs as [|x xs IH]; intros n1 Hk; [by apply tame_runs, runs_ret|]. cbn [each].
  destruct (Hf x n1 ltac:(left) Hk) as ([[]|e] & n2 & E2 & Hk2 & He).
  - destruct (IH ltac:(intros; apply Hf; [by right|done]) n2 ltac:(by transitivity n1)) as (r & n3 & E3 & Hk3 & He3).
    exists r, n3. unfold mbind, GoM_bind. rewrite E2. split_and!; [done|by transitivity n2|done].
  - exists (Err e), n2. unfold mbind, GoM_bind. by rewrite E2.
Qed.

Lemma births_tame n : node_ok n -> tame (births render) n.
Proof.
  intros Hok. unfold tame, births. apply each_tame; [done|]. intros s n1 Hs Hk.
  apply lifecycle_tame; [by apply (keeps_ok n)|].
  destruct (ok_order _ Hok s Hs) as [r Hr]. destruct (keeps_run _ _ _ _ Hk Hr) as (r' & E' & _). by exists r'.
Qed.

Lemma deaths_keep n : node_ok n -> runs (deaths render) n (fun _ n' => keeps n n').
Proof.
  intros Hok. unfold runs, deaths. apply (runs_each _ (keeps n)); [done|]. intros s n1 Hs Hk.
  destruct (ok_order _ Hok s Hs) as [r Hr]. destruct (keeps_run _ _ _ _ Hk Hr) as (r' & E' & _).
  destruct (lifecycle_tame n1 s Death) as (res & n2 & E2 & Hk2 & _); [by apply (keeps_ok n)|by exists r'|].
  exists tt, n2. split; [unfold attempt; by rewrite E2|]. by transitivity n1.
Qed.
End Inv.
