(* ===== verification/EdgeNew.v ===== *)
(** * EdgeNew: from an accepted plant to a running node

    [New] succeeds on the index of every parsed plant and builds the node the
    plant describes; from there no interleaving of callbacks makes it panic. *)
From Stdlib Require Import ZArith Lia SpecFloat.
From S2P Require Import Prelude GoBytes GoFloat Uns Quality Ports Latest Edge EdgeInv.
From S2P Require Collector Asset AssetValid AssetIndex LineSim Sources Poller.
Import Asset (TagRef, trAsset, trTag, topic_of).

Open Scope string_scope.
Open Scope list_scope.
Open Scope Z_scope.

(** ** Insertion loops *)

Lemma fold_insert_in {A V} (k : A -> string) (v : A -> V) xs (m : gmap string V) x :
  NoDup (map k xs) -> x ∈ xs -> fold_left (fun m x => <[k x := v x]> m) xs m !! k x = Some (v x).
Proof.
  revert m. induction xs as [|y xs IH]; intros m Hd Hx; [by apply elem_of_nil in Hx|].
  cbn [map fold_left] in *. apply NoDup_cons in Hd as [Hy Hd]. apply elem_of_cons in Hx as [->|Hx]; [|by apply IH].
  rewrite AssetIndex.fold_insert_fresh by done. apply lookup_insert_eq.
Qed.

Lemma fold_insert_inv {A V} (k : A -> string) (v : A -> V) xs (m : gmap string V) j y :
  fold_left (fun m x => <[k x := v x]> m) xs m !! j = Some y ->
  m !! j = Some y \/ exists x, x ∈ xs /\ k x = j /\ v x = y.
Proof.
  revert m. induction xs as [|x xs IH]; intros m; [by left|]. cbn [fold_left]. intros [H|(x' & Hx & E)]%IH.
  - apply lookup_insert_Some in H as [[<- <-]|[_ H]]; [|by left]. right. exists x. by split; [left|].
  - right. exists x'. by split; [right|].
Qed.

Lemma NoDup_map_filter {A} (k : A -> string) (f : A -> bool) xs :
  NoDup (map k xs) -> NoDup (map k (List.filter f xs)).
Proof.
  induction xs as [|x xs IH]; cbn; [done|]. intros [Hx Hd]%NoDup_cons. destruct (f x); [|by apply IH].
  cbn. apply NoDup_cons. split; [|by apply IH]. intros (y & E & Hy)%list_elem_of_fmap. apply Hx.
  apply list_elem_of_In, filter_In in Hy as [Hy%list_elem_of_In _]. rewrite E. by apply list_elem_of_fmap_2.
Qed.

Lemma map_inj_in {A} (k : A -> string) xs x y :
  NoDup (map k xs) -> x ∈ xs -> y ∈ xs -> k x = k y -> x = y.
Proof.
  intros Hd Hx Hy E. apply list_elem_of_lookup in Hx as (i & Hi), Hy as (j & Hj).
  assert (i = j) as <-; [|congruence]. eapply NoDup_lookup; [exact Hd| |].
  - apply list_lookup_fmap_Some. exists x. by split.
  - apply list_lookup_fmap_Some. exists y. by split.
Qed.

(** ** The node a plant describes *)

Definition tags_of (p : Asset.Plant) (s : Asset.Source) : list TagRef :=
  Asset.TagsForSource (Asset.MakeIndex p) (Asset.Name s).

Definition run_of (p : Asset.Plant) (s : Asset.Source) : sourceRun :=
  mkRun s (fold_left (fun m t => <[Asset.tName (trTag t) := t]> m) (tags_of p s) ∅) 0.

Definition has_tags (p : Asset.Plant) (s : Asset.Source) : bool :=
  match tags_of p s with [] => false | _ => true end.

(** After the sources [done] the loop of [New] has built exactly their runs
    and the evaluators of their tags. *)
Record built (p : Asset.Plant) (done : list Asset.Source) (ss : gmap string sourceRun) (ord : list string)
    (evs : gmap string Evaluator) (hl h : Poller.Health) : Prop := {
  b_runs : forall k r, ss !! k = Some r <-> exists s, s ∈ done /\ has_tags p s = true /\ Asset.Name s = k /\ r = run_of p s;
  b_order : ord = map Asset.Name (List.filter (has_tags p) done);
  b_evals : forall s tr, s ∈ done -> tr ∈ tags_of p s ->
    evs !! topic_of tr = Some (Quality.New (eval_config p tr (Asset.PollInterval s)));
  b_health : h = fold_left (fun h s => Poller.Register (Asset.Name s) (Asset.Type_ s) h) (List.filter (has_tags p) done) hl
}.

Section New.
Context {C R : Type} {Hrand : LineSim.Rand R}.

Lemma tags_of_source p s tr : tr ∈ tags_of p s ->
  tr ∈ Asset.tag_refs p /\ Asset.aSource (Asset.rAsset (trAsset tr)) = Asset.Name s.
Proof.
  unfold tags_of. rewrite AssetIndex.TagsForSource_index. intros H%list_elem_of_In.
  by apply filter_In in H as [H%list_elem_of_In E%String.eqb_eq].
Qed.

Lemma tags_of_topics p s : Asset.well_formed p -> NoDup (map topic_of (tags_of p s)).
Proof.
  intros H. unfold tags_of. rewrite AssetIndex.TagsForSource_index. apply NoDup_map_filter, Asset.wf_topics, H.
Qed.

Lemma add_source_built d p done s ss ord evs hl h :
  Asset.Parse d = Ok p -> Sources.typed_registers p -> s ∈ Asset.Sources p ->
  (forall s', s' ∈ done -> Asset.Name s' <> Asset.Name s) -> built p done ss ord evs hl h ->
  exists ss' ord' evs' h',
    add_source (C := C) (R := R) p (Asset.MakeIndex p) (Ok (ss, ord, evs, h)) s = Ok (ss', ord', evs', h') /\
    built p (done ++ [s]) ss' ord' evs' hl h'.
Proof.
  intros Hp Hty Hs Hnew [Hr Ho He Hh0]. pose proof (AssetIndex.Parse_ok d p Hp) as (_ & Hwf).
  unfold add_source. fold (tags_of p s).
  assert (forall s', s' ∈ done ++ [s] <-> s' ∈ done \/ s' = s) as Hin
    by (intros s'; rewrite elem_of_app, list_elem_of_singleton; done).
  destruct (tags_of p s) as [|t ts] eqn:Et.
  { exists ss, ord, evs, h. split; [done|]. assert (has_tags p s = false) as Hf by (unfold has_tags; by rewrite Et).
    constructor.
    - intros k r. rewrite Hr. split; intros (s' & Hin' & Hh & E); exists s'.
      + split; [apply Hin; by left|done].
      + apply Hin in Hin' as [?| ->]; [done|]. by rewrite Hf in Hh.
    - rewrite List.filter_app, Ho. cbn. by rewrite Hf, app_nil_r.
    - intros s' tr [Hin'| ->]%Hin Htr; [by apply He|]. rewrite Et in Htr. by apply elem_of_nil in Htr.
    - rewrite List.filter_app, Hh0. cbn. by rewrite Hf, app_nil_r. }
  assert (tags_of p s <> []) as Hne by (by rewrite Et).
  destruct (Sources.New_accepts (C := C) (R := R) d p s Hp Hty Hs Hne) as (x & Ex). fold (tags_of p s) in Ex.
  rewrite <-Et. rewrite Ex. fold (run_of p s). do 4 eexists. split; [done|].
  assert (has_tags p s = true) as Hh by (unfold has_tags; by rewrite Et).
  constructor.
  - intros k r. destruct (decide (Asset.Name s = k)) as [<-|Hk].
    + rewrite lookup_insert_eq. split.
      * intros [= <-]. exists s. rewrite Hin. by split_and!; [right|..].
      * intros (s' & Hin' & _ & En & ->). apply Hin in Hin' as [Hin'| ->]; [by apply Hnew in Hin'|done].
    + rewrite lookup_insert_ne, Hr by done. split; intros (s' & Hin' & Hh' & En & Er); exists s'.
      * split; [apply Hin; by left|done].
      * apply Hin in Hin' as [?| ->]; done.
  - rewrite List.filter_app, map_app, <-Ho. cbn. by rewrite Hh.
  - intros s' tr [Hin'| ->]%Hin Htr.
    + rewrite AssetIndex.fold_insert_fresh; [by apply He|]. intros (tr' & E & Htr')%list_elem_of_fmap.
      apply tags_of_source in Htr as [Htr En], Htr' as [Htr' En'].
      assert (tr = tr') as -> by (by eapply map_inj_in; [apply (Asset.wf_topics p Hwf)|..]).
      apply (Hnew s' Hin'). congruence.
    + apply (fold_insert_in topic_of (fun t => Quality.New (eval_config p t (Asset.PollInterval s)))); [|done].
      by apply tags_of_topics.
  - rewrite List.filter_app, fold_left_app, <-Hh0. cbn. by rewrite Hh.
Qed.

Lemma New_loop d p hl todo : forall done ss ord evs h,
  Asset.Parse d = Ok p -> Sources.typed_registers p -> Asset.Sources p = done ++ todo -> built p done ss ord evs hl h ->
  exists ss' ord' evs' h',
    fold_left (add_source (C := C) (R := R) p (Asset.MakeIndex p)) todo (Ok (ss, ord, evs, h)) = Ok (ss', ord', evs', h') /\
    built p (Asset.Sources p) ss' ord' evs' hl h'.
Proof.
  induction todo as [|s todo IH]; intros done ss ord evs h Hp Hty Es Hb.
  { rewrite app_nil_r in Es. rewrite Es. by do 4 eexists. }
  pose proof (AssetIndex.Parse_ok d p Hp) as (_ & Hwf). pose proof (Asset.wf_source_names p Hwf) as Hd.
  rewrite Es, map_app, NoDup_app in Hd. destruct Hd as (_ & Hd & _). cbn [fold_left].
  destruct (add_source_built d p done s ss ord evs hl h) as (ss' & ord' & evs' & h' & E' & Hb'); try done.
  - rewrite Es, elem_of_app. right. left.
  - intros s' Hin E. apply (Hd (Asset.Name s')); [by apply list_elem_of_fmap_2|]. rewrite E. left.
  - rewrite E'. apply (IH (done ++ [s])); try done. by rewrite <-app_assoc.
Qed.

(** Some source of a well-formed plant has tags. *)
Lemma some_source p : Asset.well_formed p -> exists s, s ∈ Asset.Sources p /\ has_tags p s = true.
Proof.
  intros H. destruct (Asset.refs p) as [|r rs] eqn:Er; [by destruct (Asset.wf_some_asset p H)|].
  assert (r ∈ Asset.refs p) as Hr by (rewrite Er; left).
  pose proof (proj1 (Forall_forall _ _) (Asset.wf_refs p H) r Hr) as (_ & _ & Ht & s & Hs & _).
  pose proof (proj1 (Forall_forall _ _) (AssetValid.refs_sources p (Asset.source_map (Asset.Sources p))) r Hr) as Es.
  cbv beta in Es. rewrite Es in Hs. apply AssetIndex.source_map_lookup in Hs as [Hin En]; [|by apply Asset.wf_source_names].
  exists s. split; [done|]. unfold has_tags. destruct (tags_of p s) eqn:Et; [|done]. exfalso.
  destruct (Asset.aTags (Asset.rAsset r)) as [|t ts] eqn:Eat; [done|].
  assert (Asset.mkTagRef r t (Asset.topic_at p (Asset.rArea r) (Asset.rLine r) (Asset.rCell r) t) ∈ tags_of p s) as Hin2.
  { unfold tags_of. rewrite AssetIndex.TagsForSource_index. apply list_elem_of_In, filter_In.
    split; [|by apply String.eqb_eq]. apply list_elem_of_In, AssetIndex.tag_refs_in.
    cbn [trAsset trTag Asset.trTopic]. split_and!; [done| |done]. rewrite Eat. left. }
  rewrite Et in Hin2. by apply elem_of_nil in Hin2.
Qed.

Lemma run_of_tags p s t tr : tags (run_of p s) !! t = Some tr -> tr ∈ tags_of p s /\ Asset.tName (trTag tr) = t.
Proof.
  cbn. intros H. apply (fold_insert_inv _ (fun t => t)) in H as [H|(x & Hx & E & ->)]; [by rewrite lookup_empty in H|done].
Qed.

Lemma New_builds {B E} `{!BrokerOps B E} d p (b : B) hl ck :
  Asset.Parse d = Ok p -> Sources.typed_registers p ->
  exists n, New (C := C) (R := R) (Asset.MakeIndex p) b hl ck = Ok n /\
    built p (Asset.Sources p) (sources n) (order n) (evals n) hl (health n) /\
    tPlant n = p /\ broker n = b /\ latest n = NewLatest /\ node_ok n.
Proof.
  intros Hp Hty. pose proof (AssetIndex.Parse_ok d p Hp) as (_ & Hwf).
  unfold New. cbv zeta. rewrite AssetIndex.MakeIndex_plant.
  destruct (New_loop d p hl (Asset.Sources p) [] ∅ [] ∅ hl Hp Hty eq_refl) as (ss & ord & evs & h & -> & Hb).
  { constructor; [|done|by intros ? ? ?%elem_of_nil|done]. intros k r. rewrite lookup_empty.
    split; [done|]. by intros (s & ?%elem_of_nil & _). }
  destruct (some_source p Hwf) as (s0 & Hs0 & Hh0).
  rewrite decide_False.
  2:{ intros E0. assert (ss !! Asset.Name s0 = Some (run_of p s0)) as H0 by (apply (b_runs _ _ _ _ _ _ _ Hb); by exists s0).
      by rewrite E0, lookup_empty in H0. }
  eexists. split; [done|]. split_and!; try done. constructor; cbn [evals sources order].
  - intros s r t tr Hs Ht. apply (b_runs _ _ _ _ _ _ _ Hb) in Hs as (s' & Hin & _ & _ & ->).
    apply run_of_tags in Ht as [Ht _]. rewrite (b_evals _ _ _ _ _ _ _ Hb s' tr Hin Ht). by eexists.
  - intros k Hk. rewrite (b_order _ _ _ _ _ _ _ Hb) in Hk. apply list_elem_of_fmap in Hk as (s & -> & Hs).
    apply list_elem_of_In, filter_In in Hs as [Hs%list_elem_of_In Hh].
    exists (run_of p s). apply (b_runs _ _ _ _ _ _ _ Hb). by exists s.
Qed.
End New.
