(* ===== verification/EdgeProps.v ===== *)
(** * EdgeProps: what the edge node publishes

    The callbacks against pure descriptions of their effect: which messages
    go out, with which sequence numbers and verdicts, and what an outage does. *)
From Stdlib Require Import ZArith Lia SpecFloat.
From S2P Require Import Prelude GoBytes GoFloat Uns Quality Ports Latest Edge EdgeInv EdgeNew.
From S2P Require Collector Asset AssetValid AssetIndex LineSim Sources Memory.
Import Collector (Reading, mkReading, rTag, rValue, rAt).
Import Asset (TagRef, trAsset, trTag, topic_of).

Open Scope string_scope.
Open Scope list_scope.
Open Scope Z_scope.

Section Props.
Context {B E : Type} `{!BrokerOps B E}.
Variable render : json -> list byte.
Variable impl_int : float -> Z.

Abbreviation Nd := (Node B).
Abbreviation M := (GoM (Node B) EdgeError).

(** ** Publishing *)

Definition publish_msgs (out : list outgoing) (b : B) : B :=
  fold_left (fun b o => snd (bPublish (oMsg o) b)) out b.

Definition cache_all (out : list outgoing) (l : Latest) : Latest :=
  fold_left (fun l o => snd (SetMetric (Asset.aID (Asset.rAsset (trAsset (oTr o)))) (oM o) l)) out l.

Lemma publishAll_spec out (n : Nd) :
  publishAll out n = (Ok tt, set_broker (publish_msgs out (broker n)) (set_latest (cache_all out (latest n)) n)).
Proof.
  revert n. induction out as [|o out IH]; intros n; [by destruct n|].
  unfold publishAll in *. cbn [each]. unfold mbind, GoM_bind.
  unfold publish_one. destruct (SetMetric _ _ (latest n)) as [p l] eqn:El. unfold publish.
  unfold mbind, GoM_bind, mret, GoM_ret.
  destruct (bPublish (oMsg o) (broker (set_latest l n))) as [[a|e] b] eqn:Eb; rewrite IH;
    unfold publish_msgs, cache_all; cbn [fold_left]; rewrite El; cbn [snd];
    cbn in Eb; rewrite Eb; by destruct n.
Qed.

(** ** Readings *)

(** A reading of a tag the source knows. *)
Definition sample : Type := TagRef * Reading.

Definition value_of (x : sample) : float := Asset.Apply (Asset.tScale (trTag (fst x))) (rValue (snd x)).

Definition known (ts : gmap string TagRef) (rs : list Reading) : list sample :=
  omap (fun r => (fun tr => (tr, r)) <$> ts !! rTag r) rs.

(** The evaluator of topic [k] after the samples. *)
Definition observe_all (k : string) (xs : list sample) (e : Evaluator) : Evaluator :=
  fold_left (fun e x => if decide (topic_of (fst x) = k) then snd (Observe (value_of x) (rAt (snd x)) e) else e) xs e.

(** The message of a sample: [q] is its sequence number, [e] its evaluator. *)
Definition sample_message (s : string) (q : Z) (x : sample) (e : Evaluator) : option outgoing :=
  let tr := fst x in
  let at_ := rAt (snd x) in
  let verd := fst (Observe (value_of x) at_ e) in
  let m := metric tr s (Some (castValue impl_int (Asset.tDataType (trTag tr)) (value_of x))) at_ verd in
  (fun j => mkOutgoing tr (mkMessage (topic_of tr) (render j) true at_) m verd) <$>
    Marshal (mkPayload Data at_ q s (Some [m])).

(** The messages of the samples: the [i]-th has number [q + i] and is judged
    by its tag's history, the earlier samples of the batch included. *)
Definition messages (s : string) (q : Z) (evs : gmap string Evaluator) (xs : list sample) : list outgoing :=
  omap id (imap (fun i x =>
    e ← evs !! topic_of (fst x);
    sample_message s (u8 (q + Z.of_nat i)) x (observe_all (topic_of (fst x)) (take i xs) e)) xs).

Lemma messages_cons s q evs x xs e :
  is_u8 q -> evs !! topic_of (fst x) = Some e ->
  messages s q evs (x :: xs) =
  (match sample_message s q x e with Some o => [o] | None => [] end) ++
  messages s (u8 (q + 1)) (<[topic_of (fst x) := snd (Observe (value_of x) (rAt (snd x)) e)]> evs) xs.
Proof.
  intros Hq He. unfold messages. rewrite imap_cons.
  rewrite (imap_ext _ (fun i y => e0 ← <[topic_of (fst x) := snd (Observe (value_of x) (rAt (snd x)) e)]> evs !! topic_of (fst y);
      sample_message s (u8 (u8 (q + 1) + Z.of_nat i)) y (observe_all (topic_of (fst y)) (take i xs) e0)) xs).
  2:{ intros i y _. cbn [compose take].
    assert (u8 (u8 (q + 1) + Z.of_nat i) = u8 (q + Z.of_nat (S i))) as ->.
    { unfold u8, uwrap. rewrite Zplus_mod_idemp_l. f_equal. lia. }
    unfold observe_all. cbn [fold_left]. destruct (decide (topic_of (fst x) = topic_of (fst y))) as [Ek|Nk].
    - rewrite Ek, lookup_insert_eq, <-Ek, He. done.
    - by rewrite lookup_insert_ne. }
  rewrite He, Z.add_0_r. cbn [mbind option_bind take].
  change (observe_all (topic_of (fst x)) [] e) with e.
  assert (u8 q = q) as -> by (by apply uwrap_id).
  by destruct (sample_message s q x e).
Qed.

Lemma known_cons ts r rs : known ts (r :: rs) =
  match ts !! rTag r with Some tr => (tr, r) :: known ts rs | None => known ts rs end.
Proof. unfold known. cbn. by destruct (ts !! rTag r). Qed.

(** The locked part of [OnReadings]. *)
Lemma collect_readings s r rs : forall n : Nd,
  node_ok n -> sources n !! s = Some r -> is_u8 (seq r) -> Forall (fun x => IsZero (rAt x) = false) rs ->
  let ks := known (tags r) rs in
  exists n', collect (on_reading render impl_int s) rs n = (Ok (messages s (seq r) (evals n) ks), n') /\
    broker n' = broker n /\ latest n' = latest n /\ clock n' = clock n /\ ticks n' = ticks n /\
    sources n' = <[s := mkRun (def r) (tags r) (u8 (seq r + zlength ks))]> (sources n) /\
    (forall k, evals n' !! k = observe_all k ks <$> evals n !! k).
Proof.
  cbv zeta. revert r. induction rs as [|x rs IH]; intros r n Hok Hs Hq Hz.
  { exists n. split; [done|]. split_and!; try done.
    - change (zlength (known (tags r) [])) with 0. rewrite Z.add_0_r. unfold u8. rewrite uwrap_id by done.
      destruct r. by rewrite insert_id.
    - intros k. by destruct (evals n !! k). }
  apply Forall_cons in Hz as [Hx Hz]. cbn [collect].
  rewrite known_cons. unfold mbind at 1, GoM_bind at 1. unfold on_reading at 1.
  unfold mbind at 1, GoM_bind at 1. unfold run_tags. rewrite Hs.
  destruct (tags r !! rTag x) as [tr|] eqn:Et.
  2:{ unfold mret at 1, GoM_ret at 1. unfold mbind, GoM_bind.
      destruct (IH r n Hok Hs Hq Hz) as (n' & -> & H). exists n'. by split. }
  destruct (ok_evals n Hok s r _ tr Hs Et) as [e He].
  rewrite Hx. unfold mbind at 1, GoM_bind at 1. unfold mret at 1, GoM_ret at 1.
  unfold mbind at 1, GoM_bind at 1. unfold eval_of. rewrite He.
  destruct (Observe (Asset.Apply _ _) (rAt x) e) as [verd e'] eqn:Eo.
  unfold mbind at 1, GoM_bind at 1. unfold put_eval, modify.
  unfold data_message. unfold mbind at 1, GoM_bind at 1. unfold next_of. cbn [sources set_evals]. rewrite Hs.
  unfold Next. set (r1 := mkRun (def r) (tags r) (u8 (seq r + 1))).
  set (n1 := set_sources _ _).
  assert (evals n1 = <[topic_of tr := e']> (evals n)) as Ee by done.
  assert (sources n1 = <[s := r1]> (sources n)) as Es by done.
  assert (node_ok n1) as Hok1.
  { apply (keeps_ok n); [|done]. transitivity (set_evals (<[topic_of tr := e']> (evals n)) n); [apply keeps_put|].
    by apply (keeps_seq (set_evals (<[topic_of tr := e']> (evals n)) n)). }
  destruct (IH r1 n1 Hok1) as (n2 & E2 & Hb & Hl & Hck & Htk & Hsrc & Hev); try done.
  { rewrite Es. by rewrite lookup_insert_eq. }
  { apply uwrap_range. lia. }
  exists n2. rewrite (messages_cons s (seq r) (evals n) (tr, x) _ e Hq He). cbn [fst snd].
  unfold sample_message, value_of. cbn [fst snd]. rewrite Eo. cbn [fst snd].
  rewrite <-Ee. change (tags r1) with (tags r) in *. change (seq r1) with (u8 (seq r + 1)) in *.
  assert (forall k, evals n2 !! k = observe_all k ((tr, x) :: known (tags r) rs) <$> evals n !! k) as Hev'.
  { intros k. rewrite Hev, Ee. unfold observe_all. cbn [fold_left fst snd]. unfold value_of. cbn [fst snd].
    destruct (decide (topic_of tr = k)) as [<-|Hk].
    - rewrite lookup_insert_eq, He. cbn. by rewrite Eo.
    - by rewrite lookup_insert_ne. }
  assert (sources n2 = <[s := mkRun (def r) (tags r) (u8 (seq r + zlength ((tr, x) :: known (tags r) rs)))]> (sources n)) as Hsrc'.
  { rewrite Hsrc, Es, insert_insert_eq, zlength_cons. change (def r1) with (def r).
    unfold u8, uwrap. rewrite Zplus_mod_idemp_l. by rewrite Z.add_assoc. }
  destruct (Marshal _) as [j|]; unfold mret, GoM_ret; unfold mbind, GoM_bind; rewrite E2; by split_and!.
Qed.

(** C6: a poll's readings, each with its time, in order: each reading of a known tag is scaled,
    judged by its tag's history and published under the next sequence number
    with the cast value and the verdict; the broker and the latest-value table
    get exactly those messages, the evaluators exactly those samples, the
    source's number moves by the known readings (also by one that cannot be
    encoded), and readings of unknown tags change nothing. *)
Theorem OnReadings_spec (n : Nd) s r rs :
  node_ok n -> sources n !! s = Some r -> is_u8 (seq r) -> Forall (fun x => IsZero (rAt x) = false) rs ->
  let ks := known (tags r) rs in
  let out := messages s (seq r) (evals n) ks in
  exists n', OnReadings render impl_int s rs n = (Ok tt, n') /\
    broker n' = publish_msgs out (broker n) /\
    latest n' = cache_all out (latest n) /\
    sources n' = <[s := mkRun (def r) (tags r) (u8 (seq r + zlength ks))]> (sources n) /\
    (forall k, evals n' !! k = observe_all k ks <$> evals n !! k).
Proof.
  intros Hok Hs Hq Hz ks out.
  destruct (collect_readings s r rs n Hok Hs Hq Hz) as (n1 & E1 & Hb & Hl & _ & _ & Hsrc & Hev).
  eexists. split.
  - unfold OnReadings. rewrite Hs. unfold mbind, GoM_bind. rewrite E1. apply publishAll_spec.
  - cbn. by rewrite Hb, Hl.
Qed.

(** ** Outages *)

(** What [OnError] makes of an evaluator: one that is BAD already is left alone. *)
Definition outage (err : option string) (e : Evaluator) : Evaluator :=
  if String.eqb (vQuality (Current e)) QualityBad then e else snd (Comm err e).

Definition bad (e : Evaluator) : Prop := vQuality (Current e) = QualityBad.

Lemma outage_bad err e : bad (outage err e).
Proof. unfold outage. destruct (String.eqb_spec (vQuality (Current e)) QualityBad); done. Qed.

Lemma bad_outage err e : bad e -> outage err e = e.
Proof. intros H. unfold outage. by rewrite H. Qed.

Lemma sortedKeys_in (ts : gmap string TagRef) t : t ∈ sortedKeys ts <-> is_Some (ts !! t).
Proof.
  unfold sortedKeys. rewrite merge_sort_Permutation, list_elem_of_fmap. split.
  - intros ([k tr] & -> & H%elem_of_map_to_list). by exists tr.
  - intros [tr H]. exists (t, tr). split; [done|]. by apply elem_of_map_to_list.
Qed.

(** [k] is the topic of one of the tags [names]. *)
Definition topic_of_some (ts : gmap string TagRef) (names : list string) (k : string) : bool :=
  existsb (fun t => match ts !! t with Some tr => String.eqb (topic_of tr) k | None => false end) names.

Lemma topic_of_some_true ts names k :
  topic_of_some ts names k = true <-> exists t tr, t ∈ names /\ ts !! t = Some tr /\ topic_of tr = k.
Proof.
  unfold topic_of_some. rewrite existsb_exists. split.
  - intros (t & Ht%list_elem_of_In & H). destruct (ts !! t) as [tr|] eqn:E1; [|done]. exists t, tr.
    by apply String.eqb_eq in H.
  - intros (t & tr & Ht%list_elem_of_In & E1 & <-). exists t. rewrite E1. by rewrite String.eqb_refl.
Qed.

Definition outages (err : option string) (ts : gmap string TagRef) (names : list string) (k : string)
    (e : Evaluator) : Evaluator :=
  if topic_of_some ts names k then outage err e else e.

Lemma on_error_tag_spec (n : Nd) s r err t :
  node_ok n -> sources n !! s = Some r ->
  runs (on_error_tag render impl_int s (tags r) err t) n (fun _ n' =>
    keeps n n' /\ forall k, evals n' !! k = outages err (tags r) [t] k <$> evals n !! k).
Proof.
  intros Hok Hr. unfold on_error_tag, outages, topic_of_some. cbn [existsb].
  destruct (tags r !! t) as [tr|] eqn:Et.
  2:{ apply runs_ret. split; [done|]. intros k. cbn. by destruct (evals n !! k). }
  destruct (ok_evals n Hok s r _ tr Hr Et) as [e He]. apply runs_bind. eapply runs_eval; [done|].
  destruct (String.eqb (vQuality (Current e)) QualityBad) eqn:Eb.
  { apply runs_ret. split; [done|]. intros k. rewrite orb_false_r.
    destruct (String.eqb_spec (topic_of tr) k) as [<-|]; [|by destruct (evals n !! k)].
    rewrite He. cbn. unfold outage. by rewrite Eb. }
  destruct (Comm err e) as [verd e'] eqn:Ec. apply runs_bind, runs_put_eval, runs_bind, runs_now.
  eapply runs_mono; [by apply (data_message_keeps _ _ tr s r)|]. intros o n2 (Hk & -> & _).
  split.
  - etransitivity; [apply (keeps_put n (topic_of tr) e')|]. etransitivity; [|exact Hk]. by apply keeps_frame.
  - intros k. cbn [evals with_seq set_sources set_ticks set_evals]. rewrite orb_false_r.
    destruct (String.eqb_spec (topic_of tr) k) as [<-|Hne].
    + rewrite lookup_insert_eq, He. cbn. unfold outage. by rewrite Eb, Ec.
    + rewrite lookup_insert_ne by done. by destruct (evals n !! k).
Qed.

Lemma outages_cons err ts t names k e :
  outages err ts names k (outages err ts [t] k e) = outages err ts (t :: names) k e.
Proof.
  unfold outages, topic_of_some. cbn [existsb]. rewrite orb_false_r.
  destruct (match ts !! t with Some tr => _ | None => _ end); [|done]. cbn [orb].
  destruct (existsb _ names); [|done]. apply bad_outage, outage_bad.
Qed.

Lemma collect_outage (n : Nd) s r err names :
  node_ok n -> sources n !! s = Some r ->
  runs (collect (on_error_tag render impl_int s (tags r) err) names) n (fun _ n' =>
    keeps n n' /\ forall k, evals n' !! k = outages err (tags r) names k <$> evals n !! k).
Proof.
  revert n r. induction names as [|t names IH]; intros n r Hok Hr.
  { apply runs_ret. split; [done|]. intros k. cbn. by destruct (evals n !! k). }
  cbn [collect]. apply runs_bind. eapply runs_mono; [by apply on_error_tag_spec|].
  intros y n1 H1. cbv beta in H1. destruct H1 as [Hk1 He1].
  destruct (keeps_run _ _ _ _ Hk1 Hr) as (r1 & Hr1 & _ & Et). rewrite <-Et.
  apply runs_bind. eapply runs_mono; [apply (IH n1 r1); [by apply (keeps_ok n)|done]|].
  intros ys n2 H2. cbv beta in H2. destruct H2 as [Hk2 He2]. apply runs_ret. split; [by transitivity n1|].
  intros k. rewrite He2, He1, Et, <-option_fmap_compose. apply option_fmap_ext. intros e. apply outages_cons.
Qed.

(** The tags an error announces, with their evaluators before it: those that
    are not BAD yet, in the order of their names (a topic once). *)
Fixpoint announced (ts : gmap string TagRef) (evs : gmap string Evaluator) (names : list string)
    : list (TagRef * Evaluator) :=
  match names with
  | [] => []
  | t :: rest =>
      match (tr ← ts !! t; pair tr <$> evs !! topic_of tr) with
      | Some (tr, e) =>
          if String.eqb (vQuality (Current e)) QualityBad then announced ts evs rest
          else (tr, e) :: List.filter (fun x => negb (String.eqb (topic_of (fst x)) (topic_of tr))) (announced ts evs rest)
      | None => announced ts evs rest
      end
  end.

(** The announcement of a tag: its last value, BAD because the read failed. *)
Definition outage_message (s : string) (err : option string) (q : Z) (t : Time) (x : TagRef * Evaluator) : option outgoing :=
  let verd := mkVerdict QualityBad RuleComm (ReadFailed err) in
  let m := metric (fst x) s (last_value impl_int (fst x) (snd x)) t verd in
  (fun j => mkOutgoing (fst x) (mkMessage (topic_of (fst x)) (render j) true t) m verd) <$>
    Marshal (mkPayload Data t q s (Some [m])).

(** The announcements: the [i]-th has number [q + i] and the [i]-th time. *)
Definition outage_messages (s : string) (err : option string) (q : Z) (times : nat -> Time)
    (xs : list (TagRef * Evaluator)) : list outgoing :=
  omap id (imap (fun i x => outage_message s err (u8 (q + Z.of_nat i)) (times i) x) xs).

Lemma outage_messages_cons s err q times x xs : is_u8 q ->
  outage_messages s err q times (x :: xs) =
  (match outage_message s err q (times O) x with Some o => [o] | None => [] end) ++
  outage_messages s err (u8 (q + 1)) (times ∘ S) xs.
Proof.
  intros Hq. unfold outage_messages. rewrite imap_cons. cbn [omap list_omap id].
  rewrite Z.add_0_r. assert (u8 q = q) as -> by (by apply uwrap_id).
  rewrite (imap_ext _ (fun i y => outage_message s err (u8 (u8 (q + 1) + Z.of_nat i)) ((times ∘ S) i) y) xs).
  2:{ intros i y _. cbn [compose]. f_equal. unfold u8, uwrap. rewrite Zplus_mod_idemp_l. f_equal. lia. }
  unfold id at 1. by destruct (outage_message s err q (times O) x).
Qed.

Lemma last_value_comm tr e v : last_value impl_int tr
  (mkEvaluator (cfg e) (seen e) (last e) (lastAt e) (lastChange e) (unchanged e) v true) = last_value impl_int tr e.
Proof. done. Qed.

Lemma outage_messages_ext s err q times times' xs : (forall i, times i = times' i) ->
  outage_messages s err q times xs = outage_messages s err q times' xs.
Proof. intros H. unfold outage_messages. f_equal. apply imap_ext. intros i x _. by rewrite H. Qed.

(** A topic that just went BAD is not announced again. *)
Lemma announced_flagged ts evs names k e :
  bad e -> announced ts (<[k := e]> evs) names = List.filter (fun x => negb (String.eqb (topic_of (fst x)) k)) (announced ts evs names).
Proof.
  intros He. induction names as [|t names IH]; [done|]. cbn [announced].
  destruct (ts !! t) as [tr|]; cbn [mbind option_bind]; [|done].
  destruct (String.eqb_spec (topic_of tr) k) as [<-|Hk].
  - rewrite lookup_insert_eq. cbn [fmap option_fmap option_map]. rewrite (proj2 (String.eqb_eq _ _) He).
    destruct (evs !! topic_of tr) as [e0|]; cbn [fmap option_fmap option_map]; [|done].
    destruct (String.eqb (vQuality (Current e0)) QualityBad); [done|].
    cbn [List.filter fst]. rewrite String.eqb_refl. cbn [negb]. rewrite IH. clear.
    induction (announced ts evs names) as [|y l IH]; [done|]. cbn [List.filter].
    destruct (negb (String.eqb (topic_of (fst y)) (topic_of tr))) eqn:E1; [|done]. cbn [List.filter]. by rewrite E1, <- IH.
  - rewrite lookup_insert_ne by done.
    destruct (evs !! topic_of tr) as [e0|]; cbn [fmap option_fmap option_map]; [|done].
    destruct (String.eqb (vQuality (Current e0)) QualityBad); [done|].
    cbn [List.filter fst]. rewrite (proj2 (String.eqb_neq _ _) Hk). cbn [negb]. f_equal. rewrite IH. clear.
    induction (announced ts evs names) as [|y l IH]; [done|]. cbn [List.filter].
    destruct (negb (String.eqb (topic_of (fst y)) k)) eqn:E1, (negb (String.eqb (topic_of (fst y)) (topic_of tr))) eqn:E2;
      cbn [List.filter]; rewrite ?E1, ?E2; by rewrite ?IH.
Qed.

(** Which topics an error announces, and that it announces each once. *)
Lemma announced_topics ts evs names :
  NoDup (map (fun x => topic_of (fst x)) (announced ts evs names)) /\
  forall k, k ∈ map (fun x => topic_of (fst x)) (announced ts evs names) <->
    exists t tr e, t ∈ names /\ ts !! t = Some tr /\ topic_of tr = k /\ evs !! k = Some e /\ ~ bad e.
Proof.
  assert (forall k (l : list (TagRef * Evaluator)) k',
    k' ∈ map (fun x => topic_of (fst x)) (List.filter (fun x => negb (String.eqb (topic_of (fst x)) k)) l) <->
    k' <> k /\ k' ∈ map (fun x => topic_of (fst x)) l) as Hf.
  { intros k l k'. rewrite !list_elem_of_In, !in_map_iff. setoid_rewrite filter_In. split.
    - intros (x & <- & Hx & H%negb_true_iff%String.eqb_neq). split; [done|]. by exists x.
    - intros (Hn & x & <- & Hx). exists x. split_and!; try done. by apply negb_true_iff, String.eqb_neq. }
  induction names as [|t names [IH1 IH2]].
  { split; [constructor|]. intros k. split; [by intros ?%not_elem_of_nil|]. by intros (? & ? & ? & ?%not_elem_of_nil & _). }
  assert (forall k, (exists t0 tr e, t0 ∈ t :: names /\ ts !! t0 = Some tr /\ topic_of tr = k /\ evs !! k = Some e /\ ~ bad e) <->
    (exists tr e, ts !! t = Some tr /\ topic_of tr = k /\ evs !! k = Some e /\ ~ bad e) \/
    k ∈ map (fun x => topic_of (fst x)) (announced ts evs names)) as Hs.
  { intros k. rewrite IH2. split.
    - intros (t0 & tr & e & [->|Hin]%elem_of_cons & H); [left; by exists tr, e|right; by exists t0, tr, e].
    - intros [(tr & e & H)|(t0 & tr & e & Hin & H)]; [exists t|exists t0]; exists tr, e; (split; [|exact H]); [left|by right]. }
  setoid_rewrite Hs. clear Hs IH2. cbn [announced]. destruct (ts !! t) as [tr|] eqn:Et; cbn [mbind option_bind].
  2:{ split; [done|]. intros k. split; [by right|]. by intros [(? & ? & ? & _)|]. }
  destruct (evs !! topic_of tr) as [e|] eqn:Ee; cbn [fmap option_fmap option_map].
  2:{ split; [done|]. intros k. split; [by right|]. intros [(? & ? & [= <-] & <- & ? & _)|]; [congruence|done]. }
  destruct (String.eqb_spec (vQuality (Current e)) QualityBad) as [Hb|Hb].
  { split; [done|]. intros k. split; [by right|]. intros [(? & ? & [= <-] & <- & ? & H)|]; [|done]. exfalso. apply H. unfold bad. congruence. }
  cbn [map fst]. split.
  - constructor; [rewrite Hf; by intros [? _]|]. revert IH1. clear. induction (announced ts evs names) as [|x l IH]; [done|].
    cbn [map List.filter]. intros [H1 H2]%NoDup_cons. destruct (negb _) eqn:E; [|by apply IH]. cbn [map]. constructor; [|by apply IH].
    intros Hin. apply H1. revert Hin. rewrite !list_elem_of_In, !in_map_iff. intros (y & Ey & [Hy _]%filter_In). by exists y.
  - intros k. rewrite elem_of_cons, Hf. split.
    + intros [->|[_ ?]]; [left|by right]. by exists tr, e.
    + intros [(? & ? & [= <-] & <- & _)|H]; [by left|]. destruct (decide (k = topic_of tr)); [by left|right; done].
Qed.

(** The locked part of [OnError]: what it collects, and what it leaves. *)
Lemma collect_announced s err r names : forall n : Nd,
  node_ok n -> sources n !! s = Some r -> is_u8 (seq r) ->
  let xs := announced (tags r) (evals n) names in
  exists n', collect (on_error_tag render impl_int s (tags r) err) names n =
      (Ok (outage_messages s err (seq r) (fun i => clock n (ticks n + i)%nat) xs), n') /\
    broker n' = broker n /\ latest n' = latest n /\
    sources n' = <[s := mkRun (def r) (tags r) (u8 (seq r + zlength xs))]> (sources n).
Proof.
  cbv zeta. revert r. induction names as [|t names IH]; intros r n Hok Hs Hq.
  { exists n. split_and!; try done. cbn. rewrite Z.add_0_r. unfold u8. rewrite uwrap_id by done.
    destruct r. by rewrite insert_id. }
  cbn [collect announced]. unfold mbind at 1, GoM_bind at 1. unfold on_error_tag at 1.
  destruct (tags r !! t) as [tr|] eqn:Et; cbn [mbind option_bind].
  2:{ destruct (IH r n Hok Hs Hq) as (n' & E' & H). exists n'. split; [|done]. unfold mret, GoM_ret, mbind, GoM_bind. by rewrite E'. }
  destruct (ok_evals n Hok s r _ tr Hs Et) as [e He]. unfold mbind at 1, GoM_bind at 1, eval_of. rewrite He.
  cbn [fmap option_fmap option_map]. destruct (String.eqb (vQuality (Current e)) QualityBad) eqn:Eb.
  { destruct (IH r n Hok Hs Hq) as (n' & E' & H). exists n'. split; [|done]. unfold mret, GoM_ret, mbind, GoM_bind. by rewrite E'. }
  destruct (Comm err e) as [verd e'] eqn:Ec. unfold mbind at 1, GoM_bind at 1. unfold put_eval, modify.
  unfold mbind at 1, GoM_bind at 1. unfold now. unfold data_message, mbind at 1, GoM_bind at 1. unfold next_of.
  cbn [sources set_evals set_ticks]. rewrite Hs. unfold Next. set (r1 := mkRun (def r) (tags r) (u8 (seq r + 1))).
  set (n1 := set_sources _ _).
  assert (node_ok n1) as Hok1.
  { apply (keeps_ok n); [|done]. transitivity (set_evals (<[topic_of tr := e']> (evals n)) n); [apply keeps_put|].
    transitivity (set_ticks (S (ticks n)) (set_evals (<[topic_of tr := e']> (evals n)) n)); [by apply keeps_frame|].
    by apply (keeps_seq (set_ticks (S (ticks n)) (set_evals (<[topic_of tr := e']> (evals n)) n))). }
  assert (evals n1 = <[topic_of tr := e']> (evals n)) as Ee by done.
  assert (sources n1 = <[s := r1]> (sources n)) as Es by done.
  destruct (IH r1 n1 Hok1) as (n2 & E2 & Hb & Hl & Hsrc); [by rewrite Es, lookup_insert_eq|apply uwrap_range; lia|].
  change (tags r1) with (tags r) in *. change (seq r1) with (u8 (seq r + 1)) in *. change (def r1) with (def r) in *.
  rewrite Ee, announced_flagged in E2, Hsrc by (by pose proof (outage_bad err e) as H; unfold outage in H; rewrite Eb, Ec in H).
  exists n2. rewrite outage_messages_cons by done. unfold outage_message at 1. cbn [fst snd]. injection Ec as <- <-.
  rewrite last_value_comm.
  cbn [clock ticks set_evals set_ticks]. rewrite Nat.add_0_r.
  rewrite (outage_messages_ext s err _ (_ ∘ S) (fun i => clock n1 (ticks n1 + i)%nat)).
  2:{ intros i. unfold n1. cbn. f_equal. lia. }
  split_and!; [|done|done|].
  - destruct (Marshal _) as [j|]; unfold mret, GoM_ret, mbind, GoM_bind; by rewrite E2.
  - rewrite Hsrc, Es, insert_insert_eq, zlength_cons. unfold u8, uwrap. rewrite Zplus_mod_idemp_l. by rewrite Z.add_assoc.
Qed.

(** When every tag is BAD the loop of [OnError] does nothing. *)
Lemma collect_flagged (n : Nd) s ts err names :
  (forall t tr, ts !! t = Some tr -> exists e, evals n !! topic_of tr = Some e /\ bad e) ->
  collect (on_error_tag render impl_int s ts err) names n = (Ok [], n).
Proof.
  intros H. induction names as [|t names IH]; [done|].
  assert (on_error_tag render impl_int s ts err t n = (Ok None, n)) as Et.
  { unfold on_error_tag. destruct (ts !! t) as [tr|] eqn:Et; [|done]. destruct (H t tr Et) as (e & He & Hb).
    unfold mbind, GoM_bind, eval_of. rewrite He. unfold bad in Hb. by rewrite Hb. }
  cbn [collect]. unfold mbind, GoM_bind at 1. rewrite Et. unfold GoM_bind. by rewrite IH.
Qed.

Lemma outages_all err ts k e : outages err ts (sortedKeys ts) k e =
  if decide (exists t tr, ts !! t = Some tr /\ topic_of tr = k) then outage err e else e.
Proof.
  assert (topic_of_some ts (sortedKeys ts) k = true <-> exists t tr, ts !! t = Some tr /\ topic_of tr = k) as Hin.
  { rewrite topic_of_some_true. split.
    - intros (t & tr & _ & Ht & E'). by exists t, tr.
    - intros (t & tr & Ht & E'). exists t, tr. split; [apply sortedKeys_in; by exists tr|done]. }
  unfold outages. destruct (topic_of_some _ _ k); case_decide as Hd; try done.
  - by destruct Hd; apply Hin.
  - by apply Hin in Hd.
Qed.

Lemma evals_all_bad (n n' : Nd) s r err : node_ok n -> sources n !! s = Some r ->
  (forall k, evals n' !! k = (fun e => if decide (exists t tr, tags r !! t = Some tr /\ topic_of tr = k)
    then outage err e else e) <$> evals n !! k) ->
  forall t tr, tags r !! t = Some tr -> exists e, evals n' !! topic_of tr = Some e /\ bad e.
Proof.
  intros Hok Hr Hev t tr Ht. destruct (ok_evals n Hok s r t tr Hr Ht) as [e0 H0]. exists (outage err e0).
  split; [|apply outage_bad]. rewrite Hev, H0. cbn. rewrite decide_True; [done|]. by exists t, tr.
Qed.

(** C21: an outage is announced once. A poll error announces, in the order of
    their names, exactly the tags of its source that are not BAD yet, each
    topic once: under the next sequence number, at the next reading of the
    clock, with the tag's last value and quality BAD because the read failed
    (one that cannot be encoded only takes its number and its time).
    The broker and the latest-value table get exactly those messages and the
    source's number moves by them. Every tag of the source is BAD after it; the
    evaluators of other sources, and of tags that were BAD already, are as they
    were. Every further error of the source changes nothing at all: no message,
    no sequence number, no state. *)
Theorem OnError_once (n : Nd) s r err :
  node_ok n -> sources n !! s = Some r -> is_u8 (seq r) ->
  let xs := announced (tags r) (evals n) (sortedKeys (tags r)) in
  let out := outage_messages s err (seq r) (fun i => clock n (ticks n + i)%nat) xs in
  NoDup (map (fun x => topic_of (fst x)) xs) /\
  (forall k, k ∈ map (fun x => topic_of (fst x)) xs <->
    exists t tr e, tags r !! t = Some tr /\ topic_of tr = k /\ evals n !! k = Some e /\ ~ bad e) /\
  exists n', OnError render impl_int s err n = (Ok tt, n') /\ keeps n n' /\
    broker n' = publish_msgs out (broker n) /\
    latest n' = cache_all out (latest n) /\
    sources n' = <[s := mkRun (def r) (tags r) (u8 (seq r + zlength xs))]> (sources n) /\
    (forall k, evals n' !! k =
      (fun e => if decide (exists t tr, tags r !! t = Some tr /\ topic_of tr = k) then outage err e else e)
        <$> evals n !! k) /\
    (forall t tr, tags r !! t = Some tr -> exists e, evals n' !! topic_of tr = Some e /\ bad e) /\
    forall err', OnError render impl_int s err' n' = (Ok tt, n').
Proof.
  intros Hok Hr Hq xs out. destruct (announced_topics (tags r) (evals n) (sortedKeys (tags r))) as [Hnd Ht].
  split; [done|]. split.
  { intros k. unfold xs. rewrite Ht. split; [intros (t & tr & e & _ & H); by exists t, tr, e|].
    intros (t & tr & e & Htr & H). exists t, tr, e. split; [apply sortedKeys_in; by exists tr|done]. }
  destruct (collect_outage n s r err (sortedKeys (tags r)) Hok Hr) as (out' & n1 & E1 & Hk & He).
  destruct (collect_announced s err r (sortedKeys (tags r)) n Hok Hr Hq) as (n1' & E1' & Hb & Hl & Hsrc).
  rewrite E1 in E1'. injection E1' as -> <-.
  pose proof (publishAll_spec out n1) as E2. destruct (publishAll_keeps n1 out) as ([] & n2 & E2' & Hk2 & He2 & Hs2).
  rewrite E2 in E2'. injection E2' as E2'.
  assert (keeps n n2) as Hkn by (by transitivity n1).
  assert (forall k, evals n2 !! k = (fun e => if decide (exists t tr, tags r !! t = Some tr /\ topic_of tr = k)
    then outage err e else e) <$> evals n !! k) as Hev.
  { intros k. rewrite He2, He. apply option_fmap_ext. intros e. apply outages_all. }
  pose proof (evals_all_bad n n2 s r err Hok Hr Hev) as Hbad.
  exists n2. split_and!; try done.
  - unfold OnError. rewrite Hr. unfold mbind, GoM_bind. rewrite E1. change (publishAll out n1 = (Ok tt, n2)). by rewrite E2, E2'.
  - by rewrite <- E2', <- Hb.
  - by rewrite <- E2', <- Hl.
  - by rewrite Hs2.
  - intros err'. destruct (keeps_run _ _ _ _ Hkn Hr) as (r2 & Hr2 & _ & Et).
    unfold OnError. rewrite Hr2, Et. unfold mbind, GoM_bind. by rewrite collect_flagged.
Qed.

End Props.
