(* ===== verification/EdgeLife.v ===== *)
(** * EdgeLife: the life of the edge node

    From an accepted plant file to the deaths: the node is built, announces
    its sources and handles any interleaving of callbacks without panicking.
    Two concrete runs show where an accepted plant does not get what it asks for. *)
From Stdlib Require Import ZArith Lia SpecFloat.
From S2P Require Import Prelude GoBytes GoFloat Uns Quality Ports Latest Edge EdgeInv EdgeNew EdgeProps.
From S2P Require Collector Asset AssetValid AssetIndex LineSim Sources Poller Memory Plants.
Import Collector (Reading, mkReading, rTag, rValue, rAt).
Import Asset (TagRef, trAsset, trTag, topic_of).

Open Scope string_scope.
Open Scope list_scope.
Open Scope Z_scope.

Section Life.
Context {C R : Type} {Hrand : LineSim.Rand R}.
Context {B E : Type} `{!BrokerOps B E}.
Variable render : json -> list byte.
Variable impl_int : float -> Z.

Lemma Run_tame (n : Node B) evs : node_ok n -> exists res n',
  Run render impl_int evs n = (res, n') /\ keeps n n' /\
  (res = Ok tt \/ exists e, res = Err e /\ (e = EMarshal \/ e = EPublish) /\ fst (births render n) = Err e).
Proof.
  intros Hok. unfold Run, mbind, GoM_bind.
  destruct (births_tame render n Hok) as ([[]|e] & n1 & E1 & Hk1 & He); rewrite E1.
  2:{ exists (Err e), n1. split_and!; [done..|]. right. exists e. by auto. }
  assert (node_ok n1) as Hok1 by (by apply (keeps_ok n)).
  destruct (events_keep render impl_int n1 evs Hok1) as ([] & n2 & -> & Hk2).
  destruct (deaths_keep render n2) as ([] & n3 & -> & Hk3); [by apply (keeps_ok n1)|].
  exists (Ok tt), n3. split_and!; [done| |by left]. transitivity n2; [by transitivity n1|done].
Qed.

(** C8: a plant that parses gives a node that runs. [New] succeeds on its
    index, whatever the broker; then the births, any sequence of readings,
    poll errors and staleness ticks of any source, known or not, and the
    deaths run to the end without a nil dereference and keep the node well
    formed. The only way to fail is a BIRTH that cannot be encoded or published. *)
Theorem Run_safe (d p : Asset.Plant) (b : B) (hl : Poller.Health) (ck : nat -> Time) (evs : list event) :
  Asset.Parse d = Ok p -> Sources.typed_registers p ->
  exists n res n', New (C := C) (R := R) (Asset.MakeIndex p) b hl ck = Ok n /\
    Run render impl_int evs n = (res, n') /\ node_ok n /\ node_ok n' /\ keeps n n' /\
    (res = Ok tt \/ exists e, res = Err e /\ (e = EMarshal \/ e = EPublish) /\ fst (births render n) = Err e).
Proof.
  intros Hp Hty. destruct (New_builds (C := C) (R := R) d p b hl ck Hp Hty) as (n & En & _ & _ & _ & _ & Hok).
  destruct (Run_tame n evs Hok) as (res & n' & Er & Hk & H).
  exists n, res, n'. split_and!; try done. by apply (keeps_ok n).
Qed.

(** ** Births *)

(** What the BIRTH of a source says of the tag [tr], with its evaluator [e]:
    the last value if there is one, else none; the tag's current verdict. *)
Definition birth_metric (s : string) (tr : TagRef) (e : Evaluator) (t : Time) : Metric :=
  if seen e then
    let m := metric tr s None t (Current e) in
    mkMetric (mName m) (lastAt e) (mDataType m) (Some (VFloat64 (last e))) (mQuality m) (mTopic m) (mContext m)
  else metric tr s None t (Current e).

(** The metrics of the tags [names], read with the clock from tick [k]. *)
Fixpoint birth_metrics (s : string) (ts : gmap string TagRef) (evs : gmap string Evaluator) (ck : nat -> Time)
    (k : nat) (names : list string) : list Metric :=
  match names with
  | [] => []
  | name :: rest =>
      match tr ← ts !! name; (fun e => (tr, e)) <$> evs !! topic_of tr with
      | Some (tr, e) => birth_metric s tr e (ck k) :: birth_metrics s ts evs ck (S k) rest
      | None => birth_metrics s ts evs ck k rest
      end
  end.

Lemma births_collect s ts names : forall n : Node B,
  (forall name, name ∈ names -> exists tr e, ts !! name = Some tr /\ evals n !! topic_of tr = Some e) ->
  collect (fun name =>
    match ts !! name with
    | None => mret None
    | Some tr =>
        ev ← eval_of (topic_of tr);
        t ← now;
        let m := metric tr s None t (Current ev) in
        let '(v, at_, ok) := Last ev in
        mret (Some (if ok : bool then
          mkMetric (mName m) at_ (mDataType m) (Some (VFloat64 v)) (mQuality m) (mTopic m) (mContext m)
        else m))
    end) names n =
  (Ok (birth_metrics s ts (evals n) (clock n) (ticks n) names), set_ticks (ticks n + length names) n).
Proof.
  induction names as [|name names IH]; intros n H.
  { cbn. rewrite Nat.add_0_r. by destruct n. }
  destruct (H name ltac:(left)) as (tr & e & Et & Ee). cbn [collect birth_metrics]. rewrite Et.
  change (Some tr ≫= fun tr => (fun e => (tr, e)) <$> evals n !! topic_of tr)
    with ((fun e => (tr, e)) <$> evals n !! topic_of tr).
  rewrite Ee. cbn [fmap option_fmap option_map].
  unfold mbind at 1, GoM_bind at 1. unfold mbind at 1, GoM_bind at 1. unfold eval_of. rewrite Ee.
  unfold mbind at 1, GoM_bind at 1. unfold now. cbv zeta. unfold Last, birth_metric. cbv beta iota.
  unfold mret at 1, GoM_ret at 1. unfold mbind, GoM_bind. rewrite IH.
  - destruct (seen e); unfold mret, GoM_ret, set_ticks; cbn; by rewrite Nat.add_succ_r.
  - intros x Hx. by apply H; right.
Qed.

Lemma birth_metrics_names s ts evs ck names : forall k,
  (forall name, name ∈ names -> exists tr e, ts !! name = Some tr /\ evs !! topic_of tr = Some e) ->
  map mName (birth_metrics s ts evs ck k names) =
  map (fun name => default "" ((fun tr => Asset.tName (trTag tr)) <$> ts !! name)) names.
Proof.
  induction names as [|name names IH]; intros k H; [done|].
  destruct (H name ltac:(left)) as (tr & e & Et & Ee). cbn [birth_metrics map]. rewrite Et.
  change (Some tr ≫= fun tr => (fun e => (tr, e)) <$> evs !! topic_of tr)
    with ((fun e => (tr, e)) <$> evs !! topic_of tr).
  rewrite Ee. cbn [fmap option_fmap option_map default map].
  rewrite IH by (intros; apply H; by right). f_equal. unfold birth_metric. by destruct (seen e).
Qed.

Lemma sortedKeys_NoDup (ts : gmap string TagRef) : NoDup (sortedKeys ts).
Proof. unfold sortedKeys. rewrite merge_sort_Permutation. apply NoDup_fst_map_to_list. Qed.

(** C22: a BIRTH is complete and restarts the count. It lists every tag of the
    source once, in the order of their names, each with its last value and
    verdict; its sequence number is 0 and the next message of the source has
    number 1, whatever the count was; it is retained on the source's BIRTH
    topic. It fails only when it cannot be encoded, and then nothing is
    published, or when the broker refuses it. *)
Theorem birth_complete (n : Node B) s r :
  node_ok n -> sources n !! s = Some r ->
  let names := sortedKeys (tags r) in
  let ms := birth_metrics s (tags r) (evals n) (clock n) (ticks n) names in
  let t := clock n (ticks n + length names) in
  let n1 := set_ticks (S (ticks n + length names)) (with_seq s r 1 n) in
  let topic := LifecycleTopic (Asset.Enterprise (tPlant n)) (Asset.Site (tPlant n)) s Birth in
  NoDup names /\ (forall name, name ∈ names <-> is_Some (tags r !! name)) /\
  map mName ms = map (fun name => default "" ((fun tr => Asset.tName (trTag tr)) <$> tags r !! name)) names /\
  publishLifecycle render s Birth n =
    match Marshal (mkPayload Birth t 0 s (Some ms)) with
    | None => (Err EMarshal, n1)
    | Some j =>
        match bPublish (mkMessage topic (render j) true t) (broker n) with
        | (Ok _, b) => (Ok tt, set_broker b n1)
        | (Err _, b) => (Err EPublish, set_broker b n1)
        end
    end.
Proof.
  intros Hok Hr. cbv zeta.
  assert (forall q name, name ∈ sortedKeys (tags r) -> exists tr e,
    tags r !! name = Some tr /\ evals (with_seq s r q n) !! topic_of tr = Some e) as Hin.
  { intros q name [tr Ht]%sortedKeys_in. destruct (ok_evals n Hok s r name tr Hr Ht) as [e He]. by exists tr, e. }
  split_and!.
  - apply sortedKeys_NoDup.
  - intros name. apply sortedKeys_in.
  - apply birth_metrics_names, (Hin 0).
  - unfold publishLifecycle. rewrite String.eqb_refl. unfold mbind at 1, GoM_bind at 1.
    unfold mbind at 1, GoM_bind at 1. unfold reset_of. rewrite Hr. fold (with_seq s r (SequencerReset (seq r)) n).
    change (SequencerReset (seq r)) with 0. set (n0 := with_seq s r 0 n).
    assert (sources n0 !! s = Some (mkRun (def r) (tags r) 0)) as Hr0 by (cbn; by rewrite lookup_insert_eq).
    unfold mbind at 1, GoM_bind at 1. unfold run_tags. rewrite Hr0. cbn [tags].
    unfold mbind at 1, GoM_bind at 1. rewrite births_collect by apply (Hin 0).
    unfold mret at 1, GoM_ret at 1. unfold mbind at 1, GoM_bind at 1. unfold now.
    unfold mbind at 1, GoM_bind at 1. unfold next_of. cbn [sources set_ticks]. rewrite Hr0.
    unfold Next. cbn [seq def tags]. change (evals n0) with (evals n). change (clock n0) with (clock n).
    change (ticks n0) with (ticks n).
    unfold n0, with_seq, set_sources, set_ticks. cbn [sources evals clock ticks order latest tPlant broker].
    rewrite insert_insert_eq. change (u8 (0 + 1)) with 1.
    destruct (Marshal _) as [j|]; [|done]. unfold mbind, GoM_bind, publish. cbn [broker].
    by destruct (bPublish _ (broker n)) as [[]].
Qed.
End Life.

(** ** Concrete runs *)

Global Instance no_rand : LineSim.Rand unit := {
  LineSim.NewSource _ := tt;
  LineSim.Float64 r := (fzero, r);
  LineSim.NormFloat64 r := (fzero, r)
}.

Definition brace : json -> list byte := fun _ => [x7b; x7d].
Definition noon (k : nat) : Time := Z.of_nat k * Second.

(** The node of a plant over the in-memory broker. *)
Definition start (d : Asset.Plant) : result EdgeError (Node Memory.Broker.Broker) :=
  New (C := unit) (R := unit) (Asset.MakeIndex (Asset.applyDefaults d)) Memory.Broker.NewBroker Poller.NewHealth noon.

Definition run_node (d : Asset.Plant) (evs : list event) : result EdgeError unit * option (Node Memory.Broker.Broker) :=
  match start d with
  | Err e => (Err e, None)
  | Ok n => let '(r, n') := Run brace trunc_Z evs n in (r, Some n')
  end.

Lemma Run_safe_witness :
  exists n res n', start Plants.plant_modbus = Ok n /\
    Run brace trunc_Z [Readings "plc-line-1" [mkReading "speed" (of_Z 100) 5; mkReading "rpm" fzero 5];
      PollError "plc-line-1" (Some "timeout"); StaleTick; StaleTick] n = (res, n') /\ node_ok n'.
Proof.
  assert (Asset.Parse Plants.plant_modbus = Ok (Asset.applyDefaults Plants.plant_modbus)) as Hp by (by vm_compute).
  destruct (Run_safe (C := unit) (R := unit) brace trunc_Z Plants.plant_modbus _ Memory.Broker.NewBroker Poller.NewHealth noon
    [Readings "plc-line-1" [mkReading "speed" (of_Z 100) 5; mkReading "rpm" fzero 5];
     PollError "plc-line-1" (Some "timeout"); StaleTick; StaleTick] Hp Sources.plant_modbus_typed)
    as (n & res & n' & H1 & H2 & _ & H3 & _).
  exists n, res, n'. split_and!; [exact H1|exact H2|exact H3].
Defined.

(** A node of plant_modbus whose source has sent 255 messages. *)
Definition sample_run : sourceRun :=
  mkRun (Asset.default_source Plants.plc)
    (fold_left (fun m t => <[Asset.tName (trTag t) := t]> m)
       (Asset.TagsForSource (Asset.MakeIndex (Asset.applyDefaults Plants.plant_modbus)) "plc-line-1") ∅) 255.

Definition sample_node : Node Memory.Broker.Broker :=
  mkNode (Asset.applyDefaults Plants.plant_modbus) Memory.Broker.NewBroker NewLatest noon O
    {["plc-line-1" := sample_run]}
    ["plc-line-1"]
    (fold_left (fun m t => <[topic_of t := Quality.New (eval_config (Asset.applyDefaults Plants.plant_modbus) t Second)]> m)
       (Asset.tag_refs (Asset.applyDefaults Plants.plant_modbus)) ∅)
    (Poller.Register "plc-line-1" Asset.SourceModbus Poller.NewHealth).

(** A decidable form of [node_ok]. *)
Definition node_okb {B} (n : Node B) : bool :=
  forallb (fun '(_, r) => forallb (fun '(_, tr) => bool_decide (is_Some (evals n !! topic_of tr))) (map_to_list (tags r)))
    (map_to_list (sources n)) &&
  forallb (fun s => bool_decide (is_Some (sources n !! s))) (order n).

Lemma node_okb_ok {B} (n : Node B) : node_okb n = true -> node_ok n.
Proof.
  unfold node_okb. intros [H1 H2]%andb_true_iff. rewrite forallb_forall in H1. rewrite forallb_forall in H2. split.
  - intros s r t tr Hs Ht. apply elem_of_map_to_list, list_elem_of_In in Hs. specialize (H1 _ Hs). cbv beta in H1.
    rewrite forallb_forall in H1. apply elem_of_map_to_list, list_elem_of_In in Ht. specialize (H1 _ Ht).
    by apply bool_decide_eq_true in H1.
  - intros s Hs%list_elem_of_In. specialize (H2 _ Hs). by apply bool_decide_eq_true in H2.
Qed.

Lemma sample_node_ok : node_ok sample_node.
Proof. apply node_okb_ok. by vm_compute. Qed.

Lemma sample_run_in : sources sample_node !! "plc-line-1" = Some sample_run.
Proof. apply lookup_singleton_eq. Qed.

Lemma OnReadings_spec_witness :
  exists n', OnReadings brace trunc_Z "plc-line-1"
      [mkReading "speed" (of_Z 700) 5; mkReading "rpm" fzero 5; mkReading "state" (of_Z 2) 6] sample_node = (Ok tt, n') /\
    seq <$> sources n' !! "plc-line-1" = Some 1.
Proof.
  destruct (OnReadings_spec brace trunc_Z sample_node "plc-line-1" sample_run
    [mkReading "speed" (of_Z 700) 5; mkReading "rpm" fzero 5; mkReading "state" (of_Z 2) 6]
    sample_node_ok sample_run_in) as (n' & H1 & _ & _ & H2 & _).
  { by split. }
  { by repeat constructor. }
  exists n'. split; [exact H1|]. rewrite H2, lookup_insert_eq. by vm_compute.
Defined.

Lemma OnError_once_witness :
  exists n', OnError brace trunc_Z "plc-line-1" (Some "timeout") sample_node = (Ok tt, n') /\
    seq <$> sources n' !! "plc-line-1" = Some 6 /\
    OnError brace trunc_Z "plc-line-1" None n' = (Ok tt, n').
Proof.
  destruct (OnError_once brace trunc_Z sample_node "plc-line-1" sample_run (Some "timeout") sample_node_ok sample_run_in)
    as (_ & _ & n' & H1 & _ & _ & _ & H3 & _ & _ & H2).
  { by split. }
  exists n'. split; [exact H1|]. split; [|apply H2]. rewrite H3, lookup_insert_eq. by vm_compute.
Defined.

Lemma birth_complete_witness :
  NoDup (sortedKeys (tags sample_run)) /\
  fst (publishLifecycle brace "plc-line-1" Birth sample_node) = Ok tt.
Proof.
  destruct (birth_complete brace sample_node "plc-line-1" sample_run sample_node_ok sample_run_in) as (H1 & _ & _ & H2).
  split; [exact H1|]. rewrite H2. by vm_compute.
Defined.

(** Two tags of one source with the same name shadow each other. The plant
    is accepted and its index knows both topics, but [New] keys the tags of a
    source by their bare name: both readings of a poll are published on the
    topic of the last one, and the first tag is never heard of. *)
Theorem same_name_shadowed :
  let p := Asset.applyDefaults Plants.twin_plant in
  let one := "acme/p1/a/l/c1/temperature" in
  let two := "acme/p1/a/l/c2/temperature" in
  Asset.Parse Plants.twin_plant = Ok p /\ Asset.Topics (Asset.MakeIndex p) = [one; two] /\
  match run_node Plants.twin_plant [Readings "plc" [mkReading "temperature" (of_Z 20) 5; mkReading "temperature" (of_Z 90) 5]] with
  | (Ok _, Some n) =>
      Memory.Broker.retained (broker n) !! one = None /\ is_Some (Memory.Broker.retained (broker n) !! two) /\
      AssetMetrics "m1" (latest n) = None /\ length <$> AssetMetrics "m2" (latest n) = Some 1%nat /\
      seq <$> sources n !! "plc" = Some 4
  | _ => False
  end.
Proof. cbv zeta. vm_compute. split_and!; try done. by eexists. Qed.

(** Validation accepts a range with an infinite bound, which no payload
    can carry: the node of such a plant fails at its first BIRTH, before
    anything is published. *)
Theorem infinite_range_stops :
  Asset.Parse Plants.open_plant = Ok (Asset.applyDefaults Plants.open_plant) /\
  match run_node Plants.open_plant [] with
  | (Err EMarshal, Some n) => Memory.Broker.published (broker n) = 0
  | _ => False
  end.
Proof. by vm_compute. Qed.
