(* ===== verification/EdgeRace.v ===== *)
(** * EdgeRace: the callbacks of the edge node, interleaved

    [Edge] runs a callback as one step. In the code only its evaluation is
    inside the node's mutex; [publishAll] runs after it, one message at a time,
    while other callbacks run. Each source's poller makes one callback at a
    time, and so does the staleness ticker; different ones overlap freely. *)
From Stdlib Require Import ZArith Lia SpecFloat.
From S2P Require Import Prelude GoBytes GoFloat Uns Quality Ports Latest Edge EdgeInv.
From S2P Require Collector Asset Memory Poller EdgeLife Plants.
Import Collector (Reading, mkReading, rTag, rValue, rAt).
Import Asset (TagRef, trAsset, trTag, topic_of).

Open Scope string_scope.
Open Scope list_scope.
Open Scope Z_scope.

Section Race.
Context {B E : Type} `{!BrokerOps B E}.
Variable render : json -> list byte.
Variable impl_int : float -> Z.

Abbreviation M := (GoM (Node B) EdgeError).

(** The block of a callback inside the mutex: what it will publish. *)
Definition evaluate (ev : event) : M (list outgoing) := fun n =>
  match ev with
  | Readings s rs =>
      match sources n !! s with
      | None => (Ok [], n)
      | Some _ => collect (on_reading render impl_int s) rs n
      end
  | PollError s err =>
      match sources n !! s with
      | None => (Ok [], n)
      | Some r => collect (on_error_tag render impl_int s (tags r) err) (sortedKeys (tags r)) n
      end
  | StaleTick => (t ← now; check_sources render impl_int t (order n)) n
  end.

(** Who makes a callback: the poller of a source, or the ticker. *)
Definition owner (ev : event) : option string :=
  match ev with Readings s _ | PollError s _ => Some s | StaleTick => None end.

(** What comes next for the first message of a callback: [latest.Set], its
    collectors (the cache had the quality [prev]), or [broker.Publish]. *)
Inductive stage := ToCache | ToCount (prev : option Uns.Quality) | ToPublish.

Record callback := mkCallback { cOwner : option string; cOut : list outgoing; cStage : stage }.

(** The node, the callbacks that still have messages to publish, and three
    histories, with the owners: what was evaluated, cached and published. *)
Record racing := mkRacing {
  rNode : Node B;
  pool : list callback;
  evaluated : list (option string * outgoing);
  cached : list (option string * outgoing);
  published : list (option string * outgoing)
}.

Definition busy (o : option string) (r : racing) : bool := existsb (fun c => bool_decide (cOwner c = o)) (pool r).

(** A callback enters; [publish_next] is the next step of the [k]-th one in
    [publishAll], which returns when it has no message left. *)
Definition enter (ev : event) (r : racing) : racing :=
  if busy (owner ev) r then r
  else
    match evaluate ev (rNode r) with
    | (Ok out, n) =>
        mkRacing n (pool r ++ [mkCallback (owner ev) out ToCache]) (evaluated r ++ map (pair (owner ev)) out) (cached r) (published r)
    | (Err _, n) => mkRacing n (pool r) (evaluated r) (cached r) (published r)
    end.

(** [n.latest.Set(o.tr.Asset.ID, o.m)]. *)
Definition cache_one (x : outgoing) (n : Node B) : option Uns.Quality * Node B :=
  let '(prev, l) := SetMetric (Asset.aID (Asset.rAsset (trAsset (oTr x)))) (oM x) (latest n) in (prev, set_latest l n).

(** [n.broker.Publish(ctx, o.msg)]. *)
Definition send_one (x : outgoing) (n : Node B) : Node B := snd (publish (E := E) (oMsg x) n).

Definition publish_next (k : nat) (r : racing) : racing :=
  match pool r !! k with
  | None => r
  | Some c =>
      match cOut c with
      | [] => mkRacing (rNode r) (take k (pool r) ++ drop (S k) (pool r)) (evaluated r) (cached r) (published r)
      | x :: rest =>
          let next c' n := mkRacing n (<[k := c']> (pool r)) (evaluated r) in
          match cStage c with
          | ToCache =>
              let '(prev, n) := cache_one x (rNode r) in
              next (mkCallback (cOwner c) (x :: rest) (ToCount prev)) n (cached r ++ [(cOwner c, x)]) (published r)
          | ToCount _ => next (mkCallback (cOwner c) (x :: rest) ToPublish) (rNode r) (cached r) (published r)
          | ToPublish => next (mkCallback (cOwner c) rest ToCache) (send_one x (rNode r)) (cached r) (published r ++ [(cOwner c, x)])
          end
      end
  end.

Inductive move := Enter (ev : event) | Next (k : nat).

Definition moved (r : racing) (m : move) : racing :=
  match m with Enter ev => enter ev r | Next k => publish_next k r end.

Definition race (n : Node B) (ms : list move) : racing := fold_left moved ms (mkRacing n [] [] [] []).

(** ** Specification *)

(** The messages of one owner, and what it still has to cache and to publish. *)
Definition by_owner (o : option string) (l : list (option string * outgoing)) : list outgoing :=
  map snd (List.filter (fun p => bool_decide (fst p = o)) l).

Definition left_of (f : callback -> list outgoing) (o : option string) (p : list callback) : list outgoing :=
  concat (map f (List.filter (fun c => bool_decide (cOwner c = o)) p)).

Definition uncached (c : callback) : list outgoing := match cStage c with ToCache => cOut c | _ => tail (cOut c) end.

Definition to_publish : option string -> list callback -> list outgoing := left_of cOut.
Definition to_cache : option string -> list callback -> list outgoing := left_of uncached.

(** The broker after publications, and the cache after updates, in this order. *)
Definition broker_after (l : list (option string * outgoing)) (b : B) : B :=
  fold_left (fun b p => snd (bPublish (oMsg (snd p)) b)) l b.

Definition latest_after (l : list (option string * outgoing)) (c : Latest) : Latest :=
  fold_left (fun c p => snd (SetMetric (Asset.aID (Asset.rAsset (trAsset (oTr (snd p))))) (oM (snd p)) c)) l c.

(** ** Lemmas *)

(** Callbacks that do not overlap are the callbacks of [Edge]. *)
Lemma serial_event ev n : handle_event render impl_int ev n = (out ← evaluate ev; publishAll out) n.
Proof.
  destruct ev as [s rs|s err|]; cbn [handle_event evaluate].
  - unfold OnReadings, mbind, GoM_bind, evaluate. by destruct (sources n !! s).
  - unfold OnError, mbind, GoM_bind, evaluate. by destruct (sources n !! s).
  - unfold checkStale, evaluate, mbind, GoM_bind. by destruct (now n) as [[t|e] n'].
Qed.

Lemma serial_publish x n : publish_one x n = (Ok tt, send_one x (snd (cache_one x n))).
Proof.
  unfold publish_one, cache_one, send_one. destruct (SetMetric _ _ _) as [p l]. cbn [snd].
  unfold mbind, GoM_bind, publish. by destruct (bPublish (oMsg x) _) as [[a|e] b].
Qed.

(** [m] changes neither the broker nor the cache. *)
Definition quiet {A} (m : M A) : Prop := forall n, broker (snd (m n)) = broker n /\ latest (snd (m n)) = latest n.

Lemma quiet_ret {A} (a : A) : quiet (mret a). Proof. done. Qed.
Lemma quiet_now : quiet now. Proof. done. Qed.
Lemma quiet_put t e : quiet (put_eval t e). Proof. done. Qed.
Lemma quiet_eval t : quiet (eval_of t). Proof. intros n. unfold eval_of. by destruct (_ !! _). Qed.
Lemma quiet_tags s : quiet (run_tags s). Proof. intros n. unfold run_tags. by destruct (_ !! _). Qed.
Lemma quiet_next s : quiet (next_of s). Proof. intros n. unfold next_of. by destruct (_ !! _). Qed.

Lemma quiet_bind {A A'} (m : M A) (f : A -> M A') : quiet m -> (forall a, quiet (f a)) -> quiet (m ≫= f).
Proof.
  intros Hm Hf n. unfold mbind, GoM_bind. pose proof (Hm n) as [H1 H2]. destruct (m n) as [[a|e] n']; [|done].
  cbn in H1, H2. rewrite <- H1, <- H2. apply Hf.
Qed.

Lemma quiet_collect {A A'} (f : A -> M (option A')) xs : (forall x, quiet (f x)) -> quiet (collect f xs).
Proof.
  intros H. induction xs as [|x xs IH]; [apply quiet_ret|]. cbn [collect]. apply quiet_bind; [apply H|].
  intros o. apply quiet_bind; [done|]. intros ys. apply quiet_ret.
Qed.

Create HintDb quiet.
#[local] Hint Resolve quiet_ret quiet_now quiet_put quiet_eval quiet_tags quiet_next : quiet.

Ltac quiet := repeat first
  [ solve [auto with quiet]
  | apply quiet_bind; [|intros ?]
  | match goal with
    | |- quiet (match ?x with _ => _ end) => destruct x
    | |- quiet (if ?x then _ else _) => destruct x
    end ].

Lemma quiet_data tr s m t v : quiet (data_message render tr s m t v).
Proof. unfold data_message. quiet. Qed.
#[local] Hint Resolve quiet_data : quiet.

Lemma quiet_on_reading s rd : quiet (on_reading render impl_int s rd).
Proof. unfold on_reading. quiet. Qed.

Lemma quiet_on_error s ts err name : quiet (on_error_tag render impl_int s ts err name).
Proof. unfold on_error_tag. quiet. Qed.

Lemma quiet_check s ts t name : quiet (check_tag render impl_int s ts t name).
Proof. unfold check_tag. quiet. Qed.

Lemma quiet_check_sources t names : quiet (check_sources render impl_int t names).
Proof.
  induction names as [|s names IH]; [apply quiet_ret|]. cbn [check_sources]. quiet.
  apply quiet_collect. intros. apply quiet_check.
Qed.

Lemma quiet_evaluate ev : quiet (evaluate ev).
Proof.
  intros n. destruct ev as [s rs|s err|]; cbn [evaluate].
  - destruct (_ !! _); [|done]. apply quiet_collect. intros. apply quiet_on_reading.
  - destruct (_ !! _); [|done]. apply quiet_collect. intros. apply quiet_on_error.
  - apply quiet_bind; [apply quiet_now|]. intros. apply quiet_check_sources.
Qed.

Lemma by_owner_app o a b : by_owner o (a ++ b) = by_owner o a ++ by_owner o b.
Proof. unfold by_owner. by rewrite List.filter_app, map_app. Qed.

Lemma by_owner_pair o o' out : by_owner o (map (pair o') out) = if decide (o' = o) then out else [].
Proof.
  unfold by_owner. induction out as [|x out IH]; [by destruct (decide _)|]. cbn [map List.filter fst].
  rewrite bool_decide_decide. destruct (decide (o' = o)); [|done]. cbn [map snd]. by rewrite IH.
Qed.

Lemma by_owner_snoc o l o' x : by_owner o (l ++ [(o', x)]) = by_owner o l ++ if decide (o' = o) then [x] else [].
Proof. rewrite by_owner_app. f_equal. apply (by_owner_pair o o' [x]). Qed.

Lemma left_app f o a b : left_of f o (a ++ b) = left_of f o a ++ left_of f o b.
Proof. unfold left_of. by rewrite List.filter_app, map_app, concat_app. Qed.

Lemma left_one f o c : left_of f o [c] = if decide (cOwner c = o) then f c else [].
Proof.
  unfold left_of. cbn [List.filter]. rewrite bool_decide_decide.
  destruct (decide (cOwner c = o)); [|done]. cbn. by rewrite app_nil_r.
Qed.

Lemma left_none f o p : o ∉ map cOwner p -> left_of f o p = [].
Proof.
  unfold left_of. induction p as [|c p IH]; [done|]. cbn [map]. intros [H1 H2]%not_elem_of_cons.
  cbn [List.filter]. rewrite bool_decide_false by done. by apply IH.
Qed.

Lemma busy_in o r : busy o r = false -> o ∉ map cOwner (pool r).
Proof.
  intros H (c & -> & Hc)%list_elem_of_fmap. assert (busy (cOwner c) r = true) as Hb; [|congruence].
  unfold busy. apply existsb_exists. exists c. split; [by apply list_elem_of_In|by apply bool_decide_eq_true].
Qed.

(** One callback per owner: the others have nothing of it. *)
Lemma others_none f p k c : p !! k = Some c -> NoDup (map cOwner p) -> left_of f (cOwner c) (take k p ++ drop (S k) p) = [].
Proof.
  intros Hk Hn. rewrite <- (take_drop_middle p k c Hk), map_app in Hn. cbn in Hn.
  apply NoDup_app in Hn as (_ & Hd & [Hd' _]%NoDup_cons). apply left_none. rewrite map_app.
  intros [Ho|Ho]%elem_of_app; [apply (Hd _ Ho); left|done].
Qed.

Lemma left_around f o p k c : p !! k = Some c -> NoDup (map cOwner p) ->
  left_of f o p = left_of f o (take k p ++ drop (S k) p) ++ (if decide (cOwner c = o) then f c else []).
Proof.
  intros Hk Hn. pose proof (others_none f p k c Hk Hn) as H0. rewrite left_app in *.
  rewrite <- (take_drop_middle p k c Hk) at 1. change (c :: drop (S k) p) with ([c] ++ drop (S k) p).
  rewrite !left_app, left_one. destruct (decide (cOwner c = o)) as [<-|]; [|by rewrite app_nil_r].
  apply app_nil in H0 as [-> ->]. by rewrite app_nil_r.
Qed.

Lemma left_set f o p k c c' : p !! k = Some c -> NoDup (map cOwner p) -> cOwner c' = cOwner c ->
  left_of f o (<[k := c']> p) = left_of f o (take k p ++ drop (S k) p) ++ (if decide (cOwner c = o) then f c' else []).
Proof.
  intros Hk Hn Ho. pose proof (lookup_lt_Some _ _ _ Hk) as Hl.
  rewrite (left_around f o (<[k := c']> p) k c'); [|by apply list_lookup_insert_eq|].
  - rewrite Ho, take_insert_ge, drop_insert_lt by lia. done.
  - by rewrite list_fmap_insert, list_insert_id by (by rewrite list_lookup_fmap, Hk, Ho).
Qed.

(** One callback per owner, so an owner's messages stay in order. *)
Record in_turn (r : racing) : Prop := {
  it_once : NoDup (map cOwner (pool r));
  it_published : forall o, by_owner o (published r) ++ to_publish o (pool r) = by_owner o (evaluated r);
  it_cached : forall o, by_owner o (cached r) ++ to_cache o (pool r) = by_owner o (evaluated r)
}.

Record lined_up (n0 : Node B) (r : racing) : Prop := {
  lu_turn : in_turn r;
  lu_broker : broker (rNode r) = broker_after (published r) (broker n0);
  lu_latest : latest (rNode r) = latest_after (cached r) (latest n0)
}.

(** Only the bookkeeping matters to [in_turn]. *)
Lemma in_turn_node n r : in_turn r -> in_turn (mkRacing n (pool r) (evaluated r) (cached r) (published r)).
Proof. by intros [? ? ?]. Qed.

Lemma enter_in_turn ev r : in_turn r -> in_turn (enter ev r).
Proof.
  intros [H1 H2 H3]. unfold enter. destruct (busy _ r) eqn:Eb; [done|].
  destruct (evaluate ev (rNode r)) as [[out|e] n]; [|done]. constructor; cbn [pool evaluated published cached].
  - rewrite map_app. cbn. apply NoDup_app. split_and!; [done| |apply NoDup_singleton].
    intros o Ho ->%list_elem_of_singleton. by apply (busy_in _ _ Eb).
  - intros o. unfold to_publish in *. by rewrite left_app, left_one, by_owner_app, by_owner_pair, app_assoc, H2.
  - intros o. unfold to_cache in *. by rewrite left_app, left_one, by_owner_app, by_owner_pair, app_assoc, H3.
Qed.

Lemma next_in_turn k r : in_turn r -> in_turn (publish_next k r).
Proof.
  intros [H1 H2 H3]. unfold publish_next. destruct (pool r !! k) as [c|] eqn:Ek; [|done].
  assert (forall c', cOwner c' = cOwner c -> map cOwner (<[k := c']> (pool r)) = map cOwner (pool r)) as Hm.
  { intros c' E'. by rewrite list_fmap_insert, list_insert_id by (by rewrite list_lookup_fmap, Ek, E'). }
  pose proof (fun f o => left_around f o _ _ _ Ek H1) as La.
  pose proof (fun f o c' => left_set f o _ _ _ c' Ek H1) as Ls. unfold to_publish, to_cache in *.
  destruct (cOut c) as [|x rest] eqn:Ec.
  - constructor; unfold to_publish, to_cache; cbn [pool evaluated published cached].
    + rewrite <- (take_drop_middle _ _ _ Ek), map_app in H1. rewrite map_app. cbn in H1.
      apply NoDup_app in H1 as (? & Hd & [? ?]%NoDup_cons). apply NoDup_app. split_and!; [done| |done].
      intros y Hy Hy'. apply (Hd y Hy). by right.
    + intros o. rewrite <- H2, (La cOut), Ec. destruct (decide _); by rewrite app_nil_r.
    + intros o. rewrite <- H3, (La uncached). assert (uncached c = []) as -> by (unfold uncached; rewrite Ec; by destruct (cStage c)). destruct (decide _); by rewrite app_nil_r.
  - destruct (cStage c) as [|prev|] eqn:Es; [destruct (cache_one x (rNode r)) as [prev n]|..].
    all: constructor; unfold to_publish, to_cache; cbn [pool evaluated published cached]; [by rewrite Hm|intros o; rewrite <- H2|intros o; rewrite <- H3].
    all: rewrite ?by_owner_snoc, Ls, La by done; cbn [cOut]; unfold uncached; cbn [cOut cStage]; rewrite ?Ec, ?Es.
    all: destruct (decide _) as [<-|]; rewrite ?app_nil_r; try done.
    all: rewrite <- !app_assoc; f_equal; cbn [tail app].
    all: by rewrite (others_none _ _ _ _ Ek H1).
Qed.

Lemma send_one_after x n : broker (send_one x n) = snd (bPublish (oMsg x) (broker n)) /\ latest (send_one x n) = latest n.
Proof. unfold send_one, publish. by destruct (bPublish (oMsg x) (broker n)) as [[a|e] b]. Qed.

Lemma enter_lined n0 ev r : lined_up n0 r -> lined_up n0 (enter ev r).
Proof.
  intros [H1 H2 H3]. constructor; [by apply enter_in_turn|..]; unfold enter; (destruct (busy _ r); [done|]);
    pose proof (quiet_evaluate ev (rNode r)) as [Q1 Q2]; destruct (evaluate ev (rNode r)) as [[out|e] n];
    cbn [snd rNode published cached] in *; congruence.
Qed.

Lemma next_lined n0 k r : lined_up n0 r -> lined_up n0 (publish_next k r).
Proof.
  intros [H1 H2 H3]. constructor; [by apply next_in_turn|..]; unfold publish_next;
    (destruct (pool r !! k) as [c|]; [|done]); (destruct (cOut c) as [|x rest]; [done|]);
    pose proof (send_one_after x (rNode r)) as [P1 P2]; destruct (cStage c) as [|prev|]; cbn [rNode published cached];
    rewrite ?P1, ?P2; try done; unfold cache_one.
  - unfold broker_after. by rewrite fold_left_app, H2.
  - destruct (SetMetric _ _ _) as [prev l] eqn:E1. cbn [cached rNode latest set_latest]. unfold latest_after in *.
    rewrite fold_left_app. cbn [fold_left snd]. by rewrite <- H3, E1.
Qed.

Lemma race_lined n0 ms : lined_up n0 (race n0 ms).
Proof.
  induction ms as [|m ms IH] using rev_ind; [by constructor; [constructor; [constructor|..]|..]|].
  unfold race. rewrite fold_left_app. destruct m; [by apply enter_lined|by apply next_lined].
Qed.

(** The cache is at most one message of an owner ahead of the broker. *)
Lemma cache_ahead o r : in_turn r ->
  exists l, by_owner o (cached r) = by_owner o (published r) ++ l /\ (length l <= 1)%nat.
Proof.
  intros [H1 H2 H3]. assert (exists l, to_publish o (pool r) = l ++ to_cache o (pool r) /\ (length l <= 1)%nat) as (l & E1 & Hl).
  { unfold to_publish, to_cache. destruct (decide (o ∈ map cOwner (pool r))) as [Hin|Hin].
    - apply list_elem_of_fmap in Hin as (c & -> & [k Hk]%list_elem_of_lookup).
      rewrite !(left_around _ _ _ _ _ Hk H1), !decide_True by done.
      rewrite !(others_none _ _ _ _ Hk H1). cbn [app].
      unfold uncached. destruct (cStage c); [by exists []; split; [|cbn; lia]|..];
        (destruct (cOut c) as [|x rest]; [by exists []; split; [|cbn; lia]|]; by exists [x]).
    - rewrite !left_none by done. exists []. split; [done|]. cbn. lia. }
  exists l. split; [|done]. specialize (H2 o). specialize (H3 o). rewrite E1, app_assoc, <- H3 in H2. by apply app_inv_tail in H2.
Qed.
End Race.

(** ** Properties *)

(** C20: interleaved callbacks lose nothing and keep each owner's order. For
    any interleaving of evaluations and of the steps of [publishAll] (the cache
    is set, the change is counted, the message is published), every message a
    poller or the ticker evaluated is cached once and published once, each in
    the order of its owner's evaluations, or is still to be; a message is
    cached before it is published and an owner's next one after it. The cache
    and the broker are what the messages, each in the order in which they were
    cached and published, make of them; with several owners the two orders can
    differ. *)
Theorem race_conserves {B E : Type} `{!BrokerOps B E} (render : json -> list byte) (impl_int : float -> Z)
    (n : Node B) (ms : list move) :
  let r := race render impl_int n ms in
  (forall o, by_owner o (published r) ++ to_publish o (pool r) = by_owner o (evaluated r) /\
     by_owner o (cached r) ++ to_cache o (pool r) = by_owner o (evaluated r) /\
     exists l, by_owner o (cached r) = by_owner o (published r) ++ l /\ (length l <= 1)%nat) /\
  broker (rNode r) = broker_after (published r) (broker n) /\
  latest (rNode r) = latest_after (cached r) (latest n).
Proof.
  intros r. destruct (race_lined render impl_int n ms) as [H1 H2 H3]. split_and!; try done.
  intros o. split; [by apply it_published|]. split; [by apply it_cached|by apply cache_ahead].
Qed.

(** A node of plant_modbus a hundred seconds after its last start. *)
Definition late_node : Node Memory.Broker.Broker :=
  let n := EdgeLife.sample_node in
  mkNode (tPlant n) (broker n) (latest n) (fun k => Z.of_nat (k + 100) * Second) (ticks n) (sources n) (order n) (evals n) (health n).

Definition speed_topic : string := "acme/austin/packaging/line-1/filling/speed".

Definition speed_at (t : Time) : event := Readings "plc-line-1" [mkReading "speed" (of_Z 100) t].

(** What the cache and the evaluator say of the speed, and what was published of it. *)
Definition speed_latest (r : racing (B := Memory.Broker.Broker)) : option Uns.Quality := mQuality <$> TopicMetric speed_topic (latest (rNode r)).
Definition speed_verdict (r : racing (B := Memory.Broker.Broker)) : option Uns.Quality :=
  (fun e => vQuality (Current e)) <$> evals (rNode r) !! speed_topic.
Definition speed_published (r : racing (B := Memory.Broker.Broker)) : list (Uns.Quality * Time) :=
  map (fun p => (mQuality (oM (snd p)), mTimestamp (oM (snd p)))) (List.filter (fun p => String.eqb (mTopic (oM (snd p))) speed_topic) (published r)).

(** A callback caches, counts and publishes its message, and returns. *)
Definition whole (k : nat) : list move := [Next k; Next k; Next k; Next k].

Definition speed_cached (r : racing (B := Memory.Broker.Broker)) : list Uns.Quality :=
  map (fun p => mQuality (oM (snd p))) (List.filter (fun p => String.eqb (mTopic (oM (snd p))) speed_topic) (cached r)).

(** The ticker finds the speed stale; before it goes on, a reading arrives
    and is published; then the ticker goes on. *)
Definition overtaking : list move :=
  [Enter (speed_at (90 * Second))] ++ whole 0 ++ [Enter StaleTick; Enter (speed_at (101 * Second))] ++ whole 1 ++ whole 0.

(** A check right after. *)
Definition next_check : list move := Enter StaleTick :: whole 0.

(** A stale verdict can outlive the reading that refutes it. In an
    interleaving of the staleness ticker with one reading, nothing is left to
    publish and the speed's verdict is GOOD, but the last publication and the
    cached, retained value are the STALE one, older than the GOOD one published
    before it; and the next check has nothing to publish that would repair it. *)
Theorem stale_overtakes :
  let r := race EdgeLife.brace trunc_Z late_node overtaking in
  let r' := race EdgeLife.brace trunc_Z late_node (overtaking ++ next_check) in
  pool r = [] /\ speed_verdict r = Some QualityGood /\ speed_latest r = Some QualityStale /\
  (At <$> Memory.Broker.Retained speed_topic (broker (rNode r))) = Some (100 * Second) /\
  speed_published r = [(QualityGood, 90 * Second); (QualityGood, 101 * Second); (QualityStale, 100 * Second)] /\
  pool r' = [] /\ speed_latest r' = Some QualityStale.
Proof. cbv zeta. vm_compute. by split_and!. Qed.

(** The ticker has cached its verdict and not published it when the reading is
    cached and published. *)
Definition crossing : list move :=
  [Enter (speed_at (90 * Second))] ++ whole 0 ++ [Enter StaleTick; Next 0; Enter (speed_at (101 * Second))] ++ whole 1 ++ [Next 0; Next 0; Next 0].

(** Then the read API and the broker disagree for good: the cache ends with
    GOOD, the retained message is the STALE one. *)
Theorem cache_and_broker_disagree :
  let r := race EdgeLife.brace trunc_Z late_node crossing in
  pool r = [] /\ speed_latest r = Some QualityGood /\ speed_cached r = [QualityGood; QualityStale; QualityGood] /\
  (At <$> Memory.Broker.Retained speed_topic (broker (rNode r))) = Some (100 * Second) /\
  map fst (speed_published r) = [QualityGood; QualityGood; QualityStale].
Proof. cbv zeta. vm_compute. by split_and!. Qed.
