(* ===== verification/EdgePub.v ===== *)
(** * EdgePub: what the edge node publishes

    Every publication of the node goes through its broker, on a data topic of
    one of its tags or a lifecycle topic of one of its sources. An invariant of
    the broker that such publications keep is therefore an invariant of the
    node: the lemma that composes the node with what listens to its broker. *)
From Stdlib Require Import ZArith Lia.
From S2P Require Import Prelude GoBytes GoFloat Uns Quality Ports Latest Edge EdgeInv EdgeRace.
From S2P Require Collector Asset.
Import Asset (TagRef, trAsset, trTag, topic_of).

Open Scope string_scope.
Open Scope list_scope.
Open Scope Z_scope.

Definition lifecycle_topic (p : Asset.Plant) (s : string) (mt : MessageType) : string :=
  LifecycleTopic (Asset.Enterprise p) (Asset.Site p) s mt.

Section Publications.
Context {B E : Type} `{!BrokerOps B E}.
Variable render : json -> list byte.
Variable impl_int : float -> Z.

Abbreviation Nd := (Node B).
Abbreviation M := (GoM (Node B) EdgeError).

(** [T] holds the topics of the node of plant [p] that runs the sources
    [names], and [P] survives publications on them. *)
Variable T : list string.
Variable P : B -> Prop.
Variable p : Asset.Plant.
Variable names : list string.
Hypothesis Hlife : forall s mt, s ∈ names -> mt = Birth \/ mt = Death -> lifecycle_topic p s mt ∈ T.
Hypothesis HP : forall m b, Topic m ∈ T -> P b -> P (snd (bPublish m b)).

Definition own_tags (ts : gmap string TagRef) : Prop := forall t tr, ts !! t = Some tr -> topic_of tr ∈ T.

Record publishes (n : Nd) : Prop := {
  pb_broker : P (broker n);
  pb_tags : forall s r, sources n !! s = Some r -> own_tags (tags r);
  pb_plant : tPlant n = p;
  pb_order : order n = names
}.

(** [m] keeps the invariant and its result satisfies [R]. *)
Definition through {A} (m : M A) (R : A -> Prop) : Prop :=
  forall n, publishes n -> publishes (snd (m n)) /\ forall a, fst (m n) = Ok a -> R a.

Lemma through_ret {A} (a : A) (R : A -> Prop) : R a -> through (mret a) R.
Proof. intros H n Hn. split; [done|]. by intros ? [= <-]. Qed.

Lemma through_throw {A} e (R : A -> Prop) : through (throw e) R.
Proof. by intros n Hn. Qed.

Lemma through_bind {A A'} (m : M A) (f : A -> M A') R R' :
  through m R -> (forall a, R a -> through (f a) R') -> through (m ≫= f) R'.
Proof.
  intros Hm Hf n Hn. destruct (Hm n Hn) as [H1 H2]. unfold mbind, GoM_bind.
  destruct (m n) as [[a|e] n']; cbn [fst snd] in *; [by apply Hf; [apply H2|]|done].
Qed.

Lemma through_mono {A} (m : M A) (R R' : A -> Prop) : through m R -> (forall a, R a -> R' a) -> through m R'.
Proof. intros Hm HR n Hn. destruct (Hm n Hn) as [H1 H2]. split; [done|]. intros a Ha. by apply HR, H2. Qed.

Lemma through_collect {A A'} (f : A -> M (option A')) (R : A' -> Prop) xs :
  (forall x, x ∈ xs -> through (f x) (fun o => forall y, o = Some y -> R y)) ->
  through (collect f xs) (Forall R).
Proof.
  induction xs as [|x xs IH]; intros H; cbn [collect]; [by apply through_ret; constructor|].
  eapply through_bind; [apply H; left|]. intros o Ho. eapply through_bind; [apply IH; intros; apply H; by right|].
  intros ys Hys. apply through_ret. destruct o as [y|]; [|done]. constructor; [by apply Ho|done].
Qed.

Lemma through_each {A} (f : A -> M unit) xs :
  (forall x, x ∈ xs -> through (f x) (fun _ => True)) -> through (each f xs) (fun _ => True).
Proof.
  induction xs as [|x xs IH]; intros H; cbn [each]; [by apply through_ret|].
  eapply through_bind; [apply H; left|]. intros _ _. apply IH. intros. apply H. by right.
Qed.

(** The state changes that touch neither the broker nor the tags. *)
Lemma publishes_frame n l k ev : publishes n ->
  publishes (mkNode (tPlant n) (broker n) l (clock n) k (sources n) (order n) ev (health n)).
Proof. intros [H1 H2 H3 H4]. by constructor. Qed.

Lemma publishes_seq n s r q : publishes n -> sources n !! s = Some r -> publishes (with_seq s r q n).
Proof.
  intros [H1 H2 H3 H4] Hs. constructor; try done. intros s' r'. cbn. rewrite lookup_insert.
  destruct (decide (s = s')); [|apply H2]. intros [= <-]. cbn [tags]. by apply (H2 s).
Qed.

Lemma through_now : through now (fun _ => True).
Proof. intros n Hn. split; [by apply publishes_frame|done]. Qed.

Lemma through_next s : through (next_of s) (fun _ => True).
Proof.
  intros n Hn. unfold next_of. destruct (sources n !! s) as [r|] eqn:Hs; [|done].
  split; [by apply (publishes_seq n s r)|done].
Qed.

Lemma through_reset s : through (reset_of s) (fun _ => True).
Proof.
  intros n Hn. unfold reset_of. destruct (sources n !! s) as [r|] eqn:Hs; [|done].
  split; [by apply (publishes_seq n s r)|done].
Qed.

Lemma through_tags s : through (run_tags s) own_tags.
Proof.
  intros n Hn. unfold run_tags. destruct (sources n !! s) as [r|] eqn:Hs; [|done].
  split; [done|]. intros ts [= <-]. by apply (pb_tags n Hn s).
Qed.

Lemma through_eval t : through (eval_of t) (fun _ => True).
Proof. intros n Hn. unfold eval_of. by destruct (evals n !! t). Qed.

Lemma through_put t e : through (put_eval t e) (fun _ => True).
Proof. intros n Hn. split; [by apply publishes_frame|done]. Qed.

Lemma through_publish m : Topic m ∈ T -> through (publish m) (fun _ => True).
Proof.
  intros Hm n [H1 H2 H3 H4]. pose proof (HP m (broker n) Hm H1) as H. unfold publish.
  destruct (bPublish m (broker n)) as [[a|e] b]; (split; [by constructor|done]).
Qed.

Definition own_message (o : outgoing) : Prop := Topic (oMsg o) ∈ T.

Lemma through_data tr s m t v : topic_of tr ∈ T ->
  through (data_message render tr s m t v) (fun o => forall x, o = Some x -> own_message x).
Proof.
  intros Ht. eapply through_bind; [apply through_next|]. intros q _.
  destruct (Marshal _); apply through_ret; [|done]. by intros x [= <-].
Qed.

Lemma publishes_cache x n : publishes n -> publishes (snd (cache_one x n)).
Proof. intros Hn. unfold cache_one. destruct (SetMetric _ _ _) as [c l]. by apply publishes_frame. Qed.

Lemma publishes_send x n : own_message x -> publishes n -> publishes (send_one x n).
Proof. intros Hx Hn. by apply (through_publish (oMsg x) Hx). Qed.

Lemma through_on_reading s rd :
  through (on_reading render impl_int s rd) (fun o => forall x, o = Some x -> own_message x).
Proof.
  eapply through_bind; [apply through_tags|]. intros ts Hts.
  destruct (ts !! _) as [tr|] eqn:Et; [|by apply through_ret].
  apply (through_bind _ _ (fun _ => True)).
  { destruct (IsZero _); [apply through_now|by apply through_ret]. }
  intros t _. eapply through_bind; [apply through_eval|]. intros ev _.
  destruct (Observe _ _ _) as [v ev']. eapply through_bind; [apply through_put|]. intros _ _.
  apply through_data. by apply (Hts _ _ Et).
Qed.

Lemma through_on_error_tag s ts err name : own_tags ts ->
  through (on_error_tag render impl_int s ts err name) (fun o => forall x, o = Some x -> own_message x).
Proof.
  intros Hts. unfold on_error_tag. destruct (ts !! name) as [tr|] eqn:Et; [|by apply through_ret].
  eapply through_bind; [apply through_eval|]. intros ev _.
  destruct (String.eqb _ _); [by apply through_ret|]. destruct (Comm _ _) as [v ev'].
  eapply through_bind; [apply through_put|]. intros _ _. eapply through_bind; [apply through_now|]. intros t _.
  apply through_data. by apply (Hts _ _ Et).
Qed.

Lemma through_check_tag s ts t name : own_tags ts ->
  through (check_tag render impl_int s ts t name) (fun o => forall x, o = Some x -> own_message x).
Proof.
  intros Hts. unfold check_tag. destruct (ts !! name) as [tr|] eqn:Et; [|by apply through_ret].
  eapply through_bind; [apply through_eval|]. intros ev _. destruct (Check_ _ _) as [[v ch] ev'].
  eapply through_bind; [apply through_put|]. intros _ _. destruct ch; [|by apply through_ret].
  apply through_data. by apply (Hts _ _ Et).
Qed.

Lemma through_check_sources t ss : through (check_sources render impl_int t ss) (Forall own_message).
Proof.
  induction ss as [|s ss IH]; cbn [check_sources]; [by apply through_ret|].
  eapply through_bind; [apply through_tags|]. intros ts Hts.
  eapply through_bind; [apply through_collect; intros; by apply through_check_tag|]. intros out Hout.
  eapply through_bind; [exact IH|]. intros outs Houts. apply through_ret. by apply Forall_app.
Qed.

Lemma through_evaluate ev : through (evaluate render impl_int ev) (Forall own_message).
Proof.
  intros n Hn. destruct ev as [s rs|s err|]; cbn [evaluate].
  - destruct (sources n !! s) as [r|] eqn:Hs; [|by split; [|intros ? [= <-]]].
    apply through_collect; [|done]. intros rd _. apply through_on_reading.
  - destruct (sources n !! s) as [r|] eqn:Hs; [|by split; [|intros ? [= <-]]].
    apply through_collect; [|done]. intros name _. apply through_on_error_tag. by apply (pb_tags n Hn s).
  - apply (through_bind now _ (fun _ => True)); [apply through_now| |done]. intros t _. apply through_check_sources.
Qed.

Lemma through_birth_metric s ts name : own_tags ts ->
  through (match ts !! name with
    | None => mret None
    | Some tr =>
        ev ← eval_of (topic_of tr);
        t ← now;
        let m := metric tr s None t (Current ev) in
        let '(v, at_, ok) := Last ev in
        mret (Some (if ok : bool then
          mkMetric (mName m) at_ (mDataType m) (Some (VFloat64 v)) (mQuality m) (mTopic m) (mContext m)
        else m))
    end) (fun o => forall x : Metric, o = Some x -> True).
Proof.
  intros Hts. destruct (ts !! name) as [tr|]; [|by apply through_ret].
  eapply through_bind; [apply through_eval|]. intros ev _. eapply through_bind; [apply through_now|]. intros t _.
  cbv zeta. destruct (Last ev) as [[v at_] ok]. by apply through_ret.
Qed.

Lemma through_lifecycle s mt : s ∈ names -> mt = Birth \/ mt = Death ->
  through (publishLifecycle render s mt) (fun _ => True).
Proof.
  intros Hs Hmt n Hn. unfold publishLifecycle.
  match goal with |- publishes (snd (?m n)) /\ _ => assert (through m (fun _ => True)) as H end; [|by apply H].
  apply (through_bind _ _ (fun _ => True)).
  - destruct (String.eqb mt Birth); [|by apply through_ret].
    eapply through_bind; [apply through_reset|]. intros _ _. eapply through_bind; [apply through_tags|]. intros ts Hts.
    eapply through_bind; [apply (through_collect _ (fun _ => True)); intros name _; by apply through_birth_metric|].
    intros ms _. by apply through_ret.
  - intros ms _. eapply through_bind; [apply through_now|]. intros t _.
    eapply through_bind; [apply through_next|]. intros q _. destruct (Marshal _); [|apply through_throw].
    eapply through_bind; [apply through_publish; cbn [Topic]; rewrite (pb_plant n Hn); by apply Hlife|].
    intros [] _; [by apply through_ret|apply through_throw].
Qed.

(** The moves of the callbacks keep the invariant, when what they still have
    to publish is the node's. *)
Definition race_publishes (r : racing (B := B)) : Prop :=
  publishes (rNode r) /\ Forall (fun c => Forall own_message (cOut c)) (pool r).

Lemma enter_publishes ev r : race_publishes r -> race_publishes (enter render impl_int ev r).
Proof.
  intros [Hn Hp]. unfold enter. destruct (busy _ r); [done|]. pose proof (through_evaluate ev (rNode r) Hn) as [H1 H2].
  destruct (evaluate render impl_int ev (rNode r)) as [[out|e] n]; cbn [fst snd] in *; [|done]. split; [done|]. cbn [pool].
  apply Forall_app; split; [done|]. constructor; [|done]. by apply H2.
Qed.

Lemma next_publishes k r : race_publishes r -> race_publishes (publish_next k r).
Proof.
  intros [Hn Hp]. unfold publish_next. destruct (pool r !! k) as [c|] eqn:Ek; [|done].
  pose proof (proj1 (Forall_lookup _ _) Hp k _ Ek) as Hc. cbv beta in Hc.
  destruct (cOut c) as [|x rest].
  - split; [done|]. cbn [pool]. apply Forall_app; split; [by apply Forall_take|by apply Forall_drop].
  - pose proof Hc as [Hx Hrest]%Forall_cons. pose proof (publishes_cache x (rNode r) Hn) as Hx'.
    destruct (cStage c); [destruct (cache_one x (rNode r)) as [prev n]|..];
      (split; [done || by apply publishes_send|]); by apply Forall_insert.
Qed.
End Publications.
