(* ===== verification/EdgeMetrics.v ===== *)
(** * EdgeMetrics: what the node's collectors show (internal/edge/node.go)

    The calls of the callbacks and of [publishAll] on the collectors, next to
    the interleaved node of [EdgeRace], and the gauge of tags by quality
    against the cache. *)
From Stdlib Require Import ZArith Lia.
From stdpp Require Import vector.
From S2P Require Import Prelude GoBytes GoFloat Uns Quality Ports Observability Latest Edge EdgeRace.
From S2P Require Collector Asset Poller Memory EdgeLife Plants.
Import Collector (Reading, mkReading, rTag, rValue, rAt).
Import Asset (TagRef, trAsset, trTag, topic_of).

Open Scope string_scope.
Open Scope list_scope.
Open Scope Z_scope.

Section Counting.
Context {B E : Type} `{!BrokerOps B E}.
Variable render : json -> list byte.
Variable impl_int : float -> Z.

(** The head of [OnReadings] and of [OnError]; the staleness check counts
    nothing. The latency is observed when the registry knows the source. *)
Definition count_callback (ev : event) (n : Node B) (s : Store) : Store :=
  match ev with
  | Readings source readings =>
      match sources n !! source with
      | None => s
      | Some _ =>
          let s := SetTo SourceUp [# source] 1 s in
          let s := Inc SourcePolls [# source; "ok"] s in
          let s := match Poller.Get source (health n) with Some _ => ObserveOne PollDuration [# source] s | None => s end in
          match readings with
          | [] => s
          | _ => Add Samples [# source] (zlength readings) s
          end
      end
  | PollError source _ =>
      match sources n !! source with
      | None => s
      | Some _ => Inc SourcePolls [# source; "error"] (SetTo SourceUp [# source] 0 s)
      end
  | StaleTick => s
  end.

(** [prev] is the quality the cache returned for the metric; the calls on the
    collectors are one step. *)
Definition count_transition (prev : option Uns.Quality) (o : outgoing) (s : Store) : Store :=
  let q := mQuality (oM o) in
  if match prev with Some p => negb (String.eqb p q) | None => true end then
    let s := Inc QualityTrans [# q; vRule (oVerd o)] s in
    let s := match prev with Some p => Dec TagsByQuality [# p] s | None => s end in
    Inc TagsByQuality [# q] s
  else s.

Definition count_publication (ok : bool) (mt : MessageType) (s : Store) : Store :=
  if ok then Inc Published [# mt] s else Inc PublishErrors [#] s.

(** A move of the interleaved callbacks. A callback that waits for its owner
    has not begun. *)
Definition count_move (r : racing (B := B)) (m : move) (s : Store) : Store :=
  match m with
  | Enter ev => if busy (owner ev) r then s else count_callback ev (rNode r) s
  | Next k =>
      match pool r !! k with
      | Some (mkCallback _ (x :: _) (ToCount prev)) => count_transition prev x s
      | Some (mkCallback _ (x :: _) ToPublish) =>
          count_publication (is_ok (fst (bPublish (oMsg x) (broker (rNode r))))) Data s
      | _ => s
      end
  end.

Definition counted (st : racing (B := B) * Store) (m : move) : racing (B := B) * Store :=
  (moved render impl_int (fst st) m, count_move (fst st) m (snd st)).

Definition counted_race (n : Node B) (s : Store) (ms : list move) : racing (B := B) * Store :=
  fold_left counted ms (mkRacing n [] [] [] [], s).

(** ** Specification *)

(** What a callback between [latest.Set] and its collectors has still to add
    to the gauge of quality [q]. *)
Definition delta (q : Uns.Quality) (prev : option Uns.Quality) (new : Uns.Quality) : Z :=
  (if decide (new = q) then 1 else 0) - (if decide (prev = Some q) then 1 else 0).

Definition uncounted (q : Uns.Quality) (c : callback) : Z :=
  match cStage c, cOut c with ToCount prev, x :: _ => delta q prev (mQuality (oM x)) | _, _ => 0 end.

Definition counting (c : callback) : bool := match cStage c with ToCount _ => true | _ => false end.

(** ** Lemmas *)

Lemma gauge_other d vs n s q : (dSubsystem d, dName d) <> ("quality", "tags") ->
  sample TagsByQuality [# q] (Add d vs n s) = sample TagsByQuality [# q] s /\
  sample TagsByQuality [# q] (SetTo d vs n s) = sample TagsByQuality [# q] s.
Proof.
  intros Hd. assert (series d vs <> series TagsByQuality [# q]) as Hne by (intros E'; apply Hd; by injection E' as -> ->).
  rewrite sample_Add, sample_SetTo. rewrite !decide_False by done. lia.
Qed.

Lemma gauge_quality q q' n s :
  sample TagsByQuality [# q] (Add TagsByQuality [# q'] n s) = sample TagsByQuality [# q] s + (if decide (q' = q) then n else 0).
Proof.
  rewrite sample_Add. f_equal. destruct (decide (q' = q)) as [->|Hne]; [by rewrite decide_True|].
  rewrite decide_False; [done|]. intros E'. apply Hne. by injection E'.
Qed.

Lemma count_transition_gauge q prev x s :
  sample TagsByQuality [# q] (count_transition prev x s) = sample TagsByQuality [# q] s + delta q prev (mQuality (oM x)).
Proof.
  unfold count_transition, delta, Inc, Dec. destruct prev as [p|].
  - destruct (String.eqb_spec p (mQuality (oM x))) as [->|Hne]; cbn [negb].
    + destruct (decide (mQuality (oM x) = q)) as [->|Hq]; [rewrite decide_True by done; lia|].
      rewrite decide_False by congruence. lia.
    + rewrite !gauge_quality, (proj1 (gauge_other QualityTrans _ _ _ _ ltac:(done))). repeat case_decide; (lia || congruence).
  - rewrite gauge_quality, (proj1 (gauge_other QualityTrans _ _ _ _ ltac:(done))). repeat case_decide; (lia || congruence).
Qed.

Lemma SetMetric_counts q a m l :
  default 0 (Counts (snd (SetMetric a m l)) !! q) = default 0 (Counts l !! q) + delta q (fst (SetMetric a m l)) (mQuality m).
Proof.
  unfold SetMetric, delta. cbn [fst snd Counts counts]. set (prev := mQuality <$> _). rewrite bump_lookup.
  destruct prev as [p|]; [rewrite bump_lookup|]; unfold Counts; repeat case_decide; (lia || congruence).
Qed.

Lemma publication_gauge q s ok mt : sample TagsByQuality [# q] (count_publication ok mt s) = sample TagsByQuality [# q] s.
Proof. unfold count_publication, Inc. by destruct ok; apply gauge_other. Qed.

Lemma callback_gauge q s ev n : sample TagsByQuality [# q] (count_callback ev n s) = sample TagsByQuality [# q] s.
Proof.
  destruct ev as [source rs|source err|]; cbn [count_callback]; [..|done];
    (destruct (sources n !! source); [|done]); unfold Inc, ObserveOne.
  - assert (forall s', sample TagsByQuality [# q] (match rs with [] => s' | _ => Add Samples [# source] (zlength rs) s' end) =
      sample TagsByQuality [# q] s') as -> by (intros s'; destruct rs; [done|]; by apply gauge_other).
    destruct (Poller.Get source (health n)); [rewrite (proj1 (gauge_other PollDuration _ _ _ _ ltac:(done)))|];
      rewrite (proj1 (gauge_other SourcePolls _ _ _ _ ltac:(done))); by apply (gauge_other SourceUp).
  - rewrite (proj1 (gauge_other SourcePolls _ _ _ _ ltac:(done))). by apply (gauge_other SourceUp [# source] 0).
Qed.

(** The gauges are the counters of the cache, but for what is not counted yet. *)
Definition gauges_match (r : racing (B := B)) (s : Store) : Prop :=
  forall q, sample TagsByQuality [# q] s + sumZ (map (uncounted q) (pool r)) = default 0 (Counts (latest (rNode r)) !! q).

Lemma sumZ_set {A} (f : A -> Z) (l : list A) k x y : l !! k = Some x ->
  sumZ (map f (<[k := y]> l)) = sumZ (map f l) + f y - f x.
Proof.
  intros Hk. rewrite <- (take_drop_middle l k x Hk) at 2. rewrite insert_take_drop by (by apply lookup_lt_Some in Hk).
  rewrite !map_app, !sumZ_app. cbn [map]. rewrite !sumZ_cons. lia.
Qed.

Lemma counted_race_snoc n s ms m : counted_race n s (ms ++ [m]) = counted (counted_race n s ms) m.
Proof. unfold counted_race. by rewrite fold_left_app. Qed.

Lemma counted_race_fst n s ms : fst (counted_race n s ms) = race render impl_int n ms.
Proof.
  induction ms as [|m ms IH] using rev_ind; [done|]. rewrite counted_race_snoc. unfold counted. cbn [fst]. rewrite IH.
  unfold race. by rewrite fold_left_app.
Qed.

Lemma counted_matches r s m : gauges_match r s -> gauges_match (fst (counted (r, s) m)) (snd (counted (r, s) m)).
Proof.
  intros H q. specialize (H q). unfold counted. cbn [fst snd]. destruct m as [ev|k]; cbn [moved count_move].
  - unfold enter. destruct (busy (owner ev) r); [done|].
    pose proof (quiet_evaluate render impl_int ev (rNode r)) as [_ Q].
    destruct (evaluate render impl_int ev (rNode r)) as [[out|e] n]; cbn [snd rNode pool] in *; rewrite Q, callback_gauge, <- H; [|done].
    rewrite map_app, sumZ_app. cbn. lia.
  - unfold publish_next. destruct (pool r !! k) as [[o out st]|] eqn:Ek; [|done]. cbn [cOut cStage cOwner].
    destruct out as [|x rest].
    + cbn [rNode pool]. replace (match st with ToCache => s | ToCount _ => s | ToPublish => s end) with s by (by destruct st). rewrite <- H.
      rewrite <- (take_drop_middle _ _ _ Ek) at 3. rewrite !map_app, !sumZ_app. cbn [map]. rewrite sumZ_cons.
      assert (uncounted q (mkCallback o [] st) = 0) as -> by (by destruct st). lia.
    + pose proof (sumZ_set (uncounted q) _ _ _ (mkCallback o (x :: rest) ToPublish) Ek) as S1.
      pose proof (sumZ_set (uncounted q) _ _ _ (mkCallback o rest ToCache) Ek) as S2. destruct st as [|prev|].
      * unfold cache_one. pose proof (SetMetric_counts q (Asset.aID (Asset.rAsset (trAsset (oTr x)))) (oM x) (latest (rNode r))) as Hc.
        destruct (SetMetric _ _ _) as [prev l]. cbn [fst snd rNode pool latest set_latest] in *.
        rewrite (sumZ_set _ _ _ _ _ Ek), Hc, <- H. unfold uncounted at 2 3. cbn [cStage cOut]. lia.
      * cbn [rNode pool]. rewrite S1, count_transition_gauge, <- H. unfold uncounted at 2 3. cbn [cStage cOut]. lia.
      * cbn [rNode pool]. rewrite S2, publication_gauge, (proj2 (send_one_after x (rNode r))), <- H. unfold uncounted at 2 3. cbn [cStage cOut]. lia.
Qed.

Lemma race_latest_ok n s ms : latest_ok (latest n) -> latest_ok (latest (rNode (fst (counted_race n s ms)))).
Proof.
  intros H. rewrite counted_race_fst. rewrite (lu_latest _ _ (race_lined render impl_int n ms)).
  unfold latest_after. revert H. generalize (latest n). induction (cached _) as [|p l IH]; intros c Hc; [done|].
  cbn. by apply IH, SetMetric_ok.
Qed.

Lemma settled_pool q l : existsb counting l = false -> sumZ (map (uncounted q) l) = 0.
Proof.
  induction l as [|c l IH]; [done|]. cbn [existsb map]. intros [H1 H2]%orb_false_iff. rewrite sumZ_cons, IH by done.
  unfold counting in H1. unfold uncounted. by destruct (cStage c).
Qed.

(** ** Properties *)

(** C36: the tags-by-quality gauges count every tag that has a value once. The
    service level of the runbook is computed from them. However the callbacks of
    the node overlap, starting from an empty cache, the gauge of every quality
    code, with what the callbacks between setting the cache and their
    collectors have still to count, equals the number of cached tags in that
    quality; so it equals that number whenever no callback stands there. It
    does not matter whether a publication succeeds. *)
Theorem quality_gauge_exact (n : Node B) (ms : list move) (q : Uns.Quality) :
  latest n = NewLatest ->
  let '(r, s) := counted_race n ∅ ms in
  r = race render impl_int n ms /\
  sample TagsByQuality [# q] s + sumZ (map (uncounted q) (pool r)) = with_quality q (latest (rNode r)) /\
  (existsb counting (pool r) = false -> sample TagsByQuality [# q] s = with_quality q (latest (rNode r))).
Proof.
  intros Hl. pose proof (race_latest_ok n ∅ ms) as Hok. pose proof (counted_race_fst n ∅ ms) as Hr.
  assert (gauges_match (fst (counted_race n ∅ ms)) (snd (counted_race n ∅ ms))) as H.
  { clear Hok Hr. induction ms as [|m ms IH] using rev_ind; [by intros x; cbn; rewrite Hl|].
    rewrite counted_race_snoc. destruct (counted_race n ∅ ms) as [r s]. by apply counted_matches. }
  destruct (counted_race n ∅ ms) as [r s]. cbn [fst snd] in *.
  assert (sample TagsByQuality [# q] s + sumZ (map (uncounted q) (pool r)) = with_quality q (latest (rNode r))) as E1.
  { rewrite (H q). apply Hok. by rewrite Hl. }
  split_and!; [done|done|]. intros Hc. rewrite <- E1, settled_pool by done. lia.
Qed.
End Counting.

(** The stale verdict of [EdgeRace] that overtakes a reading, as the gauges
    show it: one STALE tag, no GOOD one. *)
Lemma quality_gauge_exact_witness :
  let '(r, s) := counted_race EdgeLife.brace trunc_Z late_node ∅ overtaking in
  sample TagsByQuality [# QualityStale] s = 1 /\ sample TagsByQuality [# QualityGood] s = 0.
Proof.
  pose proof (quality_gauge_exact EdgeLife.brace trunc_Z late_node overtaking QualityStale eq_refl) as H1.
  pose proof (quality_gauge_exact EdgeLife.brace trunc_Z late_node overtaking QualityGood eq_refl) as H2.
  destruct (counted_race EdgeLife.brace trunc_Z late_node ∅ overtaking) as [r s].
  destruct H1 as (Hr & _ & H1), H2 as (_ & _ & H2).
  assert (existsb counting (pool r) = false) as Hc by (rewrite Hr; vm_compute; reflexivity).
  rewrite H1, H2 by exact Hc. rewrite Hr. clear. split; vm_compute; reflexivity.
Defined.
