(* ===== verification/EdgeGaps.v ===== *)
(** * EdgeGaps: a verdict that nobody is told (internal/edge/node.go)

    encoding/json has no text for NaN and the infinities. A sample that is not
    finite is judged BAD, and its message cannot be built. *)
From Stdlib Require Import ZArith Lia SpecFloat.
From S2P Require Import Prelude GoBytes GoFloat Uns Quality Ports Latest Edge EdgeInv EdgeProps.
From S2P Require Collector Asset EdgeLife Memory Plants.
Import Collector (Reading, mkReading, rTag, rValue, rAt).
Import Asset (TagRef, trAsset, trTag, topic_of).

Open Scope string_scope.
Open Scope list_scope.
Open Scope Z_scope.

Section Gaps.
Context {B E : Type} `{!BrokerOps B E}.
Variable render : json -> list byte.
Variable impl_int : float -> Z.

(** A reading of [tr] whose scaled value is not finite. *)
Definition not_finite (tr : TagRef) (x : Reading) : Prop :=
  is_finite (Asset.Apply (Asset.tScale (trTag tr)) (rValue x)) = false.

Definition float_typed (tr : TagRef) : Prop :=
  Asset.tDataType (trTag tr) = TypeFloat \/ Asset.tDataType (trTag tr) = TypeDouble.

(** ** Lemmas *)

Lemma not_finite_value dt v : dt = TypeFloat \/ dt = TypeDouble -> is_finite v = false ->
  value_json (Some (castValue impl_int dt v)) = None.
Proof. intros [-> | ->] Hv; destruct v; done. Qed.

Lemma not_finite_message s q tr x e : float_typed tr -> not_finite tr x -> sample_message render impl_int s q (tr, x) e = None.
Proof.
  intros Ht Hx. unfold sample_message, metric, value_of. cbn [fst snd]. unfold Marshal. cbn [pMetrics mapM].
  assert (forall m, mValue m = Some (castValue impl_int (Asset.tDataType (trTag tr)) (Asset.Apply (Asset.tScale (trTag tr)) (rValue x))) ->
    Metric_json m = None) as H.
  { intros m Hm. unfold Metric_json. rewrite Hm, not_finite_value by done. done. }
  by rewrite H.
Qed.

Lemma no_messages s q evs xs : Forall (fun x => forall q e, sample_message render impl_int s q x e = None) xs ->
  messages render impl_int s q evs xs = [].
Proof.
  intros H. unfold messages.
  assert (forall f : nat -> sample -> option outgoing, (forall i x, x ∈ xs -> f i x = None) -> omap id (imap f xs) = []) as Hf.
  { clear H. induction xs as [|x xs IH]; intros f Hf; [done|]. rewrite imap_cons. cbn. rewrite Hf by left. cbn.
    apply IH. intros i y Hy. apply Hf. by right. }
  apply Hf. intros i x Hx. destruct (evs !! topic_of (fst x)) as [e|]; [|done]. cbn.
  by apply (proj1 (Forall_forall _ _) H).
Qed.

Lemma known_same ts t tr xs : ts !! t = Some tr -> Forall (fun x => rTag x = t) xs -> known ts xs = map (pair tr) xs.
Proof. intros Ht. induction 1 as [|x xs <- _ IH]; [done|]. by rewrite known_cons, Ht, IH. Qed.

Lemma observe_not_finite tr x e : not_finite tr x ->
  let e' := snd (Observe (value_of (tr, x)) (rAt x) e) in
  vQuality (Current e') = QualityBad /\ Quality.lastAt e' = rAt x /\ Quality.cfg e' = Quality.cfg e.
Proof.
  intros H. unfold not_finite, is_finite in H. apply negb_false_iff in H. unfold Observe, value_of. cbn [fst snd]. by rewrite H.
Qed.

(** The evaluator after samples none of which is finite. *)
Lemma observe_all_snoc tr xs x e : observe_all (topic_of tr) (map (pair tr) (xs ++ [x])) e =
  snd (Observe (value_of (tr, x)) (rAt x) (observe_all (topic_of tr) (map (pair tr) xs) e)).
Proof. unfold observe_all. rewrite map_app, fold_left_app. cbn [map fold_left fst snd]. by rewrite decide_True. Qed.

Lemma observe_all_cfg tr xs e : Forall (not_finite tr) xs ->
  Quality.cfg (observe_all (topic_of tr) (map (pair tr) xs) e) = Quality.cfg e.
Proof.
  induction xs as [|x xs IH] using rev_ind; [done|]. intros [H [Hx _]%Forall_cons]%Forall_app. rewrite observe_all_snoc.
  destruct (observe_not_finite tr x (observe_all (topic_of tr) (map (pair tr) xs) e) Hx) as (_ & _ & ->). by apply IH.
Qed.

Lemma observe_all_not_finite tr xs x e : Forall (not_finite tr) (xs ++ [x]) ->
  let e' := observe_all (topic_of tr) (map (pair tr) (xs ++ [x])) e in
  vQuality (Current e') = QualityBad /\ Quality.lastAt e' = rAt x /\ Quality.cfg e' = Quality.cfg e.
Proof.
  intros [H [Hx _]%Forall_cons]%Forall_app. cbv zeta. rewrite observe_all_snoc.
  destruct (observe_not_finite tr x (observe_all (topic_of tr) (map (pair tr) xs) e) Hx) as (H1 & H2 & ->).
  split_and!; [done..|by apply observe_all_cfg].
Qed.

(** ** Properties *)

(** C37: a sensor that reports NaN is silent. Whatever readings of a float tag a
    poll yields, if none is finite (a float register can hold NaN) the node
    judges the tag BAD, but publishes nothing and leaves the cache as it was:
    subscribers, the retained message and the read API keep the last finite
    value with its old quality. The staleness check stays silent while such
    readings keep coming, and an outage that follows is not announced either,
    since the tag counts as BAD already. *)
Theorem nan_unpublished (n : Node B) s r t tr (xs : list Reading) (x : Reading) :
  node_ok n -> sources n !! s = Some r -> is_u8 (seq r) -> tags r !! t = Some tr -> float_typed tr ->
  Forall (fun y => rTag y = t /\ IsZero (rAt y) = false /\ not_finite tr y) (xs ++ [x]) ->
  exists n' e, OnReadings render impl_int s (xs ++ [x]) n = (Ok tt, n') /\
    broker n' = broker n /\ latest n' = latest n /\
    evals n' !! topic_of tr = Some e /\ vQuality (Current e) = QualityBad /\
    (forall now, Sub now (rAt x) < StaleAfter (Quality.cfg e) -> snd (fst (Check_ now e)) = false) /\
    (forall err, on_error_tag render impl_int s (tags r) err t n' = (Ok None, n')).
Proof.
  intros Hok Hs Hq Ht Hty Hxs.
  assert (Forall (fun y => IsZero (rAt y) = false) (xs ++ [x])) as Hz by (by apply (Forall_impl _ _ _ Hxs); intros y (_ & ? & _)).
  assert (Forall (not_finite tr) (xs ++ [x])) as Hnf by (by apply (Forall_impl _ _ _ Hxs); intros y (_ & _ & ?)).
  assert (known (tags r) (xs ++ [x]) = map (pair tr) (xs ++ [x])) as Ek.
  { apply (known_same _ t); [done|]. by apply (Forall_impl _ _ _ Hxs); intros y (? & _). }
  destruct (collect_readings render impl_int s r (xs ++ [x]) n Hok Hs Hq Hz) as (n1 & E1 & Hb & Hl & _ & _ & _ & Hev).
  rewrite Ek in E1, Hev. rewrite no_messages in E1.
  2:{ apply Forall_map, (Forall_impl _ _ _ Hnf). intros y Hy q e. by apply not_finite_message. }
  destruct (ok_evals n Hok s r t tr Hs Ht) as [e0 He0].
  destruct (observe_all_not_finite tr xs x e0 Hnf) as (H1 & H2 & H3).
  set (e := observe_all (topic_of tr) (map (pair tr) (xs ++ [x])) e0) in *.
  assert (evals n1 !! topic_of tr = Some e) as He by (by rewrite Hev, He0).
  exists n1, e. split_and!; try done.
  - unfold OnReadings. rewrite Hs. unfold mbind, GoM_bind. by rewrite E1.
  - intros now Hnow. unfold Check_. rewrite H2. destruct (_ || _ || _); [done|].
    destruct (String.eqb _ _); [done|]. destruct (Z.ltb_spec (Sub now (rAt x)) (StaleAfter (Quality.cfg e))); [done|lia].
  - intros err. unfold on_error_tag, mbind, GoM_bind, eval_of. by rewrite Ht, He, H1.
Qed.
End Gaps.

(** A NaN from the speed register of plant_modbus after a good value: the
    retained message stays. *)
Lemma nan_unpublished_witness :
  exists n' e, OnReadings EdgeLife.brace trunc_Z "plc-line-1" [mkReading "speed" S754_nan 5] EdgeLife.sample_node = (Ok tt, n') /\
    Memory.Broker.published (broker n') = 0 /\
    evals n' !! "acme/austin/packaging/line-1/filling/speed" = Some e /\ vQuality (Current e) = QualityBad.
Proof.
  destruct (tags EdgeLife.sample_run !! "speed") as [tr|] eqn:Et; [|exfalso; vm_compute in Et; discriminate].
  assert (topic_of tr = "acme/austin/packaging/line-1/filling/speed" /\ float_typed tr /\
    not_finite tr (mkReading "speed" S754_nan 5)) as (E1 & E2 & E3).
  { vm_compute in Et. injection Et as <-. split_and!; [by vm_compute| |by vm_compute]. by left + by right. }
  assert (Forall (fun y => rTag y = "speed" /\ IsZero (rAt y) = false /\ not_finite tr y) ([] ++ [mkReading "speed" S754_nan 5])) as E4.
  { apply Forall_singleton. split; [reflexivity|]. split; [reflexivity|exact E3]. }
  assert (is_u8 (seq EdgeLife.sample_run)) as E5 by (by split). clear E3.
  destruct (nan_unpublished EdgeLife.brace trunc_Z EdgeLife.sample_node "plc-line-1" EdgeLife.sample_run "speed" tr []
    (mkReading "speed" S754_nan 5) EdgeLife.sample_node_ok EdgeLife.sample_run_in) as (n' & e & H1 & H2 & _ & H3 & H4 & _);
    [exact E5|exact Et|exact E2|exact E4|].
  exists n', e. rewrite E1 in H3. split_and!; [exact H1|rewrite H2; by vm_compute|exact H3|exact H4].
Defined.
