(* ===== verification/Polling.v ===== *)
(** * Polling: the pollers of the edge node (internal/collectors, internal/edge)

    The three sources implement the interface the poller is written against,
    and the node implements its observer; so what [Poller] proves of [Run]
    holds of the pollers that the node starts. *)
From Stdlib Require Import ZArith Lia SpecFloat.
From S2P Require Import Prelude GoBytes GoFloat Uns Ports Sources Poller Edge EdgeInv.
From S2P Require Asset Collector LineSim Memory EdgeLife Plants.
Import Collector (ModbusSource, Reading, mkReading, sName).

Open Scope string_scope.
Open Scope list_scope.
Open Scope Z_scope.

Inductive ReadError :=
| RModbus (e : Collector.SourceError)
| RCSV (e : CSVError).

(** ** The sources as sources of a poller *)

Section Instances.
Context {C R : Type} {Hconn : Collector.ModbusConn C} {Hrand : LineSim.Rand R}.

(** The dialer, math.Exp, strconv.ParseFloat, the files by path, and the text
    of an error. *)
Variable dial : string -> Duration -> result ModbusFrame.Error C.
Variable Exp : float -> float.
Variable ParseFloat : string -> option float.
Variable files : string -> csv_file.
Variable error_text : ReadError -> string.

Definition Name (s : AnySource C R) : string :=
  match s with AModbus s => sName s | ASim s => simName s | ACSV s => csName s end.

Definition Read (now : Time) : GoM (AnySource C R) ReadError (list Reading) := fun s =>
  match s with
  | AModbus s =>
      match Collector.Read dial now s with
      | (Ok rs, s) => (Ok rs, AModbus s)
      | (Err e, s) => (Err (RModbus e), AModbus s)
      end
  | ASim s => let '(rs, s) := SimRead Exp now s in (Ok rs, ASim s)
  | ACSV s =>
      match CSVRead ParseFloat (files (csPath s)) now s with
      | (Ok rs, s) => (Ok rs, ACSV s)
      | (Err e, s) => (Err (RCSV e), ACSV s)
      end
  end.

Definition Close (s : AnySource C R) : AnySource C R :=
  match s with AModbus s => AModbus (Collector.Close s) | ASim s => ASim s | ACSV s => ACSV (CSVClose s) end.

Definition AnySource_ops : SourceOps (AnySource C R) ReadError :=
  {| srcName := Name; srcRead := Read; srcClose := Close; errText := error_text |}.

Lemma Collector_Read_name now s : sName (snd (Collector.Read dial now s)) = sName s.
Proof.
  assert (forall s, Collector.sConn s <> None ->
    sName (snd (Collector.read_blocks now (Collector.sBlocks s) [] s)) = sName s) as Hread.
  { intros s1 Hc. destruct (Collector.read_blocks now (Collector.sBlocks s1) [] s1) as [r s'] eqn:E.
    destruct (Collector.read_blocks_conn now (Collector.sBlocks s1) [] s1 r s' Hc E) as [Hs _].
    change (sName (Collector.set_conn None s') = sName (Collector.set_conn None s1)). by rewrite Hs. }
  unfold Collector.Read. destruct (Collector.sConn s) as [c|] eqn:Ec; [apply Hread; by rewrite Ec|].
  destruct (dial _ _) as [c|e]; [|done]. by apply (Hread (Collector.set_conn (Some c) s)).
Qed.

(** [m] keeps the name of a CSV source. *)
Definition named {A} (m : GoM CSVSource CSVError A) : Prop := forall s, csName (snd (m s)) = csName s.

Lemma named_bind {A A'} (m : GoM CSVSource CSVError A) (f : A -> GoM CSVSource CSVError A') :
  named m -> (forall a, named (f a)) -> named (m ≫= f).
Proof.
  intros Hm Hf s. unfold mbind, GoM_bind. pose proof (Hm s) as H. destruct (m s) as [[a|e] s']; [|done].
  by rewrite Hf.
Qed.

Lemma named_open f g : named (wrap g (csv_open f)).
Proof.
  intros s. unfold wrap, csv_open. destruct f as [[|[header|e] rows]|e]; try done.
  by destruct (List.find _ _) as [[tag col]|].
Qed.

Lemma named_next : named csv_next.
Proof. intros s. unfold csv_next. by destruct (csReader s) as [[|r rest]|]. Qed.

Lemma CSVRead_name f now s : csName (snd (CSVRead ParseFloat f now s)) = csName s.
Proof.
  unfold CSVRead. destruct (csDone s); [done|].
  match goal with |- csName (snd (?m s)) = _ => assert (named m) as H; [|apply H] end.
  apply named_bind; [destruct (csReader s); [by intros ?|apply named_open]|]. intros _.
  apply named_bind; [apply named_next|]. intros [[row|e]|]; [by intros ?..|].
  apply named_bind; [by intros ?|]. intros _. destruct (csLoop s); [|by apply named_bind].
  apply named_bind; [apply named_open|]. intros _. apply named_bind; [apply named_next|].
  intros [[row|e]|]; by intros ?.
Qed.

Lemma AnySource_laws : @SourceLaws _ _ AnySource_ops.
Proof.
  constructor. intros t [s|s|s]; cbn [srcName srcRead AnySource_ops Name Read].
  - pose proof (Collector_Read_name t s). by destruct (Collector.Read dial t s) as [[rs|e] s'].
  - done.
  - pose proof (CSVRead_name (files (csPath s)) t s). by destruct (CSVRead _ _ _ _) as [[rs|e] s'].
Qed.
End Instances.

(** ** The node behind a poller *)

Section Node.
Context {S SE B E : Type} `{!SourceOps S SE, !SourceLaws S SE, !BrokerOps B E}.
Variable render : json -> list byte.
Variable impl_int : float -> Z.

Abbreviation node_observer := (Edge_observer (E := E) render impl_int).

(** However its source behaves, a poller keeps its node well formed. *)
Lemma Run_node (first : cycle) (ticks : list cycle) (s : S) (h : Health) (n : Node B) :
  node_ok n ->
  let p := @Poller.Run S SE (Node B) _ node_observer first ticks (mkPollState s h n) in
  node_ok (pObs p) /\ keeps n (pObs p).
Proof.
  intros Hok p.
  destruct (@polls_story S SE (Node B) _ _ node_observer (first :: ticks) (mkPollState s h n)) as [_ H].
  cbn [pSrc pHealth pObs fold_left] in H. unfold p, Poller.Run. cbn [pObs]. rewrite H. clear H p.
  generalize (story (first :: ticks) s). intros l.
  assert (forall n1, keeps n n1 -> keeps n (fold_left (@tell S SE (Node B) _ node_observer (srcName s)) l n1)) as H.
  { induction l as [|[c r] l IH]; intros n1 Hk; [done|]. cbn [fold_left]. apply IH.
    assert (node_ok n1) as Hok1 by (by apply (keeps_ok n)). unfold tell. cbn [snd].
    destruct r as [rs|e]; cbn [onReadings onError Edge_observer].
    - destruct (OnReadings_keeps render impl_int n1 (srcName s) rs Hok1) as (a & n2 & -> & Hk2). by transitivity n1.
    - destruct (OnError_keeps render impl_int n1 (srcName s) (Some (errText e)) Hok1) as (a & n2 & -> & Hk2).
      by transitivity n1. }
  specialize (H n ltac:(done)). split; [by apply (keeps_ok n)|done].
Qed.
End Node.

(** ** A poller of the packaging line *)

Definition line_source : AnySource unit unit :=
  ACSV (mkCSVSource "plc-line-1" "line.csv" false {["speed" := "speed"]} None ∅ false).

#[local] Instance no_conn : Collector.ModbusConn unit := {
  Collector.connRead _ _ _ _ c := (Ok [], c)
}.

(** Two rows, the second malformed. *)
Definition line_ops : SourceOps (AnySource unit unit) ReadError :=
  AnySource_ops (fun _ _ => Ok tt) (fun x => x) (fun s => if String.eqb s "100" then Some (of_Z 100) else None)
    (fun _ => Ok [Ok ["speed"]; Ok ["100"]; Ok ["x"]]) (fun _ => "bad row").

Definition at_second (k : Z) : cycle := mkCycle false false (k * Second) (k * Second) (k * Second + 1).

Lemma Run_story_witness :
  let observer := Edge_observer (E := Memory.Broker.BrokerError) EdgeLife.brace trunc_Z in
  let p := @Poller.Run _ ReadError (Node Memory.Broker.Broker) line_ops observer (at_second 1) [at_second 2]
             (mkPollState line_source (Register "plc-line-1" "csv" NewHealth) EdgeLife.sample_node) in
  exists st, Get "plc-line-1" (pHealth p) = Some st /\ Polls st = 2 /\ LastError st = "bad row" /\
    LastSuccess st = Some Second.
Proof.
  cbv zeta.
  pose proof (AnySource_laws (C := unit) (R := unit) (fun _ _ => Ok tt) (fun x => x)
    (fun s => if String.eqb s "100" then Some (of_Z 100) else None)
    (fun _ => Ok [Ok ["speed"]; Ok ["100"]; Ok ["x"]]) (fun _ => "bad row")) as laws.
  destruct (@Run_story _ ReadError (Node Memory.Broker.Broker) line_ops laws
    (Edge_observer (E := Memory.Broker.BrokerError) EdgeLife.brace trunc_Z) "csv" NewHealth (at_second 1) [at_second 2]
    line_source EdgeLife.sample_node eq_refl) as ((st & H1 & H2) & _).
  exists st. split; [exact H1|]. split; [rewrite (acc_polls _ _ _ _ H2); by vm_compute|].
  split; [|rewrite (acc_success _ _ _ _ H2); by vm_compute].
  pose proof (acc_error _ _ _ _ H2) as He. destruct (LastErrorAt st) as [t|].
  - assert (Some ("bad row", 2 * Second) = Some (LastError st, t)) as Hs by (rewrite <- He; by vm_compute).
    by injection Hs as <- _.
  - exfalso. revert He. by vm_compute.
Defined.
