(* ===== verification/DiskCodec.v ===== *)
(** * DiskCodec: the record format of the disk queue
      (internal/adapters/diskqueue/diskqueue.go: encode, decode, scanSegment)

    Record: 4-byte body length, 4-byte CRC32 of the body, body. Body: 2-byte
    topic length, topic, 8-byte unix nanoseconds, retain byte, payload. *)
From Stdlib Require Import ZArith Lia.
From S2P Require Import Prelude GoBytes Ports.

Open Scope Z_scope.

Definition recHeaderLen : Z := 8.
Definition maxRecordBody : Z := Z.shiftl 16 20.

Definition encode_body (m : Message) : list byte :=
  let topic := take (Z.to_nat 0xFFFF) (bytes_of (Topic m)) in
  PutUint16 (zlength topic) ++ topic ++ PutUint64 (u64 (UnixNano (At m))) ++
  [if Retain m then x01 else x00] ++ Payload m.

Definition encode (m : Message) : list byte :=
  let body := encode_body m in
  PutUint32 (u32 (zlength body)) ++ PutUint32 (ChecksumIEEE body) ++ body.

Definition decode (body : list byte) : option Message :=
  if zlength body <? 2 then None
  else
    let tl := Uint16 body in
    if zlength body <? 2 + tl + 9 then None
    else
      let topic := string_of (slice 2 (2 + tl) body) in
      let off := 2 + tl in
      let nanos := i64 (Uint64 (drop (Z.to_nat off) body)) in
      let retain := bool_decide (body !! Z.to_nat (off + 8) = Some x01) in
      Some (mkMessage topic (drop (Z.to_nat (off + 9)) body) retain nanos).

(** One iteration of [scanSegment] on what follows the current offset: the
    length of the record found there, or nothing where the loop breaks. *)
Definition scan_record (bs : list byte) : option Z :=
  if zlength bs <? recHeaderLen then None
  else
    let n := Uint32 bs in
    let want := Uint32 (drop 4 bs) in
    if (n =? 0) || (maxRecordBody <? n) then None
    else if zlength bs - recHeaderLen <? n then None
    else
      let body := slice recHeaderLen (recHeaderLen + n) bs in
      if negb (ChecksumIEEE body =? want) then None
      else Some (recHeaderLen + n).

(** The loop from offset [off]; a record is not empty, so the bytes left bound
    the iterations. *)
Fixpoint scan_loop (fuel : nat) (bs : list byte) (off records : Z) : Z * Z :=
  match fuel with
  | O => (off, records)
  | S fuel' =>
      match scan_record bs with
      | None => (off, records)
      | Some len => scan_loop fuel' (drop (Z.to_nat len) bs) (off + len) (records + 1)
      end
  end.

Definition scan (content : list byte) (from : Z) : Z * Z :=
  scan_loop (S (length content)) (drop (Z.to_nat from) content) from 0.

(** ** Specification *)

(** A message the format holds without loss: its topic fits the length field,
    its time the nanosecond field, and its record the reader's sanity bound. *)
Definition storable (m : Message) : Prop :=
  Z.of_nat (String.length (Topic m)) <= 0xFFFF /\ is_i64 (At m) /\
  zlength (encode_body m) <= maxRecordBody.

Definition rec_len (m : Message) : Z := zlength (encode m).

(** The bytes of a run of records. *)
Definition log (ms : list Message) : list byte := concat (map encode ms).

(** ** Lemmas *)

Lemma bytes_of_length s : length (bytes_of s) = String.length s.
Proof. unfold bytes_of. induction s; cbn; [done|]. by f_equal. Qed.

Lemma PutUint16_length x : length (PutUint16 x) = 2%nat.
Proof. apply be_bytes_length. Qed.
Lemma PutUint32_length x : length (PutUint32 x) = 4%nat.
Proof. apply be_bytes_length. Qed.
Lemma PutUint64_length x : length (PutUint64 x) = 8%nat.
Proof. apply be_bytes_length. Qed.

Lemma encode_body_length m :
  length (encode_body m) = (11 + length (take (Z.to_nat 0xFFFF) (bytes_of (Topic m))) + length (Payload m))%nat.
Proof.
  unfold encode_body. rewrite !length_app, PutUint16_length, PutUint64_length. cbn [length]. lia.
Qed.

Lemma encode_length m : length (encode m) = (8 + length (encode_body m))%nat.
Proof. unfold encode. rewrite !length_app, !PutUint32_length. lia. Qed.

Lemma rec_len_eq m : rec_len m = 8 + zlength (encode_body m).
Proof. unfold rec_len, zlength. rewrite encode_length. lia. Qed.

Lemma rec_len_pos m : 19 <= rec_len m.
Proof. rewrite rec_len_eq. unfold zlength. rewrite encode_body_length. lia. Qed.

Lemma storable_topic m : storable m -> take (Z.to_nat 0xFFFF) (bytes_of (Topic m)) = bytes_of (Topic m).
Proof. intros [H _]. apply take_ge. rewrite bytes_of_length. lia. Qed.

Lemma drop_two {A} (xs ys : list A) n k : length xs = n -> drop (n + k) (xs ++ ys) = drop k ys.
Proof. intros <-. by rewrite <- drop_drop, drop_app_length. Qed.

Lemma lookup_two {A} (xs ys : list A) n k : length xs = n -> (xs ++ ys) !! (n + k)%nat = ys !! k.
Proof. intros <-. rewrite lookup_app_r by lia. f_equal. lia. Qed.

(** Decoding inverts encoding. *)
Lemma decode_encode_body m : storable m -> decode (encode_body m) = Some m.
Proof.
  intros Hst. pose proof (encode_body_length m) as Hlen. pose proof (storable_topic m Hst) as Ht.
  destruct Hst as (Htl & Hat & _). unfold decode.
  destruct (Z.ltb_spec (zlength (encode_body m)) 2); [unfold zlength in *; lia|].
  assert (Uint16 (encode_body m) = Z.of_nat (String.length (Topic m))) as Hu.
  { unfold encode_body. rewrite Ht, Uint16_app. unfold zlength. rewrite bytes_of_length.
    apply uwrap_id. unfold in_u. lia. }
  rewrite Hu. rewrite Ht, bytes_of_length in Hlen.
  destruct (Z.ltb_spec (zlength (encode_body m)) (2 + Z.of_nat (String.length (Topic m)) + 9)); [unfold zlength in *; lia|].
  unfold encode_body. rewrite Ht. f_equal.
  set (tl := String.length (Topic m)) in *. assert (length (bytes_of (Topic m)) = tl) as Hb by apply bytes_of_length.
  replace (Z.to_nat (2 + Z.of_nat tl)) with (2 + (tl + 0))%nat by lia.
  replace (Z.to_nat (2 + Z.of_nat tl + 8)) with (2 + (tl + (8 + 0)))%nat by lia.
  replace (Z.to_nat (2 + Z.of_nat tl + 9)) with (2 + (tl + (8 + (1 + 0))))%nat by lia.
  rewrite (slice_app_exact _ _ _ 2 (2 + Z.of_nat tl)) by (unfold zlength; rewrite ?PutUint16_length, ?Hb; lia).
  rewrite !(drop_two (PutUint16 _)), !(lookup_two (PutUint16 _)) by apply PutUint16_length.
  rewrite !(drop_two (bytes_of _)), !(lookup_two (bytes_of _)) by done.
  rewrite !(drop_two (PutUint64 _)), !(lookup_two (PutUint64 _)) by apply PutUint64_length.
  rewrite (drop_two [_]) by done. rewrite !drop_0, Uint64_app, string_of_bytes_of.
  destruct m as [topic payload retain at_]. cbn [Topic Payload Retain At] in *. f_equal.
  - by destruct retain.
  - unfold UnixNano, i64, u64. rewrite uwrap_swrap by lia. rewrite uwrap_uwrap by lia.
    rewrite swrap_uwrap by lia. apply swrap_id; [lia|done].
Qed.

Lemma body_length_range m : storable m -> is_u32 (zlength (encode_body m)) /\ 0 < zlength (encode_body m).
Proof.
  intros (_ & _ & H). unfold maxRecordBody in H. change (Z.shiftl 16 20) with 16777216 in H.
  unfold zlength in *. rewrite encode_body_length in *. unfold in_u. lia.
Qed.

(** The header fields of a record, with enough of it in sight. *)
Lemma record_header_fields m rest : storable m ->
  Uint32 (encode m ++ rest) = zlength (encode_body m) /\
  Uint32 (drop 4 (encode m ++ rest)) = ChecksumIEEE (encode_body m).
Proof.
  intros Hst. destruct (body_length_range m Hst) as [Hr _]. unfold encode. rewrite <- !app_assoc. split.
  - rewrite Uint32_app. unfold u32. rewrite uwrap_uwrap by lia. by apply uwrap_id.
  - change 4%nat with (4 + 0)%nat. rewrite drop_two by apply PutUint32_length.
    rewrite drop_0, Uint32_app. apply uwrap_id, ChecksumIEEE_u32.
Qed.

Lemma encode_slice_body m rest :
  slice recHeaderLen (recHeaderLen + zlength (encode_body m)) (encode m ++ rest) = encode_body m.
Proof.
  unfold encode. rewrite (app_assoc (PutUint32 _)), <- (app_assoc _ (encode_body m)).
  apply slice_app_exact; rewrite zlength_app; unfold zlength; rewrite !PutUint32_length; unfold recHeaderLen; lia.
Qed.

Lemma scan_record_encode m rest : storable m -> scan_record (encode m ++ rest) = Some (rec_len m).
Proof.
  intros Hst. destruct (record_header_fields m rest Hst) as [Hn Hc]. destruct (body_length_range m Hst) as [_ Hp].
  pose proof Hst as (_ & _ & Hmax). pose proof (rec_len_eq m) as Hr. unfold rec_len in Hr.
  pose proof (zlength_nonneg rest).
  unfold scan_record. rewrite Hn, Hc, zlength_app. unfold recHeaderLen in *.
  destruct (Z.ltb_spec (zlength (encode m) + zlength rest) 8); [lia|].
  destruct (Z.eqb_spec (zlength (encode_body m)) 0); [lia|].
  destruct (Z.ltb_spec maxRecordBody (zlength (encode_body m))); [lia|]. cbn [orb].
  destruct (Z.ltb_spec (zlength (encode m) + zlength rest - 8) (zlength (encode_body m))); [lia|].
  fold recHeaderLen. rewrite encode_slice_body, Z.eqb_refl. cbn [negb]. by rewrite rec_len_eq.
Qed.

(** The scan stops at a record whose write was cut short. *)
Lemma scan_record_torn m k : storable m -> (k < length (encode m))%nat -> scan_record (take k (encode m)) = None.
Proof.
  intros Hst Hk. unfold scan_record, recHeaderLen. assert (zlength (take k (encode m)) = Z.of_nat k) as Hl.
  { unfold zlength. rewrite length_take. lia. }
  rewrite Hl. destruct (Z.ltb_spec (Z.of_nat k) 8); [done|].
  assert (Uint32 (take k (encode m)) = zlength (encode_body m)) as ->.
  { destruct (record_header_fields m [] Hst) as [E _]. rewrite app_nil_r in E. rewrite <- E.
    unfold Uint32. f_equal. rewrite take_take. f_equal. lia. }
  destruct (_ || _); [done|]. rewrite encode_length in Hk.
  destruct (Z.ltb_spec (Z.of_nat k - 8) (zlength (encode_body m))); [done|]. unfold zlength in *. lia.
Qed.

Lemma zlength_log ms : zlength (log ms) = sumZ (map rec_len ms).
Proof.
  induction ms as [|m ms IH]; [done|]. unfold log in *. cbn [map concat].
  by rewrite zlength_app, sumZ_cons, IH.
Qed.

Lemma log_app ms ms' : log (ms ++ ms') = log ms ++ log ms'.
Proof. unfold log. by rewrite map_app, concat_app. Qed.

Lemma log_cons m ms : log (m :: ms) = encode m ++ log ms.
Proof. done. Qed.

Lemma drop_rec m rest : drop (Z.to_nat (rec_len m)) (encode m ++ rest) = rest.
Proof. unfold rec_len, zlength. by rewrite Nat2Z.id, drop_app_length. Qed.

Lemma scan_loop_log ms torn fuel off r :
  Forall storable ms -> scan_record torn = None -> (length ms < fuel)%nat ->
  scan_loop fuel (log ms ++ torn) off r = (off + zlength (log ms), r + zlength ms).
Proof.
  intros Hms Htorn. revert fuel off r. induction Hms as [|m ms Hm Hms IH]; intros fuel off r Hf.
  - destruct fuel; [cbn in Hf; lia|]. cbn [log map concat app scan_loop]. rewrite Htorn. f_equal; unfold zlength; cbn; lia.
  - destruct fuel as [|fuel]; [cbn in Hf; lia|]. rewrite log_cons, <- app_assoc. cbn [scan_loop].
    rewrite scan_record_encode, drop_rec by done. rewrite IH by (cbn in Hf; lia).
    rewrite zlength_app, zlength_cons. fold (rec_len m). f_equal; lia.
Qed.

Lemma log_length ms : (length ms <= length (log ms))%nat.
Proof.
  induction ms as [|m ms IH]; [done|]. rewrite log_cons, length_app.
  pose proof (rec_len_pos m). unfold rec_len, zlength in *. cbn [length]. lia.
Qed.

(** What recovery finds in a segment file: every complete record after the
    cursor, and nothing of a torn one. *)
Lemma scan_log pre ms torn from :
  from = zlength pre -> Forall storable ms -> scan_record torn = None ->
  scan (pre ++ log ms ++ torn) from = (from + zlength (log ms), zlength ms).
Proof.
  intros -> Hms Ht. unfold scan. unfold zlength at 1. rewrite Nat2Z.id, drop_app_length.
  rewrite scan_loop_log; [f_equal; lia|done|done|].
  pose proof (log_length ms). rewrite !length_app. lia.
Qed.

Lemma scan_record_nil : scan_record [] = None.
Proof. done. Qed.

(** ** Properties *)

(** A record survives the disk. Whatever follows it, the reader finds
    the record of a storable message, of the length that was written and with
    the checksum it carries, and decodes it to the same message. *)
Theorem record_roundtrip (m : Message) (rest : list byte) :
  storable m ->
  scan_record (encode m ++ rest) = Some (rec_len m) /\
  decode (slice recHeaderLen (rec_len m) (encode m ++ rest)) = Some m.
Proof.
  intros Hst. split; [by apply scan_record_encode|].
  rewrite rec_len_eq. change 8 with recHeaderLen. rewrite encode_slice_body. by apply decode_encode_body.
Qed.

Lemma record_roundtrip_witness :
  let m := mkMessage "acme/plant1/a/l/c/temp" [x01; x02; x03] true 1700000000000000000 in
  scan_record (encode m ++ [x00; x09]) = Some (rec_len m).
Proof.
  apply (record_roundtrip (mkMessage "acme/plant1/a/l/c/temp" [x01; x02; x03] true 1700000000000000000) [x00; x09]).
  split; [vm_compute; discriminate|]. split; [vm_compute; split; congruence|vm_compute; discriminate].
Defined.
