(* ===== verification/DiskQueue.v ===== *)
(** * DiskQueue: the bounded segmented FIFO on disk
      (internal/adapters/diskqueue/diskqueue.go)

    The directory is a map from file name to content, and every system call
    consumes one entry of a fault list: [Some n] makes it fail, a write after
    its first [n] bytes. The mutex makes each method atomic, so a method is a
    function of the queue and its directory. *)
From Stdlib Require Import ZArith Lia Strings.Ascii.
From S2P Require Import Prelude GoBytes Ports DiskCodec.

Open Scope string_scope.
Open Scope list_scope.
Open Scope Z_scope.

(** ** The directory *)

Record Disk := mkDisk {
  files : gmap string (list byte);
  faults : list (option nat)
}.

Inductive QueueError :=
| ErrClosed
| ErrCorrupt
| ErrIO (op : string)
| ErrPanic.

(** The outcome of the next system call that can fail. *)
Definition next_fault (d : Disk) : option nat * Disk :=
  match faults d with
  | [] => (None, d)
  | f :: fs => (f, mkDisk (files d) fs)
  end.

Definition set_files (f : gmap string (list byte) -> gmap string (list byte)) (d : Disk) : Disk :=
  mkDisk (f (files d)) (faults d).

(** A call that fails leaves the directory alone. *)
Definition sys_call {A} (op : string) (k : Disk -> result QueueError A * Disk) : GoM Disk QueueError A := fun d =>
  match next_fault d with
  | (Some _, d') => (Err (ErrIO op), d')
  | (None, d') => k d'
  end.

(** [os.File.Write] on a file opened with O_APPEND. *)
Definition sys_append (name : string) (bs : list byte) : GoM Disk QueueError unit := fun d =>
  let add n := set_files (fun fs => <[name := default [] (fs !! name) ++ take n bs]> fs) in
  match next_fault d with
  | (Some n, d') => (Err (ErrIO "append"), add n d')
  | (None, d') => (Ok tt, add (length bs) d')
  end.

(** [os.WriteFile]: the file is truncated before it is written. *)
Definition sys_write_file (name : string) (bs : list byte) : GoM Disk QueueError unit := fun d =>
  match next_fault d with
  | (Some n, d') => (Err (ErrIO "write head"), set_files (<[name := take n bs]>) d')
  | (None, d') => (Ok tt, set_files (<[name := bs]>) d')
  end.

(** [os.Remove]; a file that is already gone is no error to the caller. *)
Definition sys_remove (name : string) : GoM Disk QueueError unit :=
  sys_call "remove segment" (fun d => (Ok tt, set_files (delete name) d)).

Definition sys_truncate (name : string) (size : Z) : GoM Disk QueueError unit :=
  sys_call "truncate" (fun d =>
    match files d !! name with
    | None => (Err (ErrIO "truncate"), d)
    | Some c => (Ok tt, set_files (<[name := resize (Z.to_nat size) x00 c]>) d)
    end).

Definition sys_rename (a b : string) : GoM Disk QueueError unit :=
  sys_call "rename" (fun d =>
    match files d !! a with
    | None => (Err (ErrIO "rename"), d)
    | Some c => (Ok tt, set_files (fun fs => <[b := c]> (delete a fs)) d)
    end).

(** [os.OpenFile] with O_CREATE|O_APPEND. *)
Definition sys_open_append (name : string) : GoM Disk QueueError unit :=
  sys_call "open tail" (fun d =>
    (Ok tt, set_files (fun fs => match fs !! name with Some _ => fs | None => <[name := []]> fs end) d)).

Definition sys_open (name : string) : GoM Disk QueueError unit :=
  sys_call "open" (fun d =>
    match files d !! name with
    | None => (Err (ErrIO "open"), d)
    | Some _ => (Ok tt, d)
    end).

(** [os.File.ReadAt]: all of the bytes asked for or an error. *)
Definition sys_read_at (name : string) (off n : Z) : GoM Disk QueueError (list byte) :=
  sys_call "read" (fun d =>
    let c := default [] (files d !! name) in
    if zlength c <? off + n then (Err (ErrIO "read"), d) else (Ok (slice off (off + n) c), d)).

Definition sys_read_file (name : string) : GoM Disk QueueError (list byte) :=
  sys_call "read file" (fun d =>
    match files d !! name with
    | None => (Err (ErrIO "read file"), d)
    | Some c => (Ok c, d)
    end).

Definition sys_fsync : GoM Disk QueueError unit := sys_call "fsync" (fun d => (Ok tt, d)).
Definition sys_mkdir : GoM Disk QueueError unit := sys_call "mkdir" (fun d => (Ok tt, d)).

(** [os.ReadDir]: the names in the directory, sorted. *)
Definition sys_read_dir : GoM Disk QueueError (list string) :=
  sys_call "read dir" (fun d => (Ok (merge_sort String.le (map fst (map_to_list (files d)))), d)).

(** ** The queue *)

Definition segPrefix : string := "seg-".
Definition segSuffix : string := ".log".
Definition headFile : string := "head".

Definition DefaultMaxBytes : Z := Z.shiftl 64 20.
Definition DefaultSegmentBytes : Z := Z.shiftl 4 20.

Record Options := mkOptions { MaxBytes : Z; SegmentBytes : Z; SyncWrites : bool }.

Record segment := mkSegment { sId : Z; sPath : string; sSize : Z; sRecords : Z }.

Record Queue := mkQueue {
  disk : Disk;
  opts : Options;
  segments : list segment;
  writer : option string;
  reader : option string;
  headOff : Z;
  count : Z;
  qbytes : Z;
  dropped : Z;
  peeked : option Message;
  peekLen : Z;
  closed : bool
}.

Definition set_disk (d : Disk) (q : Queue) : Queue :=
  mkQueue d (opts q) (segments q) (writer q) (reader q) (headOff q) (count q) (qbytes q) (dropped q)
    (peeked q) (peekLen q) (closed q).
Definition set_segments (ss : list segment) (q : Queue) : Queue :=
  mkQueue (disk q) (opts q) ss (writer q) (reader q) (headOff q) (count q) (qbytes q) (dropped q)
    (peeked q) (peekLen q) (closed q).
Definition set_writer (w : option string) (q : Queue) : Queue :=
  mkQueue (disk q) (opts q) (segments q) w (reader q) (headOff q) (count q) (qbytes q) (dropped q)
    (peeked q) (peekLen q) (closed q).
Definition set_reader (r : option string) (q : Queue) : Queue :=
  mkQueue (disk q) (opts q) (segments q) (writer q) r (headOff q) (count q) (qbytes q) (dropped q)
    (peeked q) (peekLen q) (closed q).
Definition set_headOff (o : Z) (q : Queue) : Queue :=
  mkQueue (disk q) (opts q) (segments q) (writer q) (reader q) o (count q) (qbytes q) (dropped q)
    (peeked q) (peekLen q) (closed q).
Definition set_totals (n b : Z) (q : Queue) : Queue :=
  mkQueue (disk q) (opts q) (segments q) (writer q) (reader q) (headOff q) n b (dropped q)
    (peeked q) (peekLen q) (closed q).
Definition set_dropped (n : Z) (q : Queue) : Queue :=
  mkQueue (disk q) (opts q) (segments q) (writer q) (reader q) (headOff q) (count q) (qbytes q) n
    (peeked q) (peekLen q) (closed q).
Definition set_peeked (m : option Message) (len : Z) (q : Queue) : Queue :=
  mkQueue (disk q) (opts q) (segments q) (writer q) (reader q) (headOff q) (count q) (qbytes q) (dropped q)
    m len (closed q).
Definition set_closed (q : Queue) : Queue :=
  mkQueue (disk q) (opts q) (segments q) (writer q) (reader q) (headOff q) (count q) (qbytes q) (dropped q)
    (peeked q) (peekLen q) true.

Definition sys {A} (op : GoM Disk QueueError A) : GoM Queue QueueError A := fun q =>
  let '(r, d) := op (disk q) in (r, set_disk d q).

(** [q.segments[0]] and [q.segments[len-1]]; an index out of range panics. *)
Definition head_segment : GoM Queue QueueError segment := fun q =>
  match segments q with
  | s :: _ => (Ok s, q)
  | [] => (Err ErrPanic, q)
  end.

Definition tail_segment : GoM Queue QueueError segment := fun q =>
  match list.last (segments q) with
  | Some s => (Ok s, q)
  | None => (Err ErrPanic, q)
  end.

(** Updates through the pointers [head] and [tail]. *)
Definition update_head (f : segment -> segment) : GoM Queue QueueError unit :=
  modify (fun q => set_segments (match segments q with s :: ss => f s :: ss | [] => [] end) q).

Definition update_tail (f : segment -> segment) : GoM Queue QueueError unit :=
  modify (fun q => set_segments
    (match list.last (segments q) with
     | Some s => take (length (segments q) - 1) (segments q) ++ [f s]
     | None => []
     end) q).

Definition close_reader : GoM Queue QueueError unit := modify (set_reader None).

(** [fmt.Sprintf("%s%020d%s", segPrefix, id, segSuffix)] *)
Definition seg_name (id : Z) : string :=
  String.append segPrefix (String.append (pad_left 20 (FormatUint id)) segSuffix).

Definition head_data (id off : Z) : list byte :=
  bytes_of (String.append (FormatUint id) (String " "%char (String.append (FormatInt off) (String "010"%char EmptyString)))).

Definition writeHead : GoM Queue QueueError unit := fun q =>
  match segments q with
  | [] => (Ok tt, q)
  | s :: _ =>
      (sys (sys_write_file "head.tmp" (head_data (sId s) (headOff q)));;
       sys (sys_rename "head.tmp" headFile)) q
  end.

(** The old writer is closed first; a write to a closed file fails. *)
Definition openWriter : GoM Queue QueueError unit :=
  modify (set_writer None);;
  tail ← tail_segment;
  sys (sys_open_append (sPath tail));;
  modify (set_writer (Some (sPath tail))).

Definition roll (id : Z) : GoM Queue QueueError unit :=
  modify (fun q => set_segments (segments q ++ [mkSegment id (seg_name id) 0 0]) q);;
  openWriter.

Definition dropHead (counting : bool) : GoM Queue QueueError unit :=
  h ← head_segment;
  modify (fun q => if counting then set_dropped (dropped q + sRecords h) q else q);;
  modify (fun q => set_totals (count q - sRecords h) (qbytes q - sSize h) q);;
  close_reader;;
  modify (fun q => set_headOff 0 (set_peeked None (peekLen q) q));;
  sys (sys_remove (sPath h));;
  modify (fun q => set_segments (tail (segments q)) q);;
  writeHead.

(** The loop drops one segment per iteration: [n] segments bound it. *)
Fixpoint enforce_loop (n : nat) : GoM Queue QueueError unit := fun q =>
  if (MaxBytes (opts q) <? qbytes q) && (1 <? zlength (segments q)) then
    match n with
    | O => (Err ErrPanic, q)
    | S n' => (dropHead true;; enforce_loop n') q
    end
  else (Ok tt, q).

Definition enforceBound : GoM Queue QueueError unit := fun q => enforce_loop (length (segments q)) q.

(** The part of [Push] that writes the record to the tail and counts it. *)
Definition append_record (rec : list byte) : GoM Queue QueueError unit :=
  q ← get;
  w ← (match writer q with Some w => mret w | None => throw (ErrIO "append") end);
  sys (sys_append w rec);;
  (if SyncWrites (opts q) then sys sys_fsync else mret tt);;
  update_tail (fun s => mkSegment (sId s) (sPath s) (sSize s + zlength rec) (sRecords s + 1));;
  modify (fun q => set_totals (count q + 1) (qbytes q + zlength rec) q).

Definition Push (msg : Message) : GoM Queue QueueError unit := fun q =>
  if closed q then (Err ErrClosed, q)
  else
    let rec := encode msg in
    (tail ← tail_segment;
     (if (0 <? sSize tail) && (SegmentBytes (opts q) <? sSize tail + zlength rec)
      then roll (u64 (sId tail + 1)) else mret tt);;
     append_record rec;;
     enforceBound) q.

Definition open_reader (h : segment) : GoM Queue QueueError unit := fun q =>
  match reader q with
  | Some _ => (Ok tt, q)
  | None => (sys (sys_open (sPath h));; modify (set_reader (Some (sPath h)))) q
  end.

(** The message under the cursor, read from the head segment. *)
Definition read_head : GoM Queue QueueError Message :=
  h ← head_segment;
  open_reader h;;
  q ← get;
  let name := default (sPath h) (reader q) in
  hdr ← sys (sys_read_at name (headOff q) recHeaderLen);
  let n := Uint32 hdr in
  let want := Uint32 (drop 4 hdr) in
  if (n =? 0) || (maxRecordBody <? n) then throw ErrCorrupt
  else
    body ← sys (sys_read_at name (headOff q + recHeaderLen) n);
    if negb (ChecksumIEEE body =? want) then throw ErrCorrupt
    else
      match decode body with
      | None => throw ErrCorrupt
      | Some msg => modify (set_peeked (Some msg) (recHeaderLen + n));; mret msg
      end.

Definition peekLocked : GoM Queue QueueError (option Message) := fun q =>
  if count q =? 0 then (Ok None, q)
  else
    match peeked q with
    | Some m => (Ok (Some m), q)
    | None => (m ← read_head; mret (Some m)) q
    end.

Definition Peek : GoM Queue QueueError (option Message) := peekLocked.

Definition resetOnly (counting : bool) : GoM Queue QueueError unit :=
  h ← head_segment;
  modify (fun q => if counting then set_dropped (dropped q + sRecords h) q else q);;
  close_reader;;
  modify (fun q => set_peeked None (peekLen q) q);;
  sys (sys_truncate (sPath h) 0);;
  update_head (fun s => mkSegment (sId s) (sPath s) 0 0);;
  modify (fun q => set_headOff 0 (set_totals 0 0 q));;
  writeHead.

(** The cursor moves past the peeked record. *)
Definition advance : GoM Queue QueueError unit :=
  modify (fun q => set_headOff (headOff q + peekLen q) q);;
  modify (fun q => set_totals (count q - 1) (qbytes q) q);;
  update_head (fun s => mkSegment (sId s) (sPath s) (sSize s) (sRecords s - 1));;
  modify (fun q => set_peeked None (peekLen q) q);;
  h ← head_segment;
  q ← get;
  if sSize h <=? headOff q then
    if 1 <? zlength (segments q) then dropHead false else resetOnly false
  else writeHead.

Definition Ack : GoM Queue QueueError unit := fun q =>
  if count q =? 0 then (Ok tt, q)
  else
    match peeked q with
    | Some _ => advance q
    | None =>
        match peekLocked q with
        | (Err ErrPanic, q') => (Err ErrPanic, q')
        | (Err _, q') => (if 1 <? zlength (segments q') then dropHead true else resetOnly true) q'
        | (Ok None, q') => (Ok tt, q')
        | (Ok (Some _), q') => advance q'
        end
    end.

Definition Len (q : Queue) : Z := count q.
Definition Bytes (q : Queue) : Z := qbytes q.
Definition Dropped (q : Queue) : Z := dropped q.

(** A file that was closed: no file has this name, so that reading it fails. *)
Definition closed_file : string := EmptyString.

(** The writer is not looked at again, since [Push] refuses; the reader stays,
    closed. Closing the files cannot change the directory. *)
Definition Close : GoM Queue QueueError unit := fun q =>
  if closed q then (Ok tt, q)
  else
    let '(r, q) := writeHead (set_closed q) in
    (r, set_reader ((fun _ => closed_file) <$> reader q) q).

Global Instance DiskQueue_ops : QueueOps Queue QueueError := {
  qPush := Push; qPeek := Peek; qAck := Ack; qLen := Len; qBytes := Bytes; qDropped := Dropped
}.

(** ** Opening *)

(** The id in a segment's file name. *)
Definition parse_name (name : string) : option Z :=
  if HasPrefix name segPrefix && HasSuffix name segSuffix
  then ParseUint (TrimSuffix (TrimPrefix name segPrefix) segSuffix)
  else None.

Definition readHead : GoM Queue QueueError (Z * Z) := fun q =>
  match sys (sys_read_file headFile) q with
  | (Err _, q') => (Ok (0, 0), q')
  | (Ok b, q') =>
      (match Fields (string_of b) with
       | [f0; f1] =>
           match ParseUint f0, ParseInt f1 with
           | Some id, Some off => if off <? 0 then Ok (0, 0) else Ok (id, off)
           | _, _ => Ok (0, 0)
           end
       | _ => Ok (0, 0)
       end, q')
  end.

(** A read that fails ends the scan like the end of the file. *)
Definition scanSegment (path : string) (from : Z) : GoM Disk QueueError (Z * Z) :=
  sys_open path;;
  r ← (fun d => let '(f, d') := next_fault d in (Ok f, d'));
  c ← (fun d => (Ok (default [] (files d !! path)), d));
  let seen := match r with Some n => take (Z.to_nat from + n) c | None => c end in
  let '(size, records) := scan seen from in
  sys_truncate path size;;
  mret (size, records).

(** The loop of [recover] over the segments found; consumed ones are left out
    of the result. *)
Fixpoint recover_segments (headID hoff : Z) (ss : list segment) : GoM Queue QueueError (list segment) :=
  match ss with
  | [] => mret []
  | s :: ss' =>
      if sId s <? headID then
        (fun q => let '(_, q') := sys (sys_remove (sPath s)) q in (Ok tt, q'));;
        recover_segments headID hoff ss'
      else
        let start := if sId s =? headID then hoff else 0 in
        '(size, records) ← sys (scanSegment (sPath s) start);
        modify (fun q => if sId s =? headID then set_headOff (Z.min hoff size) q else q);;
        modify (fun q => set_totals (count q + records) (qbytes q + size) q);;
        rest ← recover_segments headID hoff ss';
        mret (mkSegment (sId s) (sPath s) size records :: rest)
  end.

Definition seg_le (a b : segment) : Prop := sId a <= sId b.
Global Instance seg_le_dec a b : Decision (seg_le a b).
Proof. unfold seg_le. apply _. Defined.

Definition found_segments (names : list string) : list segment :=
  omap (fun name => id ← parse_name name; Some (mkSegment id name 0 0)) names.

Definition recover : GoM Queue QueueError unit :=
  names ← sys sys_read_dir;
  '(headID, hoff) ← readHead;
  live ← recover_segments headID hoff (merge_sort seg_le (found_segments names));
  modify (set_segments live);;
  (match live with [] => roll 1 | _ => openWriter end);;
  enforceBound.

Definition effective (o : Options) : Options :=
  let m := if MaxBytes o <=? 0 then DefaultMaxBytes else MaxBytes o in
  let s := if SegmentBytes o <=? 0 then DefaultSegmentBytes else SegmentBytes o in
  mkOptions m (if m / 2 <? s then Z.max (m / 2) 1 else s) (SyncWrites o).

Definition Open (o : Options) (d : Disk) : result QueueError unit * Queue :=
  (sys sys_mkdir;; recover) (mkQueue d (effective o) [] None None 0 0 0 0 None 0 false).
