(* ===== verification/DiskInv.v ===== *)
(** * DiskInv: the disk queue implements the queue contract

    The invariant ties the cursor, the counters and the segment list to the
    bytes on disk; every method preserves it and acts on the pending messages
    as the contract of [Ports] says. *)
From Stdlib Require Import ZArith Lia Strings.Ascii.
From S2P Require Import Prelude GoBytes Ports DiskCodec DiskQueue.

Open Scope string_scope.
Open Scope list_scope.
Open Scope Z_scope.

(** ** The pending messages, read off the disk *)

Fixpoint read_log (fuel : nat) (bs : list byte) : list Message :=
  match fuel with
  | O => []
  | S fuel' =>
      match scan_record bs with
      | None => []
      | Some len =>
          match decode (slice recHeaderLen len bs) with
          | None => []
          | Some m => m :: read_log fuel' (drop (Z.to_nat len) bs)
          end
      end
  end.

Definition read_file (fs : gmap string (list byte)) (off : Z) (s : segment) : list Message :=
  let bs := drop (Z.to_nat off) (default [] (fs !! sPath s)) in read_log (S (length bs)) bs.

Definition pending (q : Queue) : list Message :=
  match segments q with
  | [] => []
  | s :: ss =>
      read_file (files (disk q)) (headOff q) s ++
      concat (map (read_file (files (disk q)) 0) ss)
  end.

(** ** The invariant *)

(** A segment as the invariant sees it: the offset its unread records start
    at and the messages they hold. *)
Record view := mkView { vOff : Z; vSeg : segment; vMsgs : list Message }.

Definition view_ok (fs : gmap string (list byte)) (v : view) : Prop :=
  (exists pre, fs !! sPath (vSeg v) = Some (pre ++ log (vMsgs v)) /\ zlength pre = vOff v) /\
  sSize (vSeg v) = vOff v + zlength (log (vMsgs v)) /\ sRecords (vSeg v) = zlength (vMsgs v) /\
  Forall storable (vMsgs v) /\ sPath (vSeg v) = seg_name (sId (vSeg v)) /\ 1 <= sId (vSeg v) < 2 ^ 64.

Definition vid (v : view) : Z := sId (vSeg v).
Definition vmsgs (vs : list view) : list Message := concat (map vMsgs vs).

(** What holds between any two system calls of a method. *)
Record Core (q : Queue) (vs : list view) : Prop := {
  core_faults : faults (disk q) = [];
  core_open : closed q = false;
  core_segs : segments q = map vSeg vs;
  core_views : Forall (view_ok (files (disk q))) vs;
  core_offs : match vs with [] => False | v :: vs' => vOff v = headOff q /\ Forall (fun u => vOff u = 0) vs' end;
  core_ids : StronglySorted (fun a b => vid a < vid b) vs;
  core_writer : writer q = sPath <$> list.last (segments q);
  core_reader : reader q = None \/ reader q = sPath <$> head (segments q);
  core_count : count q = zlength (vmsgs vs);
  core_bytes : qbytes q = sumZ (map sSize (segments q));
  core_peeked : match peeked q with
                | None => True
                | Some m => exists v vs' ms, vs = v :: vs' /\ vMsgs v = m :: ms /\ peekLen q = rec_len m
                end;
  core_dir : forall name id, is_Some (files (disk q) !! name) -> parse_name name = Some id ->
             exists v, v ∈ vs /\ sPath (vSeg v) = name /\ vid v = id
}.

(** The cursor file: it names the head segment and the offset, or is older
    than the head segment, which then has not been read from. *)
Definition head_ok (fs : gmap string (list byte)) (id off : Z) : Prop :=
  match fs !! headFile with
  | None => off = 0
  | Some b => exists i o, b = head_data i o /\ is_u64 i /\ 0 <= o /\
                (i = id /\ o = off \/ i < id /\ off = 0)
  end.

(** Only a queue with nothing pending has a segment with nothing pending. *)
Definition full (vs : list view) (off : Z) : Prop :=
  Forall (fun v => vMsgs v <> []) vs \/ (exists v, vs = [v] /\ vMsgs v = [] /\ off = 0).

Definition Inv (q : Queue) (vs : list view) : Prop :=
  Core q vs /\ full vs (headOff q) /\ (qbytes q <= MaxBytes (opts q) \/ length vs = 1%nat) /\
  match vs with [] => False | v :: _ => head_ok (files (disk q)) (vid v) (headOff q) end.

(** ** Names *)

Lemma parse_seg_name id : is_u64 id -> parse_name (seg_name id) = Some id.
Proof.
  intros H. unfold parse_name, seg_name. rewrite HasPrefix_append, TrimPrefix_append, TrimSuffix_append.
  set (p := String.append segPrefix _).
  assert (p = String.append (String.append segPrefix (pad_left 20 (FormatUint id))) segSuffix) as ->.
  { unfold p. generalize segPrefix. intros s. induction s as [|c s IH]; [done|].
    by rewrite !append_cons, IH. }
  rewrite HasSuffix_append. cbn [andb]. by apply ParseUint_pad_left.
Qed.

Lemma seg_name_inj i j : is_u64 i -> is_u64 j -> seg_name i = seg_name j -> i = j.
Proof.
  intros Hi Hj H. apply (f_equal parse_name) in H. rewrite !parse_seg_name in H by done. by injection H.
Qed.

Lemma seg_name_head id : seg_name id <> headFile /\ seg_name id <> "head.tmp".
Proof. unfold seg_name, segPrefix. rewrite append_cons. by split. Qed.

Lemma parse_name_head : parse_name headFile = None /\ parse_name "head.tmp" = None.
Proof. done. Qed.

(** ** Reading back a log *)

Lemma read_log_log ms fuel : Forall storable ms -> (length ms < fuel)%nat -> read_log fuel (log ms) = ms.
Proof.
  intros H. revert fuel. induction H as [|m ms Hm Hms IH]; intros fuel Hf; (destruct fuel as [|fuel]; [cbn in Hf; lia|]); [done|].
  rewrite log_cons. cbn [read_log]. rewrite scan_record_encode by done.
  rewrite rec_len_eq. change 8 with recHeaderLen. rewrite encode_slice_body, decode_encode_body by done.
  change recHeaderLen with 8. rewrite <- rec_len_eq, drop_rec. f_equal. apply IH. cbn in Hf. lia.
Qed.

Lemma read_file_view fs v : view_ok fs v -> read_file fs (vOff v) (vSeg v) = vMsgs v.
Proof.
  intros ((pre & Hf & Hl) & _ & _ & Hst & _). unfold read_file. rewrite Hf. cbn [from_option id].
  rewrite <- Hl. unfold zlength. rewrite Nat2Z.id, drop_app_length.
  apply read_log_log; [done|]. pose proof (log_length (vMsgs v)). lia.
Qed.

Lemma pending_views q vs : Core q vs -> pending q = vmsgs vs.
Proof.
  intros C. unfold pending. rewrite (core_segs _ _ C). pose proof (core_offs _ _ C) as Ho.
  pose proof (core_views _ _ C) as Hv. destruct vs as [|v vs]; [done|]. destruct Ho as [Ho Hz].
  apply Forall_cons in Hv as [Hv Hvs]. cbn [map]. unfold vmsgs. cbn [map concat].
  rewrite <- Ho, read_file_view by done. f_equal. clear -Hvs Hz.
  induction Hvs as [|u us Hu Hus IH]; [done|]. apply Forall_cons in Hz as [Hz Hzs].
  cbn [map concat]. rewrite <- Hz, read_file_view by done. f_equal. rewrite Hz. by apply IH.
Qed.

(** ** Views under changes of other files *)

Lemma view_ok_ext fs fs' v : fs' !! sPath (vSeg v) = fs !! sPath (vSeg v) -> view_ok fs v -> view_ok fs' v.
Proof. unfold view_ok. by intros ->. Qed.

Lemma view_ok_path fs v : view_ok fs v -> sPath (vSeg v) = seg_name (vid v) /\ is_u64 (vid v) /\ 1 <= vid v.
Proof. intros (_ & _ & _ & _ & H & ?). unfold vid, in_u. split; [done|lia]. Qed.

Lemma views_head_files fs fs' vs :
  (forall name, name <> headFile -> name <> "head.tmp" -> fs' !! name = fs !! name) ->
  Forall (view_ok fs) vs -> Forall (view_ok fs') vs.
Proof.
  intros He H. eapply Forall_impl; [exact H|]. intros v Hv. eapply view_ok_ext; [|exact Hv].
  destruct (view_ok_path _ _ Hv) as [-> _]. destruct (seg_name_head (vid v)). by apply He.
Qed.

(** Two views of the invariant with different ids have different files. *)
Lemma views_paths fs u v : view_ok fs u -> view_ok fs v -> vid u <> vid v -> sPath (vSeg u) <> sPath (vSeg v).
Proof.
  intros Hu Hv Hne E. destruct (view_ok_path _ _ Hu) as (Eu & Ru & _), (view_ok_path _ _ Hv) as (Ev & Rv & _).
  rewrite Eu, Ev in E. by apply Hne, seg_name_inj.
Qed.

(** ** System calls that do not fail *)

Definition with_files (fs : gmap string (list byte)) (q : Queue) : Queue := set_disk (mkDisk fs []) q.

Lemma set_disk_id q : set_disk (disk q) q = q.
Proof. by destruct q. Qed.

Lemma sys_remove_ok n q : faults (disk q) = [] ->
  sys (sys_remove n) q = (Ok tt, with_files (delete n (files (disk q))) q).
Proof. intros H. unfold sys, sys_remove, sys_call, next_fault, set_files. by rewrite H, H. Qed.

Lemma sys_append_ok n bs q : faults (disk q) = [] ->
  sys (sys_append n bs) q = (Ok tt, with_files (<[n := default [] (files (disk q) !! n) ++ bs]> (files (disk q))) q).
Proof. intros H. unfold sys, sys_append, next_fault, set_files. by rewrite H, H, firstn_all. Qed.

Lemma sys_truncate_ok n size c q : faults (disk q) = [] -> files (disk q) !! n = Some c ->
  sys (sys_truncate n size) q = (Ok tt, with_files (<[n := resize (Z.to_nat size) x00 c]> (files (disk q))) q).
Proof. intros H Hf. unfold sys, sys_truncate, sys_call, next_fault, set_files. by rewrite H, Hf, H. Qed.

Lemma sys_fsync_ok q : faults (disk q) = [] -> sys sys_fsync q = (Ok tt, q).
Proof. intros H. unfold sys, sys_fsync, sys_call, next_fault. by rewrite H, set_disk_id. Qed.

Lemma sys_open_append_ok n q : faults (disk q) = [] ->
  sys (sys_open_append n) q =
  (Ok tt, with_files (match files (disk q) !! n with Some _ => files (disk q) | None => <[n := []]> (files (disk q)) end) q).
Proof. intros H. unfold sys, sys_open_append, sys_call, next_fault, set_files. by rewrite H, H. Qed.

Lemma sys_open_ok n q : faults (disk q) = [] -> is_Some (files (disk q) !! n) -> sys (sys_open n) q = (Ok tt, q).
Proof. intros H [c Hc]. unfold sys, sys_open, sys_call, next_fault. by rewrite H, Hc, set_disk_id. Qed.

Lemma sys_read_at_ok n off len c q : faults (disk q) = [] -> files (disk q) !! n = Some c ->
  off + len <= zlength c -> sys (sys_read_at n off len) q = (Ok (slice off (off + len) c), q).
Proof.
  intros H Hc Hl. unfold sys, sys_read_at, sys_call, next_fault. rewrite H, Hc. cbn [from_option id].
  destruct (Z.ltb_spec (zlength c) (off + len)); [lia|]. by rewrite set_disk_id.
Qed.

Lemma writeHead_ok q s ss : faults (disk q) = [] -> segments q = s :: ss ->
  writeHead q =
  (Ok tt, with_files (<[headFile := head_data (sId s) (headOff q)]> (delete "head.tmp" (files (disk q)))) q).
Proof.
  intros H Hs. unfold writeHead. rewrite Hs. unfold mbind, GoM_bind.
  unfold sys at 1, sys_write_file, next_fault. rewrite H. unfold set_files.
  unfold sys, sys_rename, sys_call, next_fault. cbn [set_disk disk files faults]. rewrite H. cbn [files]. rewrite lookup_insert_eq.
  unfold set_files. cbn [files faults]. unfold with_files, set_disk. cbn.
  by rewrite delete_insert_eq.
Qed.

(** ** Preservation of the core by the steps methods are made of *)

Ltac core C := destruct C as [Cfaults Copen Csegs Cviews Coffs Cids Cwriter Creader Ccount Cbytes Cpeeked Cdir].

Lemma Core_head_files q vs fs' : Core q vs ->
  (forall name, name <> headFile -> name <> "head.tmp" -> fs' !! name = files (disk q) !! name) ->
  Core (with_files fs' q) vs.
Proof.
  intros C He. core C. constructor; try done.
  - by eapply views_head_files.
  - intros name id Hn Hp. apply (Cdir name id); [|done]. cbn in Hn.
    rewrite <- He; [done|intros ->; by rewrite (proj1 parse_name_head) in Hp|].
    intros ->. by rewrite (proj2 parse_name_head) in Hp.
Qed.

Lemma writeHead_core q v vs : Core q (v :: vs) -> 0 <= headOff q ->
  exists fs', writeHead q = (Ok tt, with_files fs' q) /\ Core (with_files fs' q) (v :: vs) /\
    head_ok fs' (vid v) (headOff q).
Proof.
  intros C Ho. pose proof (core_segs _ _ C) as Hs. cbn [map] in Hs.
  eexists. split; [apply (writeHead_ok q (vSeg v) (map vSeg vs)); [apply C|done]|]. split.
  - apply Core_head_files; [done|]. intros name H1 H2.
    by rewrite lookup_insert_ne, lookup_delete_ne by done.
  - unfold head_ok. rewrite lookup_insert_eq. exists (vid v), (headOff q).
    pose proof (core_views _ _ C) as Hv. apply Forall_cons in Hv as [Hv _].
    destruct (view_ok_path _ _ Hv) as (_ & ? & _). repeat split; try done; [apply H|apply H|by left].
Qed.

Ltac run_monad := unfold mbind, GoM_bind, mret, GoM_ret, get, modify, throw; cbv beta iota.

Lemma sumZ_map_cons {A} (f : A -> Z) x xs : sumZ (map f (x :: xs)) = f x + sumZ (map f xs).
Proof. done. Qed.

Lemma vmsgs_cons v vs : vmsgs (v :: vs) = vMsgs v ++ vmsgs vs.
Proof. done. Qed.

Lemma vmsgs_app vs us : vmsgs (vs ++ us) = vmsgs vs ++ vmsgs us.
Proof. unfold vmsgs. by rewrite map_app, concat_app. Qed.

(** Views after the removal of the oldest segment's file. *)
Lemma views_delete fs v vs : view_ok fs v -> Forall (view_ok fs) vs ->
  StronglySorted (fun a b => vid a < vid b) (v :: vs) -> Forall (view_ok (delete (sPath (vSeg v)) fs)) vs.
Proof.
  intros Hv Hvs [_ Hlt]%StronglySorted_inv. apply Forall_forall. intros u Hu.
  pose proof (proj1 (Forall_forall _ _) Hvs u Hu) as Huv. pose proof (proj1 (Forall_forall _ _) Hlt u Hu) as Hid.
  eapply view_ok_ext; [|exact Huv]. apply lookup_delete_ne.
  eapply views_paths; [done|done|]. cbn in Hid. lia.
Qed.

Lemma Core_dropped n q vs : Core q vs -> Core (set_dropped n q) vs.
Proof. intros C. core C. by constructor. Qed.

Lemma dropHead_core counting q v u vs : Core q (v :: u :: vs) ->
  exists q', dropHead counting q = (Ok tt, q') /\ Core q' (u :: vs) /\ headOff q' = 0 /\
    head_ok (files (disk q')) (vid u) 0 /\ opts q' = opts q /\
    dropped q' = dropped q + (if counting then zlength (vMsgs v) else 0) /\
    qbytes q' = qbytes q - sSize (vSeg v).
Proof.
  intros C. pose proof C as C'. core C'. cbn [map] in Csegs.
  pose proof (proj1 (Forall_cons _ _ _) Cviews) as [Hv Hvs]. pose proof Hv as (_ & _ & Hrec & _).
  destruct Coffs as [_ Hz].
  set (q1 := set_dropped (dropped q + if counting then sRecords (vSeg v) else 0)
    (set_segments (map vSeg (u :: vs))
    (with_files (delete (sPath (vSeg v)) (files (disk q)))
       (set_headOff 0 (set_peeked None (peekLen q) (set_reader None
          (set_totals (count q - sRecords (vSeg v)) (qbytes q - sSize (vSeg v)) q))))))).
  assert (dropHead counting q = writeHead q1) as E.
  { unfold dropHead, head_segment, close_reader. run_monad. rewrite Csegs. cbv beta iota.
    destruct counting; unfold q1; (rewrite sys_remove_ok by done); cbv beta iota; f_equal;
      unfold set_segments, with_files; cbn; rewrite Csegs; [done|by rewrite Z.add_0_r]. }
  assert (Core q1 (u :: vs)) as C1.
  { apply Core_dropped. constructor; cbn -[sumZ map]; try done.
    - by apply views_delete.
    - by apply Forall_cons in Hz.
    - by apply StronglySorted_inv in Cids as [? _].
    - by rewrite Cwriter, Csegs.
    - by left.
    - rewrite Ccount, Hrec, vmsgs_cons, zlength_app. lia.
    - rewrite Cbytes, Csegs. cbn [map]. rewrite !sumZ_cons. lia.
    - intros name id Hn Hp. apply lookup_delete_is_Some in Hn as [Hne Hn].
      destruct (Cdir name id Hn Hp) as (w & Hw & Hpw & Hid). exists w. split; [|done].
      apply elem_of_cons in Hw as [-> | Hw]; done. }
  destruct (writeHead_core q1 u vs C1) as (fs' & Hw & Cw & Hh); [done|].
  exists (with_files fs' q1). rewrite E. split; [done|]. split; [done|]. split; [done|].
  split; [done|]. unfold q1. cbn. destruct counting; rewrite <- ?Hrec; repeat split; lia.
Qed.

Definition synced (q : Queue) (vs : list view) : Prop :=
  match vs with [] => False | v :: _ => head_ok (files (disk q)) (vid v) (headOff q) end.

Definition bounded (q : Queue) (vs : list view) : Prop :=
  qbytes q <= MaxBytes (opts q) \/ length vs = 1%nat.

Lemma Core_cons q vs : Core q vs -> exists v us, vs = v :: us.
Proof. intros C. pose proof (core_offs _ _ C). destruct vs; [done|by eexists _, _]. Qed.

Lemma core_length q vs : Core q vs -> zlength (segments q) = zlength vs.
Proof. intros C. rewrite (core_segs _ _ C). unfold zlength. by rewrite length_map. Qed.

Lemma enforce_core n q vs : Core q vs -> synced q vs -> (length vs <= n)%nat ->
  exists q' vs1 vs2, enforce_loop n q = (Ok tt, q') /\ vs = vs1 ++ vs2 /\ Core q' vs2 /\ synced q' vs2 /\
    bounded q' vs2 /\ opts q' = opts q /\ dropped q' = dropped q + zlength (vmsgs vs1) /\
    (vs1 = [] /\ q' = q \/ headOff q' = 0).
Proof.
  revert q vs. induction n as [|n IH]; intros q vs C Hs Hn; destruct (Core_cons _ _ C) as (v & us & ->); [cbn in Hn; lia|].
  cbn [enforce_loop]. rewrite (core_length _ _ C), zlength_cons.
  destruct us as [|u us].
  - rewrite andb_false_r. exists q, [], [v]. unfold vmsgs; cbn. rewrite Z.add_0_r.
    split_and!; try done; [by right|by left].
  - destruct (Z.ltb_spec (MaxBytes (opts q)) (qbytes q)) as [Hover|Hok]; cbn [andb].
    + rewrite zlength_cons. pose proof (zlength_nonneg us). destruct (Z.ltb_spec 1 (1 + (1 + zlength us))); [|lia].
      destruct (dropHead_core true q v u us C) as (q1 & E1 & C1 & Ho1 & Hh1 & Hopt & Hd & _).
      destruct (IH q1 (u :: us) C1) as (q2 & vs1 & vs2 & E2 & Evs & C2 & Hs2 & Hb2 & Hopt2 & Hd2 & Hz2).
      { unfold synced. by rewrite Ho1. }
      { cbn in *. lia. }
      exists q2, (v :: vs1), vs2. run_monad. rewrite E1, E2, Evs, vmsgs_cons, zlength_app.
      split_and!; try done; [congruence|lia|]. right. by destruct Hz2 as [[-> ->]|?].
    + exists q, [], (v :: u :: us). unfold vmsgs; cbn. rewrite Z.add_0_r.
      split_and!; try done; [by left|by left].
Qed.


Definition empty_view (id : Z) : view := mkView 0 (mkSegment id (seg_name id) 0 0) [].

Lemma ids_snoc vs t : StronglySorted (fun a b => vid a < vid b) (vs ++ [t]) ->
  StronglySorted (fun a b => vid a < vid b) vs /\ Forall (fun v => vid v < vid t) vs.
Proof.
  intros (H & Hs & _)%StronglySorted_app. split; [done|]. apply Forall_forall. intros v Hv.
  apply H; [done|]. by apply list_elem_of_singleton.
Qed.

Lemma ids_snoc_intro vs t : StronglySorted (fun a b => vid a < vid b) vs -> Forall (fun v => vid v < vid t) vs ->
  StronglySorted (fun a b => vid a < vid b) (vs ++ [t]).
Proof.
  intros Hs H. apply StronglySorted_app. split_and!; [|done|repeat constructor].
  intros a b Ha ->%list_elem_of_singleton. by apply (proj1 (Forall_forall _ _) H).
Qed.

Lemma offs_snoc (o : Z) vs t :
  match vs ++ [t] with [] => False | v :: vs' => vOff v = o /\ Forall (fun u => vOff u = 0) vs' end ->
  forall us t', vOff t' = vOff t -> Forall (fun u => vOff u = 0) us ->
  match (vs ++ [t']) ++ us with [] => False | v :: vs' => vOff v = o /\ Forall (fun u => vOff u = 0) vs' end.
Proof.
  destruct vs as [|v vs]; cbn; intros [H1 H2] us t' Ht Hus; (split; [congruence|]); [done|].
  apply Forall_app in H2 as [H2 [H3 _]%Forall_cons]. rewrite !Forall_app, Forall_singleton. split_and!; [done|congruence|done].
Qed.

(** Views under a change of one segment's file. *)
Lemma views_insert fs v c vs : view_ok fs v -> Forall (view_ok fs) vs ->
  Forall (fun u => vid u < vid v) vs -> Forall (view_ok (<[sPath (vSeg v) := c]> fs)) vs.
Proof.
  intros Hv Hvs Hlt. apply Forall_forall. intros u Hu.
  pose proof (proj1 (Forall_forall _ _) Hvs u Hu) as Huv. pose proof (proj1 (Forall_forall _ _) Hlt u Hu) as Hid.
  eapply view_ok_ext; [|exact Huv]. apply lookup_insert_ne. cbn in Hid.
  intros E. symmetry in E. revert E. eapply views_paths; [done|done|]. lia.
Qed.

Lemma roll_core q vs t : Core q (vs ++ [t]) -> vid t + 1 < 2 ^ 64 ->
  exists q', roll (vid t + 1) q = (Ok tt, q') /\ Core q' ((vs ++ [t]) ++ [empty_view (vid t + 1)]) /\
    headOff q' = headOff q /\ opts q' = opts q /\ dropped q' = dropped q /\
    files (disk q') !! headFile = files (disk q) !! headFile /\ peeked q' = peeked q.
Proof.
  intros C Hid. core C. set (id := vid t + 1) in *. set (nv := empty_view id).
  pose proof (ids_snoc _ _ Cids) as [_ Hlt]. pose proof Cviews as [_ [Ht _]%Forall_cons]%Forall_app.
  destruct (view_ok_path _ _ Ht) as (_ & _ & Hid1).
  assert (Forall (fun v => vid v < id) (vs ++ [t])) as Hlt'.
  { apply Forall_app. rewrite Forall_singleton. split; [|lia]. eapply Forall_impl; [exact Hlt|]. cbn. lia. }
  assert (is_u64 id) as Hu by (unfold in_u; lia).
  assert (files (disk q) !! seg_name id = None) as Hnew.
  { apply eq_None_not_Some. intros Hsome. destruct (Cdir _ id Hsome (parse_seg_name id Hu)) as (v & Hv & _ & Ev).
    pose proof (proj1 (Forall_forall _ _) Hlt' v Hv) as H. cbn in H. lia. }
  set (q' := set_writer (Some (seg_name id)) (with_files (<[seg_name id := []]> (files (disk q)))
    (set_segments (map vSeg ((vs ++ [t]) ++ [nv])) q))).
  assert (view_ok (<[seg_name id := []]> (files (disk q))) nv) as Hnv.
  { unfold view_ok. cbn. rewrite lookup_insert_eq. split; [by exists []|]. split_and!; try done; lia. }
  exists q'. split; [|split].
  - unfold roll, openWriter, tail_segment. run_monad. cbn [set_segments set_writer segments].
    rewrite last_snoc. cbv beta iota. rewrite sys_open_append_ok by done. cbn [disk set_writer set_segments sPath].
    rewrite Hnew. cbv beta iota. unfold q'. rewrite map_app, Csegs. done.
  - constructor; unfold q'; cbn -[sumZ map]; try done.
    + apply Forall_app. rewrite Forall_singleton. split; [|done]. apply Forall_forall. intros v Hv.
      eapply view_ok_ext; [|exact (proj1 (Forall_forall _ _) Cviews v Hv)]. apply lookup_insert_ne. intros E.
      assert (is_Some (files (disk q) !! sPath (vSeg v))) as Hs; [|rewrite <- E, Hnew in Hs; by apply is_Some_None in Hs].
      destruct (proj1 (Forall_forall _ _) Cviews v Hv) as ((pre & -> & _) & _). by eexists.
    + apply (offs_snoc _ _ t); [done|done|by repeat constructor].
    + by apply ids_snoc_intro.
    + rewrite (map_app _ (vs ++ [t])). cbn [map]. by rewrite last_snoc.
    + destruct Creader as [?|E]; [by left|]. right. rewrite E, Csegs. rewrite (map_app _ (vs ++ [t])).
      by destruct (map vSeg (vs ++ [t])) eqn:Em; [destruct vs|].
    + rewrite Ccount, (vmsgs_app (vs ++ [t])). unfold vmsgs at 3. cbn. by rewrite app_nil_r.
    + rewrite Cbytes, Csegs, !map_app, !sumZ_app. cbn. lia.
    + destruct (peeked q); [|done]. destruct Cpeeked as (v & vs' & ms & -> & ? & ?). by eexists v, _, ms.
    + intros name i Hn Hp. destruct (decide (name = seg_name id)) as [->|Hne].
      * rewrite parse_seg_name in Hp by done. injection Hp as <-. exists nv. split; [|done].
        apply elem_of_app. right. by apply list_elem_of_singleton.
      * rewrite lookup_insert_ne in Hn by done. destruct (Cdir name i Hn Hp) as (v & Hv & ?).
        exists v. split; [apply elem_of_app; by left|done].
  - unfold q'. cbn. split_and!; try done. apply lookup_insert_ne. by destruct (seg_name_head id).
Qed.

Definition pushed_view (t : view) (m : Message) : view :=
  mkView (vOff t)
    (mkSegment (sId (vSeg t)) (sPath (vSeg t)) (sSize (vSeg t) + rec_len m) (sRecords (vSeg t) + 1))
    (vMsgs t ++ [m]).

Lemma pushed_view_ok fs t m : view_ok fs t -> storable m ->
  view_ok (<[sPath (vSeg t) := default [] (fs !! sPath (vSeg t)) ++ encode m]> fs) (pushed_view t m).
Proof.
  intros ((pre & Hf & Hl) & Hs & Hr & Hst & Hp & Hid) Hm. unfold view_ok, pushed_view. cbn [vOff vSeg vMsgs sPath sSize sRecords sId].
  rewrite lookup_insert_eq, Hf. cbn [from_option id]. rewrite log_app, !zlength_app, zlength_cons, zlength_nil.
  assert (log [m] = encode m) as -> by (unfold log; cbn; by rewrite app_nil_r). fold (rec_len m).
  split; [exists pre; by rewrite app_assoc|]. split_and!; try done; try lia.
  apply Forall_app. split; [done|by apply Forall_singleton].
Qed.

Lemma vmsgs_pushed vs t m : vmsgs (vs ++ [pushed_view t m]) = vmsgs (vs ++ [t]) ++ [m].
Proof. rewrite !vmsgs_app. unfold vmsgs at 2 4. cbn. rewrite !app_nil_r. by rewrite app_assoc. Qed.

Lemma append_core q vs t m : Core q (vs ++ [t]) -> storable m ->
  exists q', append_record (encode m) q = (Ok tt, q') /\ Core q' (vs ++ [pushed_view t m]) /\
    headOff q' = headOff q /\ opts q' = opts q /\ dropped q' = dropped q /\
    files (disk q') !! headFile = files (disk q) !! headFile.
Proof.
  intros C Hm. core C. pose proof (ids_snoc _ _ Cids) as [Hids Hlt].
  pose proof Cviews as [Hvs [Ht _]%Forall_cons]%Forall_app.
  destruct (view_ok_path _ _ Ht) as (Hpath & Hid & _).
  assert (writer q = Some (sPath (vSeg t))) as Hw by (rewrite Cwriter, Csegs, map_app; cbn [map]; by rewrite last_snoc).
  set (c := default [] (files (disk q) !! sPath (vSeg t)) ++ encode m).
  set (q' := set_totals (count q + 1) (qbytes q + rec_len m)
    (set_segments (map vSeg (vs ++ [pushed_view t m]))
      (with_files (<[sPath (vSeg t) := c]> (files (disk q))) q))).
  exists q'. split; [|split].
  - unfold append_record, update_tail. run_monad. rewrite Hw. cbv beta iota. rewrite sys_append_ok by done. cbv beta iota.
    destruct (SyncWrites (opts q)); [rewrite sys_fsync_ok by done|]; cbv beta iota; unfold q';
      cbn [with_files set_disk segments]; rewrite Csegs, !map_app; cbn [map];
      rewrite last_snoc, length_app; cbn [length]; replace (_ + 1 - 1)%nat with (length (map vSeg vs)) by lia;
      by rewrite take_app_length.
  - constructor; unfold q'; cbn -[sumZ map]; try done.
    + apply Forall_app. split; [|constructor; [by apply pushed_view_ok|done]]. by apply views_insert.
    + rewrite <- (app_nil_r (vs ++ _)). by apply (offs_snoc _ _ t).
    + by apply ids_snoc_intro.
    + rewrite Hw, map_app. cbn [map]. by rewrite last_snoc.
    + destruct Creader as [?|E]; [by left|]. right. rewrite E, Csegs. destruct vs; done.
    + by rewrite Ccount, vmsgs_pushed, zlength_app.
    + rewrite Cbytes, Csegs, !map_app, !sumZ_app. cbn. lia.
    + destruct (peeked q); [|done]. destruct Cpeeked as (v & vs' & ms & E & Em & ?).
      destruct vs as [|v0 vs]; injection E as -> <-.
      * exists (pushed_view v m), [], (ms ++ [m]). cbn. by rewrite Em.
      * by exists v, (vs ++ [pushed_view t m]), ms.
    + intros name i Hn Hp. assert (is_Some (files (disk q) !! name)) as Hn'.
      { destruct (decide (name = sPath (vSeg t))) as [->|Hne]; [|by rewrite lookup_insert_ne in Hn].
        destruct Ht as ((pre & -> & _) & _). by eexists. }
      destruct (Cdir name i Hn' Hp) as (v & Hv & Hpv & Hiv). apply elem_of_app in Hv as [Hv | ->%list_elem_of_singleton].
      * exists v. split; [apply elem_of_app; by left|done].
      * exists (pushed_view t m). split; [apply elem_of_app; right; by apply list_elem_of_singleton|done].
  - unfold q'. cbn. split_and!; try done. apply lookup_insert_ne. rewrite Hpath. by destruct (seg_name_head (vid t)).
Qed.

(** ** Push *)

Lemma full_snoc q vs t m : full (vs ++ [t]) (headOff q) ->
  Forall (fun v => vMsgs v <> []) (vs ++ [pushed_view t m]).
Proof.
  intros H. apply Forall_app. split; [|apply Forall_singleton; cbn; by destruct (vMsgs t)].
  destruct H as [[H _]%Forall_app|(v & E & _)]; [done|]. by destruct vs as [|? []]; [constructor|..].
Qed.

Lemma full_roll q vs t m id : Core q (vs ++ [t]) -> full (vs ++ [t]) (headOff q) -> 0 < sSize (vSeg t) ->
  Forall (fun v => vMsgs v <> []) ((vs ++ [t]) ++ [pushed_view (empty_view id) m]).
Proof.
  intros C H Hsz. apply Forall_app. split; [|by apply Forall_singleton].
  destruct H as [H|(v & E & Em & Eo)]; [done|]. exfalso. rewrite E in C.
  destruct vs as [|? []]; [|done..]. injection E as ->.
  pose proof (core_views _ _ C) as [(_ & Hs & _) _]%Forall_cons. pose proof (core_offs _ _ C) as [Ho _].
  rewrite Em, Ho, Eo in Hs. change (zlength (log [])) with 0 in Hs. lia.
Qed.

Lemma synced_snoc q q' vs t t' us : synced q (vs ++ [t]) ->
  files (disk q') !! headFile = files (disk q) !! headFile -> headOff q' = headOff q -> vid t' = vid t ->
  synced q' ((vs ++ [t']) ++ us).
Proof.
  unfold synced, head_ok. intros H -> -> Hid. destruct vs as [|v vs]; cbn in *; [by rewrite Hid|done].
Qed.

Lemma vmsgs_full vs : Forall (fun v => vMsgs v <> []) vs -> vs <> [] -> vmsgs vs <> [].
Proof.
  intros H Hne. destruct H as [|v vs Hv Hvs]; [done|]. rewrite vmsgs_cons. by destruct (vMsgs v).
Qed.

Definition room (vs : list view) : Prop := match list.last vs with Some t => vid t + 1 < 2 ^ 64 | None => False end.

Lemma enforce_push q vs t old m : Core q (vs ++ [t]) -> synced q (vs ++ [t]) ->
  Forall (fun v => vMsgs v <> []) (vs ++ [t]) -> vmsgs (vs ++ [t]) = old ++ [m] ->
  exists q' k us, enforceBound q = (Ok tt, q') /\ Inv q' us /\ (k <= length old)%nat /\
    vmsgs us = drop k (old ++ [m]) /\ dropped q' = dropped q + Z.of_nat k /\ opts q' = opts q /\
    qbytes q' <= Z.max (MaxBytes (opts q)) (sSize (vSeg t)).
Proof.
  intros C Hs Hf E. unfold enforceBound.
  destruct (enforce_core (length (segments q)) q _ C Hs) as (q' & vs1 & vs2 & E' & Evs & C' & Hs' & Hb & Hopt & Hd & _).
  { rewrite (core_segs _ _ C), length_map. done. }
  rewrite Evs, Forall_app in Hf. destruct Hf as [_ Hf2]. rewrite Evs, vmsgs_app in E.
  assert (vmsgs vs2 <> []) as Hne by (apply vmsgs_full; [done|]; intros ->; by destruct (Core_cons _ _ C') as (? & ? & ?)).
  exists q', (length (vmsgs vs1)), vs2. split_and!; try done.
  - split_and!; try done. by left.
  - apply (f_equal length) in E. rewrite !length_app in E. cbn in E. destruct (vmsgs vs2); [done|]. cbn in E. lia.
  - by rewrite <- E, drop_app_length.
  - destruct Hb as [Hb|Hb]; [rewrite Hopt in Hb; lia|]. destruct vs2 as [|x []]; [done| |done].
    apply app_inj_tail in Evs as [_ ->]. rewrite (core_bytes _ _ C'), (core_segs _ _ C'). cbn. lia.
Qed.

Lemma Push_inv q vs m : Inv q vs -> storable m -> room vs ->
  exists q' k us, Push m q = (Ok tt, q') /\ Inv q' us /\ (k <= length (vmsgs vs))%nat /\
    vmsgs us = drop k (vmsgs vs ++ [m]) /\ dropped q' = dropped q + Z.of_nat k /\ opts q' = opts q /\
    qbytes q' <= Z.max (MaxBytes (opts q)) (Z.max (SegmentBytes (opts q)) (rec_len m)).
Proof.
  intros (C & Hf & Hb & Hs) Hm Hroom. unfold room in Hroom. destruct (list.last vs) as [t|] eqn:El; [|done].
  apply last_Some in El as [ws ->]. change (synced q (ws ++ [t])) in Hs.
  unfold Push. rewrite (core_open _ _ C). unfold tail_segment. run_monad.
  rewrite (core_segs _ _ C), map_app. cbn [map]. rewrite last_snoc. cbv beta iota zeta.
  fold (rec_len m). destruct ((0 <? sSize (vSeg t)) && _) eqn:Eroll.
  - bool_to_prop. destruct (roll_core q ws t C Hroom) as (q1 & E1 & C1 & Ho1 & Hp1 & Hd1 & Hh1 & _).
    pose proof (core_views _ _ C) as [_ [Ht _]%Forall_cons]%Forall_app. destruct (view_ok_path _ _ Ht) as (_ & _ & Hid1).
    unfold u64. rewrite uwrap_id by (unfold in_u, vid in *; lia). fold (vid t). rewrite E1. cbv beta iota.
    destruct (append_core q1 (ws ++ [t]) (empty_view (vid t + 1)) m C1 Hm) as (q2 & E2 & C2 & Ho2 & Hp2 & Hd2 & Hh2).
    rewrite E2. cbv beta iota.
    destruct (enforce_push q2 _ _ (vmsgs (ws ++ [t])) m C2) as (q3 & k & us & E3 & HI & Hk & Hus & Hd3 & Hp3 & Hb3).
    + apply (synced_snoc q _ ws t t [_]); [done|congruence|congruence|done].
    + by apply (full_roll q).
    + rewrite vmsgs_pushed, vmsgs_app. unfold vmsgs at 2. cbn. by rewrite app_nil_r.
    + exists q3, k, us. split_and!; try done; [congruence|congruence|].
      cbn [pushed_view empty_view vSeg sSize] in Hb3. rewrite Hp2, Hp1 in Hb3. lia.
  - destruct (append_core q ws t m C Hm) as (q2 & E2 & C2 & Ho2 & Hp2 & Hd2 & Hh2).
    rewrite E2. cbv beta iota.
    destruct (enforce_push q2 _ _ (vmsgs (ws ++ [t])) m C2) as (q3 & k & us & E3 & HI & Hk & Hus & Hd3 & Hp3 & Hb3).
    + rewrite <- (app_nil_r (ws ++ _)). by apply (synced_snoc q _ ws t).
    + by apply (full_snoc q).
    + apply vmsgs_pushed.
    + exists q3, k, us. split_and!; try done; [congruence|congruence|].
      cbn [pushed_view vSeg sSize] in Hb3. rewrite Hp2 in Hb3. bool_to_prop. lia.
Qed.

(** ** Peek *)

Lemma slice_after {A} (pre x : list A) k : 0 <= k ->
  slice (zlength pre) (zlength pre + k) (pre ++ x) = take (Z.to_nat k) x.
Proof.
  intros Hk. unfold slice, zlength. rewrite Nat2Z.id, drop_app_length. f_equal. lia.
Qed.

Lemma read_head_core q v vs m ms : Core q (v :: vs) -> vMsgs v = m :: ms ->
  exists q', read_head q = (Ok m, q') /\ Core q' (v :: vs) /\ peeked q' = Some m /\ peekLen q' = rec_len m /\
    headOff q' = headOff q /\ files (disk q') = files (disk q) /\ opts q' = opts q /\ dropped q' = dropped q /\
    qbytes q' = qbytes q.
Proof.
  intros C Hm. pose proof C as C'. core C'. pose proof Cviews as [Hv _]%Forall_cons.
  destruct Hv as ((pre & Hf & Hl) & Hs & _ & Hst & _). pose proof Coffs as [Ho _]. rewrite Ho in Hl. cbn [map] in Csegs.
  rewrite Hm in *. pose proof Hst as [Hmst _]%Forall_cons. rewrite log_cons in Hf.
  pose proof (rec_len_eq m) as Hr. destruct (body_length_range m Hmst) as [_ Hpos].
  destruct (record_header_fields m (log ms) Hmst) as [Hn Hc].
  assert (zlength (pre ++ encode m ++ log ms) = headOff q + rec_len m + zlength (log ms)) as Hlen.
  { rewrite !zlength_app. fold (rec_len m). lia. }
  pose proof (zlength_nonneg (log ms)). pose proof (rec_len_pos m).
  set (p := sPath (vSeg v)) in *.
  set (q' := set_peeked (Some m) (recHeaderLen + zlength (encode_body m)) (set_reader (Some p) q)).
  assert (read_head q = (Ok m, q')) as E.
  { unfold read_head, head_segment. run_monad. rewrite Csegs. cbv beta iota. fold p.
    assert (open_reader (vSeg v) q = (Ok tt, set_reader (Some p) q)) as ->.
    { unfold open_reader. destruct Creader as [Er|Er]; rewrite Er.
      - run_monad. fold p. by rewrite sys_open_ok by (done || (rewrite Hf; by eexists)).
      - rewrite Csegs in Er |- *. cbn [fmap option_fmap option_map head]. f_equal.
        destruct q; cbn in *. by rewrite Er. }
    cbv beta iota. cbn [set_reader reader headOff from_option id].
    rewrite (sys_read_at_ok p _ _ (pre ++ encode m ++ log ms)) by (done || (unfold recHeaderLen; lia)).
    cbv beta iota zeta. rewrite <- Hl, slice_after by (unfold recHeaderLen; lia).
    change (Z.to_nat recHeaderLen) with 8%nat.
    assert (Uint32 (take 8 (encode m ++ log ms)) = zlength (encode_body m)) as ->.
    { rewrite <- Hn. unfold Uint32. by rewrite take_take. }
    assert (Uint32 (drop 4 (take 8 (encode m ++ log ms))) = ChecksumIEEE (encode_body m)) as ->.
    { rewrite <- Hc. unfold Uint32. by rewrite skipn_firstn_comm, take_take. }
    destruct (Z.eqb_spec (zlength (encode_body m)) 0); [lia|]. pose proof Hmst as (_ & _ & Hmax).
    destruct (Z.ltb_spec maxRecordBody (zlength (encode_body m))); [lia|]. cbn [orb].
    rewrite (sys_read_at_ok p _ _ (pre ++ encode m ++ log ms)) by (done || (unfold recHeaderLen; lia)).
    cbv beta iota.
    assert (slice (zlength pre + recHeaderLen) (zlength pre + recHeaderLen + zlength (encode_body m)) (pre ++ encode m ++ log ms)
      = encode_body m) as ->.
    { etrans; [|exact (encode_slice_body m (log ms))]. unfold slice. f_equal; [f_equal; lia|].
      unfold zlength, recHeaderLen. replace (Z.to_nat (Z.of_nat (length pre) + 8)) with (length pre + 8)%nat by lia.
      by rewrite drop_two. }
    rewrite Z.eqb_refl. cbn [negb]. by rewrite decode_encode_body. }
  exists q'. rewrite E, Hr. unfold q'. split_and!; try done. constructor; try done.
  - right. cbn [set_peeked set_reader reader segments]. by rewrite Csegs.
  - cbn [set_peeked peeked peekLen]. exists v, vs, ms. split_and!; [done|done|by rewrite Hr].
Qed.

Lemma Peek_inv q vs : Inv q vs ->
  exists q', Peek q = (Ok (head (vmsgs vs)), q') /\ Inv q' vs /\ opts q' = opts q /\ dropped q' = dropped q /\
    (vmsgs vs <> [] -> peeked q' = head (vmsgs vs)).
Proof.
  intros HI. pose proof HI as (C & Hf & Hb & Hs). destruct (Core_cons _ _ C) as (v & us & ->).
  unfold Peek, peekLocked. rewrite (core_count _ _ C).
  destruct Hf as [[Hv Hus]%Forall_cons|(w & E & Ew & _)].
  - rewrite vmsgs_cons. destruct (vMsgs v) as [|m ms] eqn:Em; [done|]. cbn [app head].
    destruct (Z.eqb_spec (zlength (m :: ms ++ vmsgs us)) 0) as [E0|_]; [rewrite zlength_cons in E0; pose proof (zlength_nonneg (ms ++ vmsgs us)); lia|].
    destruct (peeked q) as [m'|] eqn:Ep.
    + pose proof (core_peeked _ _ C) as Hp. rewrite Ep in Hp. destruct Hp as (v' & vs' & ms' & E & Em' & _).
      injection E as <- <-. rewrite Em in Em'. injection Em' as <- _. by exists q.
    + destruct (read_head_core q v us m ms C Em) as (q1 & E1 & C1 & Hp1 & _ & Ho1 & Hf1 & Hopt & Hd & Hq).
      exists q1. run_monad. rewrite E1. split_and!; try done. split_and!; try done.
      * left. apply Forall_cons. split; [congruence|done].
      * unfold bounded in *. congruence.
      * congruence.
  - injection E as -> ->. rewrite vmsgs_cons, Ew. exists q. by split_and!.
Qed.

(** ** Ack *)

Definition reset_view (v : view) : view :=
  mkView 0 (mkSegment (sId (vSeg v)) (sPath (vSeg v)) 0 0) [].

Lemma resetOnly_core counting q v : Core q [v] ->
  exists q', resetOnly counting q = (Ok tt, q') /\ Core q' [reset_view v] /\ synced q' [reset_view v] /\
    headOff q' = 0 /\ qbytes q' = 0 /\ opts q' = opts q /\
    dropped q' = dropped q + (if counting then zlength (vMsgs v) else 0).
Proof.
  intros C. core C. cbn [map] in Csegs. pose proof Cviews as [((pre & Hf & Hl) & Hs & Hr & Hst & Hp & Hid) _]%Forall_cons.
  set (q1 := set_dropped (dropped q + if counting then sRecords (vSeg v) else 0)
    (set_headOff 0 (set_totals 0 0 (set_segments [vSeg (reset_view v)]
      (with_files (<[sPath (vSeg v) := []]> (files (disk q)))
        (set_peeked None (peekLen q) (set_reader None q))))))).
  assert (resetOnly counting q = writeHead q1) as E.
  { unfold resetOnly, head_segment, close_reader, update_head. run_monad. rewrite Csegs. cbv beta iota.
    destruct counting; unfold q1; (erewrite sys_truncate_ok by done); cbv beta iota; f_equal;
      change (Z.to_nat 0) with O; rewrite resize_0;
      unfold set_segments, with_files, set_dropped; cbn; rewrite Csegs; [done|by rewrite Z.add_0_r]. }
  assert (Core q1 [reset_view v]) as C1.
  { apply Core_dropped. constructor; cbn -[sumZ]; try done.
    - apply Forall_singleton. unfold view_ok. cbn. rewrite lookup_insert_eq. split; [by exists []|]. split_and!; try done; lia.
    - repeat constructor.
    - by rewrite Cwriter, Csegs.
    - by left.
    - intros name i Hn Hp'. destruct (decide (name = sPath (vSeg v))) as [->|Hne].
      + exists (reset_view v). split; [by apply list_elem_of_singleton|]. split; [done|].
        rewrite Hp, parse_seg_name in Hp' by (unfold in_u; lia). by injection Hp'.
      + rewrite lookup_insert_ne in Hn by done. destruct (Cdir name i Hn Hp') as (u & ->%list_elem_of_singleton & ? & _). done. }
  destruct (writeHead_core q1 (reset_view v) [] C1) as (fs' & Hw & Cw & Hh); [done|].
  exists (with_files fs' q1). rewrite E. split_and!; try done. unfold q1. cbn. destruct counting; rewrite <- ?Hr; lia.
Qed.

Definition acked_view (v : view) (m : Message) (ms : list Message) : view :=
  mkView (vOff v + rec_len m) (mkSegment (sId (vSeg v)) (sPath (vSeg v)) (sSize (vSeg v)) (sRecords (vSeg v) - 1)) ms.

Lemma acked_view_ok fs v m ms : view_ok fs v -> vMsgs v = m :: ms -> view_ok fs (acked_view v m ms).
Proof.
  intros ((pre & Hf & Hl) & Hs & Hr & Hst & Hp & Hid) E. rewrite E in *. rewrite log_cons in *.
  unfold view_ok, acked_view. cbn [vOff vSeg vMsgs sPath sSize sRecords sId]. rewrite zlength_app, zlength_cons in *.
  fold (rec_len m) in *. apply Forall_cons in Hst as [_ Hst]. split; [|split_and!; done || lia].
  exists (pre ++ encode m). rewrite <- app_assoc, zlength_app. fold (rec_len m). split; [done|lia].
Qed.

(** The state after the cursor has moved, before anything is reclaimed. *)
Definition moved (q : Queue) (ss : list segment) : Queue :=
  set_peeked None (peekLen q) (set_segments ss (set_totals (count q - 1) (qbytes q) (set_headOff (headOff q + peekLen q) q))).

Lemma moved_core q v us m ms : Core q (v :: us) -> vMsgs v = m :: ms -> peekLen q = rec_len m ->
  Core (moved q (map vSeg (acked_view v m ms :: us))) (acked_view v m ms :: us).
Proof.
  intros C Em Hl. core C. destruct Coffs as [Ho Hz]. pose proof Cviews as [Hv Hus]%Forall_cons.
  constructor; unfold moved; cbn -[sumZ map]; try done.
  - constructor; [|done]. by apply acked_view_ok.
  - by rewrite Hl, Ho.
  - apply StronglySorted_inv in Cids as [? H]. constructor; done.
  - rewrite Cwriter, Csegs. destruct us as [|u us]; [done|]. cbn [map]. by rewrite !last_cons_cons.
  - by rewrite Csegs in Creader.
  - rewrite Ccount, !vmsgs_cons, Em. cbn [vMsgs acked_view app]. rewrite zlength_cons. lia.
  - by rewrite Cbytes, Csegs.
  - intros name id Hn Hp. destruct (Cdir name id Hn Hp) as (w & [-> | Hw]%elem_of_cons & ? & ?).
    + exists (acked_view v m ms). split; [left|done].
    + exists w. split; [by right|done].
Qed.

Lemma log_empty ms : zlength (log ms) <= 0 -> ms = [].
Proof. destruct ms as [|m ms]; [done|]. pose proof (log_length (m :: ms)). unfold zlength. cbn [length] in *. lia. Qed.

Lemma advance_inv q v us m ms : Core q (v :: us) -> synced q (v :: us) -> bounded q (v :: us) ->
  Forall (fun u => vMsgs u <> []) us -> vMsgs v = m :: ms -> peekLen q = rec_len m -> 0 <= headOff q ->
  exists q' vs', advance q = (Ok tt, q') /\ Inv q' vs' /\ vmsgs vs' = ms ++ vmsgs us /\
    opts q' = opts q /\ dropped q' = dropped q.
Proof.
  intros C Hs Hb Hus Em Hl Ho. pose proof (moved_core q v us m ms C Em Hl) as C1.
  pose proof (acked_view_ok _ _ _ _ (proj1 (proj1 (Forall_cons _ _ _) (core_views _ _ C))) Em) as Hv1.
  pose proof (core_segs _ _ C) as Csegs. cbn [map] in Csegs. pose proof (core_offs _ _ C) as [Hvo _].
  set (v1 := acked_view v m ms) in *. set (q1 := moved q (map vSeg (v1 :: us))) in *.
  assert (headOff q1 = vOff v1) as Ho1 by (unfold q1, moved, v1; cbn; lia).
  assert (advance q = (if sSize (vSeg v1) <=? headOff q1 then
    if 1 <? zlength (segments q1) then dropHead false else resetOnly false else writeHead) q1) as ->.
  { unfold advance, update_head, head_segment. run_monad. cbn [set_headOff set_totals set_segments set_peeked segments]. rewrite Csegs. done. }
  assert (0 <= vOff v1) as Hv1o by (unfold v1; cbn [acked_view vOff]; pose proof (rec_len_pos m); lia).
  destruct Hv1 as (_ & Hsz & _). fold v1 in Hsz. pose proof (zlength_nonneg (log (vMsgs v1))).
  destruct (Z.leb_spec (sSize (vSeg v1)) (headOff q1)) as [Hend|Hmore].
  - assert (ms = []) as -> by (apply log_empty; change ms with (vMsgs v1); lia).
    rewrite (core_length _ _ C1), zlength_cons. destruct us as [|u us].
    + change (1 <? 1 + zlength (@nil view)) with false. cbv iota.
      destruct (resetOnly_core false q1 v1 C1) as (q2 & E2 & C2 & Hs2 & Ho2 & Hq2 & Hp2 & Hd2).
      exists q2, [reset_view v1]. split_and!; try done; [|by rewrite Hd2, Z.add_0_r].
      split_and!; try done; [|by right]. right. by exists (reset_view v1).
    + rewrite zlength_cons. pose proof (zlength_nonneg us). destruct (Z.ltb_spec 1 (1 + (1 + zlength us))); [|lia].
      destruct (dropHead_core false q1 v1 u us C1) as (q2 & E2 & C2 & Ho2 & Hh2 & Hp2 & Hd2 & Hq2).
      exists q2, (u :: us). split_and!; try done; [|by rewrite Hd2, Z.add_0_r].
      split_and!; try done; [by left| |by rewrite Ho2]. destruct Hb as [Hb|Hb]; [|done]. left.
      rewrite Hp2, Hq2. assert (0 <= sSize (vSeg v1)) as Hsz1; [|change (qbytes q1) with (qbytes q); change (opts q1) with (opts q); lia].
      rewrite Hsz. lia.
  - assert (ms <> []) as Hne.
    { intros ->. change (zlength (log (vMsgs v1))) with 0 in *. lia. }
    destruct (writeHead_core q1 v1 us C1) as (fs' & E2 & C2 & Hh2).
    { rewrite Ho1. unfold v1. cbn. pose proof (rec_len_pos m). lia. }
    exists (with_files fs' q1), (v1 :: us). split_and!; try done. split_and!; try done.
    left. by constructor.
Qed.

Lemma Core_head_nonneg q vs : Core q vs -> 0 <= headOff q.
Proof.
  intros C. destruct (Core_cons _ _ C) as (v & us & ->). pose proof (core_offs _ _ C) as [<- _].
  pose proof (core_views _ _ C) as [((pre & _ & <-) & _) _]%Forall_cons. apply zlength_nonneg.
Qed.

Lemma Ack_inv q vs : Inv q vs ->
  exists q' vs', Ack q = (Ok tt, q') /\ Inv q' vs' /\ vmsgs vs' = tail (vmsgs vs) /\
    opts q' = opts q /\ dropped q' = dropped q.
Proof.
  intros HI. pose proof HI as (C & Hf & Hb & Hs). destruct (Core_cons _ _ C) as (v & us & ->).
  unfold Ack. rewrite (core_count _ _ C).
  destruct Hf as [[Hv Hus]%Forall_cons|(w & E & Ew & _)].
  2:{ injection E as -> ->. rewrite vmsgs_cons, Ew. exists q, [w]. split_and!; try done. by rewrite vmsgs_cons, Ew. }
  rewrite vmsgs_cons. destruct (vMsgs v) as [|m ms] eqn:Em; [done|]. cbn [app tail].
  destruct (Z.eqb_spec (zlength (m :: ms ++ vmsgs us)) 0) as [E0|_]; [rewrite zlength_cons in E0; pose proof (zlength_nonneg (ms ++ vmsgs us)); lia|].
  destruct (peeked q) as [m'|] eqn:Ep.
  - pose proof (core_peeked _ _ C) as Hp. rewrite Ep in Hp. destruct Hp as (v' & vs' & ms' & E & Em' & El).
    injection E as <- <-. rewrite Em in Em'. injection Em' as <- _.
    apply (advance_inv q v us m ms); try done. by eapply Core_head_nonneg.
  - unfold peekLocked. rewrite (core_count _ _ C), vmsgs_cons, Em, Ep. cbn [app].
    destruct (Z.eqb_spec (zlength (m :: ms ++ vmsgs us)) 0) as [E0|_]; [rewrite zlength_cons in E0; pose proof (zlength_nonneg (ms ++ vmsgs us)); lia|].
    destruct (read_head_core q v us m ms C Em) as (q1 & E1 & C1 & Hp1 & Hl1 & Ho1 & Hf1 & Hopt & Hd & Hq).
    run_monad. rewrite E1. cbv iota.
    destruct (advance_inv q1 v us m ms C1) as (q2 & vs' & E2 & HI2 & Hv2 & Hopt2 & Hd2); try done.
    + unfold synced in *. congruence.
    + unfold bounded in *. congruence.
    + rewrite Ho1. by eapply Core_head_nonneg.
    + exists q2, vs'. split_and!; try done; congruence.
Qed.

(** ** The contract *)

Definition disk_inv (q : Queue) : Prop := exists vs, Inv q vs.

(** What the format holds, while segment numbers last. *)
Definition disk_storable (q : Queue) (m : Message) : Prop :=
  storable m /\ match list.last (segments q) with Some t => sId t + 1 < 2 ^ 64 | None => False end.

Lemma Inv_pending q vs : Inv q vs -> pending q = vmsgs vs.
Proof. intros [C _]. by apply pending_views. Qed.

Lemma disk_room q vs m : Inv q vs -> disk_storable q m -> room vs.
Proof.
  intros [C _] [_ H]. unfold room. rewrite (core_segs _ _ C), fmap_last in H.
  destruct (list.last vs); done.
Qed.

Lemma disk_push q m : disk_inv q -> disk_storable q m ->
  exists q' k, Push m q = (Ok tt, q') /\ disk_inv q' /\ (k <= length (pending q))%nat /\
    pending q' = drop k (pending q ++ [m]) /\ dropped q' = dropped q + Z.of_nat k.
Proof.
  intros [vs HI] Hm. destruct (Push_inv q vs m HI) as (q' & k & us & E & HI' & Hk & Hus & Hd & _);
    [apply Hm|by eapply disk_room|].
  exists q', k. rewrite (Inv_pending _ _ HI), (Inv_pending _ _ HI'). split_and!; try done. by exists us.
Qed.

Lemma disk_peek q : disk_inv q ->
  exists q', Peek q = (Ok (head (pending q)), q') /\ disk_inv q' /\ pending q' = pending q /\ dropped q' = dropped q.
Proof.
  intros [vs HI]. destruct (Peek_inv q vs HI) as (q' & E & HI' & _ & Hd & _).
  exists q'. rewrite (Inv_pending _ _ HI), (Inv_pending _ _ HI'). split_and!; try done. by exists vs.
Qed.

Lemma disk_ack q : disk_inv q ->
  exists q', Ack q = (Ok tt, q') /\ disk_inv q' /\ pending q' = tail (pending q) /\ dropped q' = dropped q.
Proof.
  intros [vs HI]. destruct (Ack_inv q vs HI) as (q' & us & E & HI' & Hus & _ & Hd).
  exists q'. rewrite (Inv_pending _ _ HI), (Inv_pending _ _ HI'). split_and!; try done. by exists us.
Qed.

Lemma disk_len q : disk_inv q -> Len q = zlength (pending q).
Proof. intros [vs HI]. rewrite (Inv_pending _ _ HI). apply (core_count _ _ (proj1 HI)). Qed.

Global Instance DiskQueue_laws : QueueLaws Queue QueueError := {
  q_inv := disk_inv; q_abs := pending; q_storable := disk_storable;
  q_push := disk_push; q_peek := disk_peek; q_ack := disk_ack; q_len := disk_len
}.

(** A queue just opened in an empty directory. *)
Definition fresh_queue : Queue := snd (Open (mkOptions 100 50 false) (mkDisk ∅ [])).

Lemma fresh_inv : Inv fresh_queue [empty_view 1].
Proof.
  assert (files (disk fresh_queue) = {[seg_name 1 := []]}) as Ef by (vm_compute; reflexivity).
  split_and!.
  - constructor; rewrite ?Ef.
    + vm_compute. reflexivity.
    + vm_compute. reflexivity.
    + vm_compute. reflexivity.
    + apply Forall_singleton. unfold view_ok. cbn [empty_view vSeg vOff vMsgs sPath sSize sRecords sId].
      rewrite lookup_singleton_eq. split; [by exists []|]. split_and!; try done; lia.
    + split; [vm_compute; reflexivity|constructor].
    + repeat constructor.
    + vm_compute. reflexivity.
    + left. vm_compute. reflexivity.
    + vm_compute. reflexivity.
    + vm_compute. reflexivity.
    + vm_compute. exact I.
    + intros name id Hn Hp. apply lookup_singleton_is_Some in Hn as <-.
      rewrite parse_seg_name in Hp by (split; lia). injection Hp as <-. exists (empty_view 1).
      split; [by apply list_elem_of_singleton|done].
  - right. exists (empty_view 1). split_and!; [done|done|vm_compute; reflexivity].
  - left. vm_compute. discriminate.
  - unfold head_ok. rewrite Ef. rewrite lookup_singleton_ne by (by destruct (seg_name_head 1)). vm_compute. reflexivity.
Qed.

Definition ex_message : Message := mkMessage "acme/p1/a/l/c/temp" [x31; x32] true 1700000000000000000.

Lemma ex_message_storable : disk_storable fresh_queue ex_message.
Proof.
  split; [|vm_compute; reflexivity].
  split; [vm_compute; discriminate|]. split; [vm_compute; split; congruence|vm_compute; discriminate].
Qed.

(** ** Properties *)

(** C2: the disk queue is a FIFO. On a directory without faults a push
    appends a storable message and evicts only from the old end, counting
    exactly what it evicts; peeking returns the oldest pending message and
    changes nothing; acknowledging removes exactly that one. [pending] is what
    the segment files hold past the cursor. *)
Theorem disk_queue_fifo (q : Queue) (m : Message) :
  disk_inv q -> disk_storable q m ->
  (exists q' k, Push m q = (Ok tt, q') /\ disk_inv q' /\ (k <= length (pending q))%nat /\
     pending q' = drop k (pending q ++ [m]) /\ Dropped q' = Dropped q + Z.of_nat k /\ Len q' = zlength (pending q')) /\
  (exists q', Peek q = (Ok (head (pending q)), q') /\ disk_inv q' /\ pending q' = pending q /\ Dropped q' = Dropped q) /\
  (exists q', Ack q = (Ok tt, q') /\ disk_inv q' /\ pending q' = tail (pending q) /\ Dropped q' = Dropped q).
Proof.
  intros HI Hm. split; [|split].
  - destruct (disk_push q m HI Hm) as (q' & k & ? & HI' & ? & ? & ?). exists q', k. split_and!; try done. by apply disk_len.
  - by apply disk_peek.
  - by apply disk_ack.
Qed.

Lemma disk_queue_fifo_witness :
  exists q' k, Push ex_message fresh_queue = (Ok tt, q') /\ pending q' = drop k [ex_message].
Proof.
  destruct (disk_queue_fifo fresh_queue ex_message) as ((q' & k & E & _ & _ & Hp & _) & _);
    [exists [empty_view 1]; exact fresh_inv|exact ex_message_storable|].
  exists q', k. split; [exact E|exact Hp].
Defined.

(** C26: the byte budget holds after a push of a storable message on a queue
    that satisfies its invariant, which a directory without failing system
    calls keeps ([disk_inv]; after a short write, [DiskFaults], bytes that are
    not counted stay in the segment): what the queue counts as its size is at
    most [MaxBytes], [SegmentBytes] or the record just written, whichever is
    largest; and [Open] caps [SegmentBytes] at half of [MaxBytes]. *)
Theorem disk_bytes_bounded (q : Queue) (m : Message) (o : Options) :
  disk_inv q -> disk_storable q m ->
  Bytes (snd (Push m q)) <= Z.max (MaxBytes (opts q)) (Z.max (SegmentBytes (opts q)) (rec_len m)) /\
  1 <= MaxBytes (effective o) /\ SegmentBytes (effective o) <= Z.max 1 (MaxBytes (effective o) / 2).
Proof.
  intros [vs HI] Hm. split; [|split].
  - destruct (Push_inv q vs m HI) as (q' & k & us & E & _ & _ & _ & _ & _ & Hb); [apply Hm|by eapply disk_room|].
    rewrite E. exact Hb.
  - unfold effective. cbn. destruct (Z.leb_spec (MaxBytes o) 0); [vm_compute; discriminate|lia].
  - unfold effective. cbn [MaxBytes SegmentBytes]. split_ifs; lia.
Qed.

Lemma disk_bytes_bounded_witness : Bytes (snd (Push ex_message fresh_queue)) <= 100.
Proof.
  destruct (disk_bytes_bounded fresh_queue ex_message (mkOptions 0 0 false)) as [H _];
    [exists [empty_view 1]; exact fresh_inv|exact ex_message_storable|].
  etransitivity; [exact H|]. vm_compute. discriminate.
Defined.
