(* ===== verification/DiskRecover.v ===== *)
(** * DiskRecover: what the disk queue finds after a crash or a restart

    [Open] scans the directory, drops what the cursor file says is consumed,
    truncates torn records and rebuilds the counters. *)
From Stdlib Require Import ZArith Lia Strings.Ascii.
From S2P Require Import Prelude GoBytes Ports DiskCodec DiskQueue DiskInv.

Open Scope string_scope.
Open Scope list_scope.
Open Scope Z_scope.

(** ** Specification *)

(** A segment file as a crash may leave it: consumed records up to [vOff],
    the messages, then bytes in which the scan finds no record. *)
Definition crash_ok (fs : gmap string (list byte)) (v : view) : Prop :=
  (exists pre torn, fs !! sPath (vSeg v) = Some (pre ++ log (vMsgs v) ++ torn) /\
     zlength pre = vOff v /\ scan_record torn = None) /\
  Forall storable (vMsgs v) /\ sPath (vSeg v) = seg_name (vid v) /\ 1 <= vid v < 2 ^ 64.

(** A directory that holds exactly the segments [vs], the first read up to [off]. *)
Record on_disk (fs : gmap string (list byte)) (vs : list view) (off : Z) : Prop := {
  od_views : Forall (crash_ok fs) vs;
  od_offs : match vs with [] => False | v :: vs' => vOff v = off /\ Forall (fun u => vOff u = 0) vs' end;
  od_ids : StronglySorted (fun a b => vid a < vid b) vs;
  od_dir : forall name id, is_Some (fs !! name) -> parse_name name = Some id ->
           exists v, v ∈ vs /\ sPath (vSeg v) = name /\ vid v = id;
  od_head : match vs with [] => False | v :: _ => head_ok fs (vid v) off end;
  od_off : 0 <= off < 2 ^ 63
}.

(** A segment rebuilt by the scan. *)
Definition rebuilt (v : view) : view :=
  mkView (vOff v)
    (mkSegment (vid v) (sPath (vSeg v)) (vOff v + zlength (log (vMsgs v))) (zlength (vMsgs v)))
    (vMsgs v).

Definition found (v : view) : segment := mkSegment (vid v) (sPath (vSeg v)) 0 0.

(** ** The cursor file *)

Lemma readHead_ok q id off : faults (disk q) = [] -> head_ok (files (disk q)) id off -> 0 <= off < 2 ^ 63 -> 1 <= id ->
  exists hid hoff, readHead q = (Ok (hid, hoff), q) /\ 0 <= hoff /\ (hid = id /\ hoff = off \/ hid < id /\ off = 0).
Proof.
  intros Hf Hh Hoff Hid. unfold readHead, sys, sys_read_file, sys_call, next_fault. rewrite Hf.
  assert (forall r : result QueueError (Z * Z) * Queue, off = 0 -> r = (Ok (0, 0), q) ->
    exists hid hoff, r = (Ok (hid, hoff), q) /\ 0 <= hoff /\ (hid = id /\ hoff = off \/ hid < id /\ off = 0)) as Hzero.
  { intros r Hz ->. exists 0, 0. split_and!; [done|lia|]. right. split; [lia|done]. }
  unfold head_ok in Hh. destruct (files (disk q) !! headFile) as [b|] eqn:Eb; rewrite set_disk_id; [|by apply Hzero].
  destruct Hh as (i & o & -> & Hi & Ho & Hcase). unfold head_data. rewrite string_of_bytes_of.
  assert (FormatInt o = FormatUint o) as EF by (unfold FormatInt; destruct (Z.ltb_spec o 0); [lia|done]).
  rewrite EF, Fields_two by (apply FormatUint_no_space || apply FormatUint_empty).
  rewrite ParseUint_FormatUint by done.
  destruct (decide (o < 2 ^ 63)) as [Ho2|Ho2].
  - destruct (ParseInt_FormatInt o ltac:(lia)) as [EP _]. rewrite EF in EP. rewrite EP.
    destruct (Z.ltb_spec o 0); [lia|]. by exists i, o.
  - destruct Hcase as [[-> ->]|[Hlt Hz]]; [lia|].
    destruct (ParseInt (FormatUint o)) as [x|]; [|by apply Hzero].
    destruct (Z.ltb_spec x 0); [by apply Hzero|]. exists i, x. split_and!; [done|lia|]. by right.
Qed.

(** ** The segments found *)

Lemma ids_inj vs u w : StronglySorted (fun a b => vid a < vid b) vs -> u ∈ vs -> w ∈ vs -> vid u = vid w -> u = w.
Proof.
  induction 1 as [|v vs Hs IH Hall]; [by intros ?%elem_of_nil|].
  pose proof (proj1 (Forall_forall _ _) Hall) as Hlt. cbn in Hlt.
  intros [-> | Hu]%elem_of_cons [-> | Hw]%elem_of_cons E; [done|..|by apply IH].
  - specialize (Hlt w Hw). lia.
  - specialize (Hlt u Hu). lia.
Qed.

Global Instance seg_le_trans : Transitive seg_le.
Proof. intros a b c. unfold seg_le. lia. Qed.

Global Instance seg_le_total : Total seg_le.
Proof. intros a b. unfold seg_le. lia. Qed.

Lemma found_segments_ok fs vs off names : on_disk fs vs off ->
  names ≡ₚ map fst (map_to_list fs) ->
  merge_sort seg_le (found_segments names) = map found vs.
Proof.
  intros D Hn. pose proof (od_views _ _ _ D) as Hv. pose proof (od_ids _ _ _ D) as Hids.
  assert (NoDup names) as Hnd by (rewrite Hn; apply NoDup_fst_map_to_list).
  assert (forall s, s ∈ found_segments names <-> s ∈ map found vs) as Hin.
  { intros s. unfold found_segments. rewrite list_elem_of_omap. setoid_rewrite Hn. split.
    - intros (name & Hname & Hs). destruct (parse_name name) as [id|] eqn:Ep; [|done]. injection Hs as <-.
      apply list_elem_of_fmap in Hname as ([k c] & -> & Hkc%elem_of_map_to_list). cbn [fst] in *.
      destruct (od_dir _ _ _ D k id) as (v & Hv' & <- & <-); [by eexists|done|].
      apply list_elem_of_fmap. by exists v.
    - intros (v & -> & Hv')%list_elem_of_fmap.
      destruct (proj1 (Forall_forall _ _) Hv v Hv') as ((pre & torn & Hf & _) & _ & Hp & Hid).
      exists (sPath (vSeg v)). split.
      + apply list_elem_of_fmap. exists (sPath (vSeg v), pre ++ log (vMsgs v) ++ torn). split; [done|].
        by apply elem_of_map_to_list.
      + rewrite Hp, parse_seg_name by (unfold in_u; lia). unfold found. by rewrite Hp. }
  assert (NoDup (found_segments names)) as Hnd1.
  { clear -Hnd. unfold found_segments. induction Hnd as [|n ns Hn Hns IH]; [constructor|]. cbn [omap list_omap].
    destruct (parse_name n) as [id|] eqn:Ep; cbn; [|done]. constructor; [|done].
    intros (n' & Hn' & Hs)%list_elem_of_omap. destruct (parse_name n'); [|done]. by injection Hs as _ ->. }
  assert (StronglySorted (fun a b => sId a < sId b) (map found vs)) as Hsort.
  { clear -Hids. induction Hids as [|v vs Hs IH Hall]; [constructor|]. cbn [map]. constructor; [done|].
    apply Forall_map. exact Hall. }
  assert (NoDup (map found vs)) as Hnd2.
  { clear -Hsort. induction Hsort as [|s ss Hs IH Hall]; constructor; [|done].
    intros H. pose proof (proj1 (Forall_forall _ _) Hall s H) as Hlt. cbn in Hlt. lia. }
  assert (found_segments names ≡ₚ map found vs) as HP by (by apply NoDup_Permutation).
  eapply (StronglySorted_unique_strong seg_le).
  - intros a b Ha Hb H1 H2. rewrite merge_sort_Permutation in Ha. apply Hin in Ha.
    apply list_elem_of_fmap in Ha as (u & -> & Hu), Hb as (w & -> & Hw).
    unfold seg_le in *. cbn [found sId] in *. rewrite (ids_inj vs u w) by (done || lia). done.
  - apply (StronglySorted_merge_sort _).
  - clear -Hsort. induction Hsort as [|s ss Hs IH Hall]; constructor; [done|].
    eapply Forall_impl; [exact Hall|]. unfold seg_le. lia.
  - by rewrite merge_sort_Permutation.
Qed.

(** ** The recovery loop *)

Lemma crash_ok_ext fs fs' v : fs' !! sPath (vSeg v) = fs !! sPath (vSeg v) -> crash_ok fs v -> crash_ok fs' v.
Proof. unfold crash_ok. by intros ->. Qed.

Lemma resize_prefix {A} (xs ys : list A) x : resize (length xs) x (xs ++ ys) = xs.
Proof. by rewrite resize_le, take_app_length by (rewrite length_app; lia). Qed.

(** Scanning a segment truncates what follows its last whole record. *)
Lemma scanSegment_ok q v : faults (disk q) = [] -> crash_ok (files (disk q)) v ->
  exists fs', sys (scanSegment (sPath (vSeg v)) (vOff v)) q =
      (Ok (vOff v + zlength (log (vMsgs v)), zlength (vMsgs v)), with_files fs' q) /\
    view_ok fs' (rebuilt v) /\ fs' = <[sPath (vSeg v) := default [] (fs' !! sPath (vSeg v))]> (files (disk q)).
Proof.
  intros Hf ((pre & torn & Hc & Hl & Ht) & Hst & Hp & Hid).
  exists (<[sPath (vSeg v) := pre ++ log (vMsgs v)]> (files (disk q))). split; [|split].
  - unfold sys, scanSegment, sys_open, sys_truncate, sys_call, next_fault. run_monad. rewrite Hf, Hc. cbv beta iota.
    rewrite Hf. cbv beta iota. rewrite Hc. cbn [from_option id].
    rewrite scan_log by done. cbv beta iota. rewrite Hf, Hc. cbv beta iota. unfold set_files, with_files. rewrite Hf.
    do 4 f_equal. rewrite <- Hl, <- zlength_app. unfold zlength. rewrite Nat2Z.id, app_assoc. by rewrite resize_prefix.
  - unfold view_ok, rebuilt. cbn [vOff vSeg vMsgs sPath sSize sRecords sId]. rewrite lookup_insert_eq.
    split; [by exists pre|]. split_and!; done || lia.
  - by rewrite lookup_insert_eq.
Qed.

(** The state of the loop: the totals, the cursor and the files. *)
Definition scanned (q : Queue) (fs : gmap string (list byte)) (off n b : Z) : Queue :=
  set_headOff off (set_totals n b (with_files fs q)).

Lemma scanned_scanned q fs off n b fs' off' n' b' :
  scanned (scanned q fs off n b) fs' off' n' b' = scanned q fs' off' n' b'.
Proof. done. Qed.

Lemma recover_loop hid hoff vs q :
  faults (disk q) = [] -> Forall (crash_ok (files (disk q))) vs ->
  StronglySorted (fun a b => vid a < vid b) vs ->
  Forall (fun v => hid <= vid v /\ vOff v = if vid v =? hid then hoff else 0) vs -> 0 <= hoff ->
  exists fs', recover_segments hid hoff (map found vs) q =
      (Ok (map (fun v => vSeg (rebuilt v)) vs),
       scanned q fs' (if existsb (fun v => vid v =? hid) vs then hoff else headOff q)
         (count q + zlength (vmsgs vs)) (qbytes q + sumZ (map (fun v => sSize (vSeg (rebuilt v))) vs))) /\
    Forall (fun v => view_ok fs' (rebuilt v)) vs /\
    (forall name, Forall (fun v => sPath (vSeg v) <> name) vs -> fs' !! name = files (disk q) !! name) /\
    (forall name, is_Some (fs' !! name) -> is_Some (files (disk q) !! name)).
Proof.
  intros Hf Hv Hids Hoff Hh. revert q Hf Hv. induction vs as [|v vs IH]; intros q Hf Hv.
  { exists (files (disk q)). cbn. split_and!; try done. unfold scanned, with_files, set_disk. run_monad.
    rewrite !Z.add_0_r. destruct q as [[fs flt] ? ? ? ? ? ? ? ? ? ? ?]. cbn in *. by subst. }
  apply Forall_cons in Hv as [Hv Hvs], Hoff as [[Hle Ho] Hoffs]. apply StronglySorted_inv in Hids as [Hids Hlt].
  destruct (scanSegment_ok q v Hf Hv) as (fs1 & E1 & Hv1 & Efs1).
  set (q1 := scanned q fs1 (if vid v =? hid then hoff else headOff q) (count q + zlength (vMsgs v))
    (qbytes q + sSize (vSeg (rebuilt v)))).
  assert (forall u, u ∈ vs -> sPath (vSeg u) <> sPath (vSeg v)) as Hpath.
  { intros u Hu. destruct (proj1 (Forall_forall _ _) Hvs u Hu) as (_ & _ & Hpu & Hiu), Hv as (_ & _ & Hpv & Hiv).
    pose proof (proj1 (Forall_forall _ _) Hlt u Hu) as Hl. cbn in Hl. rewrite Hpu, Hpv.
    intros E. apply seg_name_inj in E; [lia|unfold in_u; lia|unfold in_u; lia]. }
  assert (forall name, name <> sPath (vSeg v) -> fs1 !! name = files (disk q) !! name) as Hother.
  { intros name Hne. rewrite Efs1. by apply lookup_insert_ne. }
  destruct (IH Hids Hoffs q1) as (fs2 & E2 & Hv2 & Hsame & Hsome).
  { done. }
  { apply Forall_forall. intros u Hu. eapply crash_ok_ext; [|exact (proj1 (Forall_forall _ _) Hvs u Hu)].
    apply Hother. by apply Hpath. }
  exists fs2. split_and!.
  - cbn [map recover_segments]. change (sId (found v)) with (vid v). change (sPath (found v)) with (sPath (vSeg v)).
    destruct (Z.ltb_spec (vid v) hid); [lia|]. rewrite <- Ho. run_monad. rewrite E1. cbv beta iota.
    assert ((if vid v =? hid then set_headOff (Z.min hoff (vOff v + zlength (log (vMsgs v)))) (with_files fs1 q) else with_files fs1 q)
      = set_headOff (if vid v =? hid then hoff else headOff q) (with_files fs1 q)) as Eq.
    { destruct (vid v =? hid) eqn:Ehid; [|by destruct q]. f_equal. rewrite Ho.
      pose proof (zlength_nonneg (log (vMsgs v))). lia. }
    rewrite Eq. fold q1 in E2. cbn [count qbytes with_files set_disk set_headOff].
    change (set_totals _ _ (set_headOff _ _)) with q1. rewrite E2. cbv beta iota. f_equal.
    unfold q1. rewrite scanned_scanned. cbn [scanned set_headOff headOff set_totals count qbytes with_files set_disk existsb].
    rewrite vmsgs_cons, zlength_app, sumZ_cons. f_equal; [|lia|lia].
    destruct (vid v =? hid); cbn [orb]; [by destruct (existsb _ vs)|done].
  - constructor; [|done]. eapply view_ok_ext; [|exact Hv1]. apply Hsame. apply Forall_forall.
    intros u Hu. cbn [rebuilt vSeg sPath]. by apply Hpath.
  - intros name [Hn Hns]%Forall_cons. rewrite (Hsame name Hns). by apply Hother.
  - intros name Hn%Hsome. destruct (decide (name = sPath (vSeg v))) as [->|Hne].
    + destruct Hv as ((pre & torn & -> & _) & _). by eexists.
    + change (is_Some (fs1 !! name)) in Hn. by rewrite Hother in Hn.
Qed.

Lemma sys_read_dir_ok q : faults (disk q) = [] ->
  sys sys_read_dir q = (Ok (merge_sort String.le (map fst (map_to_list (files (disk q))))), q).
Proof. intros H. unfold sys, sys_read_dir, sys_call, next_fault. by rewrite H, set_disk_id. Qed.

Definition blank_queue (o : Options) (fs : gmap string (list byte)) : Queue :=
  mkQueue (mkDisk fs []) (effective o) [] None None 0 0 0 0 None 0 false.

Lemma rebuilt_offs vs off : match vs with [] => False | v :: vs' => vOff v = off /\ Forall (fun u => vOff u = 0) vs' end ->
  match map rebuilt vs with [] => False | v :: vs' => vOff v = off /\ Forall (fun u => vOff u = 0) vs' end.
Proof. destruct vs as [|v vs]; [done|]. cbn [map]. intros [? H]. split; [done|]. by apply Forall_map. Qed.

(** The offsets the loop starts the scans at, in both cases of [head_ok]. *)
Lemma loop_offs hid hoff off v us :
  (hid = vid v /\ hoff = off \/ hid < vid v /\ off = 0) ->
  vOff v = off -> Forall (fun u => vOff u = 0) us ->
  StronglySorted (fun a b => vid a < vid b) (v :: us) ->
  Forall (fun v => hid <= vid v /\ vOff v = if vid v =? hid then hoff else 0) (v :: us) /\
  (if existsb (fun v => vid v =? hid) (v :: us) then hoff else 0) = off.
Proof.
  intros Hcase Ho Hz [Hs Hlt]%StronglySorted_inv.
  assert (Forall (fun u => (vid u =? hid) = false) us) as Hne.
  { eapply Forall_impl; [exact Hlt|]. cbn. intros u Hu. apply Z.eqb_neq. destruct Hcase as [[-> _]|[? _]]; lia. }
  assert (existsb (fun v => vid v =? hid) us = false) as Hex.
  { clear -Hne. induction Hne as [|u us Hu Hus IH]; [done|]. cbn. by rewrite Hu. }
  split.
  - constructor.
    + destruct Hcase as [[-> ->]|[Hl ->]]; [rewrite Z.eqb_refl; split; [lia|done]|].
      destruct (Z.eqb_spec (vid v) hid); [lia|]. split; [lia|done].
    + apply Forall_forall. intros u Hu. rewrite (proj1 (Forall_forall _ _) Hne u Hu).
      pose proof (proj1 (Forall_forall _ _) Hlt u Hu) as Hl. cbn in Hl.
      split; [destruct Hcase as [[-> _]|[? _]]; lia|]. exact (proj1 (Forall_forall _ _) Hz u Hu).
  - cbn [existsb]. rewrite Hex, orb_false_r. destruct Hcase as [[-> ->]|[Hl ->]]; [by rewrite Z.eqb_refl|].
    destruct (Z.eqb_spec (vid v) hid); [lia|done].
Qed.

Lemma existing_tail vs v fs : Forall (fun v => view_ok fs (rebuilt v)) (v :: vs) ->
  exists t c, list.last (v :: vs) = Some t /\ fs !! sPath (vSeg t) = Some c.
Proof.
  intros H. destruct (list.last (v :: vs)) as [t|] eqn:El; [|by apply last_None in El].
  exists t. apply last_Some_elem_of in El. destruct (proj1 (Forall_forall _ _) H t El) as ((pre & Hf & _) & _).
  by eexists.
Qed.

Lemma map_rebuilt_seg vs : map vSeg (map rebuilt vs) = map (fun v => vSeg (rebuilt v)) vs.
Proof. by rewrite map_map. Qed.

Lemma vmsgs_rebuilt vs : vmsgs (map rebuilt vs) = vmsgs vs.
Proof. unfold vmsgs. by rewrite map_map. Qed.

(** Up to the enforcement of the byte bound, recovery rebuilds the core. *)
Lemma recover_core o fs vs off : on_disk fs vs off ->
  exists q', recover (blank_queue o fs) = enforceBound q' /\
    Core q' (map rebuilt vs) /\ synced q' (map rebuilt vs) /\ headOff q' = off /\
    opts q' = effective o /\ dropped q' = 0.
Proof.
  intros D. pose proof D as [Dv Do Di Dd Dh Doff]. destruct vs as [|v us]; [done|]. destruct Do as [Do Dz].
  pose proof Dv as [(_ & _ & _ & Hid) _]%Forall_cons.
  set (q0 := blank_queue o fs).
  destruct (readHead_ok q0 (vid v) off) as (hid & hoff & Eh & Hh & Hcase); [done|done|done|lia|].
  destruct (loop_offs hid hoff off v us Hcase Do Dz Di) as [Hoffs Hoff].
  destruct (recover_loop hid hoff (v :: us) q0 eq_refl Dv Di Hoffs Hh) as (fs' & El & Hviews & Hsame & Hsome).
  change (headOff q0) with 0 in El. rewrite Hoff in El.
  destruct (existing_tail us v fs' Hviews) as (t & c & Et & Hc).
  set (vs := v :: us) in *.
  set (q1 := set_segments (map (fun v => vSeg (rebuilt v)) vs) (scanned q0 fs' off (count q0 + zlength (vmsgs vs))
    (qbytes q0 + sumZ (map (fun v => sSize (vSeg (rebuilt v))) vs)))).
  assert (list.last (segments q1) = Some (vSeg (rebuilt t))) as Elast.
  { change (segments q1) with ((fun v => vSeg (rebuilt v)) <$> vs). by rewrite fmap_last, Et. }
  set (q' := set_writer (Some (sPath (vSeg t))) q1).
  assert (fs' !! headFile = fs !! headFile) as Hhead.
  { apply Hsame. eapply Forall_impl; [exact Dv|]. intros u (_ & _ & -> & _). by destruct (seg_name_head (vid u)). }
  exists q'. split_and!.
  - unfold recover. run_monad. rewrite sys_read_dir_ok by done. cbv beta iota. rewrite Eh. cbv beta iota.
    rewrite (found_segments_ok fs vs off) by (done || apply merge_sort_Permutation). rewrite El. cbv beta iota.
    fold q1. assert (openWriter q1 = (Ok tt, q')) as Ew.
    { unfold openWriter, tail_segment. run_monad. cbn [set_writer segments]. rewrite Elast. cbv beta iota.
      rewrite sys_open_append_ok by done. cbn [set_writer disk rebuilt vSeg sPath]. change (files (disk q1)) with fs'.
      rewrite Hc. done. }
    unfold vs at 1. cbn [map]. by rewrite Ew.
  - constructor; unfold q', q1; cbn -[sumZ map vs]; try done.
    + by rewrite map_rebuilt_seg.
    + apply Forall_map. exact Hviews.
    + unfold vs. cbn [map]. split; [done|]. by apply Forall_map.
    + clear -Di. fold vs in Di. induction Di as [|u ws Hs IH Hall]; [constructor|]. cbn [map].
      constructor; [done|]. by apply Forall_map.
    + symmetry. exact (f_equal (fmap sPath) Elast).
    + by left.
    + by rewrite vmsgs_rebuilt.
    + by rewrite map_map.
    + intros name id Hn Hp. destruct (Dd name id (Hsome _ Hn) Hp) as (u & Hu & ? & ?).
      exists (rebuilt u). split; [|done]. by apply list_elem_of_fmap_2.
  - unfold vs. cbn [map synced]. unfold head_ok. unfold q', q1. cbn [set_writer set_segments disk files scanned set_headOff set_totals with_files set_disk headOff].
    rewrite Hhead. exact Dh.
  - done.
  - done.
  - done.
Qed.

(** Opening a directory with no faults. *)
Lemma Open_recovers o fs vs off : on_disk fs vs off ->
  exists q' vs1 vs2, Open o (mkDisk fs []) = (Ok tt, q') /\ map rebuilt vs = vs1 ++ vs2 /\
    Core q' vs2 /\ synced q' vs2 /\ bounded q' vs2 /\ opts q' = effective o /\
    dropped q' = zlength (vmsgs vs1) /\ (vs1 = [] -> headOff q' = off).
Proof.
  intros D. destruct (recover_core o fs vs off D) as (q1 & E1 & C1 & S1 & Ho & Hopt & Hd).
  destruct (enforce_core (length (segments q1)) q1 _ C1 S1) as (q' & vs1 & vs2 & E & Evs & C & HS & Hb & Hopt' & Hd' & Hk).
  { by rewrite (core_segs _ _ C1), !length_map. }
  exists q', vs1, vs2. split_and!; try done.
  - unfold Open. run_monad. change (sys sys_mkdir _) with (Ok (E := QueueError) tt, blank_queue o fs). cbv beta iota.
    rewrite E1. exact E.
  - congruence.
  - rewrite Hd', Hd. lia.
  - intros ->. destruct Hk as [[_ ->]|Hz]; [done|]. pose proof (core_offs _ _ C) as Hof. cbn in Evs. subst vs2.
    pose proof (core_offs _ _ C1) as Hof1. destruct (map rebuilt vs); [done|]. destruct Hof as [Hof _], Hof1 as [Hof1 _]. congruence.
Qed.

(** ** From an intact queue to the directory a crash leaves *)

(** The crash may have cut short the append of a record to the tail. *)
Definition torn_files (q : Queue) (torn : list byte) : gmap string (list byte) :=
  match writer q with
  | Some p => <[p := default [] (files (disk q) !! p) ++ torn]> (files (disk q))
  | None => files (disk q)
  end.

Lemma view_crash_ok fs v : view_ok fs v -> crash_ok fs v.
Proof.
  intros ((pre & Hf & Hl) & _ & _ & ? & ? & ?). split; [|done].
  exists pre, []. by rewrite app_nil_r.
Qed.

Lemma rebuilt_view fs v : view_ok fs v -> rebuilt v = v.
Proof.
  intros (_ & Hs & Hr & _). destruct v as [off [id p sz n] ms]. unfold rebuilt, vid. cbn in *. by rewrite Hs, Hr.
Qed.

Lemma Inv_on_disk q vs torn : Inv q vs -> headOff q < 2 ^ 63 -> scan_record torn = None ->
  on_disk (torn_files q torn) vs (headOff q).
Proof.
  intros (C & _ & _ & Hs) Hoff Ht. pose proof (Core_head_nonneg _ _ C). core C.
  destruct (list.last vs) as [t|] eqn:El; [|by apply last_None in El as ->].
  assert (writer q = Some (sPath (vSeg t))) as Hw.
  { rewrite Cwriter, Csegs. change (map vSeg vs) with (vSeg <$> vs). by rewrite fmap_last, El. }
  apply last_Some in El as [ws ->]. pose proof Cviews as [Hws [Hvt _]%Forall_cons]%Forall_app.
  pose proof (ids_snoc _ _ Cids) as [_ Hlt]. unfold torn_files. rewrite Hw.
  set (c := default [] (files (disk q) !! sPath (vSeg t)) ++ torn).
  destruct (view_ok_path _ _ Hvt) as (Hp & _ & _).
  constructor; try done.
  - apply Forall_app. split; [|apply Forall_singleton].
    + eapply Forall_impl; [exact (views_insert _ t c ws Hvt Hws Hlt)|]. intros v. apply view_crash_ok.
    + destruct Hvt as ((pre & Hf & Hl) & _ & _ & ? & ? & ?). split; [|done].
      exists pre, torn. rewrite lookup_insert_eq. split; [|done]. unfold c. rewrite Hf. cbn [from_option id]. by rewrite app_assoc.
  - intros name id Hn Hp'. apply (Cdir name id); [|done].
    destruct (decide (name = sPath (vSeg t))) as [->|Hne]; [|by rewrite lookup_insert_ne in Hn].
    destruct Hvt as ((pre & -> & _) & _). by eexists.
  - unfold head_ok in *. rewrite lookup_insert_ne by (rewrite Hp; by destruct (seg_name_head (vid t))).
    by destruct (ws ++ [t]).
Qed.

Lemma torn_prefix m k : storable m -> (k < length (encode m))%nat -> scan_record (take k (encode m)) = None.
Proof. apply scan_record_torn. Qed.

(** ** Properties *)

(** C3: nothing that was stored is lost to a crash or a restart. If the
    process dies at any point of appending the record of some message to the
    tail ([k] bytes of it written; none for a clean stop), opening the
    directory with the same options succeeds, truncates the torn record and
    yields a well-formed queue with the same pending messages in the same
    order, the same size and no drops. *)
Theorem crash_recovery (q : Queue) (o : Options) (m : Message) (k : nat) :
  disk_inv q -> headOff q < 2 ^ 63 -> effective o = opts q -> storable m -> (k < length (encode m))%nat ->
  exists q', Open o (mkDisk (torn_files q (take k (encode m))) []) = (Ok tt, q') /\
    disk_inv q' /\ pending q' = pending q /\ Len q' = Len q /\ Bytes q' = Bytes q /\ Dropped q' = 0.
Proof.
  intros [vs HI] Hoff Ho Hm Hk. pose proof HI as (C & Hf & Hb & Hs).
  pose proof (Inv_on_disk q vs _ HI Hoff (scan_record_torn m k Hm Hk)) as D.
  assert (map rebuilt vs = vs) as Er.
  { pose proof (core_views _ _ C) as Hv. clear -Hv. induction Hv as [|v vs Hv Hvs IH]; [done|].
    cbn [map]. by rewrite IH, (rebuilt_view _ v Hv). }
  destruct (recover_core o _ vs _ D) as (q1 & E1 & C1 & S1 & Ho1 & Hopt & Hd). rewrite Er in *.
  assert (qbytes q1 = qbytes q) as Eb by (rewrite (core_bytes _ _ C1), (core_bytes _ _ C), (core_segs _ _ C1), (core_segs _ _ C); done).
  assert (Inv q1 vs) as HI1.
  { split_and!; [done|by rewrite Ho1|by rewrite Eb, Hopt, Ho|exact S1]. }
  assert (enforceBound q1 = (Ok tt, q1)) as Ee.
  { unfold enforceBound. destruct HI1 as (_ & _ & Hb1 & _). destruct (length (segments q1)) eqn:El;
      cbn [enforce_loop]; (destruct (Z.ltb_spec (MaxBytes (opts q1)) (qbytes q1)); cbn [andb]; [|done]);
      (destruct Hb1 as [?|Hb1]; [lia|]); rewrite (core_length _ _ C1); unfold zlength; by rewrite Hb1. }
  exists q1. split.
  { unfold Open. run_monad. change (sys sys_mkdir _) with (Ok (E := QueueError) tt, blank_queue o (torn_files q (take k (encode m)))).
    cbv beta iota. by rewrite E1. }
  split_and!; [by exists vs|by rewrite (Inv_pending _ _ HI), (Inv_pending _ _ HI1)| |done|done].
  unfold Len. by rewrite (core_count _ _ C), (core_count _ _ C1).
Qed.

Lemma crash_recovery_witness :
  exists q', Open (mkOptions 100 50 false) (mkDisk (torn_files fresh_queue (take 5 (encode ex_message))) []) = (Ok tt, q')
    /\ pending q' = [].
Proof.
  destruct (crash_recovery fresh_queue (mkOptions 100 50 false) ex_message 5) as (q' & E & _ & Hp & _);
    [exists [empty_view 1]; exact fresh_inv|vm_compute; reflexivity|vm_compute; reflexivity
    |apply ex_message_storable|apply Nat.ltb_lt; vm_compute; reflexivity|].
  exists q'. split; [exact E|exact Hp].
Defined.
