(* ===== verification/DiskFaults.v ===== *)
(** * DiskFaults: where the disk queue loses what it accepted

    Two limits of [internal/adapters/diskqueue/diskqueue.go]: [Push] accepts a
    record larger than the reader's sanity bound, and a write cut short leaves
    bytes behind which nothing later in the segment can be read. *)
From Stdlib Require Import ZArith Lia.
From S2P Require Import Prelude GoBytes Ports DiskCodec DiskQueue DiskInv.

Open Scope string_scope.
Open Scope list_scope.
Open Scope Z_scope.

Lemma append_record_eq q rec ws t p : faults (disk q) = [] -> segments q = ws ++ [t] -> writer q = Some p ->
  append_record rec q =
  (Ok tt, set_totals (count q + 1) (qbytes q + zlength rec)
    (set_segments (ws ++ [mkSegment (sId t) (sPath t) (sSize t + zlength rec) (sRecords t + 1)])
      (with_files (<[p := default [] (files (disk q) !! p) ++ rec]> (files (disk q))) q))).
Proof.
  intros Hf Hs Hw. unfold append_record, update_tail. run_monad. rewrite Hw. cbv beta iota. rewrite sys_append_ok by done. cbv beta iota.
  destruct (SyncWrites (opts q)); [rewrite sys_fsync_ok by done|]; cbv beta iota;
    cbn [with_files set_disk segments]; rewrite Hs, last_snoc, length_app; cbn [length];
    replace (_ + 1 - 1)%nat with (length ws) by lia; by rewrite take_app_length.
Qed.

Lemma set_reader_same q r : reader q = r -> set_reader r q = q.
Proof. intros <-. by destruct q. Qed.

Lemma enforce_single q s : segments q = [s] -> enforceBound q = (Ok tt, q).
Proof. intros H. unfold enforceBound. rewrite H. cbn [length enforce_loop]. rewrite H. by rewrite andb_false_r. Qed.

(** The header of a record whose length fits the field. *)
Lemma header_length m rest : is_u32 (zlength (encode_body m)) -> Uint32 (take 8 (encode m ++ rest)) = zlength (encode_body m).
Proof.
  intros H. unfold encode. rewrite <- !app_assoc. unfold Uint32 at 1. rewrite take_take. change (Nat.min 4 8) with 4%nat.
  change (be_Z (take 4 ?x)) with (Uint32 x). rewrite Uint32_app. unfold u32. rewrite uwrap_uwrap by lia. by apply uwrap_id.
Qed.

(** ** Properties *)

(** [Push] accepts records that can never be read back. When the queue is
    empty, a message whose body exceeds the reader's bound of 16 MiB is pushed
    without an error and counted, and the next [Peek] reports corruption. *)
Theorem Push_oversized (q : Queue) (m : Message) :
  disk_inv q -> pending q = [] -> maxRecordBody < zlength (encode_body m) < 2 ^ 32 ->
  exists q', Push m q = (Ok tt, q') /\ Len q' = 1 /\ fst (Peek q') = Err ErrCorrupt.
Proof.
  intros [vs HI] Hp Hm. rewrite (Inv_pending _ _ HI) in Hp. destruct HI as (C & Hf & _ & _).
  destruct Hf as [Hf|(v & -> & Ev & Ho)].
  { exfalso. destruct (Core_cons _ _ C) as (v & us & ->). by apply (vmsgs_full _ Hf). }
  assert (count q = 0) as Hc0 by (rewrite (core_count _ _ C), vmsgs_cons, Ev; done).
  core C. clear Ccount. cbn [map] in *. pose proof Cviews as [((pre & Hfile & Hl) & Hsz & _) _]%Forall_cons.
  destruct Coffs as [Hvo _]. rewrite Ev, Hvo, Ho in *. change (zlength (log [])) with 0 in Hsz.
  assert (pre = []) as -> by (destruct pre; [done|]; rewrite zlength_cons in Hl; pose proof (zlength_nonneg pre); lia).
  cbn [app log map concat] in Hfile.
  set (rec := encode m). assert (writer q = Some (sPath (vSeg v))) as Hw by (by rewrite Cwriter, Csegs).
  assert (peeked q = None) as Hpk.
  { destruct (peeked q); [|done]. destruct Cpeeked as (v' & vs' & ms & E & E' & _). injection E as <- _. congruence. }
  pose proof (append_record_eq q rec [] (vSeg v) _ Cfaults Csegs Hw) as Ea. rewrite Hfile in Ea. cbn [from_option id app] in Ea.
  set (q1 := set_totals _ _ _) in Ea.
  exists q1. split_and!.
  - unfold Push. rewrite Copen. run_monad. unfold tail_segment. rewrite Csegs. cbn [list.last]. cbv beta iota zeta.
    rewrite Hsz. cbn [Z.ltb andb]. change (0 <? 0 + 0) with false. cbn [andb]. cbv beta iota. fold rec. rewrite Ea. cbv beta iota.
    by apply (enforce_single _ (mkSegment (sId (vSeg v)) (sPath (vSeg v)) (sSize (vSeg v) + zlength rec) (sRecords (vSeg v) + 1))).
  - unfold Len, q1. cbn [set_totals count]. lia.
  - unfold Peek, peekLocked. change (count q1) with (count q + 1). rewrite Hc0. change (0 + 1 =? 0) with false. cbv iota.
    change (peeked q1) with (peeked q). rewrite Hpk. cbv iota. unfold read_head, head_segment. run_monad.
    set (p := sPath (vSeg v)) in *. change (segments q1) with [mkSegment (sId (vSeg v)) p (sSize (vSeg v) + zlength rec) (sRecords (vSeg v) + 1)].
    cbv beta iota. assert (files (disk q1) !! p = Some rec) as Hr by (unfold q1; cbn; apply lookup_insert_eq).
    assert (open_reader (mkSegment (sId (vSeg v)) p (sSize (vSeg v) + zlength rec) (sRecords (vSeg v) + 1)) q1
      = (Ok tt, set_reader (Some p) q1)) as ->.
    { unfold open_reader. change (reader q1) with (reader q). destruct Creader as [Er|Er]; rewrite Er.
      - run_monad. cbn [sPath]. by rewrite sys_open_ok by (done || (rewrite Hr; by eexists)).
      - rewrite Csegs. cbn [fmap option_fmap option_map head]. f_equal. symmetry. apply set_reader_same.
        change (reader q1) with (reader q). by rewrite Er, Csegs. }
    cbv beta iota. cbn [set_reader reader from_option id sPath headOff].
    change (headOff q1) with (headOff q). rewrite Ho.
    rewrite (sys_read_at_ok p 0 recHeaderLen rec) by
      (done || (unfold rec; pose proof (rec_len_pos m); unfold rec_len, recHeaderLen in *; lia)).
    cbv beta iota zeta. assert (slice 0 (0 + recHeaderLen) rec = take 8 (encode m ++ [])) as -> by (by rewrite app_nil_r).
    rewrite header_length by (unfold in_u, maxRecordBody in *; change (Z.shiftl 16 20) with 16777216 in *; lia).
    destruct (Z.ltb_spec maxRecordBody (zlength (encode_body m))); [|lia]. by rewrite orb_true_r.
Qed.

Lemma Push_oversized_witness :
  let m := mkMessage "t" (repeat x00 (Z.to_nat 16777216)) false 0 in
  exists q', Push m fresh_queue = (Ok tt, q') /\ fst (Peek q') = Err ErrCorrupt.
Proof.
  destruct (Push_oversized fresh_queue (mkMessage "t" (repeat x00 (Z.to_nat 16777216)) false 0)) as (q' & E & _ & Hp).
  - exists [empty_view 1]. exact fresh_inv.
  - exact (Inv_pending _ _ fresh_inv).
  - unfold zlength. rewrite encode_body_length. cbn [Payload Topic]. rewrite repeat_length.
    unfold maxRecordBody. change (Z.shiftl 16 20) with 16777216.
    change (length (take (Z.to_nat 0xFFFF) (bytes_of "t"))) with 1%nat. lia.
  - exists q'. split; [exact E|exact Hp].
Defined.

(** A write cut short poisons its segment, by example. After the append of [a] fails
    with 5 of its bytes on disk, [b] is pushed successfully, yet it can never
    be read: [Peek] fails, and the [Ack] that gets the queue going again drops it. *)
Theorem short_write_poisons :
  let a := mkMessage "t/a" [x01] false 1 in
  let b := mkMessage "t/b" [x02] false 2 in
  let q := set_disk (mkDisk (files (disk fresh_queue)) [Some 5%nat]) fresh_queue in
  let '(ra, qa) := Push a q in
  let '(rb, qb) := Push b qa in
  let '(rp, qp) := Peek qb in
  let '(rk, qk) := Ack qp in
  ra = Err (ErrIO "append") /\ rb = Ok tt /\ Len qb = 1 /\ is_ok rp = false /\
  rk = Ok tt /\ Len qk = 0 /\ Dropped qk = 1.
Proof. vm_compute. repeat split. Qed.

(** ** A closed queue *)

Lemma sys_other_file op name c d : name <> "head" -> name <> "head.tmp" ->
  op = sys_write_file "head.tmp" c \/ op = sys_rename "head.tmp" headFile -> files (snd (op d)) !! name = files d !! name.
Proof.
  intros H1 H2 [-> | ->].
  - unfold sys_write_file. destruct d as [fs [|[n|] fa]]; cbn; by rewrite lookup_insert_ne.
  - unfold sys_rename, sys_call. destruct d as [fs [|[n|] fa]]; cbn; try done; destruct (fs !! "head.tmp"); cbn; try done;
      by rewrite lookup_insert_ne, lookup_delete_ne.
Qed.

Lemma writeHead_other q name : name <> "head" -> name <> "head.tmp" ->
  files (disk (snd (writeHead q))) !! name = files (disk q) !! name /\ reader (snd (writeHead q)) = reader q /\
  peeked (snd (writeHead q)) = peeked q /\ count (snd (writeHead q)) = count q /\ headOff (snd (writeHead q)) = headOff q /\
  segments (snd (writeHead q)) = segments q /\ closed (snd (writeHead q)) = closed q.
Proof.
  intros H1 H2. unfold writeHead. destruct (segments q) as [|s ss] eqn:Es; [done|]. unfold mbind, GoM_bind, sys.
  pose proof (sys_other_file (sys_write_file "head.tmp" (head_data (sId s) (headOff q))) name _ (disk q) H1 H2 (or_introl eq_refl)) as E1.
  destruct (sys_write_file _ _ _) as [[[]|e] d]; cbn [snd] in *; [|by rewrite <- Es].
  pose proof (sys_other_file (sys_rename "head.tmp" headFile) name [] d H1 H2 (or_intror eq_refl)) as E2. cbn [disk set_disk].
  destruct (sys_rename _ _ d) as [[[]|e] d']; cbn in *; by rewrite E2, E1, <- Es.
Qed.

(** After [Close] nothing can be pushed; a message already peeked can still be
    had, but a reader that was open is not opened again: reading fails. *)
Theorem Close_refuses (q : Queue) (m : Message) : closed q = false -> files (disk q) !! closed_file = None -> 0 <= headOff q ->
  let q' := snd (Close q) in
  fst (Push m q') = Err ErrClosed /\
  (forall x, peeked q = Some x -> count q <> 0 -> fst (Peek q') = Ok (Some x)) /\
  (peeked q = None -> count q <> 0 -> reader q <> None -> is_ok (fst (Peek q')) = false).
Proof.
  intros Hc Hf Ho. unfold Close. rewrite Hc. destruct (writeHead_other (set_closed q) closed_file) as (H1 & H2 & H3 & H4 & H5 & H6 & H7); [done..|].
  destruct (writeHead (set_closed q)) as [r q1]. cbn [snd set_closed disk reader peeked count headOff segments closed] in *.
  split_and!.
  - unfold Push. cbn [set_reader closed]. by rewrite H7.
  - intros x Hx Hn. unfold Peek, peekLocked. cbn [set_reader count peeked]. rewrite H4, H3, Hx. by destruct (Z.eqb_spec (count q) 0).
  - intros Hx Hn Hr. unfold Peek, peekLocked. cbn [set_reader count peeked]. rewrite H4, H3, Hx. destruct (Z.eqb_spec (count q) 0); [done|].
    unfold read_head, head_segment, open_reader. run_monad. cbn [set_reader segments reader]. rewrite H2.
    destruct (segments q1) as [|s ss]; [done|]. destruct (reader q) as [p|]; [|done]. cbn [fmap option_fmap option_map default].
    cbv beta iota. cbn [set_reader reader from_option id headOff disk]. unfold sys, sys_read_at, sys_call. cbn [set_reader disk].
    destruct (next_fault (disk q1)) as [[j|] d] eqn:En; [done|].
    assert (files d = files (disk q1)) as -> by (unfold next_fault in En; destruct (faults (disk q1)); by simplify_eq).
    rewrite H1, Hf, H5. cbn [from_option id]. rewrite zlength_nil. by destruct (Z.ltb_spec 0 (headOff q + recHeaderLen)); [|unfold recHeaderLen in *; lia].
Qed.
