(* ===== verification/Inbox.v ===== *)
(** * Inbox: the bridge's in-memory stage (internal/bridge/inbox.go)

    One bounded FIFO per topic, served round-robin; a full FIFO loses its
    oldest message, a full inbox the oldest message of its longest FIFO. *)
From Stdlib Require Import ZArith Lia.
From S2P Require Import Prelude GoBytes Ports.

Open Scope Z_scope.

Record inbox := mkInbox {
  topics : gmap string (list Message);
  ring : list string;
  rr : nat;
  total : Z;
  perTopic : Z;
  maxTotal : Z;
  dropped : Z;
  notify : bool
}.

Definition newInbox (per max : Z) : inbox := mkInbox ∅ [] 0 0 per max 0 false.

(** [in.topics[t]]; a missing key reads as the empty slice. *)
Definition fifo (i : inbox) (t : string) : list Message := default [] (topics i !! t).

Definition index_of (t : string) (l : list string) : option nat := fst <$> list_find (eq t) l.

Definition removeFromRing (topic : string) (i : inbox) : inbox :=
  let '(ring', rr') :=
    match index_of topic (ring i) with
    | Some n => (take n (ring i) ++ drop (S n) (ring i), if (n <? rr i)%nat then (rr i - 1)%nat else rr i)
    | None => (ring i, rr i)
    end in
  mkInbox (topics i) ring' (match ring' with [] => 0%nat | _ => (rr' mod length ring')%nat end)
    (total i) (perTopic i) (maxTotal i) (dropped i) (notify i).

(** The first topic of the ring with the longest FIFO. *)
Definition longest (i : inbox) : string * nat :=
  fold_left (fun best t => if (snd best <? length (fifo i t))%nat then (t, length (fifo i t)) else best)
    (ring i) (EmptyString, 0%nat).

Definition evictLongest (i : inbox) : bool * inbox :=
  let '(victim, n) := longest i in
  if (n =? 0)%nat then (false, i)
  else
    let q := tail (fifo i victim) in
    let i' := mkInbox (<[victim := q]> (topics i)) (ring i) (rr i) (total i - 1) (perTopic i) (maxTotal i)
                (dropped i) (notify i) in
    (true, match q with [] => removeFromRing victim i' | _ => i' end).

(** [q] is read once, before anything is evicted. *)
Definition push (m : Message) (i : inbox) : Z * inbox :=
  let q := fifo i (Topic m) in
  let i1 := match q with
            | [] => mkInbox (topics i) (ring i ++ [Topic m]) (rr i) (total i) (perTopic i) (maxTotal i)
                      (dropped i) (notify i)
            | _ => i
            end in
  let '(q', d, i2) :=
    if perTopic i <=? zlength q then
      (tail q, 1, mkInbox (topics i1) (ring i1) (rr i1) (total i1 - 1) (perTopic i1) (maxTotal i1) (dropped i1) (notify i1))
    else if maxTotal i <=? total i1 then
      let '(ev, i2) := evictLongest i1 in (q, if ev : bool then 1 else 0, i2)
    else (q, 0, i1) in
  (d, mkInbox (<[Topic m := q' ++ [m]]> (topics i2)) (ring i2) (rr i2) (total i2 + 1) (perTopic i2) (maxTotal i2)
        (dropped i2 + d) true).

Inductive popped := Popped (m : Message) | Nothing | PopPanic.

Definition pop (i : inbox) : popped * inbox :=
  match ring i with
  | [] => (Nothing, i)
  | _ =>
      if total i =? 0 then (Nothing, i)
      else
        let n := (rr i mod length (ring i))%nat in
        match ring i !! n with
        | None => (PopPanic, i)
        | Some topic =>
            match fifo i topic with
            | [] => (PopPanic, i)
            | m :: q =>
                let '(ts, ring', rr') :=
                  match q with
                  | [] =>
                      let r := take n (ring i) ++ drop (S n) (ring i) in
                      (delete topic (topics i), r, match r with [] => 0%nat | _ => (n mod length r)%nat end)
                  | _ => (<[topic := q]> (topics i), ring i, (S n mod length (ring i))%nat)
                  end in
                (Popped m, mkInbox ts ring' rr' (total i - 1) (perTopic i) (maxTotal i) (dropped i) (notify i))
            end
        end
  end.

Definition len (i : inbox) : Z := total i.
Definition droppedCount (i : inbox) : Z := dropped i.

(** ** Specification *)

Definition held (i : inbox) (ts : list string) : Z := sumZ (map (fun t => zlength (fifo i t)) ts).

Record wf (i : inbox) : Prop := {
  wf_nodup : NoDup (ring i);
  wf_ring : forall t, t ∈ ring i <-> fifo i t <> [];
  wf_total : total i = held i (ring i);
  wf_topic : forall t, Forall (fun m => Topic m = t) (fifo i t);
  wf_per : forall t, zlength (fifo i t) <= perTopic i;
  wf_limits : 1 <= perTopic i
}.

(** The order in which the topics will be served. *)
Definition service (i : inbox) : list string :=
  let n := (rr i mod length (ring i))%nat in drop n (ring i) ++ take n (ring i).

(** Whether a push would evict from the topic it pushes to. *)
Definition self_evicts (m : Message) (i : inbox) : bool :=
  (zlength (fifo i (Topic m)) <? perTopic i) && (maxTotal i <=? total i) &&
  bool_decide (fst (longest i) = Topic m) && negb (bool_decide (fifo i (Topic m) = [])).

(** ** Runs *)

Inductive op := OPush (m : Message) | OPop.

(** The inbox, the messages pushed and the messages popped. *)
Definition run_op (s : inbox * list Message * list Message) (o : op) : inbox * list Message * list Message :=
  let '(i, ins, outs) := s in
  match o with
  | OPush m => (snd (push m i), ins ++ [m], outs)
  | OPop => match pop i with
            | (Popped m, i') => (i', ins, outs ++ [m])
            | (_, i') => (i', ins, outs)
            end
  end.

Definition run_ops (per max : Z) (os : list op) : inbox * list Message * list Message :=
  fold_left run_op os (newInbox per max, [], []).

(** No push of the run evicts from its own topic. *)
Fixpoint sane (i : inbox) (os : list op) : bool :=
  match os with
  | [] => true
  | OPush m :: os' => negb (self_evicts m i) && sane (snd (push m i)) os'
  | OPop :: os' => sane (snd (pop i)) os'
  end.

Definition of_topic (t : string) (ms : list Message) : list Message :=
  List.filter (fun m => String.eqb (Topic m) t) ms.

(** ** Sums over the ring *)

Lemma held_cons i t ts : held i (t :: ts) = zlength (fifo i t) + held i ts.
Proof. done. Qed.

Lemma held_app i ts us : held i (ts ++ us) = held i ts + held i us.
Proof. unfold held. by rewrite map_app, sumZ_app. Qed.

Lemma held_ext i j ts : (forall u, u ∈ ts -> fifo i u = fifo j u) -> held i ts = held j ts.
Proof.
  induction ts as [|t ts IH]; intros H; [done|]. rewrite !held_cons, (H t), IH; [done| |left].
  intros u Hu. apply H. by right.
Qed.

(** One topic's FIFO changes. *)
Lemma held_update i j t ts : NoDup ts -> t ∈ ts -> (forall u, u <> t -> fifo i u = fifo j u) ->
  held j ts = held i ts + (zlength (fifo j t) - zlength (fifo i t)).
Proof.
  intros Hn Ht Hu. apply list_elem_of_split in Ht as (l1 & l2 & ->).
  apply NoDup_app in Hn as (_ & Hd & [Hn2 _]%NoDup_cons).
  rewrite !held_app, !held_cons, (held_ext i j l1), (held_ext i j l2); [lia| |].
  - intros u Hin. apply Hu. by intros ->.
  - intros u Hin. apply Hu. intros ->. apply (Hd t Hin). left.
Qed.

Lemma remove_at (l : list string) n v : l !! n = Some v -> NoDup l ->
  let r := take n l ++ drop (S n) l in
  NoDup r /\ (forall u, u ∈ r <-> u ∈ l /\ u <> v) /\ (forall i, held i r = held i l - zlength (fifo i v)).
Proof.
  intros Hn Hnd. pose proof (take_drop_middle l n v Hn) as E. cbv zeta.
  generalize dependent (take n l). intros l1. generalize (drop (S n) l). intros l2 <-.
  apply NoDup_app in Hnd as (H1 & Hd & [Hv H2]%NoDup_cons). split_and!.
  - apply NoDup_app. split_and!; [done| |done]. intros x Hx Hx2. apply (Hd x Hx). by right.
  - intros u. rewrite !elem_of_app, elem_of_cons. split; [|naive_solver].
    intros [Hu|Hu]; (split; [naive_solver|intros ->]); [|done]. apply (Hd v Hu). left.
  - intros i. rewrite !held_app, held_cons. lia.
Qed.

Lemma index_of_elem t l : t ∈ l -> exists n, index_of t l = Some n /\ l !! n = Some t.
Proof.
  intros Ht. unfold index_of. destruct (list_find (eq t) l) as [[n x]|] eqn:E.
  - apply list_find_Some in E as (Hn & <- & _). by exists n.
  - apply list_find_None in E. exfalso. apply (proj1 (Forall_forall _ _) E t Ht). done.
Qed.

(** The invariant while a push to [t] is under way: [t] is in the ring though
    its FIFO may be empty. *)
Record pre (t : string) (i : inbox) : Prop := {
  pre_nodup : NoDup (ring i);
  pre_in : t ∈ ring i;
  pre_ring : forall u, u <> t -> u ∈ ring i <-> fifo i u <> [];
  pre_total : total i = held i (ring i);
  pre_topic : forall u, Forall (fun m => Topic m = u) (fifo i u);
  pre_per : forall u, zlength (fifo i u) <= perTopic i
}.

Lemma longest_spec i : let '(v, n) := longest i in n = 0%nat \/ v ∈ ring i /\ n = length (fifo i v).
Proof.
  unfold longest.
  assert (forall l best, (snd best = 0%nat \/ fst best ∈ ring i /\ snd best = length (fifo i (fst best))) ->
    (forall t, t ∈ l -> t ∈ ring i) ->
    let r := fold_left (fun best t => if (snd best <? length (fifo i t))%nat then (t, length (fifo i t)) else best) l best in
    snd r = 0%nat \/ fst r ∈ ring i /\ snd r = length (fifo i (fst r))) as H.
  { induction l as [|t l IH]; intros best Hb Hl; [done|]. cbn [fold_left]. apply IH.
    - destruct (snd best <? length (fifo i t))%nat; [|done]. right. split; [apply Hl; left|done].
    - intros u Hu. apply Hl. by right. }
  specialize (H (ring i) (EmptyString, 0%nat) ltac:(by left) ltac:(done)). by destruct (fold_left _ _ _).
Qed.

Lemma fifo_insert i ts' t q : topics i = <[t := q]> ts' -> forall u, fifo i u = if decide (u = t) then q else default [] (ts' !! u).
Proof.
  intros E u. unfold fifo. rewrite E. destruct (decide (u = t)) as [->|]; [by rewrite lookup_insert_eq|by rewrite lookup_insert_ne].
Qed.

Lemma tail_length {A} (l : list A) : l <> [] -> zlength (tail l) = zlength l - 1.
Proof. destruct l; [done|]. intros _. rewrite zlength_cons. cbn. lia. Qed.

Lemma Forall_tail {A} (P : A -> Prop) l : Forall P l -> Forall P (tail l).
Proof. by destruct 1. Qed.

(** Evicting from another topic. *)
Lemma evict_pre t i : pre t i -> fst (longest i) <> t \/ snd (longest i) = 0%nat ->
  let '(ev, i') := evictLongest i in
  pre t i' /\ perTopic i' = perTopic i /\ maxTotal i' = maxTotal i /\ dropped i' = dropped i /\
  total i' = total i - (if ev then 1 else 0) /\
  (forall u, fifo i' u = if decide (ev = true /\ u = fst (longest i)) then tail (fifo i u) else fifo i u) /\
  fifo i' t = fifo i t /\ (ev = true -> fifo i (fst (longest i)) <> []).
Proof.
  intros P Hv. pose proof (longest_spec i) as Hl. unfold evictLongest. destruct (longest i) as [v n]. cbn [fst snd] in *.
  destruct (Nat.eqb_spec n 0) as [->|Hn].
  { split_and!; try done; try lia; intros u; by rewrite decide_False by (intros [? _]; done). }
  destruct Hl as [?|[Hin En]]; [done|]. destruct Hv as [Hv|?]; [|done]. destruct P as [Pn Pi Pr Pt Pto Pp].
  assert (fifo i v <> []) as Hne by (destruct (fifo i v); [done|done]).
  set (i1 := mkInbox (<[v := tail (fifo i v)]> (topics i)) (ring i) (rr i) (total i - 1) (perTopic i) (maxTotal i) (dropped i) (notify i)).
  assert (forall u, fifo i1 u = if decide (u = v) then tail (fifo i v) else fifo i u) as Hf by (intros u; by apply (fifo_insert i1 (topics i))).
  assert (forall u, fifo i1 u = if decide (true = true /\ u = v) then tail (fifo i u) else fifo i u) as Hf'.
  { intros u. rewrite Hf. destruct (decide (u = v)) as [->|]; [by rewrite decide_True|by rewrite decide_False by naive_solver]. }
  assert (fifo i1 t = fifo i t) as Hft by (rewrite Hf; by rewrite decide_False).
  assert (held i1 (ring i) = total i - 1) as Hh.
  { rewrite (held_update i i1 v) by (try done; intros u Hu; rewrite Hf; by rewrite decide_False).
    rewrite Hf, decide_True, tail_length by done. lia. }
  assert (forall u, Forall (fun m => Topic m = u) (fifo i1 u)) as Hto.
  { intros u. rewrite Hf'. destruct (decide _); [apply Forall_tail|]; apply Pto. }
  assert (forall u, zlength (fifo i1 u) <= perTopic i) as Hp.
  { intros u. rewrite Hf'. destruct (decide _); [|apply Pp]. specialize (Pp u).
    destruct (fifo i u) as [|x xs]; [done|]. rewrite zlength_cons in Pp. cbn [tail]. lia. }
  destruct (tail (fifo i v)) as [|x xs] eqn:Et.
  - unfold removeFromRing. destruct (index_of_elem v (ring i) Hin) as (k & Ek & Hk).
    change (ring i1) with (ring i). rewrite Ek. destruct (remove_at (ring i) k v Hk Pn) as (Hnd & Hel & Hheld).
    set (r := take k (ring i) ++ drop (S k) (ring i)) in *.
    split; [|by split_and!].
    constructor; cbn [ring total perTopic]; try done.
    + apply Hel. split; [done|congruence].
    + intros u Hu. rewrite Hel. change (fifo _ u) with (fifo i1 u). rewrite Hf.
      destruct (decide (u = v)) as [->|Huv]; [naive_solver|]. rewrite Pr by done. naive_solver.
    + change (held _ r) with (held i1 r). rewrite Hheld, Hh, Hf, decide_True by done. rewrite zlength_nil. change (total i1) with (total i - 1). lia.
  - split; [|split_and!; done]. constructor; cbn [ring total perTopic]; try done.
    intros u Hu. rewrite Hf. destruct (decide (u = v)) as [->|]; [|by apply Pr]. by split.
Qed.

(** The last step of a push. *)
Lemma finish_push t i q d n b : pre t i -> Forall (fun m => Topic m = t) q -> q <> [] -> zlength q <= perTopic i ->
  1 <= perTopic i -> n = total i + zlength q - zlength (fifo i t) ->
  wf (mkInbox (<[t := q]> (topics i)) (ring i) (rr i) n (perTopic i) (maxTotal i) d b).
Proof.
  intros [Pn Pi Pr Pt Pto Pp] Hq Hne Hlen H1 ->.
  set (j := mkInbox _ _ _ _ _ _ _ _).
  assert (forall u, fifo j u = if decide (u = t) then q else fifo i u) as Hf by (intros u; by apply (fifo_insert j (topics i))).
  constructor; cbn [ring perTopic]; try done.
  - intros u. rewrite Hf. destruct (decide (u = t)) as [->|]; [by split|by apply Pr].
  - change (total j) with (total i + zlength q - zlength (fifo i t)). change (ring j) with (ring i).
    rewrite (held_update i j t) by (try done; intros u Hu; rewrite Hf; by rewrite decide_False).
    rewrite Hf, decide_True by done. lia.
  - intros u. rewrite Hf. destruct (decide (u = t)) as [->|]; [done|apply Pto].
  - intros u. rewrite Hf. change (perTopic j) with (perTopic i). destruct (decide (u = t)); [done|apply Pp].
Qed.

Lemma wf_pre i t q : wf i -> fifo i t = q ->
  pre t (match q with
         | [] => mkInbox (topics i) (ring i ++ [t]) (rr i) (total i) (perTopic i) (maxTotal i) (dropped i) (notify i)
         | _ => i
         end).
Proof.
  intros [Wn Wr Wt Wto Wp W1] Hq. destruct q as [|x xs].
  - assert (t ∉ ring i) as Ht by (rewrite Wr; auto).
    constructor; cbn [ring total perTopic]; try done.
    + apply NoDup_app. split_and!; [done| |apply NoDup_singleton]. intros u Hu ->%list_elem_of_singleton. done.
    + apply elem_of_app. right. by apply list_elem_of_singleton.
    + intros u Hu. rewrite elem_of_app, list_elem_of_singleton, Wr. change (fifo _ u) with (fifo i u). naive_solver.
    + change (held _ (ring i ++ [t])) with (held i (ring i ++ [t])). rewrite held_app, held_cons, Hq.
      change (held i []) with 0. unfold zlength. cbn [length]. lia.
  - constructor; try done. apply Wr. by rewrite Hq.
Qed.

(** What a push does to the FIFOs, in every branch. *)
Lemma push_wf i m : wf i -> self_evicts m i = false ->
  let '(d, i') := push m i in
  wf i' /\ perTopic i' = perTopic i /\ maxTotal i' = maxTotal i /\ dropped i' = dropped i + d /\
  total i' = total i + 1 - d /\
  (forall u, exists k, fifo i' u = drop k (fifo i u) ++ (if decide (u = Topic m) then [m] else [])).
Proof.
  intros W Hself. pose proof W as [Wn Wr Wt Wto Wp W1]. set (t := Topic m) in *. set (q := fifo i t) in *.
  unfold push. fold t q. pose proof (wf_pre i t q W eq_refl) as P.
  set (i1 := match q with [] => _ | _ => i end) in *.
  assert (forall u, fifo i1 u = fifo i u) as Hf1 by (intros u; unfold i1; by destruct q).
  assert (perTopic i1 = perTopic i /\ maxTotal i1 = maxTotal i /\ dropped i1 = dropped i /\ total i1 = total i) as (Ep & Em & Ed & Et)
    by (unfold i1; by destruct q).
  assert (Forall (fun x => Topic x = t) (q ++ [m])) as Hqm by (apply Forall_app; split; [apply Wto|by apply Forall_singleton]).
  assert (forall u (q' : list Message) ts, (if decide (u = t) then q' else default [] (ts !! u)) =
    fifo (mkInbox (<[t := q']> ts) [] 0 0 0 0 0 false) u) as Hins.
  { intros u q' ts. symmetry. by apply (fifo_insert _ ts). }
  destruct (Z.leb_spec (perTopic i) (zlength q)) as [Hfull|Hroom].
  - assert (q <> []) as Hqne by (intros E; rewrite E, zlength_nil in Hfull; lia). cbv beta iota zeta. cbn [ring rr total perTopic maxTotal dropped topics].
    pose proof (tail_length q Hqne) as Htl. pose proof (Wp t) as Hpt. fold q in Hpt.
    split_and!; try done; try lia.
    + apply (finish_push t i1); try done.
      * rewrite Forall_app in Hqm |- *. destruct Hqm as [Hq ?]. split; [by apply Forall_tail|done].
      * by destruct (tail q).
      * rewrite zlength_app, zlength_cons, zlength_nil. lia.
      * lia.
      * rewrite (Hf1 t). fold q. rewrite zlength_app, zlength_cons, zlength_nil. lia.
    + intros u. unfold fifo at 1. cbn [topics]. destruct (decide (u = t)) as [->|Hu].
      * exists 1%nat. rewrite lookup_insert_eq. change (fifo i t) with q. by destruct q.
      * exists 0%nat. rewrite lookup_insert_ne by done. rewrite app_nil_r. apply Hf1.
  - assert (zlength (q ++ [m]) <= perTopic i) as Hlen by (rewrite zlength_app, zlength_cons, zlength_nil; lia).
    assert (forall d n j, pre t j -> fifo j t = q -> perTopic j = perTopic i -> n = total j + 1 ->
      wf (mkInbox (<[t := q ++ [m]]> (topics j)) (ring j) (rr j) n (perTopic j) (maxTotal j) d true)) as Hfin.
    { intros d n j Pj Hj Hpj ->. apply (finish_push t j); try done; [by destruct q|by rewrite Hpj|lia|].
      rewrite Hj, zlength_app, zlength_cons, zlength_nil. lia. }
    destruct (Z.leb_spec (maxTotal i) (total i1)) as [Hover|Hunder].
    + assert (fst (longest i1) <> t \/ snd (longest i1) = 0%nat) as Hv.
      { destruct (decide (fst (longest i1) = t)) as [E|]; [|by left]. right.
        pose proof (longest_spec i1) as Hl. destruct (longest i1) as [v n] eqn:El. cbn [fst snd] in *. subst v.
        destruct Hl as [?|[_ ->]]; [done|]. rewrite Hf1. fold q. destruct q as [|x xs] eqn:Eq; [done|]. exfalso.
        unfold self_evicts in Hself. fold t in Hself. change (fifo i t) with (x :: xs) in Hself || (unfold q in Eq; rewrite Eq in Hself).
        unfold i1 in El. rewrite El in Hself. cbn [fst] in Hself. rewrite Et in Hover.
        rewrite (proj2 (Z.ltb_lt _ _)) in Hself by lia. rewrite (proj2 (Z.leb_le _ _)) in Hself by lia.
        rewrite bool_decide_true in Hself by done. rewrite bool_decide_false in Hself by done. done. }
      pose proof (evict_pre t i1 P Hv) as HE. destruct (evictLongest i1) as [ev i2].
      destruct HE as (P2 & Ep2 & Em2 & Ed2 & Et2 & Hf2 & Hft & _). cbv beta iota zeta. cbn [perTopic maxTotal dropped total].
      split_and!; try lia.
      * apply Hfin; [done|by rewrite Hft, Hf1|congruence|done].
      * intros u. unfold fifo at 1. cbn [topics]. destruct (decide (u = t)) as [->|Hu].
        -- exists 0%nat. by rewrite lookup_insert_eq.
        -- rewrite lookup_insert_ne by done.
           change (default [] (topics i2 !! u)) with (fifo i2 u). setoid_rewrite app_nil_r. rewrite Hf2, Hf1.
           destruct (decide _); [exists 1%nat; by destruct (fifo i u)|by exists 0%nat].
    + cbv beta iota zeta. cbn [perTopic maxTotal dropped total]. split_and!; try lia.
      * by apply Hfin.
      * intros u. unfold fifo at 1. cbn [topics]. exists 0%nat. destruct (decide (u = t)) as [->|Hu].
        -- by rewrite lookup_insert_eq.
        -- rewrite lookup_insert_ne, app_nil_r by done. apply Hf1.
Qed.

Lemma held_pos i ts : Forall (fun t => fifo i t <> []) ts -> zlength ts <= held i ts.
Proof.
  induction 1 as [|t ts Ht Hts IH]; [done|]. rewrite held_cons, zlength_cons.
  destruct (fifo i t); [done|]. rewrite zlength_cons. pose proof (zlength_nonneg l). lia.
Qed.

Lemma wf_total_ring i : wf i -> zlength (ring i) <= total i.
Proof.
  intros W. rewrite (wf_total _ W). apply held_pos, Forall_forall. intros t Ht. by apply (wf_ring _ W).
Qed.

(** What [pop] does: it serves the topic at the front of the service order,
    which goes to the back if it has more. *)
Lemma pop_wf i : wf i ->
  match pop i with
  | (Popped m, i') =>
      wf i' /\ perTopic i' = perTopic i /\ maxTotal i' = maxTotal i /\ dropped i' = dropped i /\
      total i' = total i - 1 /\ fifo i (Topic m) = m :: fifo i' (Topic m) /\
      (forall u, u <> Topic m -> fifo i' u = fifo i u) /\
      exists rest, service i = Topic m :: rest /\
        service i' = rest ++ (if decide (fifo i' (Topic m) = []) then [] else [Topic m])
  | (Nothing, i') => i' = i /\ ring i = [] /\ total i = 0
  | (PopPanic, _) => False
  end.
Proof.
  intros W. pose proof W as [Wn Wr Wt Wto Wp W1]. pose proof (wf_total_ring i W) as Hring. unfold pop.
  destruct (ring i) as [|r0 rs] eqn:Er; [split_and!; try done; by rewrite Wt|]. rewrite <- Er in *.
  assert (ring i <> []) as Hne by (by rewrite Er).
  assert (0 < length (ring i))%nat as Hpos by (rewrite Er; cbn; lia).
  destruct (Z.eqb_spec (total i) 0) as [E0|_]; [unfold zlength in Hring; lia|].
  set (n := (rr i mod length (ring i))%nat). assert (n < length (ring i))%nat as Hn by (apply Nat.mod_upper_bound; lia).
  destruct (ring i !! n) as [t|] eqn:Et; [|apply lookup_ge_None in Et; lia].
  assert (t ∈ ring i) as Hin by (by eapply list_elem_of_lookup_2).
  destruct (fifo i t) as [|m q] eqn:Ef; [by apply Wr in Hin|].
  assert (Topic m = t) as Hmt by (pose proof (Wto t) as H; rewrite Ef in H; by apply Forall_cons in H as [? _]).
  assert (service i = t :: drop (S n) (ring i) ++ take n (ring i)) as Hserv.
  { unfold service. fold n. by rewrite (drop_S _ t n). }
  destruct (remove_at (ring i) n t Et Wn) as (Hnd & Hel & Hheld). set (r := take n (ring i) ++ drop (S n) (ring i)) in *.
  destruct q as [|m2 q].
  - set (i' := mkInbox (delete t (topics i)) r _ _ _ _ _ _).
    assert (forall u, fifo i' u = if decide (u = t) then [] else fifo i u) as Hf.
    { intros u. unfold fifo, i'. cbn [topics]. destruct (decide (u = t)) as [->|]; [by rewrite lookup_delete_eq|by rewrite lookup_delete_ne]. }
    rewrite Hmt. split_and!; try done.
    + constructor; try done.
      * intros u. change (ring i') with r. rewrite Hel, Hf, Wr. destruct (decide (u = t)); naive_solver.
      * change (total i') with (total i - 1). change (ring i') with r.
        rewrite (held_ext i' i), Hheld, Ef, zlength_cons; [change (zlength (@nil Message)) with 0; lia|].
        intros u [_ Hu]%Hel. rewrite Hf. by rewrite decide_False.
      * intros u. rewrite Hf. destruct (decide _); [constructor|apply Wto].
      * intros u. rewrite Hf. change (perTopic i') with (perTopic i). destruct (decide _); [unfold zlength; cbn; lia|apply Wp].
    + by rewrite Hf, decide_True.
    + intros u Hu. rewrite Hf. by rewrite decide_False.
    + eexists. split; [exact Hserv|]. assert (fifo i' t = []) as Hi by (by rewrite Hf, decide_True). rewrite decide_True, app_nil_r by done.
      unfold service. change (ring i') with r. change (rr i') with (match r with [] => 0%nat | _ => (n mod length r)%nat end).
      assert (length r = (length (ring i) - 1)%nat) as Hlr by (unfold r; rewrite length_app, length_take, length_drop; lia).
      destruct (decide (length r = 0)%nat) as [Hz|Hz].
      { destruct r eqn:E; [|done]. apply app_eq_nil in E as [-> ->]. done. }
      assert ((match r with [] => 0%nat | _ => (n mod length r)%nat end) mod length r = n mod length r)%nat as ->.
      { destruct r; [done|]. by apply Nat.Div0.mod_mod. }
      destruct (decide (n = length r)) as [Enr|Hnr].
      * assert (n mod length r = 0)%nat as -> by (rewrite <- Enr; apply Nat.Div0.mod_same).
        rewrite drop_0. cbn [take firstn]. rewrite app_nil_r. unfold r.
        assert (drop (S n) (ring i) = []) as -> by (apply drop_ge; lia). by rewrite app_nil_r.
      * rewrite Nat.mod_small by lia. unfold r. rewrite drop_app_le, take_app_le by (rewrite length_take; lia).
        rewrite (drop_ge (take n (ring i))) by (rewrite length_take; lia).
        rewrite take_ge by (rewrite length_take; lia). done.
  - set (i' := mkInbox (<[t := m2 :: q]> (topics i)) (ring i) _ _ _ _ _ _).
    assert (forall u, fifo i' u = if decide (u = t) then m2 :: q else fifo i u) as Hf by (intros u; by apply (fifo_insert i' (topics i))).
    rewrite Hmt. split_and!; try done.
    + constructor; try done.
      * intros u. change (ring i') with (ring i). rewrite Hf, Wr. destruct (decide (u = t)) as [->|]; [|done]. rewrite Ef. naive_solver.
      * change (total i') with (total i - 1). change (ring i') with (ring i).
        rewrite (held_update i i' t) by (try done; intros u Hu; rewrite Hf; by rewrite decide_False).
        rewrite Hf, decide_True, Ef, !zlength_cons by done. lia.
      * intros u. rewrite Hf. destruct (decide (u = t)) as [->|]; [|apply Wto]. pose proof (Wto t) as H. rewrite Ef in H. by apply Forall_cons in H as [_ ?].
      * intros u. rewrite Hf. change (perTopic i') with (perTopic i). destruct (decide (u = t)) as [->|]; [|apply Wp].
        pose proof (Wp t) as H. rewrite Ef, zlength_cons in H. lia.
    + by rewrite Hf, decide_True.
    + intros u Hu. rewrite Hf. by rewrite decide_False.
    + eexists. split; [exact Hserv|]. assert (fifo i' t <> []) as Hi by (by rewrite Hf, decide_True). rewrite decide_False by done.
      unfold service. change (ring i') with (ring i). change (rr i') with (S n mod length (ring i))%nat.
      rewrite Nat.Div0.mod_mod. destruct (decide (S n = length (ring i))) as [E|Hlast].
      * rewrite E, Nat.Div0.mod_same, drop_0. cbn [take firstn]. rewrite app_nil_r, (drop_ge (ring i)) by lia. cbn [app].
        rewrite <- (take_drop n (ring i)) at 1. f_equal. rewrite (drop_S _ t n) by done. f_equal. apply drop_ge. lia.
      * rewrite Nat.mod_small by lia. rewrite (take_S_r _ _ t) by done. by rewrite app_assoc.
Qed.

(** ** Runs *)

Lemma of_topic_app t xs ys : of_topic t (xs ++ ys) = of_topic t xs ++ of_topic t ys.
Proof. apply List.filter_app. Qed.

Lemma of_topic_one t m : of_topic t [m] = if decide (t = Topic m) then [m] else [].
Proof.
  unfold of_topic. cbn. destruct (String.eqb_spec (Topic m) t) as [->|]; [by rewrite decide_True|].
  by rewrite decide_False.
Qed.

Lemma sublist_drop {A} k (l : list A) : sublist (drop k l) l.
Proof. rewrite <- (take_drop k l) at 2. by apply sublist_inserts_l. Qed.

Lemma newInbox_wf per max : 1 <= per -> wf (newInbox per max).
Proof.
  intros H. assert (forall t, fifo (newInbox per max) t = []) as Hf by (intros t; unfold fifo; cbn; by rewrite lookup_empty).
  constructor; [constructor| |done|intros t; rewrite Hf; constructor|intros t; rewrite Hf; unfold zlength; cbn; lia|done].
  intros t. rewrite Hf. split; [by intros ?%elem_of_nil|done].
Qed.

Lemma held_bound i ts n : (forall t, zlength (fifo i t) <= n) -> held i ts <= zlength ts * n.
Proof.
  intros H. induction ts as [|t ts IH]; [done|]. rewrite held_cons, zlength_cons. specialize (H t). lia.
Qed.

(** An inbox with room for the allowance of every topic evicts from none: the
    topic that would have to give up a message for itself has room. *)
Lemma sized_no_self_evict i (ts : list string) m : wf i -> (forall t, fifo i t <> [] -> t ∈ ts) ->
  zlength ts * perTopic i <= maxTotal i -> self_evicts m i = false.
Proof.
  intros W Hts Hsize. unfold self_evicts. destruct (_ && _ && _ && _) eqn:E; [|done]. bool_to_prop. exfalso.
  assert (Topic m ∈ ring i) as Hin by (by apply (wf_ring i W)).
  assert (zlength (ring i) <= zlength ts) as Hlen.
  { unfold zlength. apply inj_le, submseteq_length, NoDup_submseteq; [apply (wf_nodup i W)|].
    intros t Ht. apply Hts. by apply (wf_ring i W). }
  pose proof (wf_nodup i W) as Hnd. pose proof (wf_total i W) as Ht. pose proof (wf_limits i W).
  apply list_elem_of_split in Hin as (l1 & l2 & Er). rewrite Er in *.
  rewrite held_app, held_cons in Ht. rewrite zlength_app, zlength_cons in Hlen.
  pose proof (held_bound i l1 (perTopic i) (wf_per i W)). pose proof (held_bound i l2 (perTopic i) (wf_per i W)). nia.
Qed.

(** The run so far: nothing is reordered, and every message is accounted for. *)
Definition accounted (s : inbox * list Message * list Message) : Prop :=
  let '(i, ins, outs) := s in
  wf i /\ (forall t, sublist (of_topic t outs ++ fifo i t) (of_topic t ins)) /\
  zlength ins = zlength outs + total i + dropped i.

Lemma accounted_push i ins outs m : accounted (i, ins, outs) -> self_evicts m i = false ->
  accounted (run_op (i, ins, outs) (OPush m)).
Proof.
  intros (W & Ho & Hn) Hs. pose proof (push_wf i m W Hs) as H. cbn [run_op].
  destruct (push m i) as [d i']. destruct H as (W' & _ & _ & Hd & Ht & Hf). cbn [snd]. split_and!; [done| |].
  - intros t. rewrite of_topic_app, of_topic_one. destruct (Hf t) as [k ->]. rewrite app_assoc.
    apply sublist_app; [|done]. etrans; [|apply Ho]. apply sublist_app; [done|apply sublist_drop].
  - rewrite zlength_app, zlength_cons, zlength_nil. lia.
Qed.

Lemma accounted_pop i ins outs : accounted (i, ins, outs) ->
  accounted (run_op (i, ins, outs) OPop) /\ snd (pop i) = fst (fst (run_op (i, ins, outs) OPop)).
Proof.
  intros (W & Ho & Hn). pose proof (pop_wf i W) as H. cbn [run_op]. destruct (pop i) as [[m| |] i'].
  - destruct H as (W' & _ & _ & Hd & Ht & Hf & Hother & _). split; [|done]. split_and!; [done| |].
    + intros t. rewrite of_topic_app, of_topic_one, <- app_assoc. specialize (Ho t).
      destruct (decide (t = Topic m)) as [->|Hne]; [by rewrite Hf in Ho|by rewrite Hother].
    + rewrite zlength_app, zlength_cons, zlength_nil. lia.
  - destruct H as (-> & _). by split.
  - done.
Qed.

Lemma run_accounted os s : accounted s -> sane (fst (fst s)) os = true -> accounted (fold_left run_op os s).
Proof.
  revert s. induction os as [|o os IH]; intros [[i ins] outs] Hs; [done|]. cbn [fold_left sane fst].
  destruct o as [m|].
  - intros [Hself%negb_true_iff Hrest]%andb_true_iff. apply IH; [by apply accounted_push|done].
  - intros Hrest. destruct (accounted_pop i ins outs Hs) as [H1 H2]. apply IH; [done|by rewrite <- H2].
Qed.

(** [n] pops in a row. *)
Fixpoint pop_n (n : nat) (i : inbox) : list popped :=
  match n with
  | O => []
  | S n' => let '(p, i') := pop i in p :: pop_n n' i'
  end.

Lemma service_length i : length (service i) = length (ring i).
Proof. unfold service. rewrite length_app, length_drop, length_take. lia. Qed.

Lemma pop_n_service xs ys i : wf i -> service i = xs ++ ys ->
  Forall2 (fun p t => exists m, p = Popped m /\ Topic m = t /\ head (fifo i t) = Some m) (pop_n (length xs) i) xs.
Proof.
  assert (forall i0 xs ys i, wf i -> service i = xs ++ ys -> NoDup xs ->
    (forall t, t ∈ xs -> fifo i t = fifo i0 t) ->
    Forall2 (fun p t => exists m, p = Popped m /\ Topic m = t /\ head (fifo i0 t) = Some m) (pop_n (length xs) i) xs) as Hgen.
  { clear. intros i0. induction xs as [|x xs IH]; intros ys i W Hs Hnd Hf; [constructor|]. cbn [length pop_n].
    pose proof (pop_wf i W) as H. destruct (pop i) as [[m| |] i'].
    - destruct H as (W' & _ & _ & _ & _ & Hm & Hother & rest & Hserv & Hserv'). rewrite Hs in Hserv. injection Hserv as -> <-.
      apply NoDup_cons in Hnd as [Hx Hnd]. rewrite <- app_assoc in Hserv'. constructor.
      + exists m. split_and!; try done. rewrite <- (Hf (Topic m)) by left. by rewrite Hm.
      + apply (IH _ i' W' Hserv' Hnd). intros t Ht. rewrite Hother; [apply Hf; by right|by intros ->].
    - destruct H as (_ & Hr & _). exfalso. assert (length (service i) = 0%nat) as El by (by rewrite service_length, Hr).
      by rewrite Hs in El.
    - done. }
  intros W Hs. apply (Hgen i xs ys i W Hs); [|done].
  assert (NoDup (service i)) as Hnd.
  { unfold service. rewrite Permutation_app_comm, take_drop. apply (wf_nodup _ W). }
  rewrite Hs in Hnd. by apply NoDup_app in Hnd as [? _].
Qed.

(** ** A topic that has left the ring *)

Record orphan (t : string) (i : inbox) : Prop := {
  or_ring : t ∉ ring i;
  or_fifo : fifo i t <> [];
  or_topic : forall u, Forall (fun m => Topic m = u) (fifo i u)
}.

Lemma take_drop_incl (l : list string) n u : u ∈ take n l ++ drop (S n) l -> u ∈ l.
Proof.
  intros [H|H]%elem_of_app.
  - rewrite <- (take_drop n l). apply elem_of_app. by left.
  - rewrite <- (take_drop (S n) l). apply elem_of_app. by right.
Qed.

Lemma evict_orphan t i : orphan t i -> let '(ev, i') := evictLongest i in
  (forall u, u ∈ ring i' -> u ∈ ring i) /\ fifo i' t = fifo i t /\ (forall u, Forall (fun m => Topic m = u) (fifo i' u)).
Proof.
  intros [Or Of Ot]. pose proof (longest_spec i) as Hl. unfold evictLongest. destruct (longest i) as [v n].
  destruct (Nat.eqb_spec n 0) as [->|Hn]; [done|]. destruct Hl as [?|[Hin En]]; [done|].
  set (i1 := mkInbox (<[v := tail (fifo i v)]> (topics i)) (ring i) (rr i) (total i - 1) (perTopic i) (maxTotal i) (dropped i) (notify i)).
  assert (forall u, fifo i1 u = if decide (u = v) then tail (fifo i v) else fifo i u) as Hf by (intros u; by apply (fifo_insert i1 (topics i))).
  assert (fifo i1 t = fifo i t) as Hft by (rewrite Hf; rewrite decide_False; [done|by intros ->]).
  assert (forall u, Forall (fun m => Topic m = u) (fifo i1 u)) as Hto.
  { intros u. rewrite Hf. destruct (decide (u = v)) as [->|]; [apply Forall_tail|]; apply Ot. }
  destruct (tail (fifo i v)) eqn:Et; [|done]. unfold removeFromRing. change (ring i1) with (ring i).
  destruct (index_of v (ring i)) as [k|]; [|done]. split_and!; try done. intros u. apply take_drop_incl.
Qed.

Lemma push_orphan t m i : orphan t i -> orphan t (snd (push m i)).
Proof.
  intros O. pose proof O as [Or Of Ot]. unfold push. set (q := fifo i (Topic m)) in *.
  set (i1 := match q with [] => _ | _ => i end).
  assert (orphan t i1) as O1.
  { unfold i1. destruct q eqn:Eq; [|done]. constructor; try done. cbn [ring]. rewrite elem_of_app, list_elem_of_singleton.
    intros [?|E]; [done|]. unfold q in Eq. rewrite <- E in Eq. done. }
  assert (forall j q' n d, (forall u, u ∈ ring j -> u ∈ ring i1) -> fifo j t = fifo i1 t ->
    (forall u, Forall (fun x => Topic x = u) (fifo j u)) -> Forall (fun x => Topic x = Topic m) q' ->
    orphan t (mkInbox (<[Topic m := q' ++ [m]]> (topics j)) (ring j) (rr j) n (perTopic j) (maxTotal j) d true)) as Hfin.
  { intros j q' n d Hr Hj Hjt Hq'. set (k := mkInbox _ _ _ _ _ _ _ _).
    assert (forall u, fifo k u = if decide (u = Topic m) then q' ++ [m] else fifo j u) as Hf by (intros u; by apply (fifo_insert k (topics j))).
    destruct O1 as [Or1 Of1 Ot1]. constructor.
    - intros H. by apply Or1, Hr.
    - rewrite Hf. destruct (decide _); [by destruct q'|by rewrite Hj].
    - intros u. rewrite Hf. destruct (decide (u = Topic m)) as [->|]; [|done]. apply Forall_app. split; [done|by apply Forall_singleton]. }
  destruct (perTopic i <=? zlength q); [|destruct (maxTotal i <=? total i1)].
  - apply (Hfin (mkInbox (topics i1) (ring i1) (rr i1) (total i1 - 1) (perTopic i1) (maxTotal i1) (dropped i1) (notify i1)));
      [done|done|apply O1|apply Forall_tail, Ot].
  - pose proof (evict_orphan t i1 O1) as He. destruct (evictLongest i1) as [ev i2]. destruct He as (? & ? & ?). by apply Hfin; [..|apply Ot].
  - apply Hfin; [done|done|apply O1|apply Ot].
Qed.

Lemma pop_orphan t i : orphan t i ->
  orphan t (snd (pop i)) /\ match fst (pop i) with Popped m => Topic m <> t | _ => True end.
Proof.
  intros O. pose proof O as [Or Of Ot]. unfold pop. destruct (ring i) as [|r0 rs] eqn:Er; [done|]. rewrite <- Er in *.
  destruct (total i =? 0); [done|]. set (n := (rr i mod length (ring i))%nat).
  destruct (ring i !! n) as [topic|] eqn:Et; [|done]. destruct (fifo i topic) as [|m q] eqn:Ef; [done|].
  assert (topic ∈ ring i) as Hin by (by eapply list_elem_of_lookup_2). assert (topic <> t) as Hne by (by intros ->).
  assert (Topic m = topic) as Hmt by (pose proof (Ot topic) as H; rewrite Ef in H; by apply Forall_cons in H as [? _]).
  destruct q as [|m2 q]; cbn [fst snd]; (split; [|by rewrite Hmt]).
  - constructor; cbn [ring].
    + intros H. by apply Or, (take_drop_incl _ n).
    + unfold fifo. cbn [topics]. by rewrite lookup_delete_ne.
    + intros u. unfold fifo. cbn [topics]. destruct (decide (u = topic)) as [->|]; [by rewrite lookup_delete_eq; constructor|].
      rewrite lookup_delete_ne by done. apply Ot.
  - constructor; cbn [ring]; [done| |].
    + unfold fifo. cbn [topics]. by rewrite lookup_insert_ne.
    + intros u. unfold fifo. cbn [topics]. destruct (decide (u = topic)) as [->|].
      * rewrite lookup_insert_eq. cbn. pose proof (Ot topic) as H. rewrite Ef in H. by apply Forall_cons in H as [_ ?].
      * rewrite lookup_insert_ne by done. apply Ot.
Qed.

Lemma orphan_forever t os i ins outs : orphan t i ->
  of_topic t (snd (fold_left run_op os (i, ins, outs))) = of_topic t outs.
Proof.
  revert i ins outs. induction os as [|o os IH]; intros i ins outs O; [done|]. cbn [fold_left]. destruct o as [m|]; cbn [run_op].
  - apply IH. by apply push_orphan.
  - pose proof (pop_orphan t i O) as [O' Hm]. destruct (pop i) as [[m| |] i']; cbn [fst snd] in *; rewrite IH by done; try done.
    rewrite of_topic_app, of_topic_one, decide_False by congruence. by rewrite app_nil_r.
Qed.

(** ** Properties *)

(** C27: the inbox conserves and orders. After any interleaving of pushes and
    pops in which no push evicts from its own topic, every FIFO and the ring
    are well formed, each topic's popped and buffered messages are, in order, among those pushed
    to it, and every pushed message is popped, buffered or counted dropped. *)
Theorem inbox_conserves (per max : Z) (os : list op) :
  1 <= per -> sane (newInbox per max) os = true ->
  let '(i, ins, outs) := run_ops per max os in
  wf i /\ (forall t, sublist (of_topic t outs ++ fifo i t) (of_topic t ins)) /\
  zlength ins = zlength outs + len i + droppedCount i.
Proof.
  intros Hp Hs. apply (run_accounted os (newInbox per max, [], [])); [|done].
  split_and!; [by apply newInbox_wf| |done]. intros t. unfold fifo. cbn. by rewrite lookup_empty.
Qed.

Definition ex_msg (t : string) (n : Z) : Message := mkMessage t [] false n.

Lemma inbox_conserves_witness :
  let os := [OPush (ex_msg "a" 1); OPush (ex_msg "a" 2); OPush (ex_msg "b" 3); OPush (ex_msg "a" 4); OPop] in
  let '(i, ins, outs) := run_ops 2 9 os in zlength ins = zlength outs + len i + droppedCount i.
Proof.
  apply (inbox_conserves 2 9 [OPush (ex_msg "a" 1); OPush (ex_msg "a" 2); OPush (ex_msg "b" 3); OPush (ex_msg "a" 4); OPop]);
    [lia|vm_compute; reflexivity].
Defined.

(** No topic starves another. In a well-formed inbox as many pops as
    topics are pending serve every pending topic exactly once, in ring order
    from the cursor, each with its oldest message. *)
Theorem pop_round_robin (i : inbox) :
  wf i -> NoDup (service i) /\ (forall t, t ∈ service i <-> fifo i t <> []) /\
  Forall2 (fun p t => exists m, p = Popped m /\ Topic m = t /\ head (fifo i t) = Some m)
    (pop_n (length (service i)) i) (service i).
Proof.
  intros W. split_and!.
  - unfold service. rewrite Permutation_app_comm, take_drop. apply (wf_nodup _ W).
  - intros t. rewrite <- (wf_ring _ W). unfold service. by rewrite Permutation_app_comm, take_drop.
  - apply (pop_n_service (service i) [] i W). by rewrite app_nil_r.
Qed.

Lemma pop_round_robin_witness : NoDup (service (newInbox 2 9)).
Proof. apply (pop_round_robin (newInbox 2 9)). apply newInbox_wf. lia. Defined.

(** A push into a full inbox can silence a topic for ever. When the
    FIFO chosen for eviction is the one being pushed to and holds one message, the push writes
    its stale copy back after the topic has left the ring: from then on no
    sequence of pushes and pops, to any topic, ever delivers a message of it,
    though its FIFO is not empty. *)
Theorem self_eviction_starves (os : list op) :
  let s := run_ops 2 2 [OPush (ex_msg "a" 1); OPush (ex_msg "b" 2); OPush (ex_msg "a" 3)] in
  fifo (fst (fst s)) "a" = [ex_msg "a" 1; ex_msg "a" 3] /\ len (fst (fst s)) = 2 /\
  droppedCount (fst (fst s)) = 1 /\
  of_topic "a" (snd (fold_left run_op os s)) = [] /\
  fifo (fst (fst (fold_left run_op os s))) "a" <> [].
Proof.
  set (s := run_ops 2 2 _). cbv zeta.
  assert (orphan "a" (fst (fst s))) as O.
  { constructor.
    - replace (ring (fst (fst s))) with ["b"%string] by (vm_compute; reflexivity). by intros ?%list_elem_of_singleton.
    - vm_compute. discriminate.
    - assert (topics (fst (fst s)) = <["a"%string := [ex_msg "a" 1; ex_msg "a" 3]]> {["b"%string := [ex_msg "b" 2]]}) as E by (vm_compute; reflexivity).
      intros u. unfold fifo. rewrite E. destruct (decide (u = "a"%string)) as [->|]; [rewrite lookup_insert_eq; by repeat constructor|].
      rewrite lookup_insert_ne by done. destruct (decide (u = "b"%string)) as [->|]; [rewrite lookup_singleton_eq; by repeat constructor|].
      rewrite lookup_singleton_ne by done. constructor. }
  split_and!; [vm_compute; reflexivity..| |].
  - destruct s as [[i ins] outs] eqn:Es. cbn [fst] in O. rewrite (orphan_forever "a" os i ins outs O).
    replace outs with (snd s) by (by rewrite Es). vm_compute. reflexivity.
  - assert (forall os s, orphan "a" (fst (fst s)) -> orphan "a" (fst (fst (fold_left run_op os s)))) as Hrun.
    { clear. induction os as [|o os IH]; intros [[i ins] outs] O; [done|]. cbn [fold_left fst] in *. apply IH.
      destruct o as [m|]; cbn [run_op]; [by apply push_orphan|].
      pose proof (pop_orphan _ _ O) as [O' _]. destruct (pop i) as [[] i']; done. }
    apply (or_fifo _ _ (Hrun os s O)).
Qed.
