(* ===== verification/Bridge.v ===== *)
(** * Bridge: the edge-to-cloud forwarder (internal/bridge/bridge.go)

    The forwarder is written against the queue contract of [Ports]; its main
    goroutine is a state machine whose steps are the atomic blocks of [Run],
    interleaved with the broker's callback and the cancellation of the
    context. The sink is the list of its answers to come, then success;
    [metrics] are the values of the bridge's collectors. *)
From Stdlib Require Import ZArith Lia.
From stdpp Require Import vector.
From S2P Require Import Prelude GoBytes Observability Ports Memory Inbox.

Open Scope Z_scope.

Record Config := mkConfig {
  Filter : string;
  InboxSize : Z;
  PerTopicMax : Z;
  RetryMin : Duration;
  RetryMax : Duration;
  ReplayBatch : Z
}.

Definition defaults (c : Config) : Config :=
  let filter := if String.eqb (Filter c) EmptyString then "#"%string else Filter c in
  let size := if InboxSize c <=? 0 then 4096 else InboxSize c in
  let per := if PerTopicMax c <=? 0 then 64 else PerTopicMax c in
  let per := if size <? per then size else per in
  let rmin := if RetryMin c <=? 0 then 200 * Millisecond else RetryMin c in
  let rmax := if (RetryMax c <=? 0) || (RetryMax c <? rmin) then 10 * Second else RetryMax c in
  let batch := if ReplayBatch c <=? 0 then 256 else ReplayBatch c in
  mkConfig filter size per rmin rmax batch.

(** Where the main goroutine stands: at the head of its loop, in the select,
    in the loop that empties the inbox, in [drain], or returned. *)
Inductive PC := Top | Select | Inner | Drain | Stopped.

Global Instance PC_eq_dec : EqDecision PC.
Proof. solve_decision. Defined.

Section Bridge.
Context {Q E : Type} `{!QueueOps Q E}.

Record Bridge := mkBridge {
  cfg : Config;
  inb : inbox;
  queue : Q;
  sinkUp : bool;
  forwarded : Z;
  spilled : Z;
  lost : Z;
  backoff : Duration;
  timer : option Duration;
  pc : PC;
  cancelled : bool;
  answers : list bool;
  sent : list Message;
  metrics : Store
}.

Definition set_inbox (i : inbox) (b : Bridge) : Bridge :=
  mkBridge (cfg b) i (queue b) (sinkUp b) (forwarded b) (spilled b) (lost b) (backoff b) (timer b) (pc b)
    (cancelled b) (answers b) (sent b) (metrics b).
Definition set_queue (q : Q) (b : Bridge) : Bridge :=
  mkBridge (cfg b) (inb b) q (sinkUp b) (forwarded b) (spilled b) (lost b) (backoff b) (timer b) (pc b)
    (cancelled b) (answers b) (sent b) (metrics b).
Definition set_sinkUp (u : bool) (b : Bridge) : Bridge :=
  mkBridge (cfg b) (inb b) (queue b) u (forwarded b) (spilled b) (lost b) (backoff b) (timer b) (pc b)
    (cancelled b) (answers b) (sent b) (metrics b).
Definition set_spilled (n : Z) (b : Bridge) : Bridge :=
  mkBridge (cfg b) (inb b) (queue b) (sinkUp b) (forwarded b) n (lost b) (backoff b) (timer b) (pc b)
    (cancelled b) (answers b) (sent b) (metrics b).
Definition set_lost (n : Z) (b : Bridge) : Bridge :=
  mkBridge (cfg b) (inb b) (queue b) (sinkUp b) (forwarded b) (spilled b) n (backoff b) (timer b) (pc b)
    (cancelled b) (answers b) (sent b) (metrics b).
Definition set_retry (d : Duration) (t : option Duration) (b : Bridge) : Bridge :=
  mkBridge (cfg b) (inb b) (queue b) (sinkUp b) (forwarded b) (spilled b) (lost b) d t (pc b) (cancelled b)
    (answers b) (sent b) (metrics b).
Definition set_pc (p : PC) (b : Bridge) : Bridge :=
  mkBridge (cfg b) (inb b) (queue b) (sinkUp b) (forwarded b) (spilled b) (lost b) (backoff b) (timer b) p
    (cancelled b) (answers b) (sent b) (metrics b).
Definition set_cancelled (b : Bridge) : Bridge :=
  mkBridge (cfg b) (inb b) (queue b) (sinkUp b) (forwarded b) (spilled b) (lost b) (backoff b) (timer b)
    (pc b) true (answers b) (sent b) (metrics b).
Definition set_answers (ans : list bool) (b : Bridge) : Bridge :=
  mkBridge (cfg b) (inb b) (queue b) (sinkUp b) (forwarded b) (spilled b) (lost b) (backoff b) (timer b)
    (pc b) (cancelled b) ans (sent b) (metrics b).
Definition set_sent (n : Z) (ms : list Message) (b : Bridge) : Bridge :=
  mkBridge (cfg b) (inb b) (queue b) (sinkUp b) n (spilled b) (lost b) (backoff b) (timer b) (pc b)
    (cancelled b) (answers b) ms (metrics b).
Definition meter (f : Store -> Store) (b : Bridge) : Bridge :=
  mkBridge (cfg b) (inb b) (queue b) (sinkUp b) (forwarded b) (spilled b) (lost b) (backoff b) (timer b)
    (pc b) (cancelled b) (answers b) (sent b) (f (metrics b)).

(** [New], then the first lines of [Run]. *)
Definition New (c : Config) (q : Q) (ans : list bool) : Bridge :=
  let c' := defaults c in
  mkBridge c' (newInbox (PerTopicMax c') (InboxSize c')) q true 0 0 0 (RetryMin c') (Some (RetryMax c')) Top
    false ans [] ∅.

Definition onMessage (m : Message) (b : Bridge) : Bridge :=
  let '(dropped, i) := push m (inb b) in
  let b := set_inbox i b in
  if 0 <? dropped then meter (Add BridgeCoalesced [#] dropped) b else b.

Definition updateQueueGauges (b : Bridge) : Bridge :=
  meter (fun s => SetTo BridgeEvicted [#] (qDropped (queue b))
                    (SetTo BridgeQueueByte [#] (qBytes (queue b)) (SetTo BridgeQueueLen [#] (qLen (queue b)) s))) b.

Definition spill (m : Message) (reason : string) (b : Bridge) : Bridge :=
  match qPush m (queue b) with
  | (Err _, q) => meter (Inc BridgeDropped [#]) (set_lost (lost b + 1) (set_queue q b))
  | (Ok _, q) => updateQueueGauges (meter (Inc BridgeSpilled [# reason]) (set_spilled (spilled b + 1) (set_queue q b)))
  end.

(** [send]: whether the sink accepted the message. *)
Definition send (m : Message) (b : Bridge) : bool * Bridge :=
  match answers b with
  | false :: ans => (false, meter (Inc BridgeErrors [#]) (set_answers ans b))
  | _ =>
      (true, meter (fun s => let s := Inc BridgeForwarded [#] s in if IsZero (At m) then s else ObserveOne BridgeLag [#] s)
               (set_sent (forwarded b + 1) (sent b ++ [m]) (set_answers (tail (answers b)) b)))
  end.

(** The loop of [replay]; [Some r] returns [r] from it, [None] leaves it. *)
Fixpoint replay_loop (n : nat) (b : Bridge) : option bool * Bridge :=
  match n with
  | O => (None, b)
  | S n' =>
      if cancelled b then (Some true, b)
      else
        match qPeek (queue b) with
        | (Err _, q) =>
            let b := meter (Inc BridgeDropped [#]) (set_lost (lost b + 1) (set_queue q b)) in
            match qAck (queue b) with
            | (Err _, q) => (Some false, set_queue q b)
            | (Ok _, q) => replay_loop n' (set_queue q b)
            end
        | (Ok None, q) => (None, set_queue q b)
        | (Ok (Some m), q) =>
            match send m (set_queue q b) with
            | (false, b) => (Some false, b)
            | (true, b) =>
                match qAck (queue b) with
                | (Err _, q) => (Some false, set_queue q b)
                | (Ok _, q) => replay_loop n' (set_queue q b)
                end
            end
        end
  end.

Definition replay (b : Bridge) : bool * Bridge :=
  match replay_loop (Z.to_nat (ReplayBatch (cfg b))) b with
  | (Some r, b') => (r, b')
  | (None, b') => (true, updateQueueGauges (meter (SetTo BridgeSinkUp [#] 1) (set_sinkUp true b')))
  end.

(** [fail] with the backoff to wait; the next one is doubled up to the cap. *)
Definition fail (d : Duration) (b : Bridge) : Bridge :=
  let next := i64 (d * 2) in
  set_retry (if RetryMax (cfg b) <? next then RetryMax (cfg b) else next) (Some d)
    (meter (SetTo BridgeSinkUp [#] 0) (set_sinkUp false b)).

(** The head of the loop of [Run], up to the select. *)
Definition top (b : Bridge) : Bridge :=
  if (0 <? qLen (queue b)) && sinkUp b then
    match replay b with
    | (false, b) => set_pc Select (fail (backoff b) b)
    | (true, b) =>
        if 0 <? qLen (queue b) then (if cancelled b then set_pc Drain b else b)
        else set_pc Select b
    end
  else set_pc Select b.

Definition on_timer (b : Bridge) : Bridge :=
  if negb (sinkUp b) then
    if qLen (queue b) =? 0 then
      set_pc Top (set_retry (backoff b) (Some (RetryMax (cfg b))) (meter (SetTo BridgeSinkUp [#] 1) (set_sinkUp true b)))
    else
      match replay b with
      | (true, b) => set_pc Top (set_retry (RetryMin (cfg b)) (Some (RetryMax (cfg b))) b)
      | (false, b) => set_pc Top (fail (backoff b) b)
      end
  else set_pc Top (set_retry (backoff b) (Some (RetryMax (cfg b))) b).

Definition on_notify (b : Bridge) : Bridge :=
  let i := inb b in
  set_pc Inner (set_inbox (mkInbox (topics i) (ring i) (rr i) (total i) (perTopic i) (maxTotal i) (Inbox.dropped i) false) b).

(** One iteration of the loop that empties the inbox. *)
Definition inner (b : Bridge) : Bridge :=
  match pop (inb b) with
  | (Popped m, i) =>
      let b := set_inbox i b in
      if negb (sinkUp b) || (0 <? qLen (queue b)) then spill m "sink_down" b
      else
        match send m b with
        | (true, b) => b
        | (false, b) =>
            let b := spill m "sink_down" b in
            if cancelled b then set_pc Drain b else fail (RetryMin (cfg b)) b
        end
  | (_, i) => set_pc Top (set_inbox i b)
  end.

(** One iteration of [drain]. *)
Definition drain (b : Bridge) : Bridge :=
  match pop (inb b) with
  | (Popped m, i) => spill m "shutdown" (set_inbox i b)
  | (_, i) => set_pc Stopped (updateQueueGauges (set_inbox i b))
  end.

(** A step, labelled with the message that arrived, if one did. *)
Inductive step : option Message -> Bridge -> Bridge -> Prop :=
| step_message b m : step (Some m) b (onMessage m b)
| step_cancel b : step None b (set_cancelled b)
| step_top b : pc b = Top -> step None b (top b)
| step_done b : pc b = Select -> cancelled b = true -> step None b (set_pc Drain b)
| step_timer b d : pc b = Select -> timer b = Some d -> step None b (on_timer (set_retry (backoff b) None b))
| step_notify b : pc b = Select -> notify (inb b) = true -> step None b (on_notify b)
| step_inner b : pc b = Inner -> step None b (inner b)
| step_drain b : pc b = Drain -> step None b (drain b).

Record Stats := mkStats {
  StSinkUp : bool; StForwarded : Z; StSpilled : Z; StCoalesced : Z; StDropped : Z;
  StQueueDepth : Z; StQueueBytes : Z; StInbox : Z
}.

Definition GetStats (b : Bridge) : Stats :=
  mkStats (sinkUp b) (forwarded b) (spilled b) (droppedCount (inb b)) (qDropped (queue b))
    (qLen (queue b)) (qBytes (queue b)) (len (inb b)).

Definition Ready (b : Bridge) : bool := sinkUp b.
End Bridge.

Arguments Bridge : clear implicits.

(** ** Executions *)

Lemma sublist_filter_drop t k ms : sublist (of_topic t (drop k ms)) (of_topic t ms).
Proof. rewrite <- (take_drop k ms) at 2. rewrite of_topic_app. apply sublist_inserts_l. done. Qed.

Section Executions.
Context {Q E : Type} `{!QueueOps Q E} `{!QueueLaws Q E}.

(** What a step is allowed to assume: an arriving message evicts no message
    of its own topic, and the queue can store what is buffered. *)
Definition side (l : option Message) (b : Bridge Q) : Prop :=
  match l with
  | Some m => self_evicts m (inb b) = false
  | None => forall t m, m ∈ fifo (inb b) t -> q_storable (queue b) m
  end.

Inductive exec (b0 : Bridge Q) : list Message -> Bridge Q -> Prop :=
| exec_start : exec b0 [] b0
| exec_step arr l b b' : exec b0 arr b -> side l b -> step l b b' -> exec b0 (arr ++ option_list l) b'.

(** The messages on their way, oldest first. *)
Definition forwarding (b : Bridge Q) : list Message := sent b ++ q_abs (queue b).

(** Every message of [ins] is sent, queued, buffered or counted, in order. *)
Record sound (drop0 : Z) (ins : list Message) (b : Bridge Q) : Prop := {
  so_queue : q_inv (queue b);
  so_inbox : wf (inb b);
  so_order : forall t, sublist (of_topic t (forwarding b) ++ fifo (inb b) t) (of_topic t ins);
  so_count : zlength ins = zlength (forwarding b) + total (inb b) + Inbox.dropped (inb b) + (qDropped (queue b) - drop0);
  so_lost : lost b = 0
}.

(** [b'] differs from [b] in neither what is buffered nor what is forwarding. *)
Record same (b b' : Bridge Q) : Prop := {
  sa_inbox : inb b' = inb b;
  sa_queue : q_inv (queue b) -> q_inv (queue b');
  sa_forw : q_inv (queue b) -> forwarding b' = forwarding b;
  sa_drop : q_inv (queue b) -> qDropped (queue b') = qDropped (queue b);
  sa_lost : q_inv (queue b) -> lost b' = lost b
}.

Lemma same_refl b : same b b.
Proof. by constructor. Qed.

Lemma same_trans b1 b2 b3 : same b1 b2 -> same b2 b3 -> same b1 b3.
Proof.
  intros [Hi Hq Hf Hd Hl] [Hi' Hq' Hf' Hd' Hl']. constructor; [congruence|auto|..]; intros H.
  - rewrite Hf' by auto. auto.
  - rewrite Hd' by auto. auto.
  - rewrite Hl' by auto. auto.
Qed.

Lemma sound_same drop0 ins b b' : same b b' -> sound drop0 ins b -> sound drop0 ins b'.
Proof.
  intros [Hi Hq Hf Hd Hl] [Sq Si So Sc Sl]. constructor; [auto|by rewrite Hi| | |by rewrite Hl].
  - intros t. by rewrite Hi, Hf.
  - by rewrite Hi, Hf, Hd.
Qed.

Lemma replay_loop_same n b : q_inv (queue b) -> same b (snd (replay_loop n b)).
Proof.
  revert b. induction n as [|n IH]; intros b Hq; cbn [replay_loop]; [apply same_refl|].
  destruct (cancelled b); [apply same_refl|].
  destruct (q_peek (queue b) Hq) as (q1 & -> & Hi1 & Ha1 & Hd1).
  destruct (head (q_abs (queue b))) as [m|] eqn:Eh.
  2:{ constructor; try done. intros _. unfold forwarding. cbn. by rewrite Ha1. }
  assert (q_abs (queue b) = m :: tail (q_abs (queue b))) as Em by (destruct (q_abs (queue b)); [done|by injection Eh as ->]).
  destruct (send m (set_queue q1 b)) as [ok b2] eqn:Es. unfold send in Es. destruct ok.
  - destruct (q_ack q1 Hi1) as (q3 & E3 & Hi3 & Ha3 & Hd3).
    assert (queue b2 = q1 /\ inb b2 = inb b /\ sent b2 = sent b ++ [m] /\ lost b2 = lost b) as (Eq & Ei & Esent & El).
    { destruct (answers (set_queue q1 b)) as [|[] ?]; by simplify_eq/=. }
    rewrite Eq, E3. eapply same_trans; [|apply IH; exact Hi3]. constructor; cbn; try done.
    + intros _. unfold forwarding. cbn [set_queue sent queue]. rewrite Esent, Ha3, Ha1, <- app_assoc. f_equal. cbn [app]. by rewrite <- Em.
    + intros _. congruence.
  - assert (queue b2 = q1 /\ inb b2 = inb b /\ sent b2 = sent b /\ lost b2 = lost b) as (Eq & Ei & Esent & El).
    { destruct (answers (set_queue q1 b)) as [|[] ?]; by simplify_eq/=. }
    constructor; cbn; try done; try congruence. intros _. unfold forwarding. by rewrite Esent, Eq, Ha1.
Qed.

Lemma same_meter f b : same b (meter f b). Proof. by constructor. Qed.
Lemma same_set_answers a b : same b (set_answers a b). Proof. by constructor. Qed.
Lemma same_set_retry d t b : same b (set_retry d t b). Proof. by constructor. Qed.
Lemma same_set_pc p b : same b (set_pc p b). Proof. by constructor. Qed.
Lemma same_set_sinkUp u b : same b (set_sinkUp u b). Proof. by constructor. Qed.
Lemma same_fail d b : same b (fail d b). Proof. by constructor. Qed.
Lemma same_cancelled b : same b (set_cancelled b). Proof. by constructor. Qed.

Lemma replay_same b : q_inv (queue b) -> same b (snd (replay b)).
Proof.
  intros Hq. unfold replay. pose proof (replay_loop_same (Z.to_nat (ReplayBatch (cfg b))) b Hq) as H.
  destruct (replay_loop _ b) as [[r|] b']; [done|]. eapply same_trans; [exact H|by constructor].
Qed.

Lemma top_same b : q_inv (queue b) -> same b (top b).
Proof.
  intros Hq. unfold top. destruct (_ && _); [|apply same_set_pc].
  pose proof (replay_same b Hq) as H. destruct (replay b) as [[] b']; cbn [snd] in H.
  - destruct (0 <? _); [destruct (cancelled b'); [|done]|]; (eapply same_trans; [exact H|apply same_set_pc]).
  - eapply same_trans; [exact H|]. eapply same_trans; [apply same_fail|apply same_set_pc].
Qed.

Lemma on_timer_same b : q_inv (queue b) -> same b (on_timer b).
Proof.
  intros Hq. unfold on_timer. destruct (negb (sinkUp b)); [|by constructor].
  destruct (qLen (queue b) =? 0); [by constructor|].
  pose proof (replay_same b Hq) as H. destruct (replay b) as [[] b']; cbn [snd] in H;
    (eapply same_trans; [exact H|by constructor]).
Qed.

(** A popped message goes to the end of the queue. *)
Lemma spill_sound d ins b m reason i : sound d ins b -> pop (inb b) = (Popped m, i) -> q_storable (queue b) m ->
  sound d ins (spill m reason (set_inbox i b)).
Proof.
  intros [Sq Si So Sc Sl] Hp Hst. pose proof (pop_wf _ Si) as H. rewrite Hp in H.
  destruct H as (W & _ & _ & Hd & Ht & Hm & Hother & _). unfold spill. cbn [set_inbox queue].
  destruct (q_push (queue b) m Sq Hst) as (q' & k & -> & Hi' & Hk & Ha' & Hd').
  constructor; cbn [updateQueueGauges meter set_spilled set_queue queue inb lost set_inbox]; try done.
  - intros t. specialize (So t). unfold forwarding in *. cbn [updateQueueGauges meter set_spilled set_queue queue sent set_inbox].
    rewrite Ha', !of_topic_app in *.
    etrans; [|exact So]. rewrite drop_app_le, of_topic_app by done. rewrite <- !app_assoc.
    apply sublist_app; [done|]. rewrite app_assoc. transitivity (of_topic t (q_abs (queue b)) ++ of_topic t [m] ++ fifo i t).
    + rewrite <- app_assoc. apply sublist_app; [|done]. apply sublist_filter_drop.
    + apply sublist_app; [done|]. rewrite of_topic_one. destruct (decide (t = Topic m)) as [->|Hne]; [by rewrite Hm|by rewrite Hother].
  - unfold forwarding in *. cbn [updateQueueGauges meter set_spilled set_queue queue sent set_inbox]. rewrite Ha', Sc, Hd', Hd, Ht.
    rewrite !zlength_app. unfold zlength. rewrite length_drop, length_app. cbn [length]. lia.
Qed.

Lemma send_sound d ins b m i : sound d ins b -> pop (inb b) = (Popped m, i) -> q_abs (queue b) = [] ->
  let '(ok, b') := send m (set_inbox i b) in
  queue b' = queue b /\ inb b' = i /\ (ok = true -> sound d ins b') /\
  (ok = false -> b' = set_inbox i (meter (Inc BridgeErrors [#]) (set_answers (tail (answers b)) b))).
Proof.
  intros [Sq Si So Sc Sl] Hp He. pose proof (pop_wf _ Si) as H. rewrite Hp in H.
  destruct H as (W & _ & _ & Hd & Ht & Hm & Hother & _). unfold send. cbn [set_inbox answers].
  assert (forall a f, sound d ins (meter f (set_sent (forwarded b + 1) (sent b ++ [m]) (set_answers a (set_inbox i b))))) as Hs.
  { intros a f. constructor; cbn [meter set_sent set_answers set_inbox queue inb lost]; try done.
    - intros t. specialize (So t). unfold forwarding in *. cbn [meter set_sent set_answers set_inbox sent queue]. rewrite He, app_nil_r in *.
      rewrite of_topic_app, <- app_assoc. etrans; [|exact So]. apply sublist_app; [done|].
      rewrite of_topic_one. destruct (decide (t = Topic m)) as [->|Hne]; [by rewrite Hm|by rewrite Hother].
    - unfold forwarding in *. cbn [meter set_sent set_answers set_inbox sent queue]. rewrite He, app_nil_r in *. rewrite zlength_app, zlength_cons, zlength_nil. lia. }
  destruct (answers b) as [|[] a]; cbn; split_and!; try done.
Qed.

Lemma popped_in i m i' : wf i -> pop i = (Popped m, i') -> m ∈ fifo i (Topic m).
Proof. intros W Hp. pose proof (pop_wf _ W) as Hw. rewrite Hp in Hw. destruct Hw as (_ & _ & _ & _ & _ & -> & _). left. Qed.

Lemma sound_pop_none d ins b p i : sound d ins b -> pop (inb b) = (p, i) -> (forall m, p <> Popped m) ->
  sound d ins (set_inbox i b).
Proof.
  intros S Hp Hn. pose proof (pop_wf _ (so_inbox _ _ _ S)) as H. rewrite Hp in H.
  destruct p as [m| |]; [by destruct (Hn m)|destruct H as [-> _]|done].
  eapply sound_same; [|exact S]. destruct b. by constructor.
Qed.

Lemma sound_refused d ins b f a : sound d ins b -> sound d ins (meter f (set_answers a b)).
Proof. apply sound_same. by constructor. Qed.

Lemma inner_sound d ins b : sound d ins b -> side None b -> sound d ins (inner b).
Proof.
  intros S Hside. unfold inner. destruct (pop (inb b)) as [p i] eqn:Hp. destruct p as [m| |].
  2,3: (eapply sound_same; [apply same_set_pc|by eapply sound_pop_none]).
  pose proof (Hside _ m (popped_in _ _ _ (so_inbox _ _ _ S) Hp)) as Hst.
  cbn [set_inbox sinkUp queue]. destruct (negb (sinkUp b) || _) eqn:Eg; [by apply spill_sound|].
  bool_to_prop. assert (q_abs (queue b) = []) as He.
  { pose proof (q_len _ (so_queue _ _ _ S)) as Hl. destruct (q_abs (queue b)); [done|].
    rewrite zlength_cons in Hl. pose proof (zlength_nonneg l). lia. }
  pose proof (send_sound d ins b m i S Hp He) as Hs. destruct (send m (set_inbox i b)) as [[] b'].
  - by apply Hs.
  - destruct Hs as (_ & _ & _ & Hb'). rewrite (Hb' eq_refl).
    pose proof (spill_sound d ins _ m "sink_down" i
      (sound_refused d ins b (Inc BridgeErrors [#]) (tail (answers b)) S) Hp Hst) as Hsp.
    clear Hb'. revert Hsp. generalize (spill m "sink_down" (set_inbox i (meter (Inc BridgeErrors [#]) (set_answers (tail (answers b)) b)))).
    intros k Hsp.
    destruct (cancelled k); (eapply sound_same; [|exact Hsp]); [apply same_set_pc|apply same_fail].
Qed.

Lemma drain_sound d ins b : sound d ins b -> side None b -> sound d ins (drain b).
Proof.
  intros S Hside. unfold drain. destruct (pop (inb b)) as [p i] eqn:Hp. destruct p as [m| |].
  2,3: (apply (sound_same _ _ (set_inbox i b)); [by constructor|by eapply sound_pop_none]).
  apply spill_sound; [done|done|]. apply (Hside (Topic m)). by eapply popped_in; [apply S|].
Qed.

Lemma onMessage_eq m (b : Bridge Q) :
  onMessage m b = meter (fun s => if 0 <? fst (push m (inb b)) then Add BridgeCoalesced [#] (fst (push m (inb b))) s else s)
                    (set_inbox (snd (push m (inb b))) b).
Proof. unfold onMessage. destruct (push m (inb b)) as [d i]. cbn [fst snd]. by destruct (0 <? d), b. Qed.

Lemma onMessage_same m b : same (set_inbox (snd (push m (inb b))) b) (onMessage m b).
Proof. rewrite onMessage_eq. by constructor. Qed.

Lemma onMessage_sound d ins b m : sound d ins b -> self_evicts m (inb b) = false -> sound d (ins ++ [m]) (onMessage m b).
Proof.
  intros [Sq Si So Sc Sl] Hs. pose proof (push_wf _ m Si Hs) as H. apply (sound_same _ _ _ _ (onMessage_same m b)).
  destruct (push m (inb b)) as [n i']. destruct H as (W & _ & _ & Hd & Ht & Hf). cbn [snd].
  constructor; cbn [snd set_inbox inb queue lost]; try done.
  - intros t. change (forwarding (set_inbox i' b)) with (forwarding b). destruct (Hf t) as [k ->].
    rewrite of_topic_app, of_topic_one, app_assoc. apply sublist_app; [|done].
    etrans; [|apply So]. apply sublist_app; [done|apply sublist_drop].
  - change (forwarding (set_inbox i' b)) with (forwarding b). rewrite zlength_app, zlength_cons, zlength_nil. lia.
Qed.

Lemma step_sound d ins l b b' : sound d ins b -> side l b -> step l b b' -> sound d (ins ++ option_list l) b'.
Proof.
  intros S Hside Hstep. destruct Hstep; cbn [option_list]; rewrite ?app_nil_r.
  - by apply onMessage_sound.
  - eapply sound_same; [apply same_cancelled|done].
  - eapply sound_same; [apply top_same|done]. apply S.
  - eapply sound_same; [apply same_set_pc|done].
  - eapply sound_same; [|exact S]. eapply same_trans; [apply (same_set_retry (backoff b) None)|]. apply on_timer_same. apply S.
  - destruct S as [Sq [? ? ? ? ? ?] So Sc Sl]. by constructor; [|constructor|..].
  - by apply inner_sound.
  - by apply drain_sound.
Qed.

Lemma exec_sound b0 arr b d ins : sound d ins b0 -> exec b0 arr b -> sound d (ins ++ arr) b.
Proof.
  intros S. induction 1 as [|arr l b b' _ IH Hside Hstep]; [by rewrite app_nil_r|].
  rewrite app_assoc. by eapply step_sound.
Qed.

Lemma defaults_per c : 1 <= PerTopicMax (defaults c).
Proof. unfold defaults. cbn. split_ifs; lia. Qed.

Lemma New_sound c q ans : q_inv q -> sound (qDropped q) (q_abs q) (New c q ans).
Proof.
  intros Hq. assert (forall t, fifo (inb (New c q ans)) t = []) as Hf by (intros t; unfold fifo, New; cbn; by rewrite lookup_empty).
  constructor; try done.
  - apply newInbox_wf, defaults_per.
  - intros t. rewrite Hf, app_nil_r. done.
  - unfold New, forwarding. cbn. lia.
Qed.

(** How many of the next [n] messages the sink accepts before it refuses one. *)
Fixpoint accepted (n : nat) (ans : list bool) : nat :=
  match n with
  | O => O
  | S n' => match ans with false :: _ => O | _ => S (accepted n' (tail ans)) end
  end.

Lemma replay_loop_spec n b : q_inv (queue b) -> cancelled b = false ->
  let m := Nat.min n (length (q_abs (queue b))) in
  let k := accepted m (answers b) in
  let '(r, b') := replay_loop n b in
  q_inv (queue b') /\ sent b' = sent b ++ take k (q_abs (queue b)) /\ q_abs (queue b') = drop k (q_abs (queue b)) /\
  r = (if (k =? m)%nat then None else Some false) /\ sinkUp b' = sinkUp b.
Proof.
  revert b. induction n as [|n IH]; intros b Hq Hc; cbn [replay_loop].
  { cbn. by rewrite app_nil_r, drop_0. }
  rewrite Hc. destruct (q_peek (queue b) Hq) as (q1 & -> & Hi1 & Ha1 & _).
  destruct (q_abs (queue b)) as [|m ms] eqn:Em; cbn [head].
  { cbn. rewrite app_nil_r. split_and!; try done. }
  cbn [length Nat.min]. destruct (q_ack q1 Hi1) as (q3 & E3 & Hi3 & Ha3 & _). rewrite Ha1 in Ha3. cbn [tail] in Ha3.
  destruct (send m (set_queue q1 b)) as [ok b2] eqn:Es. unfold send in Es. cbn [set_queue answers] in Es. destruct ok.
  - assert (queue b2 = q1 /\ cancelled b2 = false /\ sent b2 = sent b ++ [m] /\ answers b2 = tail (answers b) /\ sinkUp b2 = sinkUp b)
      as (Eq & Ec & Esent & Ea & Eu) by (destruct (answers b) as [|[] ?]; simplify_eq/=; done).
    assert (accepted (S (Nat.min n (length ms))) (answers b) = S (accepted (Nat.min n (length ms)) (tail (answers b)))) as ->
      by (cbn; destruct (answers b) as [|[] ?]; by simplify_eq/=).
    rewrite Eq, E3. specialize (IH (set_queue q3 b2) Hi3 Ec). cbn [set_queue queue answers sent sinkUp] in IH. rewrite Ha3, Ea, Esent, Eu in IH.
    destruct (replay_loop n _) as [r b']. destruct IH as (H1 & H2 & H3 & H4 & H5). rewrite <- app_assoc in H2. done.
  - assert (queue b2 = q1 /\ sent b2 = sent b /\ sinkUp b2 = sinkUp b) as (Eq & Esent & Eu)
      by (destruct (answers b) as [|[] ?]; simplify_eq/=; done).
    assert (accepted (S (Nat.min n (length ms))) (answers b) = 0%nat) as ->
      by (cbn; destruct (answers b) as [|[] ?]; by simplify_eq/=).
    cbn [take drop firstn skipn]. rewrite Eq, Esent, Eu, app_nil_r. by split_and!.
Qed.
End Executions.

(** [n] consecutive failures, each with the backoff the previous one left. *)
Fixpoint fail_n {Q : Type} (n : nat) (b : Bridge Q) : Bridge Q :=
  match n with
  | O => b
  | S n' => let b' := fail_n n' b in fail (backoff b') b'
  end.

Lemma fail_n_backoff {Q : Type} n (b : Bridge Q) :
  0 < backoff b <= RetryMax (cfg b) -> RetryMax (cfg b) < 2 ^ 62 ->
  backoff (fail_n n b) = Z.min (backoff b * 2 ^ Z.of_nat n) (RetryMax (cfg b)) /\ cfg (fail_n n b) = cfg b.
Proof.
  intros Hb Hm. induction n as [|n [IH IHc]]; [cbn; split; [lia|done]|].
  cbn [fail_n]. unfold fail. cbn [set_retry set_sinkUp backoff cfg]. rewrite IHc. split; [|done].
  assert (0 < 2 ^ Z.of_nat n) as Hp by (apply pow2_pos; lia).
  rewrite Nat2Z.inj_succ, Z.pow_succ_r by lia. rewrite IH. set (x := backoff b * 2 ^ Z.of_nat n) in *.
  assert (0 < x) by (unfold x; nia). unfold i64. rewrite swrap_id; [|lia|unfold in_s; change (2 ^ (64 - 1)) with (2 * 2 ^ 62); lia].
  replace (backoff b * (2 * 2 ^ Z.of_nat n)) with (2 * x) by (unfold x; ring).
  destruct (Z.ltb_spec (RetryMax (cfg b)) (Z.min x (RetryMax (cfg b)) * 2)); lia.
Qed.

(** ** Properties *)

(** C5: as long as no message evicts one of its own topic from the full inbox
    (with the self-eviction of [Inbox.self_eviction_starves] it is false) and
    the queue can store what is buffered, the bridge neither loses nor reorders
    silently. Over any queue that keeps the contract, after any interleaving of
    such arrivals with cancellation and forwarder steps ([exec], each of whose
    steps satisfies [side]), and whatever the sink answers: for every topic,
    what the sink accepted, then what is queued, then what is buffered are in
    order among what was queued at the start and arrived since; every message
    is accounted for as sent, queued, buffered, coalesced or evicted; and no
    push failed. *)
Theorem bridge_sound {Q E : Type} `{!QueueOps Q E} `{!QueueLaws Q E}
    (c : Config) (q : Q) (ans : list bool) (arr : list Message) (b : Bridge Q) :
  q_inv q -> exec (New c q ans) arr b ->
  (forall t, sublist (of_topic t (sent b) ++ of_topic t (q_abs (queue b)) ++ fifo (inb b) t)
               (of_topic t (q_abs q ++ arr))) /\
  zlength (q_abs q) + zlength arr =
    zlength (sent b) + zlength (q_abs (queue b)) + len (inb b) + droppedCount (inb b) +
    (qDropped (queue b) - qDropped q) /\
  lost b = 0.
Proof.
  intros Hq Hex. destruct (exec_sound _ arr b _ _ (New_sound c q ans Hq) Hex) as [_ _ So Sc Sl]. split_and!; [|..|done].
  - intros t. specialize (So t). unfold forwarding in So. by rewrite (of_topic_app t (sent b)), <- app_assoc in So.
  - rewrite zlength_app in Sc. unfold forwarding in Sc. rewrite zlength_app in Sc. unfold len, droppedCount. lia.
Qed.

Definition ex_config : Config := mkConfig EmptyString 0 0 0 0 0.

(** A message arrives and the forwarder sends it. *)
Lemma ex_exec : exists b, exec (New ex_config (MemQueue.NewQueue 0) []) [ex_msg "a" 1] b /\ sent b = [ex_msg "a" 1].
Proof.
  set (b0 := New ex_config (MemQueue.NewQueue 0) []).
  exists (inner (on_notify (top (onMessage (ex_msg "a" 1) b0)))). split; [|vm_compute; reflexivity].
  apply (exec_step b0 [ex_msg "a" 1] None (on_notify (top (onMessage (ex_msg "a" 1) b0)))); [|done|apply step_inner; vm_compute; reflexivity].
  apply (exec_step b0 [ex_msg "a" 1] None (top (onMessage (ex_msg "a" 1) b0))); [|done|apply step_notify; vm_compute; reflexivity].
  apply (exec_step b0 [ex_msg "a" 1] None (onMessage (ex_msg "a" 1) b0)); [|done|apply step_top; vm_compute; reflexivity].
  apply (exec_step b0 [] (Some (ex_msg "a" 1)) b0); [constructor|vm_compute; reflexivity|constructor].
Qed.

Lemma bridge_sound_witness :
  exists b, sent b = [ex_msg "a" 1] /\
    0 + 1 = zlength (sent b) + zlength (MemQueue.items (queue b)) + len (inb b) + droppedCount (inb b) +
      (MemQueue.dropped (queue b) - 0).
Proof.
  destruct ex_exec as (b & Hex & Hs). exists b. split; [exact Hs|].
  destruct (bridge_sound ex_config (MemQueue.NewQueue 0) [] [ex_msg "a" 1] b) as (_ & H & _); [reflexivity|exact Hex|exact H].
Defined.

(** A replay forwards the queue in order until the sink refuses. With
    [k] the number of messages the sink accepts of the first [ReplayBatch]
    queued, exactly those [k] are sent and removed and everything else stays
    queued; the replay succeeds, and marks the sink up, exactly when none of the batch was
    refused. *)
Theorem replay_spec {Q E : Type} `{!QueueOps Q E} `{!QueueLaws Q E} (b : Bridge Q) :
  q_inv (queue b) -> cancelled b = false ->
  let m := Nat.min (Z.to_nat (ReplayBatch (cfg b))) (length (q_abs (queue b))) in
  let k := accepted m (answers b) in
  let '(r, b') := replay b in
  sent b' = sent b ++ take k (q_abs (queue b)) /\ q_abs (queue b') = drop k (q_abs (queue b)) /\
  q_inv (queue b') /\ r = (k =? m)%nat /\ sinkUp b' = (r || sinkUp b).
Proof.
  intros Hq Hc. cbv zeta. pose proof (replay_loop_spec (Z.to_nat (ReplayBatch (cfg b))) b Hq Hc) as H. cbv zeta in H.
  unfold replay. destruct (replay_loop _ b) as [r b']. destruct H as (H1 & H2 & H3 & -> & H5).
  destruct (_ =? _)%nat; by split_and!.
Qed.

Lemma replay_spec_witness :
  let q := MemQueue.mkQueue [ex_msg "a" 1; ex_msg "b" 2] 2 0 0 in
  let '(r, b') := replay (New ex_config q [true; false]) in
  sent b' = [ex_msg "a" 1] /\ MemQueue.items (queue b') = [ex_msg "b" 2] /\ r = false.
Proof.
  pose proof (replay_spec (New ex_config (MemQueue.mkQueue [ex_msg "a" 1; ex_msg "b" 2] 2 0 0) [true; false]) eq_refl eq_refl) as H.
  cbv zeta in *. destruct (replay _) as [r b']. destruct H as (H1 & H2 & _ & H3 & _).
  split; [exact H1|]. split; [exact H2|exact H3].
Defined.

(** C17: shutdown ends. Take a bridge whose inbox is well-formed, as every inbox
    is from which no message evicted one of its own topic ([wf]; after a
    self-eviction a message may stay behind that no [pop] finds). If nothing
    more arrives, [drain] takes one iteration per buffered message and one to see that there is none left: then the bridge
    has stopped, its inbox is empty, nothing was sent, and every message was
    offered to the queue once: stored, or counted as lost when the queue
    refused it. Before that it has not stopped. This holds for every queue,
    failing ones included. *)
Theorem drain_terminates {Q E : Type} `{!QueueOps Q E} (n : nat) (b : Bridge Q) :
  wf (inb b) -> pc b = Drain -> total (inb b) = Z.of_nat n ->
  let b' := Nat.iter (S n) drain b in
  pc b' = Stopped /\ len (inb b') = 0 /\ ring (inb b') = [] /\ sent b' = sent b /\
  spilled b' + lost b' = spilled b + lost b + Z.of_nat n /\
  forall k, (k <= n)%nat -> pc (Nat.iter k drain b) = Drain.
Proof.
  cbv zeta. revert b. induction n as [|n IH]; intros b W Hp Ht.
  - pose proof (pop_wf _ W) as H. unfold Nat.iter, nat_rect, drain. destruct (pop (inb b)) as [[m| |] i] eqn:Ep.
    + destruct H as (W' & _ & _ & _ & Ht' & _). pose proof (wf_total_ring _ W'). pose proof (zlength_nonneg (ring i)). lia.
    + destruct H as (-> & Hr & H0). unfold len. cbn. split_and!; try done; try lia.
      intros k Hk. by assert (k = 0%nat) as -> by lia.
    + done.
  - pose proof (pop_wf _ W) as H. destruct (pop (inb b)) as [[m| |] i] eqn:Ep; [|destruct H as (_ & _ & ?); lia|done].
    destruct H as (W' & _ & _ & _ & Ht' & _).
    assert (drain b = spill m "shutdown" (set_inbox i b)) as E1 by (unfold drain; by rewrite Ep).
    assert (inb (drain b) = i /\ pc (drain b) = Drain /\ sent (drain b) = sent b /\
      spilled (drain b) + lost (drain b) = spilled b + lost b + 1) as (Ei & Epc & Es & Ec).
    { rewrite E1. unfold spill. destruct (qPush m (queue (set_inbox i b))) as [[a|e] q]; cbn; split_and!; try done; lia. }
    destruct (IH (drain b)) as (H1 & H2 & H3 & H4 & H5 & H6); [by rewrite Ei|done|rewrite Ei; lia|].
    rewrite (Nat.iter_succ_r (S n)). split_and!; try done; [congruence|lia|].
    intros [|k] Hk; [done|]. rewrite Nat.iter_succ_r. apply H6. lia.
Qed.

Lemma drain_terminates_witness :
  let b := set_pc Drain (onMessage (ex_msg "b" 2) (onMessage (ex_msg "a" 1) (New ex_config (MemQueue.NewQueue 0) []))) in
  pc (Nat.iter 3 drain b) = Stopped /\ len (inb (Nat.iter 3 drain b)) = 0 /\
  MemQueue.items (queue (Nat.iter 3 drain b)) = [ex_msg "a" 1; ex_msg "b" 2].
Proof.
  cbv zeta.
  destruct (drain_terminates 2 (set_pc Drain (onMessage (ex_msg "b" 2) (onMessage (ex_msg "a" 1)
    (New ex_config (MemQueue.NewQueue 0) []))))) as (H1 & H2 & _).
  { change (inb (set_pc Drain ?b)) with (inb b). eapply so_inbox, onMessage_sound; [|by vm_compute].
    apply onMessage_sound; [|by vm_compute]. by apply New_sound. }
  { done. }
  { by vm_compute. }
  split_and!; [exact H1|exact H2|by vm_compute].
Defined.

(** The retry delay doubles with every failure in a row and never
    exceeds [RetryMax]; no wait is lost to overflow while [RetryMax] is below
    2^62 ns (146 years). *)
Theorem fail_backoff {Q : Type} (n : nat) (b : Bridge Q) :
  0 < backoff b <= RetryMax (cfg b) -> RetryMax (cfg b) < 2 ^ 62 ->
  timer (fail_n (S n) b) = Some (Z.min (backoff b * 2 ^ Z.of_nat n) (RetryMax (cfg b))) /\
  sinkUp (fail_n (S n) b) = false.
Proof. intros Hb Hm. destruct (fail_n_backoff n b Hb Hm) as [E _]. cbn [fail_n]. unfold fail. cbn. by rewrite E. Qed.

Lemma fail_backoff_witness :
  timer (fail_n 8 (New ex_config (MemQueue.NewQueue 0) [])) = Some (10 * Second).
Proof.
  apply (fail_backoff 7 (New ex_config (MemQueue.NewQueue 0) [])); vm_compute; [split; congruence|congruence].
Defined.

(** A message that arrives after the shutdown has emptied the inbox is
    lost. The subscription outlives [drain]: the run below stops with the message in
    the inbox, and whatever happens after a stop, nothing is queued or sent
    again. *)
Theorem late_arrival_lost :
  (exists b, exec (New ex_config (MemQueue.NewQueue 0) []) [ex_msg "a" 1] b /\ pc b = Stopped /\
     fifo (inb b) "a" = [ex_msg "a" 1] /\ MemQueue.items (queue b) = [] /\ sent b = []) /\
  (forall (b b' : Bridge MemQueue.Queue) l, pc b = Stopped -> step l b b' ->
     pc b' = Stopped /\ queue b' = queue b /\ sent b' = sent b).
Proof.
  split.
  - set (b0 := New ex_config (MemQueue.NewQueue 0) []).
    set (b1 := drain (set_pc Drain (top (set_cancelled b0)))).
    exists (onMessage (ex_msg "a" 1) b1). split; [|by vm_compute].
    apply (exec_step b0 [] (Some (ex_msg "a" 1)) b1); [|vm_compute; reflexivity|constructor].
    apply (exec_step b0 [] None (set_pc Drain (top (set_cancelled b0)))); [|done|apply step_drain; reflexivity].
    apply (exec_step b0 [] None (top (set_cancelled b0))); [|done|apply step_done; vm_compute; reflexivity].
    apply (exec_step b0 [] None (set_cancelled b0)); [|done|apply step_top; vm_compute; reflexivity].
    apply (exec_step b0 [] None b0); [constructor|done|constructor].
  - intros b b' l Hp Hs. destruct Hs; try congruence; rewrite ?onMessage_eq; done.
Qed.
