(* ===== verification/BridgeLive.v ===== *)
(** * BridgeLive: what the bridge's collectors show

    In every execution of [Bridge] the counters agree with what happened; the
    gauge of the sink does not, as long as the sink never fails. *)
From Stdlib Require Import ZArith Lia.
From stdpp Require Import vector.
From S2P Require Import Prelude GoBytes Observability Ports Memory Inbox Bridge.

Open Scope string_scope.
Open Scope list_scope.
Open Scope Z_scope.

(** ** The collectors *)

(** The series against the bridge's own state. The gauge of the sink shows
    [sinkUp] once it was set. *)
Record metered {Q} (b : Bridge Q) : Prop := {
  me_forwarded : sample BridgeForwarded [#] (metrics b) = forwarded b;
  me_sent : forwarded b = zlength (sent b);
  me_spilled : sample BridgeSpilled [# "sink_down"] (metrics b) + sample BridgeSpilled [# "shutdown"] (metrics b) = spilled b;
  me_lost : sample BridgeDropped [#] (metrics b) = lost b;
  me_coalesced : sample BridgeCoalesced [#] (metrics b) = Inbox.dropped (inb b);
  me_up : (touched BridgeSinkUp [#] (metrics b) = None /\ sinkUp b = true) \/
          touched BridgeSinkUp [#] (metrics b) = Some (if sinkUp b then 1 else 0)
}.

(** What only concerns other fields and series keeps it. *)
Lemma metered_frame {Q} (b b' : Bridge Q) :
  metrics b' = metrics b -> forwarded b' = forwarded b -> sent b' = sent b -> spilled b' = spilled b -> lost b' = lost b ->
  Inbox.dropped (inb b') = Inbox.dropped (inb b) -> sinkUp b' = sinkUp b -> metered b -> metered b'.
Proof. intros E1 E2 E3 E4 E5 E6 E7 [H1 H2 H3 H4 H5 H6]. constructor; rewrite ?E1, ?E2, ?E3, ?E4, ?E5, ?E6, ?E7; done. Qed.

Lemma push_dropped m i : Inbox.dropped (snd (push m i)) = Inbox.dropped i + fst (push m i) /\ 0 <= fst (push m i).
Proof.
  unfold push. set (i1 := match fifo i (Topic m) with [] => _ | _ => i end).
  assert (Inbox.dropped i1 = Inbox.dropped i) as E1 by (unfold i1; by destruct (fifo i (Topic m))).
  destruct (perTopic i <=? _); cbn; [rewrite E1; lia|]. destruct (maxTotal i <=? _); [|cbn; rewrite E1; lia].
  unfold evictLongest. destruct (longest i1) as [v n]. destruct (n =? 0)%nat; cbn; [rewrite E1; lia|].
  destruct (tail (fifo i1 v)); cbn; [|rewrite E1; lia].
  assert (forall t i, Inbox.dropped (removeFromRing t i) = Inbox.dropped i) as ->
    by (intros; unfold removeFromRing; by destruct (index_of _ _)).
  cbn. rewrite E1. lia.
Qed.

Lemma pop_dropped i : Inbox.dropped (snd (pop i)) = Inbox.dropped i.
Proof.
  unfold pop. destruct (ring i); [done|]. destruct (total i =? 0); [done|]. destruct (_ !! _); [|done].
  destruct (fifo i s0) as [|m [|]]; done.
Qed.

Section Metered.
Context {Q E : Type} `{!QueueOps Q E}.

Lemma metered_gauges (b : Bridge Q) : metered b -> metered (updateQueueGauges b).
Proof. intros [H1 H2 H3 H4 H5 H6]. constructor; cbn; read_store; try lia; done. Qed.

Lemma metered_up u (b : Bridge Q) : metered b ->
  metered (meter (SetTo BridgeSinkUp [#] (if u : bool then 1 else 0)) (set_sinkUp u b)).
Proof. intros [H1 H2 H3 H4 H5 H6]. constructor; cbn; read_store; try lia; try done. by right. Qed.

Lemma metered_message m (b : Bridge Q) : metered b -> metered (onMessage m b).
Proof.
  intros [H1 H2 H3 H4 H5 H6]. unfold onMessage. destruct (push_dropped m (inb b)) as [Ed Ep].
  destruct (push m (inb b)) as [d i]. cbn [fst snd] in Ed, Ep. destruct (Z.ltb_spec 0 d);
    constructor; cbn; read_store; try lia; done.
Qed.

Lemma metered_spill m b : metered b -> metered (spill m "sink_down" b) /\ metered (spill m "shutdown" b).
Proof.
  intros [H1 H2 H3 H4 H5 H6]. unfold spill. destruct (qPush m (queue b)) as [[a|e] q].
  - split; apply metered_gauges; constructor; cbn; read_store; try lia; done.
  - split; constructor; cbn; read_store; try lia; done.
Qed.

Lemma metered_send m (b : Bridge Q) : metered b -> metered (snd (send m b)).
Proof.
  intros [H1 H2 H3 H4 H5 H6]. unfold send.
  destruct (answers b) as [|[] ans]; cbn [snd]; try destruct (IsZero (At m));
    constructor; cbn -[zlength]; read_store; rewrite ?zlength_app, ?zlength_cons, ?zlength_nil; try lia; done.
Qed.

Lemma metered_replay_loop n b : metered b -> metered (snd (replay_loop n b)).
Proof.
  revert b. induction n as [|n IH]; intros b Hb; cbn [replay_loop]; [done|]. destruct (cancelled b); [done|].
  assert (forall q, metered (set_queue q b)) as Hq by (intros q; by apply (metered_frame b)).
  destruct (qPeek (queue b)) as [[[m|]|e] q]; [| |].
  - pose proof (metered_send m (set_queue q b) (Hq q)) as Hs. destruct (send m (set_queue q b)) as [[] b1]; [|done].
    cbn [snd] in Hs. destruct (qAck (queue b1)) as [[a|e] q1]; [apply IH|]; by apply (metered_frame b1).
  - apply Hq.
  - assert (metered (meter (Inc BridgeDropped [#]) (set_lost (lost b + 1) (set_queue q b)))) as Hl.
    { destruct (Hq q) as [H1 H2 H3 H4 H5 H6]. constructor; cbn in *; read_store; try lia; done. }
    set (b1 := meter _ _) in *. clearbody b1.
    destruct (qAck (queue b1)) as [[a|e'] q1]; [apply IH|]; by apply (metered_frame b1).
Qed.

Lemma metered_replay b : metered b -> metered (snd (replay b)).
Proof.
  intros Hb. unfold replay. pose proof (metered_replay_loop (Z.to_nat (ReplayBatch (cfg b))) b Hb) as H.
  destruct (replay_loop _ b) as [[r|] b']; [done|]. apply metered_gauges. by apply (metered_up true).
Qed.

Lemma metered_fail d (b : Bridge Q) : metered b -> metered (fail d b).
Proof. intros Hb. apply (metered_frame (meter (SetTo BridgeSinkUp [#] 0) (set_sinkUp false b))); try done. by apply (metered_up false). Qed.

Lemma metered_step l b b' : step l b b' -> metered b -> metered b'.
Proof.
  intros Hs Hb. destruct Hs.
  - by apply metered_message.
  - by apply (metered_frame b).
  - unfold top. destruct (_ && _); [|by apply (metered_frame b)]. pose proof (metered_replay b Hb) as Hr.
    destruct (replay b) as [[] b1]; cbn [snd] in Hr.
    + destruct (0 <? _); [destruct (cancelled b1)|]; by apply (metered_frame b1).
    + apply (metered_frame (fail (backoff b1) b1)); try done. by apply metered_fail.
  - by apply (metered_frame b).
  - unfold on_timer. set (b0 := set_retry (backoff b) None b). assert (metered b0) as Hb0 by (by apply (metered_frame b)).
    clearbody b0. destruct (negb (sinkUp b0)); [|by apply (metered_frame b0)]. destruct (qLen _ =? 0).
    + apply (metered_frame (meter (SetTo BridgeSinkUp [#] 1) (set_sinkUp true b0))); try done. by apply (metered_up true).
    + pose proof (metered_replay b0 Hb0) as Hr. destruct (replay b0) as [[] b1]; cbn [snd] in Hr; [by apply (metered_frame b1)|].
      apply (metered_frame (fail (backoff b1) b1)); try done. by apply metered_fail.
  - by apply (metered_frame b).
  - unfold inner. pose proof (pop_dropped (inb b)) as Hd. destruct (pop (inb b)) as [[m| |] i]; cbn [snd] in Hd;
      [|by apply (metered_frame b)..].
    assert (metered (set_inbox i b)) as Hi by (by apply (metered_frame b)). destruct (_ || _); [by apply metered_spill|].
    pose proof (metered_send m _ Hi) as Hm. destruct (send m (set_inbox i b)) as [[] b1]; [done|]. cbn [snd] in Hm.
    destruct (metered_spill m b1 Hm) as [Hsp _]. destruct (cancelled _); [by eapply metered_frame; [..|exact Hsp]|by apply metered_fail].
  - unfold drain. pose proof (pop_dropped (inb b)) as Hd. destruct (pop (inb b)) as [[m| |] i]; cbn [snd] in Hd.
    + apply metered_spill. by apply (metered_frame b).
    + apply (metered_frame (updateQueueGauges (set_inbox i b))); try done. apply metered_gauges. by apply (metered_frame b).
    + apply (metered_frame (updateQueueGauges (set_inbox i b))); try done. apply metered_gauges. by apply (metered_frame b).
Qed.

(** Any sequence of steps, whatever the queue does. *)
Inductive steps (b0 : Bridge Q) : Bridge Q -> Prop :=
| steps_start : steps b0 b0
| steps_step b l b' : steps b0 b -> step l b b' -> steps b0 b'.

Lemma New_metered c (q : Q) ans : metered (New c q ans).
Proof. constructor; try done. by left. Qed.

Lemma steps_metered b0 b : metered b0 -> steps b0 b -> metered b.
Proof. intros H0. induction 1 as [|b l b' _ IH Hs]; [done|]. by eapply metered_step. Qed.
End Metered.

(** A bridge whose sink has always accepted, with nothing queued before the
    shutdown. *)
Record healthy {Q E} `{!QueueOps Q E} `{!QueueLaws Q E} (b : Bridge Q) : Prop := {
  he_answers : answers b = [];
  he_up : sinkUp b = true;
  he_gauge : touched BridgeSinkUp [#] (metrics b) = None;
  he_queue : pc b = Drain \/ pc b = Stopped \/ (q_inv (queue b) /\ q_abs (queue b) = [])
}.

Section Healthy.
Context {Q E : Type} `{!QueueOps Q E} `{!QueueLaws Q E}.

Lemma healthy_spill m reason (b : Bridge Q) : touched BridgeSinkUp [#] (metrics b) = None ->
  touched BridgeSinkUp [#] (metrics (spill m reason b)) = None.
Proof.
  intros H. unfold spill. destruct (qPush m (queue b)) as [[a|e] q]; cbn; read_store; done.
Qed.

Lemma spill_frame m reason (b : Bridge Q) : let b' := spill m reason b in
  answers b' = answers b /\ sinkUp b' = sinkUp b /\ pc b' = pc b /\ inb b' = inb b /\ cfg b' = cfg b /\ timer b' = timer b.
Proof. cbv zeta. unfold spill. by destruct (qPush m (queue b)) as [[a|e] q]. Qed.

Lemma healthy_step l b b' : step l b b' -> healthy b -> healthy b'.
Proof.
  intros Hs [Ha Hu Hg Hq]. destruct Hs as [b m|b|b Hp|b Hp Hc|b d Hp Ht|b Hp Hn|b Hp|b Hp].
  - rewrite onMessage_eq. constructor; try done. cbn. case_match; [by read_store|done].
  - by constructor.
  - destruct Hq as [Hq|[Hq|[Hq He]]]; [congruence..|].
    unfold top. rewrite (q_len _ Hq), He. by constructor; [..|right; right].
  - by constructor; [..|left].
  - destruct Hq as [Hq|[Hq|[Hq He]]]; [congruence..|].
    unfold on_timer. cbn [set_retry sinkUp]. rewrite Hu. by constructor; [..|right; right].
  - destruct Hq as [Hq|[Hq|[Hq He]]]; [congruence..|]. by constructor; [..|right; right].
  - destruct Hq as [Hq|[Hq|[Hq He]]]; [congruence..|]. unfold inner.
    destruct (pop (inb b)) as [[m| |] i]; [|by constructor; [..|right; right]..].
    cbn [set_inbox sinkUp queue]. rewrite Hu, (q_len _ Hq), He. cbn [negb orb]. change (0 <? zlength []) with false.
    unfold send. cbn [set_inbox answers]. rewrite Ha. constructor; try done; [|by right; right].
    cbn. case_match; by read_store.
  - unfold drain. destruct (pop (inb b)) as [[m| |] i].
    + destruct (spill_frame m "shutdown" (set_inbox i b)) as (E1 & E2 & E3 & _).
      constructor; [by rewrite E1|by rewrite E2|by apply healthy_spill|left; by rewrite E3].
    + constructor; try done; [cbn; by read_store|by right; left].
    + constructor; try done; [cbn; by read_store|by right; left].
Qed.

Lemma steps_healthy b0 b : healthy b0 -> steps b0 b -> healthy b.
Proof. intros H. induction 1 as [|b l b' _ IH Hs]; [done|]. by eapply healthy_step. Qed.
End Healthy.

(** ** Properties *)

(** The counters an operator sees are the truth. Over any queue, failing ones
    included, and any sequence of steps of a new bridge: the series for
    forwarded, spilled, dropped and coalesced messages agree with what was sent,
    stored, refused by the queue and evicted from the inbox, and the gauge of
    the sink, once it has been set, shows whether the bridge takes the sink
    to be up. *)
Theorem collectors_agree {Q E : Type} `{!QueueOps Q E} (c : Config) (q : Q) (ans : list bool) (b : Bridge Q) :
  steps (New c q ans) b ->
  sample BridgeForwarded [#] (metrics b) = zlength (sent b) /\
  sample BridgeSpilled [# "sink_down"] (metrics b) + sample BridgeSpilled [# "shutdown"] (metrics b) = spilled b /\
  sample BridgeDropped [#] (metrics b) = lost b /\
  sample BridgeCoalesced [#] (metrics b) = droppedCount (inb b) /\
  (touched BridgeSinkUp [#] (metrics b) = None \/ sample BridgeSinkUp [#] (metrics b) = if sinkUp b then 1 else 0).
Proof.
  intros H. destruct (steps_metered _ b (New_metered c q ans) H) as [H1 H2 H3 H4 H5 H6]. split_and!; try done; [congruence|].
  destruct H6 as [[? _]|H6]; [by left|]. right. unfold sample. by rewrite H6.
Qed.

(** The gauge of the sink is never set while the sink works. Unless a
    send has failed or messages were queued at the start, every state of the bridge
    has [sinkUp], and yet the gauge documented as 1 while the sink accepts
    reads 0. *)
Theorem healthy_gauge_zero {Q E : Type} `{!QueueOps Q E} `{!QueueLaws Q E} (c : Config) (q : Q) (b : Bridge Q) :
  q_inv q -> q_abs q = [] -> steps (New c q []) b ->
  Ready b = true /\ sample BridgeSinkUp [#] (metrics b) = 0.
Proof.
  intros Hq He H. assert (healthy (New c q [])) as Hn by (by constructor; [..|right; right]).
  destruct (steps_healthy _ b Hn H) as [_ Hu Hg _]. split; [done|]. unfold sample. by rewrite Hg.
Qed.

(** One message arrives and is sent. *)
Lemma ex_steps ans : steps (New ex_config (MemQueue.NewQueue 0) ans)
  (inner (on_notify (top (onMessage (ex_msg "a" 1) (New ex_config (MemQueue.NewQueue 0) ans))))).
Proof.
  set (b0 := New ex_config (MemQueue.NewQueue 0) ans).
  eapply steps_step; [|apply (step_inner (on_notify (top (onMessage (ex_msg "a" 1) b0)))); reflexivity].
  eapply steps_step; [|apply (step_notify (top (onMessage (ex_msg "a" 1) b0))); reflexivity].
  eapply steps_step; [|apply (step_top (onMessage (ex_msg "a" 1) b0)); reflexivity].
  eapply steps_step; [constructor|apply (step_message b0 (ex_msg "a" 1))].
Qed.

Lemma collectors_agree_witness :
  let b := inner (on_notify (top (onMessage (ex_msg "a" 1) (New ex_config (MemQueue.NewQueue 0) [false])))) in
  sample BridgeForwarded [#] (metrics b) = 0 /\
  sample BridgeSpilled [# "sink_down"] (metrics b) + sample BridgeSpilled [# "shutdown"] (metrics b) = 1.
Proof.
  cbv zeta. destruct (collectors_agree ex_config (MemQueue.NewQueue 0) [false] _ (ex_steps [false])) as (H1 & H2 & _).
  split; [rewrite H1; by vm_compute|rewrite H2; by vm_compute].
Defined.

Lemma healthy_gauge_zero_witness :
  let b := inner (on_notify (top (onMessage (ex_msg "a" 1) (New ex_config (MemQueue.NewQueue 0) [])))) in
  sent b = [ex_msg "a" 1] /\ Ready b = true /\ sample BridgeSinkUp [#] (metrics b) = 0.
Proof.
  cbv zeta. split; [by vm_compute|].
  apply (healthy_gauge_zero ex_config (MemQueue.NewQueue 0)); [done|done|exact (ex_steps [])].
Defined.
