(* ===== verification/BridgeRecover.v ===== *)
(** * BridgeRecover: the bridge delivers what it stored once the sink is back

    A variant for the forwarder of [Bridge]: while the sink accepts and nobody
    cancels, every step but an idle tick of the timer decreases [work], and a
    step that is not one can be taken as long as something is stored or
    buffered. *)
From Stdlib Require Import ZArith Lia.
From S2P Require Import Prelude GoBytes Observability Ports Memory Inbox Bridge BridgeLive.

Open Scope string_scope.
Open Scope list_scope.
Open Scope Z_scope.

(** The timer fired although the sink is up. *)
Definition idle_tick {Q} (b b' : Bridge Q) : bool :=
  bool_decide (pc b = Select) && sinkUp b && bool_decide (pc b' = Top).

Lemma idle_tick_select {Q} (b b' : Bridge Q) : pc b <> Select -> idle_tick b b' = false.
Proof. intros H. unfold idle_tick. by rewrite bool_decide_false. Qed.

Section Recovery.
Context {Q E : Type} `{!QueueOps Q E} `{!QueueLaws Q E}.

(** [n] steps of the forwarder, [t] of them idle, while nothing arrives. *)
Inductive recovering (b0 : Bridge Q) : nat -> nat -> Bridge Q -> Prop :=
| rec_start : recovering b0 0 0 b0
| rec_step n t b b' : recovering b0 n t b -> side None b -> step None b b' -> cancelled b' = false ->
    recovering b0 (S n) (if idle_tick b b' then S t else t) b'.

Definition work (b : Bridge Q) : Z :=
  8 * total (inb b) + 4 * zlength (q_abs (queue b)) + (if notify (inb b) then 3 else 0) + (if sinkUp b then 0 else 3) +
  match pc b with Inner => 2 | Top => 1 | _ => 0 end.

(** What every execution keeps, besides [sound]. *)
Record running (b : Bridge Q) : Prop := {
  ru_timer : timer b <> None;
  ru_select : pc b = Select -> sinkUp b = true -> q_abs (queue b) = [];
  ru_notify : pc b = Top \/ pc b = Select -> 0 < total (inb b) -> notify (inb b) = true;
  ru_batch : 1 <= ReplayBatch (cfg b);
  ru_live : cancelled b = false -> pc b <> Drain /\ pc b <> Stopped
}.

(** Replay touches neither the program counter nor the timer. *)
Definition keeps (b b' : Bridge Q) : Prop :=
  cfg b' = cfg b /\ pc b' = pc b /\ timer b' = timer b /\ cancelled b' = cancelled b /\ inb b' = inb b.

Lemma send_keeps m (b : Bridge Q) : keeps b (snd (send m b)).
Proof. unfold send. by destruct (answers b) as [|[] ans]. Qed.

Lemma replay_loop_keeps n b : keeps b (snd (replay_loop n b)).
Proof.
  revert b. induction n as [|n IH]; intros b; cbn [replay_loop]; [done|]. destruct (cancelled b) eqn:Ec; [done|].
  destruct (qPeek (queue b)) as [[[m|]|e] q]; [|done|].
  - pose proof (send_keeps m (set_queue q b)) as (H1 & H2 & H3 & H4 & H5).
    destruct (send m (set_queue q b)) as [[] b1]; [|done]. cbn [snd] in *.
    destruct (qAck (queue b1)) as [[a|e] q1]; [|done].
    destruct (IH (set_queue q1 b1)) as (I1 & I2 & I3 & I4 & I5). cbn in *. split_and!; congruence.
  - destruct (qAck _) as [[a|e'] q1]; [|done].
    match goal with |- keeps b (snd (replay_loop n ?x)) => destruct (IH x) as (I1 & I2 & I3 & I4 & I5) end. done.
Qed.

Lemma replay_keeps b : keeps b (snd (replay b)).
Proof.
  unfold replay. pose proof (replay_loop_keeps (Z.to_nat (ReplayBatch (cfg b))) b) as H.
  by destruct (replay_loop _ b) as [[r|] b'].
Qed.

Lemma qLen_abs b : q_inv (queue b) -> (0 <? qLen (queue b)) = false -> q_abs (queue b) = [].
Proof.
  intros Hq H. rewrite (q_len _ Hq) in H. destruct (q_abs (queue b)) as [|m ms]; [done|].
  rewrite zlength_cons in H. pose proof (zlength_nonneg ms). lia.
Qed.

Lemma running_step l b b' : wf (inb b) -> q_inv (queue b) -> step l b b' -> running b -> running b'.
Proof.
  intros W Hq Hs [Ht Hse Hn Hb Hl]. destruct Hs as [b m|b|b Hp|b Hp Hc|b d Hp Htm|b Hp Hno|b Hp|b Hp].
  - rewrite onMessage_eq. constructor; try done. cbn [meter set_inbox inb]. intros _ _. unfold push.
    by destruct (if perTopic (inb b) <=? _ then _ else _) as [[? ?] ?].
  - by constructor.
  - unfold top. destruct (_ && sinkUp b) eqn:Ec.
    + pose proof (replay_keeps b) as (K1 & K2 & K3 & K4 & K5). pose proof (replay_same b Hq) as [_ Hq' _ _ _].
      specialize (Hq' Hq). destruct (replay b) as [[] b1]; cbn [snd] in *.
      * destruct (0 <? qLen (queue b1)) eqn:El; [destruct (cancelled b1) eqn:Ecc|];
          constructor; cbn [set_pc timer pc inb cfg queue sinkUp cancelled]; try congruence.
        -- rewrite K5. intros _. apply Hn. by left.
        -- rewrite K5. intros _. apply Hn. by left.
        -- rewrite K2, Hp. intros _. by split.
        -- intros _ _. by apply qLen_abs.
        -- rewrite K5. intros _. apply Hn. by left.
        -- intros _. by split.
      * constructor; cbn; try congruence; [rewrite K5; intros _; apply Hn; by left|intros _; by split].
    + constructor; cbn [set_pc timer pc inb cfg queue sinkUp cancelled]; try done.
      * intros _ Hu. rewrite Hu, andb_true_r in Ec. by apply qLen_abs.
      * intros _. apply Hn. by left.
  - constructor; cbn; try done; try congruence. by intros [].
  - unfold on_timer. cbn [set_retry sinkUp queue]. assert (0 < total (inb b) -> notify (inb b) = true) as Hn'
      by (apply Hn; by right).
    destruct (negb (sinkUp b)); [destruct (qLen (queue b) =? 0)|]; [by constructor| |by constructor].
    set (b0 := set_retry (backoff b) None b).
    pose proof (replay_keeps b0) as (K1 & K2 & K3 & K4 & K5). destruct (replay b0) as [[] b1]; cbn [snd] in *;
      constructor; cbn; try congruence; try (rewrite K5; by intros _); try (by rewrite K1); by intros _.
  - constructor; cbn; try done. by intros [].
  - unfold inner. pose proof (pop_wf _ W) as Hpop. destruct (pop (inb b)) as [[m| |] i]; [|destruct Hpop as (-> & _ & H0)|done].
    + cbn [set_inbox sinkUp queue]. destruct (_ || _).
      * destruct (spill_frame m "sink_down" (set_inbox i b)) as (F1 & F2 & F3 & F4 & F5 & F6).
        set (b1 := spill m "sink_down" (set_inbox i b)) in *.
        assert (cancelled b1 = cancelled b) as Ec by (unfold b1, spill; by destruct (qPush _ _) as [[a|e] q]).
        clearbody b1. cbn in *. constructor; rewrite ?F3, ?F4, ?F5, ?F6, ?Ec, ?Hp; try done. by intros [].
      * pose proof (send_keeps m (set_inbox i b)) as (K1 & K2 & K3 & K4 & K5).
        destruct (send m (set_inbox i b)) as [[] b1]; cbn [snd] in *; cbn in K1, K2, K3, K4, K5.
        -- constructor; rewrite ?K1, ?K2, ?K3, ?K4, ?K5, ?Hp; try done. by intros [].
        -- destruct (spill_frame m "sink_down" b1) as (F1 & F2 & F3 & F4 & F5 & F6).
           assert (cancelled (spill m "sink_down" b1) = cancelled b1) as Ec by (unfold spill; by destruct (qPush _ _) as [[a|e] q]).
           set (b2 := spill m "sink_down" b1) in *. clearbody b2. cbn in *. destruct (cancelled b2) eqn:Ecc;
             constructor; cbn; rewrite ?F3, ?F5, ?F6, ?K1, ?K2, ?K3, ?Hp; try done; try congruence; by intros [].
    + constructor; cbn; try done. intros _ ?. lia.
  - assert (cancelled b = true) as Hc by (destruct (cancelled b); [done|]; by destruct (Hl eq_refl) as [? _]).
    unfold drain. destruct (pop (inb b)) as [[m| |] i].
    2,3: (constructor; cbn; try done; try congruence; by intros []).
    destruct (spill_frame m "shutdown" (set_inbox i b)) as (F1 & F2 & F3 & F4 & F5 & F6).
    assert (cancelled (spill m "shutdown" (set_inbox i b)) = cancelled b) as Ec by (unfold spill; by destruct (qPush _ _) as [[a|e] q]).
    set (b1 := spill m "shutdown" (set_inbox i b)) in *. clearbody b1. cbn in *.
    constructor; rewrite ?F3, ?F4, ?F5, ?F6, ?Ec, ?Hp; try done; try congruence; by intros [].
Qed.

Lemma accepted_nil n : accepted n [] = n.
Proof. induction n as [|n IH]; [done|]. cbn. by rewrite IH. Qed.

(** A replay to a sink that accepts: it succeeds and removes one batch. *)
Lemma replay_accepted b : q_inv (queue b) -> cancelled b = false -> answers b = [] -> 1 <= ReplayBatch (cfg b) ->
  let '(r, b') := replay b in
  r = true /\ sinkUp b' = true /\ answers b' = [] /\ q_inv (queue b') /\ keeps b b' /\
  zlength (q_abs (queue b')) <= zlength (q_abs (queue b)) /\
  (q_abs (queue b) <> [] -> zlength (q_abs (queue b')) < zlength (q_abs (queue b))).
Proof.
  intros Hq Hc Ha Hb. pose proof (replay_keeps b) as Hk.
  pose proof (replay_loop_spec (Z.to_nat (ReplayBatch (cfg b))) b Hq Hc) as H. cbv zeta in H. rewrite Ha, accepted_nil in H.
  assert (forall n b, answers b = [] -> answers (snd (replay_loop n b)) = []) as Hans.
  { clear. induction n as [|n IH]; intros b Ha; cbn [replay_loop]; [done|]. destruct (cancelled b); [done|].
    destruct (qPeek (queue b)) as [[[m|]|e] q]; [|done|].
    - unfold send. cbn [set_queue answers]. rewrite Ha. cbn. destruct (qAck q) as [[a|e] q1]; [by apply IH|done].
    - destruct (qAck _) as [[a|e'] q1]; [by apply IH|done]. }
  specialize (Hans (Z.to_nat (ReplayBatch (cfg b))) b Ha). unfold replay in *.
  destruct (replay_loop _ b) as [r b']. rewrite Nat.eqb_refl in H. destruct H as (H1 & H2 & H3 & -> & H5).
  cbn [snd] in *. split_and!; try done; cbn [updateQueueGauges meter set_sinkUp queue]; rewrite H3; unfold zlength; rewrite length_drop.
  - lia.
  - destruct (q_abs (queue b)); [done|]. cbn [length]. lia.
Qed.

(** A step of the forwarder, idle ticks apart, is progress. *)
Lemma step_work b b' : q_inv (queue b) -> wf (inb b) -> side None b -> running b -> answers b = [] -> cancelled b = false ->
  step None b b' -> cancelled b' = false ->
  answers b' = [] /\ 1 + work b' <= work b + (if idle_tick b b' then 2 else 0).
Proof.
  intros Hq W Hside [Ht Hse Hn Hb Hl] Ha Hc Hs Hc'. destruct (Hl Hc) as [Hnd Hns].
  inversion Hs as [|b1|b1 Hp|b1 Hp Hcc|b1 d Hp Htm|b1 Hp Hno|b1 Hp|b1 Hp]; subst; try done; try congruence.
  - clear Hs Hc'. rewrite idle_tick_select by congruence. unfold top. destruct (_ && sinkUp b) eqn:Ec.
    + pose proof (replay_accepted b Hq Hc Ha Hb) as H. destruct (replay b) as [r b1].
      destruct H as (-> & Hu & Ha' & Hq' & (K1 & K2 & K3 & K4 & K5) & _ & Hlt).
      assert (q_abs (queue b) <> []) as Hne by (intros E0; rewrite (q_len _ Hq), E0 in Ec; done).
      specialize (Hlt Hne). apply andb_true_iff in Ec as [_ Eu].
      destruct (0 <? qLen (queue b1)); [rewrite K4, Hc|]; (split; [done|]); unfold work; cbn [set_pc inb queue sinkUp pc];
        rewrite K5, Hu, Eu, ?K2, ?Hp; lia.
    + split; [done|]. unfold work. cbn [set_pc inb queue sinkUp pc]. rewrite Hp. lia.
  - clear Hs. unfold on_timer in *. cbn [set_retry sinkUp queue cfg backoff] in *. destruct (sinkUp b) eqn:Eu; cbn [negb] in *.
    { split; [done|]. unfold idle_tick, work. cbn. rewrite Hp, Eu. repeat case_bool_decide; cbn; try congruence; lia. }
    destruct (qLen (queue b) =? 0).
    { split; [done|]. unfold idle_tick, work. cbn. rewrite Hp, Eu. repeat case_bool_decide; cbn; try congruence; lia. }
    pose proof (replay_accepted (set_retry (backoff b) None b) Hq Hc Ha Hb) as H.
    destruct (replay (set_retry (backoff b) None b)) as [r b1].
    destruct H as (-> & Hu & Ha' & Hq' & (K1 & K2 & K3 & K4 & K5) & Hle & _). cbn in Hle, K5.
    split; [done|]. unfold idle_tick, work. cbn [set_pc set_retry inb queue sinkUp pc]. rewrite K5, Hp, Eu, Hu.
    repeat case_bool_decide; cbn; try congruence; lia.
  - split; [done|]. unfold idle_tick, work. cbn. rewrite Hp, Hno. repeat case_bool_decide; destruct (sinkUp b); cbn; try congruence; lia.
  - clear Hs. rewrite idle_tick_select by congruence. pose proof (pop_wf _ W) as Hpop. unfold inner in *.
    destruct (pop (inb b)) as [[m| |] i] eqn:Ep; [|destruct Hpop as (-> & _ & H0)|done].
    + pose proof (Hside _ m (popped_in _ _ _ W Ep)) as Hst. destruct Hpop as (_ & _ & _ & _ & Htot & _).
      assert (notify i = notify (inb b)) as En.
      { clear -Ep. unfold pop in Ep. destruct (ring (inb b)); [done|]. destruct (total (inb b) =? 0); [done|].
        destruct (_ !! _); [|done]. destruct (fifo (inb b) s0) as [|m' [|]]; by simplify_eq. }
      cbn [set_inbox sinkUp queue] in *. destruct (negb (sinkUp b) || _) eqn:Eg.
      * destruct (spill_frame m "sink_down" (set_inbox i b)) as (F1 & F2 & F3 & F4 & F5 & F6).
        destruct (q_push (queue b) m Hq Hst) as (q' & k & Epush & _ & _ & Ea & _).
        assert (zlength (q_abs (queue (spill m "sink_down" (set_inbox i b)))) <= zlength (q_abs (queue b)) + 1) as Hlen.
        { unfold spill. cbn [set_inbox queue]. rewrite Epush. cbn. rewrite Ea. unfold zlength. rewrite length_drop, length_app. cbn. lia. }
        split; [by rewrite F1|]. unfold work. rewrite F2, F3, F4. cbn [set_inbox inb queue pc sinkUp] in *. rewrite Hp, En, Htot.
        destruct (sinkUp b); cbn; lia.
      * unfold send in *. cbn [set_inbox answers] in *. rewrite Ha in *. split; [done|].
        unfold work. cbn. rewrite Hp, En, Htot. destruct (sinkUp b); cbn; lia.
    + split; [done|]. unfold work. cbn. rewrite Hp. destruct (sinkUp b); cbn; lia.
Qed.

Lemma New_running c q ans : running (New c q ans).
Proof.
  constructor; try done. unfold New. cbn [cfg]. unfold defaults. cbn [ReplayBatch]. destruct (Z.leb_spec (ReplayBatch c) 0); lia.
Qed.

Lemma exec_running b0 arr b d ins : sound d ins b0 -> running b0 -> exec b0 arr b -> running b.
Proof.
  intros S R. induction 1 as [|arr l b b' Hex IH Hside Hstep]; [done|].
  pose proof (exec_sound _ _ _ _ _ S Hex) as [Sq Si _ _ _]. by eapply running_step.
Qed.

Lemma recovering_exec b0 n t b : recovering b0 n t b -> exec b0 [] b.
Proof.
  induction 1 as [|n t b b' _ IH Hside Hstep _]; [constructor|]. by apply (exec_step b0 [] None b b').
Qed.

Lemma recovering_work b0 n t b d ins :
  sound d ins b0 -> running b0 -> answers b0 = [] -> cancelled b0 = false -> recovering b0 n t b ->
  cancelled b = false /\ answers b = [] /\ Z.of_nat n + work b <= work b0 + 2 * Z.of_nat t.
Proof.
  intros S R Ha Hc. induction 1 as [|n t b b' Hrec IH Hside Hstep Hc']; [split_and!; [done..|lia]|].
  destruct IH as (Hcb & Hab & Hw). pose proof (recovering_exec _ _ _ _ Hrec) as Hex.
  pose proof (exec_sound _ _ _ _ _ S Hex) as [Sq Si _ _ _].
  destruct (step_work b b' Sq Si Hside (exec_running _ _ _ _ _ S R Hex) Hab Hcb Hstep Hc') as [Ha' Hw'].
  split_and!; [done..|]. destruct (idle_tick b b'); lia.
Qed.

(** As long as something is stored or buffered, a step that is no idle tick
    is possible. *)
Lemma progress b : q_inv (queue b) -> running b -> cancelled b = false ->
  q_abs (queue b) <> [] \/ 0 < total (inb b) -> exists b', step None b b' /\ idle_tick b b' = false.
Proof.
  intros Hq [Ht Hse Hn Hb Hl] Hc H. destruct (Hl Hc) as [Hnd Hns]. destruct (pc b) eqn:Ep; try done.
  - exists (top b). split; [by constructor|]. unfold idle_tick. by rewrite Ep.
  - destruct (sinkUp b) eqn:Eu.
    + specialize (Hse eq_refl eq_refl). destruct H as [H|H]; [done|]. exists (on_notify b).
      split; [constructor; [done|]; apply Hn; [by right|done]|]. unfold idle_tick. by rewrite Ep, Eu.
    + destruct (timer b) as [d|] eqn:Et; [|done]. eexists. split; [by eapply step_timer|].
      unfold idle_tick. by rewrite Ep, Eu.
  - exists (inner b). split; [by constructor|]. unfold idle_tick. by rewrite Ep.
Qed.
End Recovery.

(** ** Properties *)

(** C14: the bridge recovers from an outage. Take any state it can reach by
    arrivals none of which evicted a message of its own topic (an orphan of
    [Inbox.self_eviction_starves] is never delivered), with a queue that can
    store what is buffered, after any refusals, and suppose the sink accepts
    from then on, nothing more arrives and nobody cancels. Then of the
    forwarder's steps [n], with [t] ticks at which its timer finds nothing to
    do, [n] is at most [work] plus twice [t]; and it can make a step that is
    no such tick as long as a message is stored or buffered. When none is,
    every message that was ever queued or arrived has been sent or was counted
    as coalesced or evicted, in order for every topic. *)
Theorem outage_recovers {Q E : Type} `{!QueueOps Q E} `{!QueueLaws Q E}
    (c : Config) (q : Q) (ans : list bool) (arr : list Message) (b b' : Bridge Q) (n t : nat) :
  q_inv q -> exec (New c q ans) arr b -> answers b = [] -> cancelled b = false -> recovering b n t b' ->
  Z.of_nat n - 2 * Z.of_nat t <= work b /\
  (q_abs (queue b') = [] /\ len (inb b') = 0 \/ exists b'', step None b' b'' /\ idle_tick b' b'' = false) /\
  (q_abs (queue b') = [] -> len (inb b') = 0 ->
     zlength (sent b') = zlength (q_abs q) + zlength arr - droppedCount (inb b') - (qDropped (queue b') - qDropped q) /\
     forall u, sublist (of_topic u (sent b')) (of_topic u (q_abs q ++ arr))).
Proof.
  intros Hq Hex Ha Hc Hrec. pose proof (exec_sound _ _ _ _ _ (New_sound c q ans Hq) Hex) as S.
  pose proof (exec_running _ _ _ _ _ (New_sound c q ans Hq) (New_running c q ans) Hex) as R.
  destruct (recovering_work b n t b' _ _ S R Ha Hc Hrec) as (Hc' & Ha' & Hw).
  pose proof (recovering_exec _ _ _ _ Hrec) as Hex'. pose proof (exec_running _ _ _ _ _ S R Hex') as R'.
  pose proof (exec_sound _ _ _ _ _ S Hex') as [Sq Si So Sc _]. rewrite app_nil_r in So, Sc.
  pose proof (wf_total_ring _ Si) as Htot. pose proof (zlength_nonneg (ring (inb b'))). unfold len, droppedCount.
  assert (0 <= work b') as Hpos.
  { unfold work. pose proof (zlength_nonneg (q_abs (queue b'))).
    destruct (notify (inb b')), (sinkUp b'), (pc b'); lia. }
  split_and!; [lia| |].
  - destruct (decide (q_abs (queue b') = [])) as [E1|E1]; [destruct (Z.eq_dec (total (inb b')) 0) as [E2|E2]|].
    + by left.
    + right. apply progress; try done. right. lia.
    + right. apply progress; try done. by left.
  - intros E1 E2. unfold forwarding in So, Sc. rewrite E1, app_nil_r in So, Sc. rewrite zlength_app in Sc. split; [lia|].
    intros u. specialize (So u). etrans; [|exact So]. by apply sublist_inserts_r.
Qed.

(** An outage of one message: the sink refuses it, it is stored, and the next
    tick of the timer delivers it. *)
Definition refused : Bridge MemQueue.Queue :=
  inner (on_notify (top (onMessage (ex_msg "a" 1) (New ex_config (MemQueue.NewQueue 0) [false])))).

Definition recovered : Bridge MemQueue.Queue :=
  let b := top (inner refused) in top (on_timer (set_retry (backoff b) None b)).

Lemma refused_exec : exec (New ex_config (MemQueue.NewQueue 0) [false]) [ex_msg "a" 1] refused.
Proof.
  set (b0 := New ex_config (MemQueue.NewQueue 0) [false]).
  apply (exec_step b0 [ex_msg "a" 1] None (on_notify (top (onMessage (ex_msg "a" 1) b0)))); [|done|apply step_inner; vm_compute; reflexivity].
  apply (exec_step b0 [ex_msg "a" 1] None (top (onMessage (ex_msg "a" 1) b0))); [|done|apply step_notify; vm_compute; reflexivity].
  apply (exec_step b0 [ex_msg "a" 1] None (onMessage (ex_msg "a" 1) b0)); [|done|apply step_top; vm_compute; reflexivity].
  apply (exec_step b0 [] (Some (ex_msg "a" 1)) b0); [constructor|vm_compute; reflexivity|constructor].
Qed.

Lemma refused_recovers : recovering refused 4 0 recovered.
Proof.
  set (b2 := top (inner refused)). set (b3 := on_timer (set_retry (backoff b2) None b2)).
  change (recovering refused 4 0 (top b3)).
  assert (recovering refused 1 0 (inner refused)) as H1.
  { apply (rec_step refused 0 0 refused (inner refused)); [constructor|done|apply step_inner; by vm_compute|by vm_compute]. }
  assert (recovering refused 2 0 b2) as H2.
  { apply (rec_step refused 1 0 (inner refused) b2); [done|done|apply step_top; by vm_compute|by vm_compute]. }
  assert (recovering refused 3 0 b3) as H3.
  { apply (rec_step refused 2 0 b2 b3); [done|done| |by vm_compute].
    assert (pc b2 = Select /\ timer b2 = Some (200 * Millisecond)) as [Hp Ht] by (by vm_compute).
    unfold b3. clear b3 H1 H2. clearbody b2. by apply (step_timer b2 (200 * Millisecond)). }
  apply (rec_step refused 3 0 b3 (top b3)); [done|done|apply step_top; by vm_compute|by vm_compute].
Qed.

Lemma outage_recovers_witness :
  sent refused = [] /\ 4 <= work refused /\ zlength (sent recovered) = 0 + 1 - 0 - (0 - 0).
Proof.
  destruct (outage_recovers ex_config (MemQueue.NewQueue 0) [false] [ex_msg "a" 1] refused recovered 4 0)
    as (H1 & _ & H2); [done|exact refused_exec|by vm_compute|by vm_compute|exact refused_recovers|].
  split; [by vm_compute|]. split; [lia|]. destruct H2 as [H2 _]; [by vm_compute..|]. rewrite H2. by vm_compute.
Defined.
