(* ===== verification/Http.v ===== *)
(** * Http: the read API (internal/api/http/server.go)

    A handler is a function from the collaborators to the status and the value
    given to the JSON encoder; [None] is a panic, which [recoverer] turns into
    a 500. The event stream is a bounded buffer between the broker's delivery
    and the client's loop. Routing and the middleware are in HttpServe; the
    encoder's text and logs are left out. *)
From Stdlib Require Import ZArith Lia.
From S2P Require Import Prelude GoBytes GoFloat Uns Ports Latest.
From S2P Require Asset AssetValid AssetIndex Poller Bridge Memory Plants.
Import Asset (AssetRef, TagRef, rAsset, rArea, rLine, rCell, trAsset, trTag, topic_of).

Open Scope string_scope.
Open Scope list_scope.
Open Scope Z_scope.

(** ** Views *)

Record tagView := mkTagView {
  tvName : string;
  tvDescription : string;
  tvUnit : string;
  tvDataType : MetricType;
  tvRange : option Asset.Range;
  tvTopic : string
}.

Record assetView := mkAssetView {
  avID : string;
  avClass : string;
  avDescription : string;
  avSource : string;
  avArea : string;
  avLine : string;
  avCell : string;
  avTags : list tagView
}.

Record topicView := mkTopicView {
  tpTopic : string;
  tpAssetID : string;
  tpTag : string;
  tpSource : string;
  tpQuality : option Quality;
  tpLastSeen : option Time
}.

Record readiness := mkReadiness { rStatus : string; rComponents : list (string * string) }.

Inductive ErrorText :=
| Text (s : string)
| FilterError (e : UnsError).

Inductive Body :=
| BError (e : ErrorText) (requestID : string)
| BHealth (version : string)
| BReady (r : readiness)
| BAssets (enterprise site : string) (assets : list assetView)
| BAsset (v : assetView)
| BLatest (id cls source : string) (count : Z) (metrics : list Metric)
| BTopics (namespace : string) (count : Z) (topics : list topicView) (lifecycle : list string)
| BSources (up total : Z) (snap : list Poller.Status)
| BBridge (stats : option Bridge.Stats).

Record Response := mkResponse { status : Z; body : Body }.

Section Server.
Context {B Q E : Type} `{!QueueOps Q E}.
Variable ready : B -> bool.

(** [Deps]: [None] is a nil pointer or interface. *)
Record Deps := mkDeps {
  dIndex : option Asset.Index;
  dLatest : Latest;
  dHealth : option Poller.Health;
  dBroker : option B;
  dBridge : option (Bridge.Bridge Q);
  dVersion : string;
  dSSEBuffer : Z;
  dHeartbeat : Duration
}.

(** The defaults of [New]. *)
Definition NewServer (d : Deps) : Deps :=
  mkDeps (dIndex d) (dLatest d) (dHealth d) (dBroker d) (dBridge d) (dVersion d)
    (if dSSEBuffer d <=? 0 then 256 else dSSEBuffer d)
    (if dHeartbeat d <=? 0 then 15 * Second else dHeartbeat d).

Definition writeError (reqID : string) (code : Z) (e : ErrorText) : Response := mkResponse code (BError e reqID).

Definition healthz (d : Deps) : Response := mkResponse 200 (BHealth (dVersion d)).

Definition count_up (snap : list Poller.Status) : Z := zlength (List.filter Poller.Up snap).

Definition readyz (d : Deps) : option Response :=
  let '(plant, ok1) :=
    match dIndex d with
    | None => ("no tags loaded", false)
    | Some i =>
        if Asset.TagCount i =? 0 then ("no tags loaded", false)
        else ((FormatInt (zlength (Asset.Assets i)) ++ " assets, " ++ FormatInt (Asset.TagCount i) ++ " tags")%string, true)
    end in
  let '(broker, ok2) :=
    match dBroker d with
    | None => ("not connected", false)
    | Some b => if ready b then ("connected", true) else ("not connected", false)
    end in
  sources ← (match dHealth d with
             | None => Some []
             | Some h =>
                 (fun snap => [("sources", (FormatInt (count_up snap) ++ "/" ++ FormatInt (zlength snap) ++ " up")%string)])
                   <$> Poller.Snapshot h
             end);
  let bridge := match dBridge d with
                | None => []
                | Some b => [("bridge", if Bridge.Ready b then "forwarding" else "sink down, buffering")]
                end in
  let components := [("plant", plant); ("broker", broker)] ++ sources ++ bridge in
  Some (if ok1 && ok2 then mkResponse 200 (BReady (mkReadiness "ready" components))
        else mkResponse 503 (BReady (mkReadiness "not ready" components))).

Definition tag_view (p : Asset.Plant) (ref : AssetRef) (t : Asset.Tag) : tagView :=
  mkTagView (Asset.tName t) (Asset.tDescription t) (Asset.tUnit t) (Asset.tDataType t) (Asset.tRange t)
    (TopicString (Asset.topic_at p (rArea ref) (rLine ref) (rCell ref) t)).

Definition asset_view (i : Asset.Index) (ref : AssetRef) : assetView :=
  let a := rAsset ref in
  mkAssetView (Asset.aID a) (Asset.aClass a) (Asset.aDescription a) (Asset.aSource a)
    (rArea ref) (rLine ref) (rCell ref) (map (tag_view (Asset.iPlant i) ref) (Asset.aTags a)).

Definition assets (d : Deps) : option Response :=
  i ← dIndex d;
  Some (mkResponse 200 (BAssets (Asset.Enterprise (Asset.iPlant i)) (Asset.Site (Asset.iPlant i))
                          (map (asset_view i) (Asset.Assets i)))).

Definition asset (reqID id : string) (d : Deps) : option Response :=
  i ← dIndex d;
  Some (match Asset.LookupAsset i id with
        | None => writeError reqID 404 (Text "asset not found")
        | Some ref => mkResponse 200 (BAsset (asset_view i ref))
        end).

Definition latest (reqID id : string) (d : Deps) : option Response :=
  i ← dIndex d;
  Some (match Asset.LookupAsset i id with
        | None => writeError reqID 404 (Text "asset not found")
        | Some ref =>
            let metrics := default [] (AssetMetrics id (dLatest d)) in
            let a := rAsset ref in
            mkResponse 200 (BLatest (Asset.aID a) (Asset.aClass a) (Asset.aSource a) (zlength metrics) metrics)
        end).

(** The entry of one topic; a topic without a tag would be a nil dereference. *)
Definition topic_view (i : Asset.Index) (l : Latest) (t : string) : option topicView :=
  (fun tr => mkTopicView t (Asset.aID (rAsset (trAsset tr))) (Asset.tName (trTag tr)) (Asset.aSource (rAsset (trAsset tr)))
     (mQuality <$> TopicMetric t l) (mTimestamp <$> TopicMetric t l)) <$> Asset.TagByTopic i t.

Definition selected (filter t : string) : bool := String.eqb filter "" || MatchFilter filter t.

Definition lifecycle_topics (p : Asset.Plant) : list string :=
  concat (map (fun s => [LifecycleTopic (Asset.Enterprise p) (Asset.Site p) (Asset.Name s) Birth;
                         LifecycleTopic (Asset.Enterprise p) (Asset.Site p) (Asset.Name s) Death]) (Asset.Sources p)).

Definition topics (reqID filter : string) (d : Deps) : option Response :=
  match (if String.eqb filter "" then Ok tt else ValidateFilter filter) with
  | Err e => Some (writeError reqID 400 (FilterError e))
  | Ok _ =>
      i ← dIndex d;
      let p := Asset.iPlant i in
      out ← mapM (topic_view i (dLatest d)) (List.filter (selected filter) (Asset.Topics i));
      Some (mkResponse 200 (BTopics (Asset.Enterprise p ++ "/" ++ Asset.Site p)%string (zlength out) out (lifecycle_topics p)))
  end.

Definition sources (d : Deps) : option Response :=
  h ← dHealth d;
  snap ← Poller.Snapshot h;
  Some (mkResponse 200 (BSources (count_up snap) (zlength snap) snap)).

Definition bridgeStats (d : Deps) : Response := mkResponse 200 (BBridge (Bridge.GetStats <$> dBridge d)).

(** ** Requests *)

Inductive Route :=
| GetHealthz
| GetReadyz
| GetAssets
| GetAsset (id : string)
| GetLatest (asset : string)
| GetTopics (filter : string)
| GetSources
| GetBridge.

Definition dispatch (d : Deps) (reqID : string) (r : Route) : option Response :=
  match r with
  | GetHealthz => Some (healthz d)
  | GetReadyz => readyz d
  | GetAssets => assets d
  | GetAsset id => asset reqID id d
  | GetLatest id => latest reqID id d
  | GetTopics f => topics reqID f d
  | GetSources => sources d
  | GetBridge => Some (bridgeStats d)
  end.

(** [requestID]: the caller's identifier, or [fresh] when it is missing or long. *)
Definition requestID (header fresh : string) : string :=
  if String.eqb header "" || (128 <? String.length header)%nat then fresh else header.

(** [recoverer]: the identifier is in the request that [next] got, not in this one. *)
Definition recoverer (r : option Response) : Response :=
  match r with Some r => r | None => writeError "" 500 (Text "internal error") end.

Definition ServeHTTP (d : Deps) (header fresh : string) (r : Route) : Response :=
  recoverer (dispatch d (requestID header fresh) r).
End Server.
Arguments Deps : clear implicits.

(** ** The event stream

    [handler] is called by the broker for every message of the subscription,
    at any time; the client's loop takes messages from the channel and beats. *)
Inductive chunk :=
| Subscribed
| Heartbeat (dropped : Z)
| Event (id : Z) (m : Message).

Record stream := mkStream { chan : list Message; cap : Z; sDropped : Z; sId : Z; written : list chunk }.

Definition open_stream (buffer : Z) : stream := mkStream [] buffer 0 0 [Subscribed].

Inductive sse_action := Deliver (m : Message) | Beat | Take.

(** [select { case ch <- m: default: dropped.Add(1) }]. *)
Definition handler (m : Message) (s : stream) : stream :=
  if zlength (chan s) <? cap s
  then mkStream (chan s ++ [m]) (cap s) (sDropped s) (sId s) (written s)
  else mkStream (chan s) (cap s) (i64 (sDropped s + 1)) (sId s) (written s).

Definition beat (s : stream) : stream :=
  mkStream (chan s) (cap s) (sDropped s) (sId s) (written s ++ [Heartbeat (sDropped s)]).

(** Taking from an empty channel blocks: nothing happens. *)
Definition take_one (s : stream) : stream :=
  match chan s with
  | [] => s
  | m :: rest => let id := u64 (sId s + 1) in mkStream rest (cap s) (sDropped s) id (written s ++ [Event id m])
  end.

Definition sse_step (s : stream) (a : sse_action) : stream :=
  match a with Deliver m => handler m s | Beat => beat s | Take => take_one s end.

Definition sse_run (buffer : Z) (acts : list sse_action) : stream := fold_left sse_step acts (open_stream buffer).

(** The subscription of a stream: its filter, when it is accepted. *)
Definition stream_filter (topic : string) : result UnsError string :=
  let filter := if String.eqb topic "" then "#" else topic in
  match ValidateFilter filter with Err e => Err e | Ok _ => Ok filter end.

(** What the broker delivered and what the client got. *)
Definition delivered (acts : list sse_action) : list Message :=
  omap (fun a => match a with Deliver m => Some m | _ => None end) acts.

Definition received (cs : list chunk) : list Message :=
  omap (fun c => match c with Event _ m => Some m | _ => None end) cs.

Definition ids (cs : list chunk) : list Z := omap (fun c => match c with Event i _ => Some i | _ => None end) cs.

(** ** Lemmas *)

Definition numbered (n : nat) : list Z := map (fun i => Z.of_nat i + 1) (seq 0 n).

Lemma numbered_S n : numbered (S n) = numbered n ++ [Z.of_nat n + 1].
Proof. unfold numbered. rewrite seq_S, map_app. done. Qed.

(** The state of a stream against the history of its actions. *)
Record accounted (buffer : Z) (acts : list sse_action) (s : stream) : Prop := {
  ac_cap : cap s = buffer /\ zlength (chan s) <= buffer;
  ac_order : sublist (received (written s) ++ chan s) (delivered acts);
  ac_count : zlength (delivered acts) = zlength (received (written s)) + zlength (chan s) + sDropped s;
  ac_dropped : 0 <= sDropped s;
  ac_ids : ids (written s) = numbered (length (received (written s)));
  ac_id : sId s = zlength (received (written s))
}.

Lemma received_app a b : received (a ++ b) = received a ++ received b.
Proof. apply omap_app. Qed.
Lemma ids_app a b : ids (a ++ b) = ids a ++ ids b.
Proof. apply omap_app. Qed.
Lemma delivered_app a b : delivered (a ++ b) = delivered a ++ delivered b.
Proof. apply omap_app. Qed.

Lemma stream_step_accounted buffer acts s a :
  0 < buffer -> zlength acts < 2 ^ 62 -> accounted buffer acts s -> accounted buffer (acts ++ [a]) (sse_step s a).
Proof.
  intros Hb Hn [[Hc Hl] Ho Hk Hd Hi Hs].
  assert (zlength (delivered acts) <= zlength acts) as Hlen.
  { unfold zlength, delivered. clear. induction acts as [|[] acts IH]; cbn [length omap list_omap]; lia. }
  pose proof (zlength_nonneg (received (written s))). pose proof (zlength_nonneg (chan s)).
  destruct a as [m| |]; cbn [sse_step].
  - unfold handler. destruct (Z.ltb_spec (zlength (chan s)) (cap s)).
    + constructor; cbn [cap chan written sDropped sId]; rewrite ?delivered_app, ?zlength_app; cbn; try done.
      * split; [done|]. rewrite zlength_cons, zlength_nil. lia.
      * rewrite app_assoc. by apply sublist_app.
      * rewrite !zlength_cons, !zlength_nil. lia.
    + assert (i64 (sDropped s + 1) = sDropped s + 1) as -> by (apply swrap_id; [lia|]; unfold in_s; lia).
      constructor; cbn [cap chan written sDropped sId]; rewrite ?delivered_app, ?zlength_app; cbn; try done; try lia.
      * by apply sublist_inserts_r.
      * rewrite !zlength_cons, !zlength_nil. lia.
  - unfold beat. constructor; cbn [cap chan written sDropped sId];
      rewrite ?delivered_app, ?received_app, ?ids_app, ?zlength_app; cbn; rewrite ?app_nil_r, ?zlength_nil; try done; lia.
  - unfold take_one. destruct (chan s) as [|m rest] eqn:Ec.
    + constructor; rewrite ?Ec, ?delivered_app, ?zlength_app; cbn; rewrite ?app_nil_r, ?zlength_nil in *; try done; try lia.
    + assert (u64 (sId s + 1) = sId s + 1) as -> by (apply uwrap_id; unfold in_u; rewrite zlength_cons in *; lia).
      rewrite zlength_cons in *.
      constructor; cbn [cap chan written sDropped sId];
        rewrite ?delivered_app, ?received_app, ?ids_app, ?zlength_app, ?length_app; cbn;
        rewrite ?app_nil_r, ?zlength_cons, ?zlength_nil; try done; try lia.
      * by rewrite <-app_assoc.
      * rewrite Nat.add_1_r, numbered_S, Hi. unfold zlength in Hs. by rewrite Hs.
Qed.

Lemma stream_accounted buffer acts :
  0 < buffer -> zlength acts < 2 ^ 62 -> accounted buffer acts (sse_run buffer acts).
Proof.
  intros Hb. induction acts as [|a acts IH] using rev_ind; intros Hn.
  - constructor; cbn; try done. split; [done|]. rewrite zlength_nil. lia.
  - unfold sse_run. rewrite fold_left_app. rewrite zlength_app, zlength_cons, zlength_nil in Hn.
    apply stream_step_accounted; [done|lia|]. apply IH. lia.
Qed.

(** ** Properties *)

(** C29: a slow client loses messages, and knows how many. Whatever the broker
    delivers and however slowly the client takes it, no more than the buffer
    is held; what the client received, then what is held, is a subsequence of
    the deliveries in their order; the messages missing from it are exactly
    those the heartbeats announce as dropped; and the events are numbered from
    1 without a gap. *)
Theorem stream_conserves (buffer : Z) (acts : list sse_action) :
  0 < buffer -> zlength acts < 2 ^ 62 ->
  let s := sse_run buffer acts in
  zlength (chan s) <= buffer /\
  sublist (received (written s) ++ chan s) (delivered acts) /\
  sDropped s = zlength (delivered acts) - zlength (received (written s) ++ chan s) /\ 0 <= sDropped s /\
  ids (written s) = numbered (length (received (written s))) /\
  last (written (sse_run buffer (acts ++ [Beat]))) = Some (Heartbeat (sDropped s)).
Proof.
  intros Hb Hn s. destruct (stream_accounted buffer acts Hb Hn) as [[_ H1] H2 H3 H4 H5 _]. fold s in H1, H2, H3, H4, H5.
  split_and!; try done.
  - rewrite zlength_app. lia.
  - unfold sse_run. rewrite fold_left_app. cbn. by rewrite last_snoc.
Qed.

Lemma stream_conserves_witness :
  let m t := mkMessage t [x31] false 0 in
  let s := sse_run 2 [Deliver (m "a"); Deliver (m "b"); Deliver (m "c"); Take; Deliver (m "d")] in
  received (written s) ++ chan s = [m "a"; m "b"; m "d"] /\ sDropped s = 4 - 3.
Proof.
  cbv zeta. split; [by vm_compute|].
  destruct (stream_conserves 2 [Deliver (mkMessage "a" [x31] false 0); Deliver (mkMessage "b" [x31] false 0);
    Deliver (mkMessage "c" [x31] false 0); Take; Deliver (mkMessage "d" [x31] false 0)]) as (_ & _ & H & _);
    [done|done|]. rewrite H. by vm_compute.
Defined.

Lemma StronglySorted_filter {A} (R : relation A) (f : A -> bool) xs :
  StronglySorted R xs -> StronglySorted R (List.filter f xs).
Proof.
  induction 1 as [|x xs _ IH Hx]; [constructor|]. cbn. destruct (f x); [|done]. constructor; [done|].
  apply Forall_forall. intros y Hy. apply list_elem_of_In, filter_In in Hy as [Hy%list_elem_of_In _].
  by apply (proj1 (Forall_forall _ _) Hx).
Qed.

(** The entry a tag has on the topics page. *)
Definition view_of (l : Latest) (tr : TagRef) : topicView :=
  mkTopicView (topic_of tr) (Asset.aID (rAsset (trAsset tr))) (Asset.tName (trTag tr)) (Asset.aSource (rAsset (trAsset tr)))
    (mQuality <$> TopicMetric (topic_of tr) l) (mTimestamp <$> TopicMetric (topic_of tr) l).

Lemma topic_views p l ts : Asset.well_formed p -> Forall (fun t => t ∈ map topic_of (Asset.tag_refs p)) ts ->
  exists vs, mapM (topic_view (Asset.MakeIndex p) l) ts = Some vs /\ map tpTopic vs = ts /\
    Forall (fun v => exists tr, tr ∈ Asset.tag_refs p /\ v = view_of l tr) vs.
Proof.
  intros H. induction 1 as [|t ts Ht _ (vs & E & Em & Hf)]; [by exists []|].
  apply list_elem_of_fmap in Ht as (tr & -> & Hin). exists (view_of l tr :: vs).
  split; [|split; [cbn; by rewrite Em|constructor; [by exists tr|done]]].
  assert (topic_view (Asset.MakeIndex p) l (topic_of tr) = Some (view_of l tr)) as Ev.
  { unfold topic_view. by rewrite (proj2 (AssetIndex.TagByTopic_iff p (topic_of tr) tr H)). }
  cbn [mapM]. rewrite Ev. cbn [mbind option_bind]. by rewrite E.
Qed.

Section ServerSpec.
Context {B Q E : Type} `{!QueueOps Q E}.
Variable ready : B -> bool.

Lemma topics_ok (p : Asset.Plant) (d : Deps B Q) id filter :
  Asset.well_formed p -> dIndex d = Some (Asset.MakeIndex p) ->
  filter = "" \/ ValidateFilter filter = Ok tt ->
  exists vs, topics id filter d = Some (mkResponse 200 (BTopics (Asset.Enterprise p ++ "/" ++ Asset.Site p)%string
      (zlength vs) vs (lifecycle_topics p))) /\
    map tpTopic vs = List.filter (selected filter) (Asset.Topics (Asset.MakeIndex p)) /\
    Forall (fun v => exists tr, tr ∈ Asset.tag_refs p /\ v = view_of (dLatest d) tr) vs.
Proof.
  intros H Hd Hf. destruct (topic_views p (dLatest d) (List.filter (selected filter) (Asset.Topics (Asset.MakeIndex p))) H)
    as (vs & E1 & E2 & E3).
  { apply Forall_forall. intros t Ht. apply list_elem_of_In, filter_In in Ht as [Ht%list_elem_of_In _].
    by rewrite (proj1 (AssetIndex.Topics_sorted p)) in Ht. }
  exists vs. split; [|done]. unfold topics.
  assert ((if String.eqb filter "" then Ok tt else ValidateFilter filter) = Ok tt) as ->.
  { destruct Hf as [-> | ->]; [done|by destruct (String.eqb filter "")]. }
  rewrite Hd. cbn [mbind option_bind]. rewrite E1. cbn [mbind option_bind]. by rewrite AssetIndex.MakeIndex_plant.
Qed.

Lemma dispatch_total (p : Asset.Plant) (d : Deps B Q) h id r :
  Asset.well_formed p -> dIndex d = Some (Asset.MakeIndex p) -> dHealth d = Some h -> Poller.listed h ->
  exists resp, dispatch ready d id r = Some resp /\ status resp <> 500.
Proof.
  intros H Hi Hh Hl. destruct (Poller.Snapshot_listed h Hl) as (snap & Es & _).
  destruct r; cbn [dispatch].
  - by eexists.
  - unfold readyz. rewrite Hi, Hh. destruct (Asset.TagCount _ =? 0), (dBroker d) as [b|]; try destruct (ready b);
      rewrite Es; cbn; by eexists.
  - unfold assets. rewrite Hi. by eexists.
  - unfold asset. rewrite Hi. cbn. destruct (Asset.LookupAsset _ _); by eexists.
  - unfold latest. rewrite Hi. cbn. destruct (Asset.LookupAsset _ _); by eexists.
  - destruct (String.eqb_spec filter "") as [->|Hne].
    { destruct (topics_ok p d id "" H Hi) as (vs & -> & _); [by left|]. by eexists. }
    destruct (ValidateFilter filter) as [[]|e] eqn:Ef.
    + destruct (topics_ok p d id filter H Hi) as (vs & -> & _); [by right|]. by eexists.
    + unfold topics. apply String.eqb_neq in Hne. rewrite Hne, Ef. by eexists.
  - unfold sources. rewrite Hh. cbn. rewrite Es. by eexists.
  - by eexists.
Qed.

(** C33: the topics page is the plant. With an empty or valid filter the answer
    lists, sorted and once each, exactly the data topics of the validated
    plant that match it, every entry with the asset, tag and source that own
    the topic and the quality and time of its last value if it has one; a
    filter that is not valid is refused with 400. *)
Theorem topics_complete (p : Asset.Plant) (d : Deps B Q) (header fresh filter : string) :
  Asset.Validate p = [] -> dIndex d = Some (Asset.MakeIndex p) ->
  (forall e, filter <> "" -> ValidateFilter filter = Err e ->
     ServeHTTP ready d header fresh (GetTopics filter) =
     mkResponse 400 (BError (FilterError e) (requestID header fresh))) /\
  (filter = "" \/ ValidateFilter filter = Ok tt ->
   exists vs, ServeHTTP ready d header fresh (GetTopics filter) =
       mkResponse 200 (BTopics (Asset.Enterprise p ++ "/" ++ Asset.Site p)%string (zlength vs) vs (lifecycle_topics p)) /\
     Sorted stdpp.strings.String.le (map tpTopic vs) /\ NoDup (map tpTopic vs) /\
     (forall v, v ∈ vs <-> exists tr, tr ∈ Asset.tag_refs p /\ selected filter (topic_of tr) = true /\
                                   v = view_of (dLatest d) tr)).
Proof.
  intros H%AssetIndex.Validate_well_formed Hi. split.
  - intros e Hne He. unfold ServeHTTP, dispatch, topics. apply String.eqb_neq in Hne. by rewrite Hne, He.
  - intros Hf. destruct (topics_ok p d (requestID header fresh) filter H Hi Hf) as (vs & E1 & E2 & E3).
    pose proof (AssetIndex.Topics_sorted p) as [Hp Hs]. exists vs.
    split; [unfold ServeHTTP, dispatch; by rewrite E1|]. rewrite E2.
    split; [by apply StronglySorted_Sorted, StronglySorted_filter|].
    split; [apply NoDup_ListNoDup, List.NoDup_filter, NoDup_ListNoDup; rewrite Hp; apply (Asset.wf_topics p H)|].
    intros v. split.
    + intros Hv. destruct (proj1 (Forall_forall _ _) E3 v Hv) as (tr & Htr & ->). exists tr. split_and!; try done.
      assert (topic_of tr ∈ map tpTopic vs) as Hin by (apply list_elem_of_fmap; by exists (view_of (dLatest d) tr)).
      rewrite E2 in Hin. by apply list_elem_of_In, filter_In in Hin as [_ ?].
    + intros (tr & Htr & Hsel & ->).
      assert (topic_of tr ∈ map tpTopic vs) as (v & Ev & Hv)%list_elem_of_fmap.
      { rewrite E2. apply list_elem_of_In, filter_In. split; [|done]. apply list_elem_of_In. rewrite Hp.
        by apply list_elem_of_fmap_2. }
      destruct (proj1 (Forall_forall _ _) E3 v Hv) as (tr' & Htr' & ->). cbn in Ev.
      assert (Asset.TagByTopic (Asset.MakeIndex p) (topic_of tr) = Some tr) as E4 by (by apply AssetIndex.TagByTopic_iff).
      assert (Asset.TagByTopic (Asset.MakeIndex p) (topic_of tr) = Some tr') as E5 by (by apply AssetIndex.TagByTopic_iff).
      congruence.
Qed.

(** No request panics. On the index of a validated plant and a registry
    whose sources are registered, every route answers, and never with 500. *)
Theorem api_never_500 (p : Asset.Plant) (d : Deps B Q) (h : Poller.Health) (header fresh : string) (r : Route) :
  Asset.Validate p = [] -> dIndex d = Some (Asset.MakeIndex p) -> dHealth d = Some h -> Poller.listed h ->
  status (ServeHTTP ready d header fresh r) <> 500.
Proof.
  intros H%AssetIndex.Validate_well_formed Hi Hh Hl.
  destruct (dispatch_total p d h (requestID header fresh) r H Hi Hh Hl) as (resp & E1 & E2).
  unfold ServeHTTP. by rewrite E1.
Qed.
End ServerSpec.

(** A server for plant_modbus over the in-memory broker and queue. *)
Definition sample_deps : Deps Memory.Broker.Broker Memory.MemQueue.Queue :=
  NewServer (mkDeps (Some (Asset.MakeIndex (Asset.applyDefaults Plants.plant_modbus))) NewLatest
    (Some (Poller.Register "plc-line-1" "modbus" Poller.NewHealth)) (Some Memory.Broker.NewBroker) None "dev" 0 0).

Lemma topics_complete_witness :
  exists vs, ServeHTTP Memory.Broker.Ready sample_deps "" "id-1" (GetTopics "acme/austin/packaging/+/utilities/#") =
    mkResponse 200 (BTopics "acme/austin" (zlength vs) vs (lifecycle_topics (Asset.applyDefaults Plants.plant_modbus))) /\
    length vs = 2%nat.
Proof.
  destruct (topics_complete Memory.Broker.Ready (Asset.applyDefaults Plants.plant_modbus) sample_deps "" "id-1"
    "acme/austin/packaging/+/utilities/#") as [_ H]; [by vm_compute|done|].
  destruct H as (vs & E1 & _); [right; by vm_compute|]. exists vs. split; [exact E1|]. vm_compute in E1.
  injection E1 as _ <-. by vm_compute.
Defined.

Lemma api_never_500_witness :
  status (ServeHTTP Memory.Broker.Ready sample_deps "caller" "id-1" (GetLatest "air-01")) <> 500.
Proof.
  apply (api_never_500 Memory.Broker.Ready (Asset.applyDefaults Plants.plant_modbus) sample_deps
    (Poller.Register "plc-line-1" "modbus" Poller.NewHealth)); [by vm_compute|done|done|].
  by apply Poller.Register_listed; constructor.
Defined.
