(* ===== verification/HttpEvents.v ===== *)
(** * HttpEvents: the bytes of an event stream (internal/api/http/server.go)

    What [stream] writes for each chunk. A payload that is JSON is embedded as
    it is, compacted by the encoder; any other is sent as a string. An event
    must stay one event whatever a device put in its payload. *)
From Stdlib Require Import ZArith Lia Strings.Ascii.
From S2P Require Import Prelude GoBytes Uns Ports Http.

Open Scope string_scope.
Open Scope list_scope.
Open Scope Z_scope.

(** ** Compaction

    encoding/json writes a [json.RawMessage] without the spaces outside its
    strings, and escapes what HTML or JavaScript would take for something
    else. *)
Inductive mode := Outside | Inside | Escaped.

Definition next_mode (m : mode) (c : ascii) : mode :=
  match m with
  | Outside => if Ascii.eqb c char_quote then Inside else Outside
  | Inside => if Ascii.eqb c char_quote then Outside else if Ascii.eqb c char_backslash then Escaped else Inside
  | Escaped => Inside
  end.

Definition json_space (c : ascii) : bool := (code c =? 32) || (code c =? 9) || (code c =? 10) || (code c =? 13).
Definition html_char (c : ascii) : bool := (code c =? 60) || (code c =? 62) || (code c =? 38).

Fixpoint compact (m : mode) (s : string) : string :=
  match s with
  | EmptyString => EmptyString
  | String c r =>
      if match m with Outside => json_space c | _ => false end then compact m r
      else if html_char c then (unicode_escape (code c) ++ compact (next_mode m c) r)%string
      else
        match r with
        | String b (String d r') =>
            if String.eqb (str3 c b d) line_separator then (unicode_escape 8232 ++ compact (next_mode m c) r')%string
            else if String.eqb (str3 c b d) paragraph_separator then (unicode_escape 8233 ++ compact (next_mode m c) r')%string
            else String c (compact (next_mode m c) r)
        | _ => String c (compact (next_mode m c) r)
        end
  end.

(** [json.Valid]. *)
Definition json_valid (s : string) : bool := match parse s with Some _ => true | None => false end.

(** ** Frames *)

Definition newline : string := str1 char_lf.

(** The text of the payload inside the event. *)
Definition payload_text (payload : list byte) : string :=
  let s := string_of payload in compact Outside (if json_valid s then s else quote s).

(** The object of an event: [retain] is left out when false. *)
Definition event_body (m : Message) : string :=
  ("{" ++ quote "topic" ++ ":" ++ quote (Topic m) ++ (if Retain m then "," ++ quote "retain" ++ ":true" else "") ++
   "," ++ quote "payload" ++ ":" ++ payload_text (Ports.Payload m) ++ "}")%string.

Definition chunk_text (c : chunk) : string :=
  (match c with
   | Subscribed => ": subscribed" ++ newline ++ newline
   | Heartbeat n => ": heartbeat dropped=" ++ FormatInt n ++ newline ++ newline
   | Event id m => "id: " ++ FormatUint id ++ newline ++ "event: message" ++ newline ++ "data: " ++ event_body m ++ newline ++ newline
   end)%string.

(** ** Lemmas *)

(** Units that stand for the same text, and keep doing so whatever follows. *)
Inductive same_units : list unit16 -> list unit16 -> Prop :=
| su_nil : same_units [] []
| su_cons u us vs : same_units us vs -> same_units (u :: us) (u :: vs)
| su_html c us vs : html_char c = true -> same_units us vs -> same_units (Raw c :: us) (U16 (code c) :: vs)
| su_line us vs : same_units us vs -> same_units (Raw "226" :: Raw "128" :: Raw "168" :: us) (U16 8232 :: vs)
| su_paragraph us vs : same_units us vs -> same_units (Raw "226" :: Raw "128" :: Raw "169" :: us) (U16 8233 :: vs).

Lemma same_units_app us vs us' vs' : same_units us vs -> same_units us' vs' -> same_units (us ++ us') (vs ++ vs').
Proof. induction 1; intros H'; cbn; try constructor; auto. Qed.

Lemma html_text c : html_char c = true -> utf8_encode (code c) = str1 c /\ high (code c) = false /\ low (code c) = false.
Proof.
  intros H. pose proof (ascii_all (fun c => implb (html_char c) (String.eqb (utf8_encode (code c)) (str1 c) &&
    negb (high (code c)) && negb (low (code c)))) ltac:(by vm_compute) c) as Hall. cbn beta in Hall. rewrite H in Hall. cbn in Hall.
  apply andb_true_iff in Hall as [[E%String.eqb_eq ?%negb_true_iff]%andb_true_iff ?%negb_true_iff]. done.
Qed.

(** The text of units after which no low surrogate stands. *)
Lemma units_text_U16 v us : high v = false -> units_text (U16 v :: us) = (utf8_encode (scalar v) ++ units_text us)%string.
Proof. intros H. cbn [units_text]. rewrite H. by destruct us as [|[|] ?]. Qed.

Lemma units_text_pair h l us : units_text (U16 h :: U16 l :: us) =
  if high h && low l then (utf8_encode (65536 + (h - 55296) * 1024 + (l - 56320)) ++ units_text us)%string
  else (utf8_encode (scalar h) ++ units_text (U16 l :: us))%string.
Proof. done. Qed.

Lemma units_text_raw h c us : units_text (U16 h :: Raw c :: us) = (utf8_encode (scalar h) ++ units_text (Raw c :: us))%string.
Proof. done. Qed.

Lemma same_units_texts us vs : same_units us vs ->
  units_text us = units_text vs /\
  forall l us' vs', us = U16 l :: us' -> vs = U16 l :: vs' -> units_text us' = units_text vs'.
Proof.
  induction 1 as [|u us vs H [IH1 IH2]|c us vs Hc H [IH1 IH2]|us vs H [IH1 IH2]|us vs H [IH1 IH2]]; [done|..].
  - split; [|by intros l us' vs' [= -> ->] [= <-]]. destruct u as [c|v]; [cbn; by rewrite IH1|].
    destruct H as [|[c|l] us vs H|c us vs Hc H|us vs H|us vs H]; [done|..]; rewrite ?units_text_raw, ?units_text_pair.
    + by rewrite IH1.
    + rewrite IH1. by rewrite (IH2 l us vs).
    + destruct (html_text c Hc) as (_ & _ & ->). by rewrite andb_false_r, IH1.
    + change (low 8232) with false. by rewrite andb_false_r, IH1.
    + change (low 8233) with false. by rewrite andb_false_r, IH1.
  - split; [|done]. destruct (html_text c Hc) as (E1 & E2 & E3). rewrite units_text_U16 by done. unfold scalar. rewrite E2, E3. cbn [orb].
    rewrite E1. cbn [units_text]. by rewrite IH1.
  - split; [|done]. rewrite units_text_U16 by done. cbn [units_text]. by rewrite IH1.
  - split; [|done]. rewrite units_text_U16 by done. cbn [units_text]. by rewrite IH1.
Qed.

(** The scanner on a text and on what compaction makes of it. *)
Inductive same_state : mode -> lex_state -> lex_state -> Prop :=
| ss_between : same_state Outside Between Between
| ss_word w : same_state Outside (InWord w) (InWord w)
| ss_str us vs : same_units us vs -> same_state Inside (InStr us) (InStr vs)
| ss_hex us vs n v : same_units us vs -> same_state Inside (InHex us n v) (InHex vs n v)
| ss_esc us vs : same_units us vs -> same_state Escaped (InEsc us) (InEsc vs).

Definition word_token (t : token) : bool :=
  match t with TNull | TTrue | TFalse | TNum _ => true | _ => false end.

(** No two words side by side, as in every valid text. *)
Fixpoint apart (ts : list token) : bool :=
  match ts with
  | t :: ((u :: _) as rest) => negb (word_token t && word_token u) && apart rest
  | _ => true
  end.

Lemma word_is_token w t : word w = Some t -> word_token t = true.
Proof. unfold word. repeat case_match; by intros [= <-]. Qed.

Lemma apart_cons t ts : apart (t :: ts) = true -> apart ts = true /\ (word_token t = true -> match ts with u :: _ => word_token u = false | [] => True end).
Proof.
  destruct ts as [|u ts]; [done|]. cbn [apart]. rewrite andb_true_iff, negb_true_iff. intros [H ?]. split; [done|].
  intros Ht. by rewrite Ht in H.
Qed.

Lemma apart_tail ts ts' : apart (ts ++ ts') = true -> apart ts' = true.
Proof. induction ts as [|t ts IH]; [done|]. intros H. apply IH. by destruct (apart_cons t (ts ++ ts') H). Qed.

(** A word that was begun becomes the first token. *)
Lemma lex_in_word w s ts : lex (InWord w) s = Some ts -> exists t ts', ts = t :: ts' /\ word_token t = true.
Proof.
  revert w ts. induction s as [|c s IH]; intros w ts H.
  - cbn [lex] in H. destruct (word w) as [t|] eqn:E; [|done]. injection H as <-. exists t, []. split; [done|]. by apply word_is_token in E.
  - cbn [lex lex_char] in H. destruct (word_char c).
    + cbn [mbind option_bind] in H. destruct (lex _ s) as [ts'|] eqn:E; [|done]. injection H as <-. by apply IH in E.
    + destruct (word w) as [t|] eqn:E; [|done]. cbn [mbind option_bind] in H. destruct (between c) as [[st us]|]; [|done].
      cbn [mbind option_bind] in H. destruct (lex st s) as [ts'|]; [|done]. injection H as <-. exists t, (us ++ ts').
      split; [done|]. by apply word_is_token in E.
Qed.

(** One step of the scanner. *)
Lemma lex_step st c s ts : lex st (String c s) = Some ts ->
  exists st' us rest, lex_char st c = Some (st', us) /\ lex st' s = Some rest /\ ts = us ++ rest.
Proof.
  cbn [lex]. destruct (lex_char st c) as [[st' us]|]; [|done]. cbn [mbind option_bind]. destruct (lex st' s) as [rest|] eqn:E; [|done].
  intros [= <-]. by exists st', us, rest.
Qed.

Lemma lex_steps st c s st' us rest : lex_char st c = Some (st', us) -> lex st' s = Some rest -> lex st (String c s) = Some (us ++ rest).
Proof. intros H1 H2. cbn [lex]. rewrite H1. cbn [mbind option_bind]. by rewrite H2. Qed.

(** What a character is outside a string. *)
Lemma between_cases c st us : between c = Some (st, us) ->
  (word_char c = true /\ st = InWord (str1 c) /\ us = [] /\ json_space c = false /\ html_char c = false /\ code c < 128) \/
  (word_char c = false /\ c = char_quote /\ st = InStr [] /\ us = []) \/
  (word_char c = false /\ st = Between /\ us = [] /\ json_space c = true) \/
  (word_char c = false /\ st = Between /\ json_space c = false /\ html_char c = false /\ c <> char_quote /\ code c < 128 /\ exists t, us = [t]).
Proof.
  destruct c as [[] [] [] [] [] [] [] []]; cbn; intros H; try discriminate; injection H as <- <-;
    first [ left; by split_and! | right; left; by split_and! | right; right; left; by split_and!
          | right; right; right; split_and!; try done; by eexists ].
Qed.

(** Characters that compaction copies. *)
Lemma compact_ascii m c r : code c < 128 -> html_char c = false -> (m = Outside -> json_space c = false) ->
  compact m (String c r) = String c (compact (next_mode m c) r).
Proof.
  intros Hc Hh Hs. cbn [compact]. assert (match m with Outside => json_space c | _ => false end = false) as -> by (by destruct m; auto).
  rewrite Hh. destruct r as [|b [|d r]]; try done.
  destruct (String.eqb_spec (str3 c b d) line_separator) as [[= -> -> ->]|_]; [by vm_compute in Hc|].
  destruct (String.eqb_spec (str3 c b d) paragraph_separator) as [[= -> -> ->]|_]; [by vm_compute in Hc|done].
Qed.

Lemma char_facts (P Q : ascii -> bool) c : forallb (fun c => implb (P c) (Q c)) all_ascii = true -> P c = true -> Q c = true.
Proof. intros H Hc. pose proof (ascii_all _ H c) as H'. cbn beta in H'. by rewrite Hc in H'. Qed.

(** A character with nothing special about it. *)
Definition ordinary (c : ascii) : bool :=
  (code c <? 128) && negb (html_char c) && negb (Ascii.eqb c char_quote) && negb (Ascii.eqb c char_backslash) && negb (json_space c).

Lemma ordinary_spec c : ordinary c = true -> code c < 128 /\ html_char c = false /\ json_space c = false /\
  (forall m, m <> Escaped -> next_mode m c = m).
Proof.
  unfold ordinary. rewrite !andb_true_iff, !negb_true_iff, Z.ltb_lt. intros [[[[H1 H2] H3] H4] H5]. split_and!; try done.
  intros [] Hm; cbn; rewrite ?H3, ?H4; done.
Qed.

Lemma word_ordinary c : word_char c = true -> ordinary c = true.
Proof. by apply char_facts. Qed.

Lemma hex_ordinary c d : hex_value c = Some d -> ordinary c = true.
Proof.
  intros H. apply (char_facts (fun c => match hex_value c with Some _ => true | None => false end)); [by vm_compute|]. by rewrite H.
Qed.

Lemma escape_plain c : Ascii.eqb c "u" || match simple_escape c with Some _ => true | None => false end = true ->
  code c < 128 /\ html_char c = false.
Proof.
  intros H. apply (char_facts (fun c => Ascii.eqb c "u" || match simple_escape c with Some _ => true | None => false end)
    (fun c => (code c <? 128) && negb (html_char c))) in H; [|by vm_compute].
  apply andb_true_iff in H as [?%Z.ltb_lt ?%negb_true_iff]. done.
Qed.

Lemma scan_html us c : html_char c = true -> scan (InStr us) (unicode_escape (code c)) = Some (InStr (us ++ [U16 (code c)])).
Proof. destruct c as [[] [] [] [] [] [] [] []]; intros H; solve [discriminate | reflexivity]. Qed.

(** A line separator, or any other byte, inside a string. *)
Inductive high_case (c : ascii) (r : string) : Prop :=
| hc_sep r' v : r = (match v with 8232 => str2 "128" "168" | _ => str2 "128" "169" end ++ r')%string -> c = "226"%char ->
    v = 8232 \/ v = 8233 -> compact Inside (String c r) = (unicode_escape v ++ compact Inside r')%string -> high_case c r
| hc_copy : compact Inside (String c r) = String c (compact Inside r) -> high_case c r.

Lemma compact_high c r : 128 <= code c -> high_case c r.
Proof.
  intros Hc. assert (html_char c = false /\ next_mode Inside c = Inside) as [Hh Hm].
  { pose proof (ascii_all (fun c => implb (128 <=? code c) (negb (html_char c) && match next_mode Inside c with Inside => true | _ => false end))
      ltac:(by vm_compute) c) as H. cbn beta in H. rewrite (proj2 (Z.leb_le _ _) Hc) in H. cbn [implb] in H.
    apply andb_true_iff in H as [?%negb_true_iff ?]. split; [done|]. by destruct (next_mode Inside c). }
  destruct r as [|b [|d r]]; [apply hc_copy; cbn [compact]; by rewrite Hh, ?Hm..|].
  destruct (String.eqb_spec (str3 c b d) line_separator) as [E|N1].
  { injection E as -> -> ->. by apply (hc_sep _ _ r 8232); [|done|left|]. }
  destruct (String.eqb_spec (str3 c b d) paragraph_separator) as [E|N2].
  { injection E as -> -> ->. by apply (hc_sep _ _ r 8233); [|done|right|]. }
  apply hc_copy. cbn [compact]. rewrite Hh, Hm. apply String.eqb_neq in N1, N2. by rewrite N1, N2.
Qed.

Definition compacts (s : string) : Prop :=
  (forall m st st' ts, same_state m st st' -> lex st s = Some ts -> apart ts = true -> lex st' (compact m s) = Some ts) /\
  (forall w t ts, word w = Some t -> lex Between s = Some ts -> apart (t :: ts) = true -> lex (InWord w) (compact Outside s) = Some (t :: ts)).

Lemma compacts_between c r : compacts r -> forall ts, lex Between (String c r) = Some ts -> apart ts = true ->
  lex Between (compact Outside (String c r)) = Some ts.
Proof.
  intros [HA HB] ts H Ha. apply lex_step in H as (st & us & rest & Hc & Hr & ->). pose proof Hc as Hb. cbn [lex_char] in Hb.
  apply between_cases in Hb as [(Hw & -> & -> & Hs & Hh & H1)|[(_ & -> & -> & ->)|[(_ & -> & -> & Hs)|(_ & -> & Hs & Hh & Hq & H1 & t & ->)]]].
  - rewrite compact_ascii by done. apply word_ordinary, ordinary_spec in Hw as (_ & _ & _ & Hm).
    rewrite Hm by done. apply (lex_steps _ _ _ (InWord (str1 c))); [done|]. by apply (HA Outside (InWord (str1 c))); [constructor|..].
  - rewrite compact_ascii by done. apply (lex_steps _ _ _ (InStr [])); [done|]. by apply (HA Inside (InStr [])); [do 2 constructor|..].
  - cbn [compact]. rewrite Hs. by apply (HA Outside Between); [constructor|..].
  - rewrite compact_ascii by done. assert (next_mode Outside c = Outside) as -> by (cbn; by destruct (Ascii.eqb_spec c char_quote)).
    apply (lex_steps _ _ _ Between); [done|]. apply (HA Outside Between); [constructor|done|]. by apply apart_tail in Ha.
Qed.

(** A word that ends at this character. *)
Lemma compacts_after_word c r w t : compacts r -> word w = Some t -> word_char c = false ->
  forall ts, lex Between (String c r) = Some ts -> apart (t :: ts) = true -> lex (InWord w) (compact Outside (String c r)) = Some (t :: ts).
Proof.
  intros [HA HB] Ht Hw ts H Ha. apply lex_step in H as (st & us & rest & Hc & Hr & ->). pose proof Hc as Hb. cbn [lex_char] in Hb.
  assert (lex_char (InWord w) c = Some (st, t :: us)) as Hc' by (cbn [lex_char]; rewrite Hw, Ht; cbn in Hc |- *; by rewrite Hc).
  change (t :: us ++ rest) with ((t :: us) ++ rest) in *.
  apply between_cases in Hb as [(Hw' & _)|[(_ & -> & -> & ->)|[(_ & -> & -> & Hs)|(_ & -> & Hs & Hh & Hq & H1 & u & ->)]]].
  - congruence.
  - rewrite compact_ascii by done. apply (lex_steps _ _ _ (InStr [])); [done|]. apply (HA Inside (InStr [])); [do 2 constructor|done|].
    by apply apart_tail in Ha.
  - cbn [compact]. rewrite Hs. by apply HB.
  - rewrite compact_ascii by done. assert (next_mode Outside c = Outside) as -> by (cbn; by destruct (Ascii.eqb_spec c char_quote)).
    apply (lex_steps _ _ _ Between); [done|]. apply (HA Outside Between); [constructor|done|]. by apply apart_tail in Ha.
Qed.

(** Inside a string. *)
Lemma compacts_string c r us vs : compacts r -> (forall a b r', r = str2 a b ++ r' -> compacts r')%string -> same_units us vs ->
  forall ts, lex (InStr us) (String c r) = Some ts -> apart ts = true -> lex (InStr vs) (compact Inside (String c r)) = Some ts.
Proof.
  intros [HA HB] Hsep Hu ts H Ha. apply lex_step in H as (st & ts1 & rest & Hc & Hr & ->). cbn [lex_char] in Hc.
  assert (forall x ys, same_units (us ++ [Raw x]) (vs ++ ys) -> lex (InStr (us ++ [Raw x])) r = Some rest -> ts1 = [] ->
    lex (InStr (vs ++ ys)) (compact Inside r) = Some rest) as Hgo.
  { intros x ys Hs Hx E1. apply (HA Inside (InStr (us ++ [Raw x]))); [by constructor|done|]. by rewrite E1 in Ha. }
  destruct (Ascii.eqb_spec c char_quote) as [->|Nq].
  { injection Hc as <- <-. rewrite compact_ascii by done. rewrite (proj1 (same_units_texts _ _ Hu)).
    apply (lex_steps _ _ _ Between); [done|]. apply (HA Outside Between); [constructor|done|]. by apply apart_tail in Ha. }
  destruct (Ascii.eqb_spec c char_backslash) as [->|Nb].
  { injection Hc as <- <-. rewrite compact_ascii by done. apply (lex_steps _ _ _ (InEsc vs)); [done|].
    by apply (HA Escaped (InEsc us)); [constructor|..]. }
  destruct (Z.ltb_spec (code c) 32) as [|H32]; [done|]. injection Hc as <- <-. cbn [app].
  assert (lex_char (InStr vs) c = Some (InStr (vs ++ [Raw c]), [])) as Hv.
  { cbn [lex_char]. apply Ascii.eqb_neq in Nq, Nb. by rewrite Nq, Nb, (proj2 (Z.ltb_ge _ _) H32). }
  assert (same_units (us ++ [Raw c]) (vs ++ [Raw c])) as Hraw by (apply same_units_app; [done|repeat constructor]).
  assert (lex (InStr vs) (String c (compact Inside r)) = Some rest) as Hcopy by (apply (lex_steps _ _ _ _ _ _ Hv); by apply (Hgo c)).
  destruct (Z.ltb_spec (code c) 128) as [Hlow|Hhigh].
  - destruct (html_char c) eqn:Hh.
    + cbn [compact]. rewrite Hh. assert (next_mode Inside c = Inside) as ->.
      { cbn. apply Ascii.eqb_neq in Nq, Nb. by rewrite Nq, Nb. }
      rewrite (scan_lex _ _ _ _ (scan_html vs c Hh)). apply (Hgo c); [|done..]. apply same_units_app; [done|]. by repeat constructor.
    + rewrite compact_ascii by done. assert (next_mode Inside c = Inside) as -> by (cbn; apply Ascii.eqb_neq in Nq, Nb; by rewrite Nq, Nb). done.
  - destruct (compact_high c r Hhigh) as [r' v -> -> Hv8 -> | -> ]; [|done].
    assert (exists x, (v = 8232 /\ x = "168"%char) \/ (v = 8233 /\ x = "169"%char)) as [x Hx] by (destruct Hv8 as [-> | ->]; eauto).
    assert ((match v with 8232 => str2 "128" "168" | _ => str2 "128" "169" end ++ r')%string = (str2 "128" x ++ r')%string) as E1
      by (by destruct Hx as [[-> ->]|[-> ->]]).
    rewrite E1 in *. specialize (Hsep "128"%char x r' eq_refl) as [HA' _].
    change (str2 "128" x ++ r')%string with (String "128" (String x r')) in Hr.
    apply lex_step in Hr as (st2 & ts2 & rest2 & Hc2 & Hr2 & ->). cbn in Hc2. injection Hc2 as <- <-.
    assert (lex_char (InStr ((us ++ [Raw "226"]) ++ [Raw "128"])) x = Some (InStr (((us ++ [Raw "226"]) ++ [Raw "128"]) ++ [Raw x]), [])) as Hc3
      by (by destruct Hx as [[-> ->]|[-> ->]]).
    apply lex_step in Hr2 as (st3 & ts3 & rest3 & Hc3' & Hr3 & ->). rewrite Hc3 in Hc3'. injection Hc3' as <- <-. cbn [app] in *.
    assert (scan (InStr vs) (unicode_escape v) = Some (InStr (vs ++ [U16 v]))) as Hscan by (by destruct Hx as [[-> ->]|[-> ->]]).
    rewrite (scan_lex _ _ _ _ Hscan). apply (HA' Inside (InStr (((us ++ [Raw "226"]) ++ [Raw "128"]) ++ [Raw x]))); [|done..].
    constructor. rewrite <-!app_assoc. apply same_units_app; [done|]. destruct Hx as [[-> ->]|[-> ->]]; cbn [app]; repeat constructor.
Qed.

Lemma compact_lex s : compacts s.
Proof.
  assert (forall n s, (String.length s <= n)%nat -> compacts s) as H; [|by apply (H (String.length s))].
  clear s. induction n as [|n IH]; intros [|c r] Hl; cbn in Hl; try lia.
  1, 2: split; [intros m st st' ts Hs H Ha; by destruct Hs|]; intros w t ts Ht [= <-] _; cbn [compact lex]; by rewrite Ht.
  assert (compacts r) as Hr by (apply IH; lia). split.
  - intros m st st' ts Hs H Ha. destruct Hs as [|w|us vs Hu|us vs k v Hu|us vs Hu].
    + by apply compacts_between.
    + destruct (word_char c) eqn:Hw.
      * apply lex_step in H as (st & us & rest & Hc & Hrest & ->). cbn [lex_char] in Hc. rewrite Hw in Hc. injection Hc as <- <-.
        destruct (ordinary_spec c (word_ordinary c Hw)) as (H1 & H2 & H3 & H4). rewrite compact_ascii, H4 by done.
        apply (lex_steps _ _ _ (InWord (w ++ str1 c))); [cbn [lex_char]; by rewrite Hw|].
        by apply (proj1 Hr Outside (InWord (w ++ str1 c))); [constructor|..].
      * apply lex_step in H as (st & us & rest & Hc & Hrest & ->). cbn [lex_char] in Hc. rewrite Hw in Hc.
        destruct (word w) as [t|] eqn:Ht; [|done]. cbn [mbind option_bind] in Hc. destruct (between c) as [[st1 us1]|] eqn:Hb; [|done].
        injection Hc as <- <-. apply (compacts_after_word c r w t Hr Ht Hw (us1 ++ rest)); [by apply (lex_steps _ _ _ st1)|done].
    + apply (compacts_string c r us vs Hr); try done. intros a b r' ->. apply IH. rewrite append_length in Hl. cbn in Hl. lia.
    + apply lex_step in H as (st & ts1 & rest & Hc & Hrest & ->). cbn [lex_char] in Hc. destruct (hex_value c) as [d|] eqn:Hd; [|done].
      cbn [mbind option_bind] in Hc. destruct (ordinary_spec c (hex_ordinary c d Hd)) as (H1 & H2 & H3 & H4).
      rewrite compact_ascii, H4 by done. destruct k as [|[|k]]; injection Hc as <- <-.
      1, 2: (apply (lex_steps _ _ _ (InStr (vs ++ [U16 (v * 16 + d)]))); [cbn [lex_char]; by rewrite Hd|]);
        (apply (proj1 Hr Inside (InStr (us ++ [U16 (v * 16 + d)]))); [|done..]);
        (constructor; apply same_units_app; [done|repeat constructor]).
      apply (lex_steps _ _ _ (InHex vs (S k) (v * 16 + d))); [cbn [lex_char]; by rewrite Hd|].
      by apply (proj1 Hr Inside (InHex us (S k) (v * 16 + d))); [constructor|..].
    + apply lex_step in H as (st & ts1 & rest & Hc & Hrest & ->). cbn [lex_char] in Hc.
      destruct (escape_plain c) as [H1 H2]; [by destruct (Ascii.eqb c "u"), (simple_escape c)|]. rewrite compact_ascii by done.
      change (next_mode Escaped c) with Inside. destruct (Ascii.eqb c "u") eqn:Hcu.
      * injection Hc as <- <-. apply (lex_steps _ _ _ (InHex vs 4 0)); [cbn [lex_char]; by rewrite Hcu|].
        by apply (proj1 Hr Inside (InHex us 4 0)); [constructor|..].
      * destruct (simple_escape c) as [x|] eqn:Hx; [|done]. injection Hc as <- <-.
        apply (lex_steps _ _ _ (InStr (vs ++ [Raw x]))); [cbn [lex_char]; by rewrite Hcu, Hx|].
        apply (proj1 Hr Inside (InStr (us ++ [Raw x]))); [|done..]. constructor. apply same_units_app; [done|repeat constructor].
  - intros w t ts Ht H Ha. destruct (word_char c) eqn:Hw; [|by apply (compacts_after_word c r w t)].
    apply lex_step in H as (st & us & rest & Hc & Hrest & ->). cbn [lex_char] in Hc. rewrite between_word in Hc by done. injection Hc as <- <-.
    apply lex_in_word in Hrest as (u & ts' & -> & Hu). apply apart_cons in Ha as [_ Ha]. cbn [app] in Ha.
    rewrite (Ha (word_is_token w t Ht)) in Hu. done.
Qed.

(** *** Valid texts keep words apart *)

Definition after_value (p : parse_state) : Prop := match p with PAfter _ | PDone _ => True | _ => False end.

Lemma put_after v st : after_value (put_value v st).
Proof. by destruct st as [|[]]. Qed.

Lemma parse_word p t p' : parse_token p t = Some p' -> word_token t = true -> after_value p'.
Proof.
  intros H Ht. destruct p as [st|st|[|[acc|acc k] st]|st|st acc|st acc k|v], t; try done; injection H as <-;
    first [apply put_after | done].
Qed.

Lemma after_no_word p t : after_value p -> word_token t = true -> parse_token p t = None.
Proof. by destruct p as [st|st|[|[acc|acc k] st]|st|st acc|st acc k|v], t. Qed.

Lemma parse_apart p ts v : parse_tokens p ts = Some v -> apart ts = true.
Proof.
  revert p. induction ts as [|t ts IH]; intros p H; [done|]. cbn [parse_tokens] in H.
  destruct (parse_token p t) as [p'|] eqn:E; [|done]. cbn [mbind option_bind] in H. pose proof (IH p' H) as Ha.
  destruct ts as [|u ts]; [done|]. cbn [apart]. apply andb_true_iff. split; [|done]. apply negb_true_iff, andb_false_iff.
  destruct (word_token t) eqn:Ht; [|by left]. right. destruct (word_token u) eqn:Hu; [|done]. exfalso.
  cbn [parse_tokens] in H. by rewrite (after_no_word p' u (parse_word p t p' E Ht) Hu) in H.
Qed.

(** *** No line breaks *)

Definition clean (s : string) : Prop := all_chars (fun c => 32 <=? code c) s = true.

Lemma clean_app a b : clean a -> clean b -> clean (a ++ b).
Proof.
  unfold clean. induction a as [|c a IH]; [done|]. rewrite append_cons. cbn [all_chars]. rewrite !andb_true_iff. naive_solver.
Qed.

Definition mode_of (st : lex_state) : mode :=
  match st with Between | InWord _ => Outside | InStr _ | InHex _ _ _ => Inside | InEsc _ => Escaped end.

Lemma between_mode c st us : between c = Some (st, us) ->
  next_mode Outside c = mode_of st /\ (json_space c = true \/ 32 <= code c) /\ code c < 128.
Proof.
  destruct c as [[] [] [] [] [] [] [] []]; cbn; intros H; try discriminate; injection H as <- <-; split; try done; split; try done;
    first [by left | right; vm_compute; congruence].
Qed.

Lemma lex_mode st c st' us : lex_char st c = Some (st', us) ->
  next_mode (mode_of st) c = mode_of st' /\
  ((mode_of st = Outside /\ json_space c = true) \/ 32 <= code c) /\ (128 <= code c -> exists u, st = InStr u).
Proof.
  destruct st as [|w|u|u|u n v]; cbn [lex_char mode_of].
  - intros (H1 & H2 & H3)%between_mode. split; [done|]. split; [|lia]. destruct H2; [by left|by right].
  - destruct (word_char c) eqn:Hw.
    + intros [= <- <-]. destruct (ordinary_spec c (word_ordinary c Hw)) as (H1 & _ & H3 & ->); [|done]. split; [done|]. split; [|lia].
      right. apply Z.leb_le. by apply (char_facts word_char (fun c => 32 <=? code c)).
    + destruct (word w); [|done]. cbn [mbind option_bind]. destruct (between c) as [[st1 us1]|] eqn:Hb; [|done]. intros [= <- <-].
      apply between_mode in Hb as (H1 & H2 & H3). split; [done|]. split; [|lia]. destruct H2; [by left|by right].
  - intros H. split; [|split; [|by eexists]].
    + cbn [next_mode]. destruct (Ascii.eqb c char_quote); [by injection H as <- _|]. destruct (Ascii.eqb c char_backslash); [by injection H as <- _|].
      destruct (code c <? 32); [done|by injection H as <- _].
    + right. destruct (Ascii.eqb_spec c char_quote) as [->|_]; [by vm_compute|]. destruct (Ascii.eqb_spec c char_backslash) as [->|_]; [by vm_compute|].
      by destruct (Z.ltb_spec (code c) 32).
  - intros H. assert (32 <= code c < 128) as Hc.
    { assert (Ascii.eqb c "u" || match simple_escape c with Some _ => true | None => false end = true) as He
        by (by destruct (Ascii.eqb c "u"), (simple_escape c)).
      apply (char_facts (fun c => Ascii.eqb c "u" || match simple_escape c with Some _ => true | None => false end)
        (fun c => (32 <=? code c) && (code c <? 128))) in He; [|by vm_compute]. apply andb_true_iff in He as [?%Z.leb_le ?%Z.ltb_lt]. done. }
    split; [|split; [right; lia|lia]]. destruct (Ascii.eqb c "u"); [by injection H as <- _|]. destruct (simple_escape c); [by injection H as <- _|done].
  - destruct (hex_value c) as [d|] eqn:Hd; [|done]. destruct (ordinary_spec c (hex_ordinary c d Hd)) as (H1 & _ & H3 & ->); [|done].
    intros H. split; [by destruct n as [|[|n]]; injection H as <- _|]. split; [|lia]. right. apply Z.leb_le.
    apply (char_facts (fun c => match hex_value c with Some _ => true | None => false end) (fun c => 32 <=? code c)); [by vm_compute|]. by rewrite Hd.
Qed.

Lemma lex_high_byte us c s : 128 <= code c -> lex (InStr us) (String c s) = lex (InStr (us ++ [Raw c])) s.
Proof. intros H. apply (scan_lex (InStr us) (str1 c) _ s). by apply high_byte_raw. Qed.

Lemma high_mode c : 128 <= code c -> next_mode Inside c = Inside.
Proof.
  intros H. cbn [next_mode]. destruct (Ascii.eqb_spec c char_quote) as [->|_]; [by vm_compute in H|].
  by destruct (Ascii.eqb_spec c char_backslash) as [->|_]; [by vm_compute in H|].
Qed.

Lemma compact_clean s : forall st ts, lex st s = Some ts -> clean (compact (mode_of st) s).
Proof.
  assert (forall n s st ts, (String.length s <= n)%nat -> lex st s = Some ts -> clean (compact (mode_of st) s)) as H;
    [|by intros st ts; apply (H (String.length s))].
  clear s. induction n as [|n IH]; intros [|c r] st ts Hl H; cbn in Hl; try lia; [done..|].
  pose proof H as Hlex. apply lex_step in H as (st' & us & rest & Hc & Hr & ->). destruct (lex_mode st c st' us Hc) as (Hm & Hs & Hhigh).
  assert (clean (compact (mode_of st') r)) as Hrec by (apply (IH r st' rest); [lia|done]).
  assert (mode_of st = Outside /\ json_space c = true \/ ~ (mode_of st = Outside /\ json_space c = true)) as [[E1 E2]|Hns].
  { destruct (mode_of st), (json_space c); naive_solver. }
  { cbn [compact]. rewrite E1, E2. rewrite E1 in Hm. cbn in Hm.
    assert (Ascii.eqb c char_quote = false) as Hq by (destruct (Ascii.eqb_spec c char_quote) as [->|]; [by vm_compute in E2|done]).
    rewrite Hq in Hm. by rewrite Hm. }
  destruct Hs as [Hs|Hs]; [done|].
  assert (match mode_of st with Outside => json_space c | _ => false end = false) as Hd.
  { destruct (mode_of st); try done. apply not_true_iff_false. naive_solver. }
  destruct (Z.ltb_spec (code c) 128) as [Hlow|Hge].
  - destruct (html_char c) eqn:Hh.
    + cbn [compact]. rewrite Hd, Hh, Hm. apply clean_app; [|done]. unfold clean.
      pose proof (ascii_all (fun c => implb (html_char c) (all_chars (fun c => 32 <=? code c) (unicode_escape (code c)))) ltac:(by vm_compute) c) as Ha.
      cbn beta in Ha. by rewrite Hh in Ha.
    + rewrite compact_ascii; [|done|done|by intros E; rewrite E in Hd]. rewrite Hm. unfold clean. cbn [all_chars].
      by rewrite (proj2 (Z.leb_le _ _) Hs).
  - destruct (Hhigh Hge) as [u ->]. cbn [mode_of] in *. destruct (compact_high c r Hge) as [r' v -> -> Hv -> | -> ].
    + assert (exists x, 128 <= code x /\ (match v with 8232 => str2 "128" "168" | _ => str2 "128" "169" end = str2 "128" x) /\
        clean (unicode_escape v)) as (x & Hx & E1 & E2) 
        by (destruct Hv as [-> | ->]; [exists "168"%char|exists "169"%char]; split_and!; by vm_compute).
      rewrite E1 in Hlex, Hl. change (String "226" (str2 "128" x ++ r')) with (String "226" (String "128" (String x r'))) in Hlex.
      rewrite append_length in Hl. cbn in Hl. do 3 rewrite (lex_high_byte) in Hlex by done.
      apply clean_app; [done|]. by apply (IH r' (InStr (((u ++ [Raw "226"]) ++ [Raw "128"]) ++ [Raw x])) (us ++ rest)); [lia|].
    + rewrite <-Hm in Hrec. rewrite high_mode in Hrec by done. unfold clean. cbn [all_chars]. by rewrite (proj2 (Z.leb_le _ _) Hs).
Qed.

(** *** Texts in a larger text *)

Lemma lex_append st a ts rest : lex st a = Some ts -> stops rest -> lex st (a ++ rest) = prepend ts (lex Between rest).
Proof.
  intros H Hr. revert st ts H. induction a as [|c a IH]; intros st ts H.
  - destruct st as [|w| | |]; cbn [lex] in H; try done; [injection H as <-; by rewrite prepend_nil|].
    destruct (word w) as [t|] eqn:E; [|done]. injection H as <-. apply lex_word; [done| |done]. by rewrite append_nil_r.
  - apply lex_step in H as (st' & us & r & Hc & Ha & ->). rewrite append_cons, (lex_cons _ _ _ _ _ Hc), (IH _ _ Ha).
    by rewrite prepend_prepend.
Qed.

Lemma quote_lexes s : lex Between (quote s) = Some [TStr (sanitize s)].
Proof. rewrite <-(append_nil_r (quote s)), lex_quote. done. Qed.

(** The tokens of a payload inside its event. *)
Definition payload_tokens (payload : list byte) : list token :=
  let s := string_of payload in
  if json_valid s then default [] (lex Between s) else [TStr (sanitize s)].

Lemma payload_lexes p : lex Between (payload_text p) = Some (payload_tokens p) /\ clean (payload_text p).
Proof.
  unfold payload_text, payload_tokens, json_valid. set (s := string_of p).
  assert (forall x ts v, lex Between x = Some ts -> parse_tokens (PValue []) ts = Some v ->
    lex Between (compact Outside x) = Some ts /\ clean (compact Outside x)) as H.
  { intros x ts v E1 E2. split; [|by apply (compact_clean x Between ts)].
    apply (proj1 (compact_lex x) Outside Between); [constructor|done|by apply (parse_apart _ _ _ E2)]. }
  destruct (parse s) as [v|] eqn:E; [|by apply (H _ _ (SStr (sanitize s))); [apply quote_lexes|]].
  unfold parse in E. destruct (lex Between s) as [ts|] eqn:El; [|done]. by apply (H s ts v).
Qed.

Lemma clean_quote s : clean (quote s).
Proof.
  pose proof (runes_ok s) as Hok. unfold quote. apply clean_app; [done|]. apply clean_app; [|done].
  induction Hok as [|r rs Hr _ IH]; [done|]. cbn [map]. rewrite flatten_cons. apply clean_app; [|done]. clear IH.
  assert (forall c, 128 <= code c -> (32 <=? code c) = true) as Hge by (intros; apply Z.leb_le; lia).
  destruct r as [x|]; [|by vm_compute]. assert (forall y, clean y -> clean (escape (Rune y)) \/ exists c, y = str1 c) as Hlong.
  { intros [|c [|d y]] Hy; [by left|right; by exists c|left]. unfold escape. repeat case_match; try done; by vm_compute. }
  destruct Hr as [(a & -> & Ha)|[(a & b & -> & H)|[(a & b & c & -> & H)|(a & b & c & d & -> & H)]]].
  - cbn [escape str1]. pose proof (ascii_all (fun c => implb (code c <? 128) (all_chars (fun c => 32 <=? code c) (escape_char c)))
      ltac:(by vm_compute) a) as Hall. cbn beta in Hall. by rewrite (proj2 (Z.ltb_lt _ _) Ha) in Hall.
  - apply two_spec in H as [H1 H2]. destruct (Hlong (str2 a b)) as [|[z ?]]; [|done|done]. unfold clean. cbn [all_chars str1 str2]. rewrite !Hge by lia. done.
  - apply three_spec in H as (H1 & H2 & H3). destruct (Hlong (str3 a b c)) as [|[z ?]]; [|done|done]. unfold clean. cbn [all_chars str1 str2 str3]. rewrite !Hge by lia. done.
  - apply four_spec in H as (H1 & H2 & H3 & H4). destruct (Hlong (str4 a b c d)) as [|[z ?]]; [|done|done]. unfold clean. cbn [all_chars str1 str2 str3 str4]. rewrite !Hge by lia. done.
Qed.

Lemma clean_no_break s : clean s -> Contains1 char_lf s = false.
Proof.
  unfold clean. induction s as [|c s IH]; [done|]. cbn [all_chars Contains1]. intros [Hc Hs]%andb_true_iff. apply Z.leb_le in Hc.
  destruct (Ascii.eqb_spec char_lf c) as [<-|_]; [by vm_compute in Hc|]. by apply IH.
Qed.

Lemma clean_digits s : all_chars is_digit s = true -> clean s.
Proof. apply all_chars_impl. intros c. by apply (char_facts is_digit (fun c => 32 <=? code c)). Qed.

Lemma body_clean m : clean (event_body m).
Proof.
  unfold event_body. repeat match goal with |- clean (String.append _ _) => apply clean_app end.
  all: match goal with
       | |- clean (quote _) => apply clean_quote
       | |- clean (payload_text _) => apply payload_lexes
       | |- clean (if _ then _ else _) => destruct (Retain m); by vm_compute
       | |- _ => reflexivity
       end.
Qed.

Lemma body_lexes m : lex Between (event_body m) = Some
  (TOpen :: TStr "topic" :: TColon :: TStr (sanitize (Topic m)) ::
   (if Retain m then [TComma; TStr "retain"; TColon; TTrue] else []) ++
   TComma :: TStr "payload" :: TColon :: payload_tokens (Ports.Payload m) ++ [TClose]).
Proof.
  assert (forall s, ("{" ++ s = String "{" s)%string /\ (":" ++ s = String ":" s)%string /\ ("," ++ s = String "," s)%string) as Hch by done.
  assert (lex Between ("," ++ quote "payload" ++ ":" ++ payload_text (Ports.Payload m) ++ "}") =
    Some (TComma :: TStr "payload" :: TColon :: payload_tokens (Ports.Payload m) ++ [TClose])) as Hp.
  { rewrite (proj2 (proj2 (Hch _))), (lex_cons _ _ _ Between [TComma]) by done. rewrite lex_quote.
    rewrite (proj1 (proj2 (Hch _))), (lex_cons _ _ _ Between [TColon]) by done.
    by rewrite (lex_append _ _ _ _ (proj1 (payload_lexes _))). }
  unfold event_body. rewrite (proj1 (Hch _)), (lex_cons _ _ _ Between [TOpen]) by done. rewrite lex_quote.
  rewrite (proj1 (proj2 (Hch _))), (lex_cons _ _ _ Between [TColon]) by done. rewrite lex_quote. destruct (Retain m).
  - rewrite append_assoc, (proj2 (proj2 (Hch _))), (lex_cons _ _ _ Between [TComma]) by done. rewrite append_assoc, lex_quote.
    rewrite append_cons, (lex_cons _ _ _ Between [TColon]) by done. rewrite (lex_append _ "true" [TTrue]) by done. by rewrite Hp.
  - change ("" ++ ?x)%string with x. by rewrite Hp.
Qed.

(** ** Properties *)

(** C28: an event is one event, whatever its payload. The bytes written for a
    message are exactly the three lines of an event, its number, the event's
    kind and the data, and the blank line that ends it: no payload, valid or
    not, with line breaks or not, can end the event early or forge another.
    The data is an object whose tokens are the topic, the retain flag when
    it is set, and the tokens of the payload itself when that is valid JSON,
    a string of its text otherwise; bytes that are not UTF-8 are replaced. *)
Theorem event_framed (id : Z) (m : Message) :
  let body := event_body m in
  Split char_lf (chunk_text (Event id m)) =
    ["id: " ++ FormatUint id; "event: message"; "data: " ++ body; ""; ""]%string /\
  clean body /\
  lex Between body = Some
    (TOpen :: TStr "topic" :: TColon :: TStr (sanitize (Topic m)) ::
     (if Retain m then [TComma; TStr "retain"; TColon; TTrue] else []) ++
     TComma :: TStr "payload" :: TColon :: payload_tokens (Ports.Payload m) ++ [TClose]).
Proof.
  intros body. split; [|split; [apply body_clean|apply body_lexes]]. unfold chunk_text. fold body.
  assert (forall a s, clean a -> Split char_lf (a ++ newline ++ s) = a :: Split char_lf s) as H.
  { intros a s Ha. unfold newline. rewrite append_str1. by apply Split_append, clean_no_break. }
  rewrite <-(append_assoc "id: "), H by (apply clean_app; [done|apply clean_digits, FormatUint_digits]). rewrite H by done.
  rewrite <-(append_assoc "data: "), H by (apply clean_app; [done|apply body_clean]). done.
Qed.
