(* ===== verification/HttpServe.v ===== *)
(** * HttpServe: requests through the server (internal/api/http/server.go)

    The route table, the response writer, and the middleware around the
    handlers of Http, for any number of requests at once. What a middleware
    does before and after the handler it wraps are two halves of a step
    relation, so that a stream stays open while other requests come and go.
    A request is what net/http makes of it: a method, the decoded segments of
    a clean path, the query and the header that the server reads; it drops
    the body of the answer to a HEAD request. The collectors are updated as
    the code does; logs are left out. *)
From Stdlib Require Import ZArith Lia.
From stdpp Require Import vector.
From S2P Require Import Prelude GoBytes Uns Ports Observability Http.
From S2P Require Asset AssetIndex Poller Memory Plants.

Open Scope string_scope.
Open Scope list_scope.
Open Scope Z_scope.

(** ** Routing *)

Record Request := mkRequest {
  rqMethod : string;
  rqPath : list string;
  rqQuery : list (string * string);
  rqID : string
}.

(** [r.URL.Query().Get]. *)
Definition query_get (key : string) (q : list (string * string)) : string :=
  match List.find (fun kv => String.eqb (fst kv) key) q with Some (_, v) => v | None => "" end.

Inductive Segment := Lit (s : string) | Wild (name : string).

Inductive Endpoint := Page (r : Route) | Exposition | EventStream (topic : string).

(** The patterns [New] registers, all for GET; [v] and [q] read a path value and a
    query parameter. *)
Definition routes : list (list Segment * ((string -> string) -> (string -> string) -> Endpoint)) :=
  [([Lit "healthz"], fun v q => Page GetHealthz);
   ([Lit "readyz"], fun v q => Page GetReadyz);
   ([Lit "metrics"], fun v q => Exposition);
   ([Lit "v1"; Lit "assets"], fun v q => Page GetAssets);
   ([Lit "v1"; Lit "assets"; Wild "id"], fun v q => Page (GetAsset (v "id")));
   ([Lit "v1"; Lit "tags"; Wild "asset"; Lit "latest"], fun v q => Page (GetLatest (v "asset")));
   ([Lit "v1"; Lit "topics"], fun v q => Page (GetTopics (q "filter")));
   ([Lit "v1"; Lit "health"; Lit "sources"], fun v q => Page GetSources);
   ([Lit "v1"; Lit "bridge"], fun v q => Page GetBridge);
   ([Lit "v1"; Lit "stream"], fun v q => EventStream (q "topic"))].

Definition segment_text (x : Segment) : string :=
  match x with Lit s => s | Wild n => "{" ++ n ++ "}" end%string.

(** [r.Pattern]. *)
Definition pattern_text (ps : list Segment) : string :=
  ("GET " ++ String.concat "" (map (fun p => "/" ++ segment_text p) ps))%string.

(** A wildcard matches one segment that is not empty. *)
Fixpoint match_path (ps : list Segment) (path : list string) : option (list (string * string)) :=
  match ps, path with
  | [], [] => Some []
  | Lit l :: ps, s :: path => if String.eqb l s then match_path ps path else None
  | Wild n :: ps, s :: path => if String.eqb s "" then None else cons (n, s) <$> match_path ps path
  | _, _ => None
  end.

Inductive Target := Found (pattern : string) (e : Endpoint) | MethodNotAllowed | NotFound.

Definition find_route (r : Request) : option (string * Endpoint) :=
  head (omap (fun '(ps, f) =>
    (fun vs => (pattern_text ps, f (fun n => query_get n vs) (fun n => query_get n (rqQuery r)))) <$> match_path ps (rqPath r)) routes).

(** net/http's ServeMux: a pattern for GET also takes HEAD. *)
Definition mux (r : Request) : Target :=
  match find_route r with
  | None => NotFound
  | Some (p, e) => if String.eqb (rqMethod r) "GET" || String.eqb (rqMethod r) "HEAD" then Found p e else MethodNotAllowed
  end.

Definition pattern_of (t : Target) : string := match t with Found p _ => p | _ => "" end.

(** ** Response writers *)

Inductive Output := OJson (b : Body) | OText (s : string) | OChunk (c : chunk).

Class ResponseWriter (W : Type) := {
  SetHeader : string -> string -> W -> W;
  WriteHeader : Z -> W -> W;
  Write : Output -> W -> W
}.

(** net/http's writer: the headers and the code that were sent, the first
    [WriteHeader] being the one that counts, and the body. *)
Record Writer := mkWriter { wHeader : gmap string string; wCode : option Z; wBody : list Output }.

#[export] Instance Writer_http : ResponseWriter Writer := {
  SetHeader k v w := match wCode w with
                     | None => mkWriter (<[k := v]> (wHeader w)) None (wBody w)
                     | Some _ => w
                     end;
  WriteHeader c w := match wCode w with None => mkWriter (wHeader w) (Some c) (wBody w) | Some _ => w end;
  Write o w := mkWriter (wHeader w) (Some (default 200 (wCode w))) (wBody w ++ [o])
}.

Record statusRecorder := mkRecorder { rWriter : Writer; rStatus : Z }.

#[export] Instance recorder_http : ResponseWriter statusRecorder := {
  SetHeader k v r := mkRecorder (SetHeader k v (rWriter r)) (rStatus r);
  WriteHeader c r := mkRecorder (WriteHeader c (rWriter r)) c;
  Write o r := mkRecorder (Write o (rWriter r)) (if rStatus r =? 0 then 200 else rStatus r)
}.

Section Writing.
Context {W : Type} `{!ResponseWriter W}.

Definition writeJSON (code : Z) (v : Body) (w : W) : W :=
  Write (OJson v) (WriteHeader code (SetHeader "Content-Type" "application/json" w)).

Definition respond (r : Response) (w : W) : W := writeJSON (status r) (body r) w.

(** [http.Error]. *)
Definition text_error (msg : string) (code : Z) (w : W) : W :=
  Write (OText (msg ++ String char_lf EmptyString)) (WriteHeader code
    (SetHeader "X-Content-Type-Options" "nosniff" (SetHeader "Content-Type" "text/plain; charset=utf-8" w))).

(** The answers of the mux itself. *)
Definition not_found (w : W) : W := text_error "404 page not found" 404 w.
Definition not_allowed (w : W) : W := text_error "Method Not Allowed" 405 (SetHeader "Allow" "GET, HEAD" w).

(** The head of a stream. *)
Definition stream_head (w : W) : W :=
  WriteHeader 200 (SetHeader "X-Accel-Buffering" "no" (SetHeader "Connection" "keep-alive"
    (SetHeader "Cache-Control" "no-cache" (SetHeader "Content-Type" "text/event-stream" w)))).

Definition write_chunks (cs : list chunk) (w : W) : W := fold_left (fun w c => Write (OChunk c) w) cs w.
End Writing.

(** ** The server

    A call is a request inside the handler that [instrument] wraps. *)
Inductive Work := Waiting | Streaming (s : stream).

Record Call := mkCall { cRequest : Request; cID : string; cTarget : Target; cRecorder : statusRecorder; cWork : Work }.

(** A request that was answered: [fStatus] is the status [instrument] counted,
    [None] when the handler panicked. *)
Record Finished := mkFinished {
  fRequest : Request;
  fID : string;
  fTarget : Target;
  fStatus : option Z;
  fWriter : Writer
}.

Record Server := mkServer { store : Store; calls : gmap nat Call; finished : list Finished }.

Definition new_server : Server := mkServer ∅ ∅ [].

Definition status_class (code : Z) : string := (FormatInt (Z.quot code 100) ++ "xx")%string.
Definition route_label (t : Target) : string := if String.eqb (pattern_of t) "" then "unmatched" else pattern_of t.

(** [recoverer], [requestID] and [instrument] up to the handler. *)
Definition arrive (k : nat) (r : Request) (fresh : string) (s : Server) : Server :=
  let id := requestID (rqID r) fresh in
  let w := SetHeader "X-Request-ID" id (mkWriter ∅ None []) in
  mkServer (Inc HTTPInflight [#] (store s)) (<[k := mkCall r id (mux r) (mkRecorder w 0) Waiting]> (calls s)) (finished s).

(** [instrument] after the handler. *)
Definition instrument_end (k : nat) (c : Call) (rec : statusRecorder) (s : Server) : Server :=
  let m := rqMethod (cRequest c) in
  let status := if rStatus rec =? 0 then 200 else rStatus rec in
  let route := route_label (cTarget c) in
  mkServer (ObserveOne HTTPDuration [# m; route] (Inc HTTPRequests [# m; route; status_class status]
      (Dec HTTPInflight [#] (store s))))
    (delete k (calls s)) (finished s ++ [mkFinished (cRequest c) (cID c) (cTarget c) (Some status) (rWriter rec)]).

(** A panic passes through [instrument]; [recoverer] answers on the writer it was given. *)
Definition recover (k : nat) (c : Call) (s : Server) : Server :=
  mkServer (store s) (delete k (calls s))
    (finished s ++ [mkFinished (cRequest c) (cID c) (cTarget c) None (respond (Http.recoverer None) (rWriter (cRecorder c)))]).

Section Steps.
Context {B Q E : Type} `{!QueueOps Q E}.
Variable ready : B -> bool.

(** The handler of /metrics, a library's: the text of the collectors, or why it
    cannot be gathered. *)
Variable scrape : Store -> result string string.

(** [stream] up to its loop; [sub] is what the broker answers to Subscribe. *)
Definition stream_begin (k : nat) (c : Call) (topic : string) (d : Deps B Q) (sub : result string unit) (s : Server) : Server :=
  match stream_filter topic with
  | Err e => instrument_end k c (respond (writeError (cID c) 400 (FilterError e)) (cRecorder c)) s
  | Ok _ =>
      match dBroker d, sub with
      | None, _ => recover k c s
      | Some _, Err text => instrument_end k c (respond (writeError (cID c) 503 (Text text)) (cRecorder c)) s
      | Some _, Ok _ =>
          let st := open_stream (dSSEBuffer d) in
          let rec := write_chunks (written st) (stream_head (cRecorder c)) in
          mkServer (Inc SSEClients [#] (store s))
            (<[k := mkCall (cRequest c) (cID c) (cTarget c) rec (Streaming st)]> (calls s)) (finished s)
      end
  end.

(** The handler runs against the collaborators as they are. *)
Definition handle (k : nat) (c : Call) (d : Deps B Q) (sub : result string unit) (s : Server) : Server :=
  match cTarget c with
  | NotFound => instrument_end k c (not_found (cRecorder c)) s
  | MethodNotAllowed => instrument_end k c (not_allowed (cRecorder c)) s
  | Found _ Exposition =>
      instrument_end k c (match scrape (store s) with
                          | Ok text => Write (OText text) (cRecorder c)
                          | Err msg => text_error msg 500 (cRecorder c)
                          end) s
  | Found _ (EventStream topic) => stream_begin k c topic d sub s
  | Found _ (Page r) =>
      match dispatch ready d (cID c) r with
      | Some resp => instrument_end k c (respond resp (cRecorder c)) s
      | None => recover k c s
      end
  end.

(** One action of a stream's loop, or a delivery to it. *)
Definition stream_act (k : nat) (c : Call) (st : stream) (a : sse_action) (s : Server) : Server :=
  let st' := sse_step st a in
  let rec := write_chunks (drop (length (written st)) (written st')) (cRecorder c) in
  mkServer (store s) (<[k := mkCall (cRequest c) (cID c) (cTarget c) rec (Streaming st')]> (calls s)) (finished s).

(** The client is gone: the loop returns and the deferred calls run. *)
Definition stream_end (k : nat) (c : Call) (s : Server) : Server :=
  instrument_end k c (cRecorder c) (mkServer (Dec SSEClients [#] (store s)) (calls s) (finished s)).

Inductive event :=
| Arrive (k : nat) (r : Request) (fresh : string)
| Handle (k : nat) (d : Deps B Q) (sub : result string unit)
| Act (k : nat) (a : sse_action)
| Gone (k : nat).

(** Events that do not apply change nothing. *)
Definition step (s : Server) (e : event) : Server :=
  match e with
  | Arrive k r fresh => match calls s !! k with None => arrive k r fresh s | Some _ => s end
  | Handle k d sub =>
      match calls s !! k with
      | Some c => match cWork c with Waiting => handle k c d sub s | Streaming _ => s end
      | None => s
      end
  | Act k a =>
      match calls s !! k with
      | Some c => match cWork c with Streaming st => stream_act k c st a s | Waiting => s end
      | None => s
      end
  | Gone k =>
      match calls s !! k with
      | Some c => match cWork c with Streaming _ => stream_end k c s | Waiting => s end
      | None => s
      end
  end.

Definition serve (evs : list event) : Server := fold_left step evs new_server.
End Steps.

(** ** Lemmas *)


(** Whether some path matches both. *)
Fixpoint overlap (ps qs : list Segment) : bool :=
  match ps, qs with
  | [], [] => true
  | Lit a :: ps, Lit b :: qs => String.eqb a b && overlap ps qs
  | _ :: ps, _ :: qs => overlap ps qs
  | _, _ => false
  end.

Lemma match_overlap ps qs path : is_Some (match_path ps path) -> is_Some (match_path qs path) -> overlap ps qs = true.
Proof.
  revert qs path. induction ps as [|p ps IH]; intros [|q qs] [|s path]; try done; try (by intros [? [=]]); try (by intros _ [? [=]]);
    try (by destruct p; intros [? [=]]); try (by destruct q; intros _ [? [=]]). cbn [match_path overlap].
  destruct p as [a|n], q as [b|m].
  - destruct (String.eqb_spec a s) as [->|]; [|by intros [? [=]]].
    destruct (String.eqb_spec b s) as [->|]; [|by intros _ [? [=]]].
    rewrite String.eqb_refl. apply IH.
  - destruct (String.eqb a s); [|by intros [? [=]]].
    destruct (String.eqb s ""); [by intros _ [? [=]]|]. rewrite fmap_is_Some. apply IH.
  - destruct (String.eqb s ""); [by intros [? [=]]|].
    destruct (String.eqb b s); [|by intros _ [? [=]]]. rewrite fmap_is_Some. apply IH.
  - destruct (String.eqb s ""); [by intros [? [=]]|]. rewrite !fmap_is_Some. apply IH.
Qed.

(** At most one pattern matches a path, so their order does not matter. *)
Lemma routes_disjoint path i j ps qs f g :
  routes !! i = Some (ps, f) -> routes !! j = Some (qs, g) ->
  is_Some (match_path ps path) -> is_Some (match_path qs path) -> i = j.
Proof.
  intros Hi Hj Hp Hq. pose proof (match_overlap ps qs path Hp Hq) as Ho.
  assert (forallb (fun i => forallb (fun j => Nat.eqb i j || negb
    match map fst routes !! i, map fst routes !! j with Some ps, Some qs => overlap ps qs | _, _ => false end)
      (seq 0 10)) (seq 0 10) = true) as Hall by (by vm_compute).
  assert (forall k x, routes !! k = Some x -> k ∈ seq 0 10) as Hin.
  { intros k x Hk%lookup_lt_Some. apply elem_of_seq. cbn in Hk. lia. }
  rewrite List.forallb_forall in Hall. specialize (Hall i (proj1 (list_elem_of_In _ _) (Hin _ _ Hi))). cbn beta in Hall.
  rewrite List.forallb_forall in Hall. specialize (Hall j (proj1 (list_elem_of_In _ _) (Hin _ _ Hj))). cbn beta in Hall.
  rewrite !list_lookup_fmap, Hi, Hj in Hall. cbn in Hall. rewrite Ho, orb_false_r in Hall. by apply Nat.eqb_eq.
Qed.

(** *** Counting *)

Definition tally {A} (P : A -> bool) (xs : list A) : Z := zlength (List.filter P xs).

Lemma tally_snoc {A} (P : A -> bool) xs x : tally P (xs ++ [x]) = tally P xs + (if P x then 1 else 0).
Proof. unfold tally. rewrite List.filter_app, zlength_app. cbn. by destruct (P x). Qed.

Definition panicked (f : Finished) : bool := match fStatus f with None => true | Some _ => false end.

Definition measured (m rt : string) (f : Finished) : bool :=
  negb (panicked f) && String.eqb (rqMethod (fRequest f)) m && String.eqb (route_label (fTarget f)) rt.

(** The answers counted under a method, a route and a class of status. *)
Definition labelled (m rt cl : string) (f : Finished) : bool :=
  measured m rt f && match fStatus f with Some c => String.eqb (status_class c) cl | None => false end.

Definition streaming (c : Call) : Prop := match cWork c with Streaming _ => True | Waiting => False end.
#[export] Instance streaming_dec c : Decision (streaming c).
Proof. unfold streaming. destruct (cWork c); apply _. Defined.

Definition open_streams (s : Server) : Z := Z.of_nat (size (filter (fun kc => streaming (snd kc)) (calls s))).

(** The collectors against what happened. *)
Record metered (s : Server) : Prop := {
  mt_inflight : sample HTTPInflight [#] (store s) = Z.of_nat (size (calls s)) + tally panicked (finished s);
  mt_clients : sample SSEClients [#] (store s) = open_streams s;
  mt_requests m rt cl : sample HTTPRequests [# m; rt; cl] (store s) = tally (labelled m rt cl) (finished s);
  mt_durations m rt : sample HTTPDuration [# m; rt] (store s) = tally (measured m rt) (finished s)
}.

Definition is_stream (c : Call) : Z := if decide (streaming c) then 1 else 0.

Lemma size_open (m : gmap nat Call) k (c : Call) : m !! k = None ->
  Z.of_nat (size (filter (fun kc : nat * Call => streaming (snd kc)) (<[k := c]> m))) =
  is_stream c + Z.of_nat (size (filter (fun kc => streaming (snd kc)) m)).
Proof.
  intros Hk. unfold is_stream. case_decide as Hs.
  - rewrite map_filter_insert_True by done. rewrite map_size_insert_None; [lia|]. apply map_lookup_filter_None. by left.
  - rewrite map_filter_insert_False by done. by rewrite delete_id.
Qed.

Lemma size_taken {V} (m : gmap nat V) k c : m !! k = Some c -> Z.of_nat (size m) = 1 + Z.of_nat (size (delete k m)).
Proof. intros H. rewrite <-(insert_delete_id m k c H) at 1. rewrite map_size_insert_None; [lia|apply lookup_delete_eq]. Qed.

Lemma open_taken s k c : calls s !! k = Some c ->
  open_streams s = is_stream c + Z.of_nat (size (filter (fun kc : nat * Call => streaming (snd kc)) (delete k (calls s)))).
Proof.
  intros H. unfold open_streams. rewrite <-(insert_delete_id (calls s) k c H) at 1. apply size_open, lookup_delete_eq.
Qed.

(** The collectors after [instrument]'s second half. *)
Lemma requests_counted m rt cl m' rt' c' s :
  sample HTTPRequests [# m; rt; cl] (ObserveOne HTTPDuration [# m'; rt'] (Inc HTTPRequests [# m'; rt'; c'] (Dec HTTPInflight [#] s))) =
  sample HTTPRequests [# m; rt; cl] s + (if String.eqb m' m && String.eqb rt' rt && String.eqb c' cl then 1 else 0).
Proof.
  unfold ObserveOne, Inc, Dec. rewrite !sample_Add. rewrite (decide_False (P := series HTTPDuration _ = _)) by discriminate.
  rewrite (decide_False (P := series HTTPInflight _ = _)) by discriminate.
  case_decide as Hd.
  - injection Hd as -> -> ->. rewrite !String.eqb_refl. cbn. lia.
  - destruct (String.eqb_spec m' m) as [->|]; [|cbn; lia]. destruct (String.eqb_spec rt' rt) as [->|]; [|cbn; lia].
    destruct (String.eqb_spec c' cl) as [->|]; [|cbn; lia]. done.
Qed.

Lemma durations_counted m rt m' rt' c' s :
  sample HTTPDuration [# m; rt] (ObserveOne HTTPDuration [# m'; rt'] (Inc HTTPRequests [# m'; rt'; c'] (Dec HTTPInflight [#] s))) =
  sample HTTPDuration [# m; rt] s + (if String.eqb m' m && String.eqb rt' rt then 1 else 0).
Proof.
  unfold ObserveOne, Inc, Dec. rewrite !sample_Add. rewrite (decide_False (P := series HTTPRequests _ = _)) by discriminate.
  rewrite (decide_False (P := series HTTPInflight _ = _)) by discriminate.
  case_decide as Hd.
  - injection Hd as -> ->. rewrite !String.eqb_refl. cbn. lia.
  - destruct (String.eqb_spec m' m) as [->|]; [|cbn; lia]. destruct (String.eqb_spec rt' rt) as [->|]; [|cbn; lia]. done.
Qed.

Lemma metered_new : metered new_server.
Proof. by constructor. Qed.

Lemma metered_arrive k r fresh s : calls s !! k = None -> metered s -> metered (arrive k r fresh s).
Proof.
  intros Hk [H1 H2 H3 H4]. unfold arrive. constructor; cbn [store calls finished]; intros; read_store; try done.
  - rewrite map_size_insert_None by done. lia.
  - rewrite H2. unfold open_streams. cbn [calls]. rewrite size_open by done. unfold is_stream. case_decide; [done|lia].
  - rewrite H3. lia.
  - rewrite H4. lia.
Qed.

Lemma metered_end k c rec s : calls s !! k = Some c -> is_stream c = 0 -> metered s -> metered (instrument_end k c rec s).
Proof.
  intros Hk Hs [H1 H2 H3 H4]. unfold instrument_end. constructor; cbn [store calls finished]; intros.
  - read_store. rewrite tally_snoc, H1, (size_taken _ k c) by done. cbn. lia.
  - read_store. rewrite H2, (open_taken s k c), Hs by done. unfold open_streams. cbn [calls]. lia.
  - rewrite requests_counted, tally_snoc, H3. unfold labelled, measured, panicked. cbn. done.
  - rewrite durations_counted, tally_snoc, H4. unfold measured, panicked. cbn. done.
Qed.

Lemma metered_recover k c s : calls s !! k = Some c -> is_stream c = 0 -> metered s -> metered (recover k c s).
Proof.
  intros Hk Hs [H1 H2 H3 H4]. unfold recover. constructor; cbn [store calls finished]; intros.
  - rewrite tally_snoc, H1, (size_taken _ k c) by done. cbn. lia.
  - rewrite H2, (open_taken s k c), Hs by done. done.
  - rewrite tally_snoc, H3. cbn. lia.
  - rewrite tally_snoc, H4. cbn. lia.
Qed.

(** A call that goes on: what it adds to the gauge is what it adds to the open streams. *)
Lemma metered_goes_on k c c' st s : calls s !! k = Some c -> metered s ->
  sample SSEClients [#] st = sample SSEClients [#] (store s) + is_stream c' - is_stream c ->
  sample HTTPInflight [#] st = sample HTTPInflight [#] (store s) ->
  (forall m rt cl, sample HTTPRequests [# m; rt; cl] st = sample HTTPRequests [# m; rt; cl] (store s)) ->
  (forall m rt, sample HTTPDuration [# m; rt] st = sample HTTPDuration [# m; rt] (store s)) ->
  metered (mkServer st (<[k := c']> (calls s)) (finished s)).
Proof.
  intros Hk [H1 H2 H3 H4] E1 E2 E3 E4. constructor; cbn [store calls finished]; intros; rewrite ?E2, ?E3, ?E4; try done.
  - rewrite map_size_insert_Some by done. done.
  - rewrite E1, H2, (open_taken s k c) by done. unfold open_streams. cbn [calls].
    rewrite <-insert_delete_eq, size_open by apply lookup_delete_eq. lia.
Qed.

(** *** Answers *)

Section Serving.
Context {B Q E : Type} `{!QueueOps Q E}.
Variable ready : B -> bool.
Variable scrape : Store -> result string string.

(** What the collaborators satisfy whenever a handler reads them. *)
Variable P : Deps B Q -> Prop.

Definition event_ok (e : event) : Prop := match e with Handle _ d _ => P d | _ => True end.

Definition greeted (id : string) : Writer := SetHeader "X-Request-ID" id (mkWriter ∅ None []).

(** What a call has sent. *)
Definition sent_ok (c : Call) : Prop :=
  match cWork c with
  | Waiting => cRecorder c = mkRecorder (greeted (cID c)) 0
  | Streaming st =>
      (exists p t, cTarget c = Found p (EventStream t)) /\
      exists h, h !! "X-Request-ID" = Some (cID c) /\
                cRecorder c = mkRecorder (mkWriter h (Some 200) (map OChunk (written st))) 200
  end.

Record call_ok (c : Call) : Prop := {
  ck_target : cTarget c = mux (cRequest c);
  ck_id : exists fresh, cID c = requestID (rqID (cRequest c)) fresh;
  ck_sent : sent_ok c
}.

(** An answer: it carries its identifier and the status that was counted; a page
    is what the handler gives; the answer to a panic names no request. *)
Record finished_ok (f : Finished) : Prop := {
  fk_target : fTarget f = mux (fRequest f);
  fk_header : wHeader (fWriter f) !! "X-Request-ID" = Some (fID f);
  fk_code : wCode (fWriter f) = Some (default 500 (fStatus f));
  fk_panic : fStatus f = None -> wBody (fWriter f) = [OJson (BError (Text "internal error") "")];
  fk_page p r : fTarget f = Found p (Page r) -> exists d fresh, P d /\
    let resp := ServeHTTP ready d (rqID (fRequest f)) fresh r in
    wCode (fWriter f) = Some (status resp) /\ wBody (fWriter f) = [OJson (body resp)]
}.

Record server_ok (s : Server) : Prop := {
  sv_metered : metered s;
  sv_calls : map_Forall (fun _ => call_ok) (calls s);
  sv_finished : Forall finished_ok (finished s)
}.

Lemma dispatch_code (d : Deps B Q) id r resp : dispatch ready d id r = Some resp -> status resp <> 0.
Proof.
  destruct r; cbn [dispatch].
  - by intros [= <-].
  - unfold readyz. repeat case_match; cbn [mbind option_bind]; try done; intros Hr; simplify_option_eq; by repeat case_match.
  - unfold assets. intros Hr. by simplify_option_eq.
  - unfold asset. intros Hr. simplify_option_eq. by case_match.
  - unfold latest. intros Hr. simplify_option_eq. by case_match.
  - unfold topics. case_match; [intros Hr|by intros [= <-]]. by simplify_option_eq.
  - unfold sources. intros Hr. by simplify_option_eq.
  - by intros [= <-].
Qed.

(** The end of a call keeps the invariant when its answer is in order. *)
Lemma server_end k c rec s : server_ok s -> calls s !! k = Some c -> is_stream c = 0 ->
  finished_ok (mkFinished (cRequest c) (cID c) (cTarget c) (Some (if rStatus rec =? 0 then 200 else rStatus rec)) (rWriter rec)) ->
  server_ok (instrument_end k c rec s).
Proof.
  intros [Hm Hc Hf] Hk Hs Hok. constructor; [by apply metered_end|..]; cbn [instrument_end calls finished].
  - by apply map_Forall_delete.
  - apply Forall_app. by split; [|apply Forall_singleton].
Qed.

Lemma server_recover k c s : server_ok s -> calls s !! k = Some c -> is_stream c = 0 ->
  finished_ok (mkFinished (cRequest c) (cID c) (cTarget c) None (respond (Http.recoverer None) (rWriter (cRecorder c)))) ->
  server_ok (recover k c s).
Proof.
  intros [Hm Hc Hf] Hk Hs Hok. constructor; [by apply metered_recover|..]; cbn [recover calls finished].
  - by apply map_Forall_delete.
  - apply Forall_app. by split; [|apply Forall_singleton].
Qed.

Lemma waiting_zero c : cWork c = Waiting -> is_stream c = 0.
Proof. intros H1. unfold is_stream. case_decide as H2; [|done]. unfold streaming in H2. by rewrite H1 in H2. Qed.

(** What a handler that writes its whole answer at once has sent. *)
Lemma greeted_sends code o id (hs : list (string * string)) : code <> 0 -> Forall (fun kv => fst kv <> "X-Request-ID") hs ->
  let rec := Write o (WriteHeader code (fold_left (fun w kv => SetHeader (fst kv) (snd kv) w) hs (mkRecorder (greeted id) 0))) in
  rStatus rec = code /\ wCode (rWriter rec) = Some code /\ wBody (rWriter rec) = [o] /\
  wHeader (rWriter rec) !! "X-Request-ID" = Some id.
Proof.
  intros Hc Hhs. assert (exists h, fold_left (fun w kv => SetHeader (fst kv) (snd kv) w) hs (mkRecorder (greeted id) 0) =
    mkRecorder (mkWriter h None []) 0 /\ h !! "X-Request-ID" = Some id) as (h & -> & Hh).
  { unfold greeted. cbn [SetHeader Writer_http wCode wHeader wBody].
    assert ((<["X-Request-ID" := id]> ∅ : gmap string string) !! "X-Request-ID" = Some id) as Hid by apply lookup_insert_eq.
    revert Hid. generalize (<["X-Request-ID" := id]> ∅ : gmap string string).
    induction Hhs as [|[k v] hs Hk _ IH]; intros h Hid; cbn [fold_left]; [by exists h|].
    apply (IH (<[k := v]> h)). by rewrite lookup_insert_ne. }
  cbn. rewrite (proj2 (Z.eqb_neq code 0) Hc). by rewrite Hh.
Qed.

Lemma send_ends k c s code o hs : server_ok s -> calls s !! k = Some c -> cWork c = Waiting -> code <> 0 ->
  Forall (fun kv => fst kv <> "X-Request-ID") hs ->
  (forall p r, cTarget c = Found p (Page r) -> exists d fresh, P d /\
     ServeHTTP ready d (rqID (cRequest c)) fresh r = mkResponse code (match o with OJson b => b | _ => BHealth "" end) /\
     exists b, o = OJson b) ->
  server_ok (instrument_end k c
    (Write o (WriteHeader code (fold_left (fun w kv => SetHeader (fst kv) (snd kv) w) hs (cRecorder c)))) s).
Proof.
  intros Hok Hk Hw Hc Hhs Hp. destruct (sv_calls s Hok k c Hk) as [Ht Hid Hs]. unfold sent_ok in Hs. rewrite Hw in Hs.
  rewrite Hs. destruct (greeted_sends code o (cID c) hs Hc Hhs) as (E1 & E2 & E3 & E4).
  apply server_end; [done..|by apply waiting_zero|]. rewrite E1. rewrite (proj2 (Z.eqb_neq code 0) Hc).
  constructor; cbn [fTarget fRequest fWriter fID fStatus]; try done.
  intros p r Hpr. destruct (Hp p r Hpr) as (d & fresh & Hd & Er & b & ->). exists d, fresh. split; [done|].
  cbv zeta. by rewrite Er, E2, E3.
Qed.

Lemma recover_ok k c s p e : server_ok s -> calls s !! k = Some c -> cWork c = Waiting -> cTarget c = Found p e ->
  (forall r, e = Page r -> exists d fresh, P d /\ ServeHTTP ready d (rqID (cRequest c)) fresh r = Http.recoverer None) ->
  server_ok (recover k c s).
Proof.
  intros Hok Hk Hw He Hp. destruct (sv_calls s Hok k c Hk) as [Ht Hid Hs]. unfold sent_ok in Hs. rewrite Hw in Hs.
  apply server_recover; [done..|by apply waiting_zero|]. rewrite Hs.
  constructor; cbn [fTarget fRequest fWriter fID fStatus]; try done.
  intros p' r Hpr. rewrite He in Hpr. injection Hpr as <- ->. destruct (Hp r eq_refl) as (d & fresh & Hd & Er).
  exists d, fresh. split; [done|]. cbv zeta. by rewrite Er.
Qed.

Lemma stream_begin_ok k c p topic (d : Deps B Q) sub s : server_ok s -> calls s !! k = Some c -> cWork c = Waiting ->
  cTarget c = Found p (EventStream topic) -> server_ok (stream_begin k c topic d sub s).
Proof.
  intros Hok Hk Hw Ht. unfold stream_begin.
  assert (forall r, EventStream topic = Page r -> False) as Hne by done.
  assert (forall code b, code <> 0 -> server_ok (instrument_end k c (respond (mkResponse code b) (cRecorder c)) s)) as Hsend.
  { intros code b Hc. apply (send_ends k c s code (OJson b) [("Content-Type", "application/json")]); try done.
    - by apply Forall_singleton.
    - intros p' r Hpr. by rewrite Ht in Hpr. }
  destruct (stream_filter topic); [|by apply Hsend]. destruct (dBroker d); [|by apply (recover_ok k c s p (EventStream topic))].
  destruct sub; [|by apply Hsend]. destruct (sv_calls s Hok k c Hk) as [Hm Hid Hs]. unfold sent_ok in Hs. rewrite Hw in Hs.
  constructor.
  - apply (metered_goes_on k c); [done|apply Hok|..]; try (by intros; read_store; rewrite ?Z.add_0_r).
    read_store. rewrite (waiting_zero c Hw). unfold is_stream. case_decide; [lia|done].
  - apply map_Forall_insert_2; [|apply Hok]. constructor; [done..|]. cbn [cWork]. split; [by exists p, topic|].
    rewrite Hs. cbn. eexists. split; [|done]. rewrite 4!lookup_insert_ne by done. apply lookup_insert_eq.
  - apply Hok.
Qed.

Lemma handle_ok k c d sub s : server_ok s -> calls s !! k = Some c -> cWork c = Waiting -> P d ->
  server_ok (handle ready scrape k c d sub s).
Proof.
  intros Hok Hk Hw Hd. unfold handle. destruct (sv_calls s Hok k c Hk) as [Hm (fresh & Hid) Hs].
  destruct (cTarget c) as [p [r| |topic]| |] eqn:Et.
  - destruct (dispatch ready d (cID c) r) as [resp|] eqn:Ed.
    + apply (send_ends k c s (status resp) (OJson (body resp)) [("Content-Type", "application/json")]);
        [done..|by apply dispatch_code in Ed|by apply Forall_singleton|].
      intros p' r' [= <- <-]%(eq_trans (eq_sym Et)). exists d, fresh. split; [done|]. split; [|by exists (body resp)].
      unfold ServeHTTP. rewrite <-Hid, Ed. by destruct resp.
    + apply (recover_ok k c s p (Page r)); try done. intros r' [= <-]. exists d, fresh. split; [done|].
      unfold ServeHTTP. by rewrite <-Hid, Ed.
  - destruct (scrape (store s)) as [text|msg]; cycle 1.
    + apply (send_ends k c s 500 _ [("Content-Type", "text/plain; charset=utf-8"); ("X-Content-Type-Options", "nosniff")]);
        [done..|by repeat constructor|]. intros p' r'. by rewrite Et.
    + pose proof Hs as Hs'. unfold sent_ok in Hs'. rewrite Hw in Hs'.
      assert (Write (OText text) (cRecorder c) = Write (OText text) (WriteHeader 200 (cRecorder c))) as -> by (by rewrite Hs').
      apply (send_ends k c s 200 (OText text) []); [done..|by constructor|]. intros p' r'. by rewrite Et.
  - by apply (stream_begin_ok k c p).
  - apply (send_ends k c s 405 _ [("Allow", "GET, HEAD"); ("Content-Type", "text/plain; charset=utf-8"); ("X-Content-Type-Options", "nosniff")]);
      [done..|by repeat constructor|]. intros p' r'. by rewrite Et.
  - apply (send_ends k c s 404 _ [("Content-Type", "text/plain; charset=utf-8"); ("X-Content-Type-Options", "nosniff")]);
      [done..|by repeat constructor|]. intros p' r'. by rewrite Et.
Qed.

Lemma write_chunks_on h b cs : write_chunks cs (mkRecorder (mkWriter h (Some 200) b) 200) =
  mkRecorder (mkWriter h (Some 200) (b ++ map OChunk cs)) 200.
Proof.
  revert b. induction cs as [|c cs IH]; intros b; cbn; [by rewrite app_nil_r|].
  unfold write_chunks in IH. cbn in IH. rewrite IH. by rewrite <-app_assoc.
Qed.

(** A step of a stream only appends to what was written. *)
Lemma sse_step_appends st a : written (sse_step st a) = written st ++ drop (length (written st)) (written (sse_step st a)).
Proof.
  assert (exists cs, written (sse_step st a) = written st ++ cs) as [cs ->].
  { destruct a as [m| |]; cbn [sse_step].
    - unfold handler. case_match; exists []; by rewrite app_nil_r.
    - by eexists.
    - unfold take_one. destruct (chan st); [exists []; by rewrite app_nil_r|by eexists]. }
  by rewrite drop_app_length.
Qed.

Lemma stream_act_ok k c st a s : server_ok s -> calls s !! k = Some c -> cWork c = Streaming st -> server_ok (stream_act k c st a s).
Proof.
  intros Hok Hk Hw. destruct (sv_calls s Hok k c Hk) as [Hm Hid Hs]. unfold sent_ok in Hs. rewrite Hw in Hs.
  destruct Hs as (Ht & h & Hh & Er). unfold stream_act. constructor.
  - apply (metered_goes_on k c); [done|apply Hok|..]; try done. unfold is_stream.
    rewrite (decide_True (P := streaming c)) by (unfold streaming; by rewrite Hw).
    rewrite (decide_True (P := streaming _)) by done. lia.
  - apply map_Forall_insert_2; [|apply Hok]. constructor; [done..|]. cbn [cWork cTarget cID cRecorder]. split; [done|]. exists h. split; [done|].
    rewrite Er, write_chunks_on, <-map_app. by rewrite <-sse_step_appends.
  - apply Hok.
Qed.

(** A call whose stream is over is like one that never had one. *)
Lemma stream_end_ok k c st s : server_ok s -> calls s !! k = Some c -> cWork c = Streaming st -> server_ok (stream_end k c s).
Proof.
  intros Hok Hk Hw. destruct (sv_calls s Hok k c Hk) as [Hm Hid Hs]. unfold sent_ok in Hs. rewrite Hw in Hs.
  destruct Hs as ((p & t & Ht) & h & Hh & Er). unfold stream_end.
  set (c' := mkCall (cRequest c) (cID c) (cTarget c) (cRecorder c) Waiting).
  assert (metered (mkServer (Dec SSEClients [#] (store s)) (<[k := c']> (calls s)) (finished s))) as Hd.
  { apply (metered_goes_on k c); [done|apply Hok|..]; try (by intros; read_store; rewrite ?Z.add_0_r).
    read_store. rewrite (waiting_zero c') by done. unfold is_stream.
    rewrite (decide_True (P := streaming c)) by (unfold streaming; by rewrite Hw). lia. }
  constructor.
  - assert (instrument_end k c (cRecorder c) (mkServer (Dec SSEClients [#] (store s)) (calls s) (finished s)) =
      instrument_end k c' (cRecorder c) (mkServer (Dec SSEClients [#] (store s)) (<[k := c']> (calls s)) (finished s))) as ->.
    { unfold instrument_end. cbn [store calls finished cRequest cID cTarget c']. by rewrite delete_insert_eq. }
    apply metered_end; [by apply lookup_insert_eq|by apply waiting_zero|done].
  - cbn [instrument_end calls]. apply map_Forall_delete, Hok.
  - cbn [instrument_end finished]. apply Forall_app. split; [apply Hok|]. apply Forall_singleton. rewrite Er.
    constructor; cbn; try done. intros p' r Hpr. by rewrite Ht in Hpr.
Qed.

Lemma step_ok s e : event_ok e -> server_ok s -> server_ok (step ready scrape s e).
Proof.
  intros He Hok. destruct e as [k r fresh|k d sub|k a|k]; cbn [step]; destruct (calls s !! k) as [c|] eqn:Hk; try done.
  - constructor; [apply metered_arrive; [done|apply Hok]| |apply Hok]. apply map_Forall_insert_2; [|apply Hok].
    constructor; [done|by exists fresh|done].
  - destruct (cWork c) eqn:Hw; [by apply handle_ok|done].
  - destruct (cWork c) eqn:Hw; [done|by apply stream_act_ok].
  - destruct (cWork c) eqn:Hw; [done|by apply (stream_end_ok k c s0)].
Qed.

Lemma serve_ok evs : Forall event_ok evs -> server_ok (serve ready scrape evs).
Proof.
  intros H1. unfold serve. assert (server_ok new_server) as H2 by (constructor; [apply metered_new|by apply map_Forall_empty|constructor]).
  revert H2. generalize new_server. induction H1 as [|e evs He _ IH]; intros s Hs; [done|]. apply IH. by apply step_ok.
Qed.

(** Where every page answers and there is a broker nothing panics. *)
Lemma no_panics evs : (forall d, P d -> (forall id r, is_Some (dispatch ready d id r)) /\ is_Some (dBroker d)) ->
  Forall event_ok evs -> tally panicked (finished (serve ready scrape evs)) = 0.
Proof.
  intros Hd Hev. assert (Forall (fun f => panicked f = false) (finished (serve ready scrape evs))) as Hf.
  { unfold serve. assert (Forall (fun f => panicked f = false) (finished new_server)) as H2 by constructor.
    revert H2. generalize new_server. induction Hev as [|e evs He _ IH]; intros s Hs; [done|]. apply IH. clear IH.
    assert (forall k c rec s', finished s' = finished s -> Forall (fun f => panicked f = false) (finished (instrument_end k c rec s'))) as Hend.
    { intros k c rec s' E1. cbn [instrument_end finished]. rewrite E1. apply Forall_app. by split; [|apply Forall_singleton]. }
    destruct e as [k r fresh|k d sub|k a|k]; cbn [step]; destruct (calls s !! k) as [c|]; try done; destruct (cWork c); try done; [|by apply Hend].
    destruct (Hd d He) as [Hr [b Hb]]. unfold handle. destruct (cTarget c) as [p [r| |topic]| |]; try by apply Hend.
    - destruct (Hr (cID c) r) as [resp ->]. by apply Hend.
    - unfold stream_begin. rewrite Hb. destruct (stream_filter topic); [|by apply Hend]. destruct sub; [done|by apply Hend]. }
  unfold tally. induction Hf as [|f fs Hp _ IH]; [done|]. cbn. by rewrite Hp.
Qed.

(** ** Properties *)

(** C32: every request is answered and accounted for. However requests, stream
    actions and disconnections interleave, each answer carries the request's
    identifier in its header and the status that is counted; the answer of a
    page is the one its handler gives for the collaborators at some moment;
    the requests counted under a method, route and class of status, and the
    latencies observed, are exactly the answers that came; the gauge of
    streams is the number of open ones; and the gauge of requests in flight
    is their number and that of the handlers that ever panicked, whose
    answer is a 500 without an identifier. On the plant that was
    validated nothing panics, and the gauge is exact. *)
Theorem requests_accounted (evs : list event) : Forall event_ok evs ->
  let s := serve ready scrape evs in
  (forall m rt cl, sample HTTPRequests [# m; rt; cl] (store s) = tally (labelled m rt cl) (finished s)) /\
  (forall m rt, sample HTTPDuration [# m; rt] (store s) = tally (measured m rt) (finished s)) /\
  sample SSEClients [#] (store s) = open_streams s /\
  sample HTTPInflight [#] (store s) = Z.of_nat (size (calls s)) + tally panicked (finished s) /\
  (forall f, f ∈ finished s -> finished_ok f) /\
  (forall p, Asset.Validate p = [] ->
    (forall d, P d -> dIndex d = Some (Asset.MakeIndex p) /\ (exists h, dHealth d = Some h /\ Poller.listed h) /\ is_Some (dBroker d)) ->
    sample HTTPInflight [#] (store s) = Z.of_nat (size (calls s))).
Proof.
  intros Hev s. destruct (serve_ok evs Hev) as [[H1 H2 H3 H4] Hc Hf]. fold s in H1, H2, H3, H4, Hc, Hf.
  split_and!; try done.
  - intros f. by apply (proj1 (Forall_forall _ _) Hf).
  - intros p Hp%AssetIndex.Validate_well_formed Hd. rewrite H1. unfold s. rewrite no_panics; [lia| |done].
    intros d (Hi & (h & Hh & Hl) & Hb)%Hd. split; [|done]. intros id r.
    destruct (dispatch_total ready p d h id r Hp Hi Hh Hl) as (resp & Er & _). by exists resp.
Qed.
End Serving.

(** Two requests of a caller without an identifier, one with a wrong method,
    and a stream that is still open. *)
Definition sample_events : list (@event Memory.Broker.Broker Memory.MemQueue.Queue) :=
  [Arrive 1 (mkRequest "GET" ["v1"; "stream"] [("topic", "acme/#")] "") "id-1";
   Arrive 2 (mkRequest "GET" ["v1"; "tags"; "air-01"; "latest"] [] "") "id-2";
   Handle 1 sample_deps (Ok tt);
   Arrive 3 (mkRequest "POST" ["v1"; "assets"] [] "caller") "id-3";
   Handle 2 sample_deps (Ok tt); Act 1 (Deliver (mkMessage "acme/a" [x31] false 0)); Handle 3 sample_deps (Ok tt); Act 1 Take].

Lemma requests_accounted_witness :
  let s := serve Memory.Broker.Ready (fun _ => Ok "") sample_events in
  sample HTTPInflight [#] (store s) = 1 /\ sample SSEClients [#] (store s) = 1 /\
  sample HTTPRequests [# "GET"; "GET /v1/tags/{asset}/latest"; "2xx"] (store s) = 1 /\
  sample HTTPRequests [# "POST"; "unmatched"; "4xx"] (store s) = 1.
Proof.
  cbv zeta.
  assert (Forall (event_ok (eq sample_deps)) sample_events) as Hev by (by repeat constructor).
  destruct (requests_accounted Memory.Broker.Ready (fun _ => Ok "") (eq sample_deps) sample_events Hev)
    as (H1 & _ & H2 & _ & _ & H3).
  rewrite !H1, H2. rewrite (H3 (Asset.applyDefaults Plants.plant_modbus)).
  - split_and!; by vm_compute.
  - by vm_compute.
  - intros d <-. split_and!; [done| |done]. eexists. split; [done|]. by apply Poller.Register_listed; constructor.
Defined.
