(* ===== verification/Gateway.v ===== *)
(** * Gateway: the composed gateway (cmd/plantstream/main.go, run)

    [run] gives the edge node, the bridge and the in-memory broker of one
    process: the node's pollers, its ticker and its lifecycle publish, the
    broker sends to the channels of its subscriptions, the goroutine of the
    bridge's subscription calls its callback, the bridge forwards. Their steps
    interleave freely: those of [EdgeRace] inside the node, those of
    [MemoryRace] inside the broker, other subscribers included, and those of
    [Bridge]; the bridge subscribes at any time. *)
From Stdlib Require Import ZArith Lia.
From S2P Require Import Prelude GoBytes GoFloat Uns Ports Memory Inbox Bridge Edge EdgeInv EdgeNew EdgePub.
From S2P Require EdgeRace MemoryRace.
From S2P Require Asset AssetIndex LineSim Sources Poller Plants EdgeLife Http.
Import Asset (TagRef, trAsset, trTag, topic_of).

Open Scope string_scope.
Open Scope list_scope.
Open Scope Z_scope.

(** The broker as a publisher calls it: the goroutine [who] is about to call
    [Publish], and [picked] is the order in which the map will yield the
    subscriptions to it (what is no such order stands for the one of
    [MemoryRace.targets]). A call is its locked block; its sends are later
    steps of the broker, and the goroutine waits for them. *)
Record Station := mkStation { inside : MemoryRace.broker; who : nat; picked : list Z }.

Definition chosen (m : Message) (r : Station) : list Z :=
  let ts := MemoryRace.targets (inside r) (Topic m) in
  if bool_decide (picked r ≡ₚ ts) then picked r else ts.

Global Instance Station_broker : BrokerOps Station Broker.BrokerError := {
  bPublish m r :=
    if MemoryRace.closed (inside r) then (Err Broker.ErrClosed, r)
    else (Ok tt, mkStation (MemoryRace.step (inside r) (MemoryRace.Publish (who r) m (chosen m r))) (who r) (picked r))
}.

(** The publishing goroutines by number: the node's [Run] (0), the staleness
    ticker (1) and the pollers in the order of the sources. *)
Fixpoint position (s : string) (names : list string) : nat :=
  match names with
  | [] => 0
  | x :: rest => if String.eqb x s then 0 else S (position s rest)
  end.

Definition publisher (names : list string) (o : option string) : nat :=
  match o with None => 1 | Some s => S (S (position s names)) end.

Section Gateway.
Context {Q E : Type} `{!QueueOps Q E} `{!QueueLaws Q E}.
Variable render : json -> list byte.
Variable impl_int : float -> Z.

(** [calls] is the node with its callbacks under way, [sub] the bridge's
    subscription once it has one. *)
Record gateway := mkGateway {
  calls : EdgeRace.racing (B := Station);
  bridge : Bridge Q;
  sub : option Z
}.

Definition node (g : gateway) : Node Station := EdgeRace.rNode (calls g).
Definition broker_of (g : gateway) : MemoryRace.broker := inside (broker (node g)).

(** The same callbacks on another state of the node. *)
Definition on_node (n : Node Station) (r : EdgeRace.racing (B := Station)) : EdgeRace.racing (B := Station) :=
  EdgeRace.mkRacing n (EdgeRace.pool r) (EdgeRace.evaluated r) (EdgeRace.cached r) (EdgeRace.published r).

Definition with_calls (r : EdgeRace.racing (B := Station)) (g : gateway) : gateway := mkGateway r (bridge g) (sub g).

Definition with_station (s : Station) (g : gateway) : gateway := with_calls (on_node (set_broker s (node g)) (calls g)) g.

Definition with_broker (b : MemoryRace.broker) (g : gateway) : gateway :=
  with_station (mkStation b (who (broker (node g))) (picked (broker (node g)))) g.

(** The goroutine [p] is next to call [Publish]; it is not in a call already. *)
Definition calling (p : nat) (order : list Z) (g : gateway) : gateway := with_station (mkStation (broker_of g) p order) g.

Definition free (p : nat) (g : gateway) : Prop := MemoryRace.inflight (broker_of g) !! p = None.

Definition lifecycle (s : string) (mt : MessageType) (g : gateway) : gateway :=
  with_calls (on_node (snd (publishLifecycle render s mt (node g))) (calls g)) g.

(** [Run] of the bridge subscribes its filter. *)
Definition subscribe (back : list Message) (g : gateway) : gateway :=
  let b := broker_of g in
  let b' := MemoryRace.step b (MemoryRace.Subscribe (Filter (cfg (bridge g))) back) in
  match MemoryRace.subs b' !! MemoryRace.nextId b with
  | Some _ => let g' := with_broker b' g in mkGateway (calls g') (bridge g) (Some (MemoryRace.nextId b))
  | None => g
  end.

(** The goroutine of the bridge's subscription calls [onMessage] with the first
    message of its backlog and its channel. *)
Definition hand_over (id : Z) (m : Message) (g : gateway) : gateway :=
  let g' := with_broker (MemoryRace.step (broker_of g) (MemoryRace.Handle id)) g in
  mkGateway (calls g') (onMessage m (bridge g)) (sub g).

(** The other steps of the broker: sends, returns and aborts of the calls of
    [Publish], everything the other subscribers do, the end of a context. The
    broker is closed only when all of this has stopped. *)
Definition elsewhere (e : MemoryRace.event) (g : gateway) : Prop :=
  match e with
  | MemoryRace.Publish _ _ _ | MemoryRace.Close => False
  | MemoryRace.Handle id => sub g <> Some id
  | _ => True
  end.

(** The steps. A source announces a BIRTH or a DEATH (building the message and
    handing it to the broker is one step: only the node's own clock and numbers
    are touched before, and its callbacks do not run then); a callback evaluates;
    one that has evaluated does its next step, if its goroutine is not waiting
    for the broker. The only other assumption is that the queue can store what
    the bridge holds (a record of the disk queue has a length limit). *)
Inductive gstep : gateway -> gateway -> Prop :=
| g_lifecycle g s mt ord : s ∈ order (node g) -> mt = Birth \/ mt = Death -> free 0 g ->
    gstep g (lifecycle s mt (calling 0 ord g))
| g_enter g ev : gstep g (with_calls (EdgeRace.enter render impl_int ev (calls g)) g)
| g_publish g k c ord : EdgeRace.pool (calls g) !! k = Some c ->
    let p := publisher (order (node g)) (EdgeRace.cOwner c) in
    free p g -> gstep g (with_calls (EdgeRace.publish_next k (calls (calling p ord g))) g)
| g_broker g e : elsewhere e g -> gstep g (with_broker (MemoryRace.step (broker_of g) e) g)
| g_subscribe g back : sub g = None -> gstep g (subscribe back g)
| g_message g id s m rest : sub g = Some id -> MemoryRace.subs (broker_of g) !! id = Some s ->
    MemoryRace.exited s = false -> MemoryRace.waiting s ++ map snd (MemoryRace.chan s) = m :: rest ->
    gstep g (hand_over id m g)
| g_bridge g b : side (E := E) None (bridge g) -> step (E := E) None (bridge g) b ->
    gstep g (mkGateway (calls g) b (sub g)).

(** [run]: the node and the bridge of the configuration, not yet started. *)
Definition start (n : Node Station) (c : Config) (q : Q) (ans : list bool) : gateway :=
  mkGateway (EdgeRace.mkRacing n [] [] [] []) (Bridge.New c q ans) None.

(** ** Specification *)

(** The bridge's subscription: the retained messages it was given, what was
    sent to its channel, and what waits for the callback. *)
Definition subscription (g : gateway) : option MemoryRace.sub :=
  match sub g with Some id => MemoryRace.subs (broker_of g) !! id | None => None end.

Definition backlog (g : gateway) : list Message := default [] (MemoryRace.start <$> subscription g).
Definition accepted (g : gateway) : list MemoryRace.entry := default [] (MemoryRace.sent <$> subscription g).
Definition waiting (g : gateway) : list Message :=
  default [] ((fun s => MemoryRace.waiting s ++ map snd (MemoryRace.chan s)) <$> subscription g).
End Gateway.
Arguments gateway : clear implicits.

(** The topics a plant's node publishes on. *)
Definition plant_topics (p : Asset.Plant) : list string :=
  map topic_of (Asset.tag_refs p) ++ Http.lifecycle_topics p.

Definition room (p : Asset.Plant) (c : Config) : Prop :=
  (zlength (Asset.tag_refs p) + 2 * zlength (Asset.Sources p)) * PerTopicMax (defaults c) <= InboxSize (defaults c).

(** ** The broker's side *)

Section Broker.
Variable T : list string.
Variable f : string.

(** The state of the broker after publications on [T], with the subscription
    [sub] of the filter [f], of which [arr] has been handed over. *)
Record fed (sub : option Z) (arr : list Message) (b : MemoryRace.broker) : Prop := {
  fd_ok : MemoryRace.ok b;
  fd_open : MemoryRace.closed b = false;
  fd_topics : Forall (fun e => Topic (snd e) ∈ T) (MemoryRace.log b);
  fd_sub : match sub with
           | None => arr = []
           | Some id => exists s, MemoryRace.subs b !! id = Some s /\ MemoryRace.filter s = f /\ MemoryRace.handled s = arr
           end
}.

Lemma chosen_targets m r : chosen m r ≡ₚ MemoryRace.targets (inside r) (Topic m).
Proof. unfold chosen. by case_bool_decide. Qed.

(** A call of [Publish] by a free goroutine is entered in the history. *)
Lemma publish_logged m r : MemoryRace.closed (inside r) = false -> MemoryRace.inflight (inside r) !! who r = None ->
  MemoryRace.log (inside (snd (bPublish m r))) = MemoryRace.log (inside r) ++ [(who r, m)].
Proof.
  intros Hc Hp. unfold bPublish, Station_broker. rewrite Hc. cbn [snd inside MemoryRace.step]. rewrite Hp, Hc. cbn [negb andb].
  by rewrite bool_decide_true by apply chosen_targets.
Qed.

(** However it is called, at most that entry is added. *)
Lemma publish_log m r :
  MemoryRace.log (inside (snd (bPublish m r))) = MemoryRace.log (inside r) \/
  MemoryRace.log (inside (snd (bPublish m r))) = MemoryRace.log (inside r) ++ [(who r, m)].
Proof.
  unfold bPublish, Station_broker. destruct (MemoryRace.closed (inside r)); [by left|]. cbn [snd inside MemoryRace.step].
  destruct (MemoryRace.inflight _ !! _); [by left|]. destruct (_ && _); [by right|by left].
Qed.

(** A step of the broker other than a publication and a call of the handler. *)
Lemma fed_step sub arr e b : (forall p m o, e <> MemoryRace.Publish p m o) -> e <> MemoryRace.Close ->
  (forall id, sub = Some id -> e <> MemoryRace.Handle id) -> fed sub arr b -> fed sub arr (MemoryRace.step b e).
Proof.
  intros Hp Hc Hh [H1 H2 H3 H4]. constructor.
  - by apply MemoryRace.ok_step.
  - by rewrite MemoryRace.step_closed.
  - by rewrite MemoryRace.step_log.
  - destruct sub as [id|]; [|done]. destruct H4 as (s & Hs & Hf & Ha).
    destruct (MemoryRace.step_keeps b e id s H1 Hs (Hh id eq_refl)) as (s' & ? & ? & _ & _ & ?). exists s'. split_and!; congruence.
Qed.

(** A publication on [T] keeps it. *)
Lemma fed_publish sub arr m r : Topic m ∈ T -> fed sub arr (inside r) -> fed sub arr (inside (snd (bPublish m r))).
Proof.
  intros Hm [H1 H2 H3 H4]. pose proof (publish_log m r) as Hl. unfold bPublish, Station_broker in *. rewrite H2 in *. cbn [snd inside] in *.
  set (e := MemoryRace.Publish (who r) m (chosen m r)) in *. constructor.
  - by apply MemoryRace.ok_step.
  - by rewrite MemoryRace.step_closed.
  - destruct Hl as [-> | ->]; [done|]. apply Forall_app. by repeat constructor.
  - destruct sub as [id|]; [|done]. destruct H4 as (s & Hs & Hf & Ha).
    destruct (MemoryRace.step_keeps (inside r) e id s H1 Hs ltac:(done)) as (s' & ? & ? & _ & _ & ?). exists s'. split_and!; congruence.
Qed.

(** Handing over a message. *)
Lemma fed_take id arr b s m rest :
  fed (Some id) arr b -> MemoryRace.subs b !! id = Some s -> MemoryRace.exited s = false ->
  MemoryRace.waiting s ++ map snd (MemoryRace.chan s) = m :: rest ->
  fed (Some id) (arr ++ [m]) (MemoryRace.step b (MemoryRace.Handle id)).
Proof.
  intros [H1 H2 H3 (s' & Hs & Hf & Ha)] Es Hx Hw. rewrite Es in Hs. injection Hs as <-. constructor.
  - by apply MemoryRace.ok_step.
  - by rewrite MemoryRace.step_closed.
  - by rewrite MemoryRace.step_log.
  - cbn [MemoryRace.step]. rewrite Es, Hx. cbn. rewrite lookup_insert_eq. eexists. split; [done|].
    destruct (MemoryRace.handle_frame s) as (-> & _). destruct (MemoryRace.handle_takes s m rest Hw) as [-> _]. by rewrite Ha.
Qed.

(** What is handed over is on [T]. *)
Lemma fed_head sub arr b id s m : fed sub arr b -> MemoryRace.subs b !! id = Some s ->
  m ∈ MemoryRace.waiting s ++ map snd (MemoryRace.chan s) -> Topic m ∈ T.
Proof.
  intros [H1 _ H3 _] Es Hm.
  assert (m ∈ MemoryRace.start s ++ map snd (MemoryRace.sent s)) as Hin.
  { rewrite (MemoryRace.so_handled b id s (MemoryRace.ok_subs b H1 id s Es)). apply elem_of_app. by right. }
  assert (m ∈ map snd (MemoryRace.log b)) as (e & -> & He)%list_elem_of_fmap; [|by apply (proj1 (Forall_forall _ _) H3)].
  apply elem_of_app in Hin as [Hin|(e & -> & He)%list_elem_of_fmap]; [by apply (MemoryRace.start_logged b id s)|].
  apply list_elem_of_fmap_2. by apply (MemoryRace.sent_logged b id s).
Qed.

(** The bridge's [Subscribe]. *)
Lemma fed_subscribe b back s : fed None [] b ->
  MemoryRace.subs (MemoryRace.step b (MemoryRace.Subscribe f back)) !! MemoryRace.nextId b = Some s ->
  fed (Some (MemoryRace.nextId b)) [] (MemoryRace.step b (MemoryRace.Subscribe f back)).
Proof.
  intros Hf Hs. pose proof (fed_step None [] (MemoryRace.Subscribe f back) b ltac:(done) ltac:(done) ltac:(done) Hf) as [H1 H2 H3 _].
  constructor; [done..|]. exists s. split; [done|]. cbn [MemoryRace.step] in Hs. destruct (_ && _ && _).
  - cbn in Hs. rewrite lookup_insert_eq in Hs. by injection Hs as <-.
  - pose proof (MemoryRace.so_id b _ s (MemoryRace.ok_subs b (fd_ok _ _ _ Hf) _ s Hs)). lia.
Qed.
End Broker.

(** ** The bridge's side *)

Section BridgeSide.
Context {Q E : Type} `{!QueueOps Q E} `{!QueueLaws Q E}.
Variable T : list string.
Variable c : Config.

(** The inbox holds messages on [T] only, and its limits are the configured. *)
Record sized (b : Bridge Q) : Prop := {
  sz_topics : forall t, fifo (inb b) t <> [] -> t ∈ T;
  sz_per : perTopic (inb b) = PerTopicMax (defaults c);
  sz_max : maxTotal (inb b) = InboxSize (defaults c);
  sz_cfg : cfg b = defaults c
}.

(** The inbox and the configuration of a step are those of [b] or what a pop
    leaves of them. *)
Definition popped_from (b b' : Bridge Q) : Prop :=
  cfg b' = cfg b /\ (inb b' = inb b \/ inb b' = snd (pop (inb b)) \/ inb b' = inb (on_notify b)).

Lemma replay_loop_cfg n (b : Bridge Q) : cfg (snd (replay_loop (E := E) n b)) = cfg b.
Proof.
  revert b. induction n as [|n IH]; intros b; [done|]. cbn [replay_loop]. destruct (cancelled b); [done|].
  destruct (qPeek (queue b)) as [[[m|]|e] q1]; [|done|].
  - unfold send. cbn [answers set_queue]. destruct (answers b) as [|[] ans]; cbn;
      try (destruct (qAck q1) as [[a|e] q2]; [by rewrite IH|done]). done.
  - cbn. destruct (qAck q1) as [[a|e'] q2]; [by rewrite IH|done].
Qed.

Lemma replay_cfg (b : Bridge Q) : cfg (snd (replay (E := E) b)) = cfg b.
Proof. unfold replay. pose proof (replay_loop_cfg (Z.to_nat (ReplayBatch (cfg b))) b). by destruct (replay_loop _ b) as [[r|] b']. Qed.

Lemma spill_inbox m r (b : Bridge Q) : cfg (spill (E := E) m r b) = cfg b /\ inb (spill (E := E) m r b) = inb b.
Proof. unfold spill. by destruct (qPush m (queue b)) as [[a|e] q]. Qed.

Lemma top_cfg (b : Bridge Q) : cfg (top (E := E) b) = cfg b.
Proof.
  unfold top. destruct (_ && _); [|done]. pose proof (replay_cfg b) as H. destruct (replay b) as [[] b']; [|done].
  cbn in H. by destruct (0 <? _), (cancelled b').
Qed.

Lemma on_timer_cfg (b : Bridge Q) : cfg (on_timer (E := E) b) = cfg b.
Proof.
  unfold on_timer. destruct (negb _); [|done]. destruct (_ =? 0); [done|].
  pose proof (replay_cfg b) as H. by destruct (replay b) as [[] b'].
Qed.

Lemma inner_popped (b : Bridge Q) : popped_from b (inner (E := E) b).
Proof.
  unfold popped_from, inner. destruct (pop (inb b)) as [[m| |] i]; cbn [snd]; [|by auto..].
  destruct (_ || _); [destruct (spill_inbox m "sink_down" (set_inbox i b)) as [-> ->]; by auto|].
  unfold send. cbn [set_inbox answers]. destruct (answers b) as [|[] ans]; [by auto..|].
  match goal with |- context [spill m ?r ?b1] => destruct (spill_inbox m r b1) as [H1 H2]; generalize dependent (spill m r b1) end.
  intros b2 H1 H2. cbn in H1, H2. destruct (cancelled b2); cbn; by auto.
Qed.

Lemma step_popped (b b' : Bridge Q) : q_inv (queue b) -> step None b b' -> popped_from b b'.
Proof.
  intros Hq H. inversion H; subst.
  - by split; auto.
  - split; [apply top_cfg|]. left. apply (sa_inbox _ _ (top_same b Hq)).
  - by split; auto.
  - split; [by rewrite on_timer_cfg|]. left. assert (q_inv (queue (set_retry (backoff b) None b))) as Hq' by exact Hq.
    by rewrite (sa_inbox _ _ (on_timer_same _ Hq')).
  - by split; auto.
  - apply inner_popped.
  - unfold popped_from, drain. destruct (pop (inb b)) as [[m| |] i]; cbn [snd]; [|by auto..].
    destruct (spill_inbox m "shutdown" (set_inbox i b)) as [-> ->]. by auto.
Qed.

Lemma step_sized b b' : wf (inb b) -> q_inv (queue b) -> sized b -> step None b b' -> sized b'.
Proof.
  intros W Hq [Ht Hp Hm Hc] H. destruct (step_popped b b' Hq H) as [Ec Ei]. pose proof (pop_wf (inb b) W) as Hpop.
  destruct Ei as [Ei|[Ei|Ei]]; [by constructor; rewrite ?Ei, ?Ec| |by constructor; rewrite ?Ei, ?Ec].
  destruct (pop (inb b)) as [[m| |] i]; cbn [snd] in Ei; [|by destruct Hpop as (-> & _); constructor; rewrite ?Ei, ?Ec|done].
  destruct Hpop as (_ & Hp' & Hm' & _ & _ & Hf & Hother & _).
  constructor; rewrite ?Ei, ?Ec; try congruence. intros t Hne. apply Ht.
  destruct (decide (t = Topic m)) as [->|Hne']; [by rewrite Hf|by rewrite <- Hother].
Qed.

Lemma message_sized b m : wf (inb b) -> self_evicts m (inb b) = false -> Topic m ∈ T -> sized b -> sized (onMessage m b).
Proof.
  intros W Hs Hm [Ht Hp Hx Hc]. pose proof (push_wf (inb b) m W Hs) as H. rewrite onMessage_eq.
  constructor; cbn [inb meter set_inbox cfg]; destruct (push m (inb b)) as [d i]; cbn [snd];
    destruct H as (_ & Hp' & Hm' & _ & _ & Hf); try congruence.
  intros t Hne. destruct (Hf t) as [k Ek]. destruct (decide (t = Topic m)) as [->|]; [done|]. apply Ht.
  rewrite app_nil_r in Ek. intros E0. by rewrite E0, drop_nil in Ek.
Qed.

Lemma New_sized q ans : sized (Bridge.New c q ans).
Proof. by constructor. Qed.
End BridgeSide.

(** ** The invariant of the whole *)

Section Joined.
Context {Q E : Type} `{!QueueOps Q E} `{!QueueLaws Q E}.
Variable render : json -> list byte.
Variable impl_int : float -> Z.
Variable p : Asset.Plant.
Variable names : list string.
Variable c : Config.
Variable q : Q.
Variable ans : list bool.

Abbreviation T := (plant_topics p).
Abbreviation f := (Filter (defaults c)).

(** The ticker, or the poller of a source of the node. *)
Definition caller (o : option string) : Prop := match o with None => True | Some s => s ∈ names end.

(** The broker's history has what the callbacks of the node published, by goroutine. *)
Definition logged (b : MemoryRace.broker) (l : list (option string * outgoing)) : Prop := forall o, caller o ->
  map snd (MemoryRace.from (publisher names o) (MemoryRace.log b)) = map oMsg (EdgeRace.by_owner o l).

(** The bridge has been given [arr], what the broker no longer holds for it. *)
Record joined (arr : list Message) (g : gateway Q) : Prop := {
  jn_exec : exec (Bridge.New c q ans) arr (bridge g);
  jn_node : race_publishes T (fun r => fed T f (sub g) arr (inside r)) p names (calls g);
  jn_size : sized T c (bridge g);
  jn_turn : EdgeRace.in_turn (calls g);
  jn_log : logged (broker_of g) (EdgeRace.published (calls g))
}.

Hypothesis Hlife : forall s mt, s ∈ names -> mt = Birth \/ mt = Death -> lifecycle_topic p s mt ∈ T.
Hypothesis Hq : q_inv q.
Hypothesis Hroom : room p c.

Lemma joined_sound arr g : joined arr g -> sound (qDropped q) (q_abs q ++ arr) (bridge g).
Proof. intros [H _ _ _ _]. exact (exec_sound _ arr (bridge g) _ _ (New_sound c q ans Hq) H). Qed.

Lemma room_evicts arr g m : joined arr g -> self_evicts m (inb (bridge g)) = false.
Proof.
  intros J. pose proof (so_inbox _ _ _ (joined_sound arr g J)) as W. destruct J as [_ _ [Ht Hp Hm _] _ _].
  apply (sized_no_self_evict _ T); [done|done|]. rewrite Hp, Hm. unfold room in Hroom. etrans; [|exact Hroom].
  apply Z.mul_le_mono_nonneg_r; [pose proof (defaults_per c); lia|]. unfold plant_topics, Http.lifecycle_topics.
  rewrite zlength_app. unfold zlength. rewrite length_map.
  assert (forall ss : list Asset.Source, length (concat (map (fun s => [LifecycleTopic (Asset.Enterprise p) (Asset.Site p) (Asset.Name s) Birth;
    LifecycleTopic (Asset.Enterprise p) (Asset.Site p) (Asset.Name s) Death]) ss)) = (2 * length ss)%nat) as ->; [|lia].
  induction ss as [|s ss IH]; [done|]. cbn [map concat length app]. rewrite IH. lia.
Qed.

Lemma publishes_swap (P P' : Station -> Prop) k r : race_publishes T P p names k -> P' r ->
  race_publishes T P' p names (on_node (set_broker r (EdgeRace.rNode k)) k).
Proof. intros [[_ H2 H3 H4] Hp] H. split; [by constructor|done]. Qed.

Lemma publishes_weaken (P P' : Station -> Prop) n : publishes T P p names n -> (forall r, P r -> P' r) -> publishes T P' p names n.
Proof. intros [H1 H2 H3 H4] H. constructor; auto. Qed.

Lemma joined_fed arr g : joined arr g -> fed T f (sub g) arr (broker_of g).
Proof. intros [_ [[H _ _ _] _] _ _ _]. exact H. Qed.

(** ** Who published what *)

Lemma position_inj s s' (l : list string) : s ∈ l -> position s l = position s' l -> s = s'.
Proof.
  induction l as [|x l IH]; [by intros ?%not_elem_of_nil|]. intros H. cbn [position].
  destruct (String.eqb_spec x s) as [E1|Hs], (String.eqb_spec x s') as [E2|Hs']; try done; [by intros; congruence|].
  intros [= E3]. apply IH; [|done]. by apply elem_of_cons in H as [E1|].
Qed.

Lemma publisher_inj o o' : caller o -> publisher names o = publisher names o' -> o = o'.
Proof.
  destruct o as [s|], o' as [s'|]; cbn [publisher caller]; try done. intros H [= E1]. f_equal. by apply (position_inj s s' names).
Qed.

(** A publication of the callback of [o]. *)
Lemma logged_publish o x r l : MemoryRace.closed (inside r) = false -> MemoryRace.inflight (inside r) !! who r = None ->
  who r = publisher names o -> logged (inside r) l -> logged (inside (snd (bPublish (oMsg x) r))) (l ++ [(o, x)]).
Proof.
  intros Hc Hp Hw H o' Ho'. rewrite publish_logged, MemoryRace.from_app, EdgeRace.by_owner_snoc, !map_app, H by done. f_equal.
  rewrite MemoryRace.from_single, Hw. destruct (decide (o = o')) as [->|Hne]; [by rewrite decide_True|].
  rewrite decide_False; [done|]. intros E1. apply Hne. symmetry. by apply publisher_inj.
Qed.

(** One of the node's [Run]. *)
Lemma logged_run m r l : who r = 0%nat -> logged (inside r) l -> logged (inside (snd (bPublish m r))) l.
Proof.
  intros Hw H o Ho. destruct (publish_log m r) as [-> | ->]; [by apply H|].
  rewrite MemoryRace.from_app, map_app, H, MemoryRace.from_single, Hw by done. rewrite decide_False by (by destruct o). by rewrite app_nil_r.
Qed.

Lemma enter_frame ev (r : EdgeRace.racing (B := Station)) :
  broker (EdgeRace.rNode (EdgeRace.enter render impl_int ev r)) = broker (EdgeRace.rNode r) /\
  EdgeRace.published (EdgeRace.enter render impl_int ev r) = EdgeRace.published r.
Proof.
  unfold EdgeRace.enter. destruct (EdgeRace.busy _ r); [done|]. pose proof (EdgeRace.quiet_evaluate render impl_int ev (EdgeRace.rNode r)) as [Q1 _].
  by destruct (EdgeRace.evaluate _ _ _ _) as [[out|e] n].
Qed.

Lemma next_frame k (r : EdgeRace.racing (B := Station)) : let r' := EdgeRace.publish_next k r in
  (broker (EdgeRace.rNode r') = broker (EdgeRace.rNode r) /\ EdgeRace.published r' = EdgeRace.published r) \/
  exists c x, EdgeRace.pool r !! k = Some c /\ broker (EdgeRace.rNode r') = snd (bPublish (oMsg x) (broker (EdgeRace.rNode r))) /\
    EdgeRace.published r' = EdgeRace.published r ++ [(EdgeRace.cOwner c, x)].
Proof.
  unfold EdgeRace.publish_next. destruct (EdgeRace.pool r !! k) as [c0|]; [|by left]. destruct (EdgeRace.cOut c0) as [|x rest]; [by left|].
  destruct (EdgeRace.cStage c0) as [|prev|]; [|by left|].
  - left. unfold EdgeRace.cache_one. by destruct (Latest.SetMetric _ _ _).
  - right. exists c0, x. split; [done|]. split; [|done]. apply EdgeRace.send_one_after.
Qed.

(** ** Every step keeps it *)

(** A step of the node, its new state being [r]. *)
Lemma joined_calls arr g r : joined arr g -> race_publishes T (fun s => fed T f (sub g) arr (inside s)) p names r ->
  EdgeRace.in_turn r -> logged (inside (broker (EdgeRace.rNode r))) (EdgeRace.published r) -> joined arr (with_calls r g).
Proof. intros [J1 J2 J3 J4 J5] H1 H2 H3. by constructor. Qed.

Lemma joined_calling arr g pn ord : joined arr g -> joined arr (calling pn ord g).
Proof.
  intros J. pose proof (joined_fed _ _ J) as Hf. destruct J as [J1 J2 J3 J4 J5]. constructor; try done.
  - eapply publishes_swap; [exact J2|done].
  - by apply EdgeRace.in_turn_node.
Qed.

Lemma joined_lifecycle arr g s mt ord : joined arr g -> s ∈ order (node g) -> mt = Birth \/ mt = Death ->
  joined arr (lifecycle render s mt (calling 0 ord g)).
Proof.
  intros J0 Hs Hmt. pose proof (joined_calling arr g 0 ord J0) as J. set (g1 := calling 0 ord g) in *.
  pose proof J as [J1 [Jn Jp] J3 J4 J5]. pose proof (joined_fed _ _ J) as Hf.
  assert (order (node g) = names) as En by (apply (pb_order _ _ _ _ _ (proj1 (jn_node _ _ J0)))). rewrite En in Hs.
  set (P := fun r : Station => (fed T f (sub g1) arr (inside r) /\ logged (inside r) (EdgeRace.published (calls g1))) /\ who r = 0%nat).
  assert (publishes T P p names (node g1)) as HP by (destruct Jn as [_ ? ? ?]; by constructor).
  destruct (through_lifecycle render T P p names Hlife) with (s := s) (mt := mt) (n := node g1) as [H _]; [|done..|].
  { intros m r Hm [[? ?] Hw]. split; [|unfold bPublish, Station_broker; by destruct (MemoryRace.closed _)].
    split; [by apply fed_publish|by apply logged_run]. }
  apply joined_calls; [done| |by apply EdgeRace.in_turn_node|].
  - split; [|done]. eapply publishes_weaken; [exact H|]. by intros r [[? ?] ?].
  - by destruct (pb_broker _ _ _ _ _ H) as [[_ ?] _].
Qed.

Lemma joined_publish arr g k cb ord : joined arr g -> EdgeRace.pool (calls g) !! k = Some cb ->
  let pn := publisher (order (node g)) (EdgeRace.cOwner cb) in
  free pn g -> joined arr (with_calls (EdgeRace.publish_next k (calls (calling pn ord g))) g).
Proof.
  intros J0 Hk pn Hfree. pose proof (joined_calling arr g pn ord J0) as J. set (g1 := calling pn ord g) in *.
  pose proof (joined_fed _ _ J) as Hf. change (with_calls ?r g) with (with_calls r g1).
  assert (order (node g) = names) as En by (apply (pb_order _ _ _ _ _ (proj1 (jn_node _ _ J0)))).
  apply joined_calls; [done|apply next_publishes, J; intros; by apply fed_publish|apply EdgeRace.next_in_turn, J|].
  destruct (next_frame k (calls g1)) as [[E1 E2]|(c0 & x & E0 & E1 & E2)]; rewrite E1, E2; [apply J|].
  change (EdgeRace.pool (calls g1)) with (EdgeRace.pool (calls g)) in E0. rewrite Hk in E0. injection E0 as <-.
  apply logged_publish; [apply Hf|exact Hfree|cbn; unfold pn; by rewrite En|apply J].
Qed.

Lemma joined_broker arr g e : joined arr g -> elsewhere e g -> joined arr (with_broker (MemoryRace.step (broker_of g) e) g).
Proof.
  intros J He. pose proof (joined_fed _ _ J) as Hf. destruct J as [J1 J2 J3 J4 J5].
  assert ((forall pn m o, e <> MemoryRace.Publish pn m o) /\ e <> MemoryRace.Close /\ (forall id, sub g = Some id -> e <> MemoryRace.Handle id))
    as (H1 & H2 & H3) by (split_and!; [intros * ->|intros ->|intros * E1 ->]; cbn in He; congruence || done).
  constructor; try done.
  - eapply publishes_swap; [exact J2|]. by apply fed_step.
  - by apply EdgeRace.in_turn_node.
  - intros o Ho. cbn -[MemoryRace.step]. rewrite MemoryRace.step_log by done. by apply J5.
Qed.

Lemma joined_subscribe arr g back : joined arr g -> sub g = None -> joined arr (subscribe back g).
Proof.
  intros J Hsub. pose proof (joined_fed _ _ J) as Hf. pose proof J as [J1 J2 J3 J4 J5]. unfold subscribe. rewrite (sz_cfg _ _ _ J3).
  destruct (MemoryRace.subs _ !! _) as [s|] eqn:Es; [|done]. rewrite Hsub in Hf. pose proof (fd_sub _ _ _ _ _ Hf) as ->.
  constructor; try done.
  - eapply publishes_swap; [exact J2|]. by apply (fed_subscribe T f _ back s).
  - by apply EdgeRace.in_turn_node.
  - intros o Ho. cbn -[MemoryRace.step]. rewrite MemoryRace.step_log by done. by apply J5.
Qed.

Lemma joined_message arr g id s m rest : joined arr g -> sub g = Some id -> MemoryRace.subs (broker_of g) !! id = Some s ->
  MemoryRace.exited s = false -> MemoryRace.waiting s ++ map snd (MemoryRace.chan s) = m :: rest -> joined (arr ++ [m]) (hand_over id m g).
Proof.
  intros J Hsub Es Hx Hw. pose proof (joined_fed _ _ J) as Hf. pose proof (room_evicts arr g m J) as Hev.
  pose proof (joined_sound arr g J) as S. pose proof J as [J1 J2 J3 J4 J5].
  assert (Topic m ∈ T) as Hm by (apply (fed_head _ _ _ _ _ _ s m Hf Es); rewrite Hw; left).
  constructor.
  - by apply (exec_step _ arr (Some m) (bridge g) _ J1 Hev), step_message.
  - eapply publishes_swap; [exact J2|]. cbn [hand_over sub]. rewrite Hsub in *. by apply (fed_take T f id arr _ s m rest).
  - apply message_sized; [apply S|done..].
  - by apply EdgeRace.in_turn_node.
  - intros o Ho. cbn -[MemoryRace.step]. rewrite MemoryRace.step_log by done. by apply J5.
Qed.

Lemma gstep_joined arr g g' : joined arr g -> gstep (E := E) render impl_int g g' -> exists arr', joined arr' g'.
Proof.
  intros J Hstep. pose proof (joined_sound arr g J) as S.
  inversion Hstep as [? s mt ord Hs Hmt Hfree|? ev|? k cb ord Hk pn Hfree|? e He|? back Hsub|? id s m rest Hsub Es Hx Hw|? b Hside Hb]; subst g'; subst.
  - exists arr. by apply joined_lifecycle.
  - exists arr. destruct (enter_frame ev (calls g)) as [E1 E2].
    apply joined_calls; [done|by apply enter_publishes, J|apply EdgeRace.enter_in_turn, J|]. rewrite E1, E2. apply J.
  - exists arr. by apply joined_publish.
  - exists arr. by apply joined_broker.
  - exists arr. by apply joined_subscribe.
  - exists (arr ++ [m]). by apply (joined_message arr g id s m rest).
  - exists arr. pose proof J as [J1 J2 J3 J4 J5]. constructor; try done.
    + pose proof (exec_step _ arr None (bridge g) b J1 Hside Hb) as H. cbn in H. by rewrite app_nil_r in H.
    + by eapply step_sized; [apply S|apply S|done|].
Qed.

Lemma gsteps_joined arr g g' : joined arr g -> rtc (gstep (E := E) render impl_int) g g' -> exists arr', joined arr' g'.
Proof.
  intros J H. revert arr J. induction H as [|g g1 g2 Hs _ IH]; intros arr J; [by exists arr|].
  destruct (gstep_joined arr g g1 J Hs) as [arr' J']. by apply (IH arr').
Qed.

(** What was handed over and what waits is the backlog and what was sent. *)
Lemma joined_handed arr g : joined arr g -> arr ++ waiting g = backlog g ++ map snd (accepted g).
Proof.
  intros J. pose proof (joined_fed arr g J) as [Hok _ _ H]. unfold waiting, backlog, accepted, subscription.
  destruct (sub g) as [id|]; [|by rewrite H]. destruct H as (s & Es & _ & <-). rewrite Es. cbn.
  by rewrite (MemoryRace.so_handled _ id s (MemoryRace.ok_subs _ Hok id s Es)).
Qed.
End Joined.

(** ** From an accepted plant file *)

Section Started.
Context {C R : Type} {Hrand : LineSim.Rand R}.
Context {Q E : Type} `{!QueueOps Q E} `{!QueueLaws Q E}.
Variable render : json -> list byte.
Variable impl_int : float -> Z.

Lemma lifecycle_listed p s mt : s ∈ map Asset.Name (Asset.Sources p) -> mt = Birth \/ mt = Death ->
  lifecycle_topic p s mt ∈ plant_topics p.
Proof.
  intros (src & -> & Hs)%list_elem_of_fmap Hmt. apply elem_of_app. right. unfold Http.lifecycle_topics.
  apply list_elem_of_In, in_concat. eexists. split; [apply in_map_iff; exists src; split; [done|by apply list_elem_of_In]|].
  destruct Hmt as [-> | ->]; [by left|by right; left].
Qed.

Definition silent : Station := mkStation MemoryRace.NewBroker 0 [].

Lemma start_joined d p hl ck n c q ans :
  Asset.Parse d = Ok p -> Sources.typed_registers p ->
  New (C := C) (R := R) (Asset.MakeIndex p) silent hl ck = Ok n ->
  joined p (order n) c q ans [] (start n c q ans) /\
  (forall s mt, s ∈ order n -> mt = Birth \/ mt = Death -> lifecycle_topic p s mt ∈ plant_topics p).
Proof.
  intros Hp Hty En.
  destruct (New_builds (C := C) (R := R) d p silent hl ck Hp Hty) as (n' & En' & Hb & Hpl & Hbr & _).
  rewrite En in En'. injection En' as <-. split.
  - constructor; cbn [start bridge calls sub]; [constructor| |by apply New_sized|by constructor; [constructor|..]|].
    + split; [|by constructor]. constructor; [|intros s r Hs t tr Ht|done..].
      * cbn [EdgeRace.rNode]. rewrite Hbr. constructor; [apply MemoryRace.ok_new|done..].
      * apply (b_runs _ _ _ _ _ _ _ Hb) in Hs as (src & _ & _ & _ & ->).
        apply run_of_tags in Ht as [[Htr _]%tags_of_source _]. apply elem_of_app. left. by apply list_elem_of_fmap_2.
    + intros o _. unfold broker_of, node. cbn [calls start EdgeRace.rNode]. by rewrite Hbr.
  - intros s mt Hs. apply lifecycle_listed. rewrite (b_order _ _ _ _ _ _ _ Hb) in Hs.
    apply list_elem_of_fmap in Hs as (src & -> & Hs). apply list_elem_of_In, filter_In in Hs as [Hs%list_elem_of_In _].
    by apply list_elem_of_fmap_2.
Qed.

(** C4: from the plant floor to the cloud nothing is lost or reordered silently.
    The node of an accepted plant and the bridge are joined by the in-memory
    broker; the inbox has room for every topic's allowance, the queue can store
    what the bridge holds. However births, deaths and the steps of callbacks,
    broker, other subscribers and bridge interleave, and whatever the sink
    answers: what a poller or the ticker published and has still to publish is
    what it evaluated, in order; what the broker sent to
    the bridge and is sending of a publisher is in order part of its matching
    publications since the subscription, and all of them while the bridge is
    subscribed and no call of the publisher was aborted (two publishers of a
    topic can overtake each other here); per topic, what the sink got, then
    what is queued, buffered and waiting is in order part of the initial queue,
    the retained backlog and what the broker sent; each of these messages is
    there, coalesced or evicted, and counted; no push failed. *)
Theorem gateway_sound (d p : Asset.Plant) (hl : Poller.Health) (ck : nat -> Time) (n : Node Station)
    (c : Config) (q : Q) (ans : list bool) (g : gateway Q) :
  Asset.Parse d = Ok p -> Sources.typed_registers p -> q_inv q -> room p c ->
  New (C := C) (R := R) (Asset.MakeIndex p) silent hl ck = Ok n ->
  rtc (gstep (E := E) render impl_int) (start n c q ans) g ->
  let b := bridge g in
  let m := broker_of g in
  (forall o, caller (order n) o ->
     map snd (MemoryRace.from (publisher (order n) o) (MemoryRace.log m)) ++ map oMsg (EdgeRace.to_publish o (EdgeRace.pool (calls g))) =
     map oMsg (EdgeRace.by_owner o (EdgeRace.evaluated (calls g)))) /\
  (forall id s, sub g = Some id -> MemoryRace.subs m !! id = Some s ->
     MemoryRace.filter s = Filter (defaults c) /\
     backlog g ≡ₚ Broker.backlog (Filter (defaults c)) (MemoryRace.retained_after (take (MemoryRace.since s) (MemoryRace.log m))) /\
     forall w, sublist (MemoryRace.from w (accepted g) ++ MemoryRace.owed (MemoryRace.inflight m) w id)
       (MemoryRace.from w (MemoryRace.due (MemoryRace.log m) s)) /\
     (id ∈ MemoryRace.live m -> w ∉ MemoryRace.aborted m ->
        MemoryRace.from w (accepted g) ++ MemoryRace.owed (MemoryRace.inflight m) w id =
        MemoryRace.from w (MemoryRace.due (MemoryRace.log m) s))) /\
  (forall t, sublist (of_topic t (sent b) ++ of_topic t (q_abs (queue b)) ++ fifo (inb b) t ++ of_topic t (waiting g))
               (of_topic t (q_abs q ++ backlog g ++ map snd (accepted g)))) /\
  zlength (q_abs q) + zlength (backlog g) + zlength (accepted g) =
    zlength (sent b) + zlength (q_abs (queue b)) + len (inb b) + droppedCount (inb b) +
    (qDropped (queue b) - qDropped q) + zlength (waiting g) /\
  lost b = 0.
Proof.
  intros Hp Hty Hq Hroom En Hs. cbv zeta. destruct (start_joined d p hl ck n c q ans Hp Hty En) as [J0 Hlife].
  destruct (gsteps_joined render impl_int p (order n) c q ans Hlife Hq Hroom [] _ g J0 Hs) as [arr J].
  pose proof (joined_sound p (order n) c q ans Hq arr g J) as [_ _ So Sc Sl]. pose proof (joined_handed _ _ _ _ _ arr g J) as Eo.
  pose proof (joined_fed _ _ _ _ _ arr g J) as Hf. split_and!; [| | | |done].
  - intros o Ho. rewrite <- (EdgeRace.it_published _ (jn_turn _ _ _ _ _ _ _ J) o), map_app, (jn_log _ _ _ _ _ _ _ J o Ho). done.
  - intros id s Es Hid. pose proof (MemoryRace.ok_subs _ (fd_ok _ _ _ _ _ Hf) id s Hid) as Hok.
    assert (accepted g = MemoryRace.sent s /\ backlog g = MemoryRace.start s) as [-> ->]
      by (unfold accepted, backlog, subscription; by rewrite Es, Hid).
    assert (MemoryRace.filter s = Filter (defaults c)) as Ef.
    { destruct Hf as [_ _ _ Hs']. rewrite Es in Hs'. destruct Hs' as (s' & Hs' & <- & _). congruence. }
    split; [done|]. split; [rewrite <- Ef; apply Hok|]. intros w. split; [apply Hok|]. intros. symmetry. by apply Hok.
  - intros t. specialize (So t). unfold forwarding in So. rewrite of_topic_app, <- app_assoc in So.
    rewrite <- Eo, of_topic_app, of_topic_app, !app_assoc, <- (app_assoc (of_topic t (sent (bridge g)))).
    rewrite of_topic_app in So. by apply sublist_app.
  - rewrite zlength_app in Sc. unfold forwarding in Sc. rewrite zlength_app in Sc.
    assert (zlength (backlog g) + zlength (accepted g) = zlength arr + zlength (waiting g)) as E1.
    { rewrite <- zlength_app, Eo, zlength_app. unfold zlength. by rewrite length_map. }
    unfold len, droppedCount. lia.
Qed.
End Started.

(** ** A run of the packaging line *)

Definition line_plant : Asset.Plant := Asset.applyDefaults Plants.plant_modbus.

Definition line_node : Node Station :=
  match New (C := unit) (R := unit) (Asset.MakeIndex line_plant) silent Poller.NewHealth EdgeLife.noon with
  | Ok n => n
  | Err _ => mkNode line_plant silent Latest.NewLatest EdgeLife.noon O ∅ [] ∅ Poller.NewHealth
  end.

Abbreviation line := (gateway MemQueue.Queue).

Definition line_start : line := start line_node ex_config (MemQueue.NewQueue 0) [true; false].

(** What can happen next, as functions. *)
Definition line_step (e : MemoryRace.event) (g : line) : line := with_broker (MemoryRace.step (broker_of g) e) g.

Definition line_enter (ev : event) (g : line) : line := with_calls (EdgeRace.enter EdgeLife.brace trunc_Z ev (calls g)) g.

Definition line_next (g : line) : line := with_calls (EdgeRace.publish_next 0 (calls (calling 2 [] g))) g.

Definition line_message (g : line) : line := hand_over 0 (default (mkMessage "" [] false 0) (head (waiting g))) g.

Definition line_bridge (f : Bridge MemQueue.Queue -> Bridge MemQueue.Queue) (g : line) : line := mkGateway (calls g) (f (bridge g)) (sub g).

(** The birth comes before the bridge subscribes; then a reading is published,
    the BIRTH is forwarded, and the sink refuses the reading, which is queued. *)
Definition line_born : line :=
  line_step (MemoryRace.Return 0) (lifecycle EdgeLife.brace "plc-line-1" Birth (calling 0 [] line_start)).

Definition line_read : line :=
  let g := subscribe (map snd (map_to_list (MemoryRace.retained (broker_of line_born)))) line_born in
  line_next (line_next (line_next (line_enter (Readings "plc-line-1" [Collector.mkReading "speed" (of_Z 100) 5]) g))).

Definition line_sent : line := line_step (MemoryRace.Return 2) (line_step (MemoryRace.Send 2) line_read).

Definition line_end : line :=
  let g := line_bridge top (line_message (line_message line_sent)) in
  line_bridge inner (line_bridge inner (line_bridge on_notify g)).

Abbreviation lstep := (gstep (E := unit) EdgeLife.brace trunc_Z).

Lemma line_bridge_step f g : step (E := unit) None (bridge g) (f (bridge g)) -> lstep g (line_bridge f g).
Proof. intros H. apply g_bridge; [done|exact H]. Qed.

Lemma line_next_step g cb : EdgeRace.pool (calls g) !! 0%nat = Some cb -> publisher (order (node g)) (EdgeRace.cOwner cb) = 2%nat ->
  free 2 g -> lstep g (line_next g).
Proof. intros Hk Hp Hf. unfold line_next. rewrite <- Hp in *. by apply (g_publish EdgeLife.brace trunc_Z g 0 cb []). Qed.

Lemma line_message_step g s m rest : sub g = Some 0 -> MemoryRace.subs (broker_of g) !! 0 = Some s -> MemoryRace.exited s = false ->
  MemoryRace.waiting s ++ map snd (MemoryRace.chan s) = m :: rest -> lstep g (line_message g).
Proof.
  intros H1 H2 H3 H4. assert (waiting g = m :: rest) as E1 by (unfold waiting, subscription; rewrite H1, H2; exact H4).
  unfold line_message. rewrite E1. by apply (g_message EdgeLife.brace trunc_Z g 0 s m rest).
Qed.

Lemma line_run : rtc lstep line_start line_end.
Proof.
  assert (rtc lstep line_start line_born) as H1.
  { etrans; [|by apply rtc_once, g_broker]. apply rtc_once, g_lifecycle; [by left|by left|by vm_compute]. }
  assert (rtc lstep line_born line_read) as H2.
  { unfold line_read. cbv zeta. etrans; [|apply rtc_once; eapply line_next_step; by vm_compute].
    etrans; [|apply rtc_once; eapply line_next_step; by vm_compute]. etrans; [|apply rtc_once; eapply line_next_step; by vm_compute].
    etrans; [|apply rtc_once, g_enter]. by apply rtc_once, g_subscribe. }
  assert (rtc lstep line_read line_sent) as H3.
  { etrans; [|by apply rtc_once, g_broker]. by apply rtc_once, g_broker. }
  etrans; [exact H1|]. etrans; [exact H2|]. etrans; [exact H3|].
  unfold line_end. cbv zeta. etrans; [|apply rtc_once, line_bridge_step, step_inner; by vm_compute].
  etrans; [|apply rtc_once, line_bridge_step, step_inner; by vm_compute].
  etrans; [|apply rtc_once, line_bridge_step, step_notify; by vm_compute].
  etrans; [|apply rtc_once, line_bridge_step, step_top; by vm_compute].
  etrans; [|apply rtc_once; eapply line_message_step; by vm_compute].
  apply rtc_once; eapply line_message_step; by vm_compute.
Qed.

Lemma gateway_sound_witness :
  map Topic (sent (bridge line_end)) = ["acme/austin/_edge/plc-line-1/BIRTH"] /\
  map Topic (MemQueue.items (queue (bridge line_end))) = ["acme/austin/packaging/line-1/filling/speed"] /\
  0 + zlength (backlog line_end) + zlength (accepted line_end) = 1 + 1 + 0 + 0 + (0 - 0) + 0 /\ lost (bridge line_end) = 0.
Proof.
  destruct (gateway_sound (C := unit) (R := unit) EdgeLife.brace trunc_Z Plants.plant_modbus line_plant Poller.NewHealth
    EdgeLife.noon line_node ex_config (MemQueue.NewQueue 0) [true; false] line_end) as (_ & _ & _ & H1 & H2);
    [by vm_compute|exact Sources.plant_modbus_typed|done|by vm_compute|by vm_compute|exact line_run|].
  split; [by vm_compute|]. split; [by vm_compute|]. split; [|exact H2]. vm_compute in H1. vm_compute. exact H1.
Defined.
