(* ===== verification/Mqtt.v ===== *)
(** * Mqtt: the MQTT broker adapter (internal/adapters/mqtt/broker.go)

    The connection manager is third-party code: [ClientOps] are the calls the
    adapter makes, [ClientLaws] what MQTT says of the filters of the session on
    the server. The calls happen outside the adapter's mutex, so a goroutine
    stands between its locked block and its call while others run: the
    [flight]s of the system, completed in any order. *)
From Stdlib Require Import ZArith Lia.
From S2P Require Import Prelude GoBytes Uns Ports.
From stdpp Require Import gmap.

Open Scope string_scope.
Open Scope list_scope.
Open Scope Z_scope.

(** ** Configuration (New) *)

Record MqttConfig := mkMqttConfig {
  URL : string;
  ClientID : string;
  Username : string;
  Password : string;
  QoS : Z;
  KeepAlive : Z;
  ConnectTimeout : Duration;
  Will : option Message
}.

(** The defaults and the clamp at the head of [New]. *)
Definition defaults (c : MqttConfig) : MqttConfig :=
  mkMqttConfig (URL c)
    (if String.eqb (ClientID c) "" then "plantstream" else ClientID c)
    (Username c) (Password c)
    (if 1 <? QoS c then 1 else QoS c)
    (if KeepAlive c =? 0 then 30 else KeepAlive c)
    (if ConnectTimeout c <=? 0 then 10 * Second else ConnectTimeout c)
    (Will c).

(** The last will handed to the client: topic, payload, QoS, retain and the
    delay in seconds, doubled in 16 bits. *)
Record WillMessage := mkWill { wTopic : string; wPayload : list byte; wQoS : Z; wRetain : bool; wDelay : Z }.

Definition will (c : MqttConfig) : option WillMessage :=
  (fun m => mkWill (Topic m) (Payload m) (QoS c) (Retain m) (u16 (2 * KeepAlive c))) <$> Will c.

(** [ReconnectBackoff]; a negative shift count panics. *)
Definition ReconnectBackoff (attempt : Z) : option Duration :=
  let k := Z.min attempt 5 in
  if k <? 0 then None else Some (Z.min (i64 (Z.shiftl 1 k * Second)) (30 * Second)).

(** ** The client *)

Class ClientOps (C CE : Type) := {
  cPublish : Message -> Z -> GoM C CE unit;
  cSubscribe : list string -> Z -> GoM C CE unit;
  cUnsubscribe : list string -> GoM C CE unit;
  cDisconnect : GoM C CE unit;
  cConnectionDown : CE -> bool
}.

(** What the session subscribes to: an acknowledged SUBSCRIBE adds its
    filters, an acknowledged UNSUBSCRIBE removes them, a failed one may or may
    not have been carried out, a publication changes nothing. *)
Class ClientLaws (C CE : Type) `{!ClientOps C CE} := {
  session : C -> gset string;
  c_publish : forall m q c, session (snd (cPublish m q c)) = session c;
  c_subscribe : forall fs q c, fst (cSubscribe fs q c) = Ok tt ->
    session (snd (cSubscribe fs q c)) = session c ∪ list_to_set fs;
  c_subscribe_err : forall fs q c e, fst (cSubscribe fs q c) = Err e ->
    session c ⊆ session (snd (cSubscribe fs q c));
  c_unsubscribe : forall fs c, fst (cUnsubscribe fs c) = Ok tt ->
    session (snd (cUnsubscribe fs c)) = session c ∖ list_to_set fs;
  c_unsubscribe_err : forall fs c e, fst (cUnsubscribe fs c) = Err e ->
    session c ∖ list_to_set fs ⊆ session (snd (cUnsubscribe fs c))
}.

(** ** The adapter *)

(** A subscription; a handler and a context are known by their numbers. *)
Record subscription := mkSubscription { sFilter : string; sHandler : nat; sCtx : nat }.

Inductive MqttError (CE : Type) :=
| EFilter (e : UnsError)
| EClosed
| EPublish (topic : string) (e : CE)
| ESubscribe (filter : string) (e : CE)
| EDisconnect (e : CE).
Arguments EFilter {CE} e.
Arguments EClosed {CE}.
Arguments EPublish {CE} topic e.
Arguments ESubscribe {CE} filter e.
Arguments EDisconnect {CE} e.

Section Broker.
Context {C CE : Type} `{!ClientOps C CE}.

(** [subs] is keyed by the address of the subscription, [fresh] is the next. *)
Record Broker := mkBroker {
  cfg : MqttConfig;
  cm : C;
  subs : gmap nat subscription;
  fresh : nat;
  connected : bool;
  closed : bool
}.

Abbreviation M := (GoM Broker (MqttError CE)).

Definition NewBroker (c : MqttConfig) (client : C) : Broker := mkBroker (defaults c) client ∅ 0 false false.

Definition set_cm (c : C) (b : Broker) : Broker := mkBroker (cfg b) c (subs b) (fresh b) (connected b) (closed b).
Definition set_subs (s : gmap nat subscription) (b : Broker) : Broker :=
  mkBroker (cfg b) (cm b) s (fresh b) (connected b) (closed b).
Definition set_connected (u : bool) (b : Broker) : Broker := mkBroker (cfg b) (cm b) (subs b) (fresh b) u (closed b).

(** A call of the client from the adapter. *)
Definition call {A} (f : GoM C CE A) : GoM Broker CE A := fun b =>
  let '(r, c) := f (cm b) in (r, set_cm c b).

(** [onPublish]: the handlers called, with their contexts, and whether the
    message is reported as handled. [done] tells which contexts have ended. *)
Definition targets (topic : string) (b : Broker) : list subscription :=
  List.filter (fun s => MatchFilter (sFilter s) topic) (map snd (map_to_list (subs b))).

Definition onPublish (done : nat -> bool) (topic : string) (b : Broker) : list subscription * bool :=
  let ts := targets topic b in
  (List.filter (fun s => negb (done (sCtx s))) ts, 0 <? zlength ts).

(** The locked block of [resubscribe]: the filters, each once. *)
Definition add_filter (seen : list string) (f : string) : list string :=
  if bool_decide (f ∈ seen) then seen else seen ++ [f].

Definition filters (b : Broker) : list string :=
  fold_left add_filter (map (fun p => sFilter (snd p)) (map_to_list (subs b))) [].

Definition Publish (m : Message) : M unit := fun b =>
  if closed b then (Err EClosed, b)
  else
    match call (cPublish m (QoS (cfg b))) b with
    | (Ok _, b) => (Ok tt, b)
    | (Err e, b) => (Err (EPublish (Topic m) e), b)
    end.

(** [Subscribe] up to the end of its locked block, and its call. *)
Definition subscribe_begin (ctx : nat) (filter : string) (h : nat) : M nat := fun b =>
  match ValidateFilter filter with
  | Err e => (Err (EFilter e), b)
  | Ok _ =>
      if closed b then (Err EClosed, b)
      else
        (Ok (fresh b),
         mkBroker (cfg b) (cm b) (<[fresh b := mkSubscription filter h ctx]> (subs b)) (S (fresh b)) (connected b) (closed b))
  end.

Definition subscribe_end (id : nat) (filter : string) : M nat := fun b =>
  match call (cSubscribe [filter] (QoS (cfg b))) b with
  | (Ok _, b) => (Ok id, b)
  | (Err e, b) => (Err (ESubscribe filter e), set_subs (delete id (subs b)) b)
  end.

Definition Subscribe (ctx : nat) (filter : string) (h : nat) : M nat :=
  id ← subscribe_begin ctx filter h;
  subscribe_end id filter.

(** The function [Subscribe] returns: its locked block with the test after it
    (whether the server must be told), and its call, whose result is ignored. *)
Definition unsubscribe_begin (id : nat) (filter : string) (b : Broker) : bool * Broker :=
  let b' := set_subs (delete id (subs b)) b in
  let still := existsb (fun p => String.eqb (sFilter (snd p)) filter) (map_to_list (subs b')) in
  (negb still && negb (closed b'), b').

Definition unsubscribe_end (filter : string) (b : Broker) : Broker := snd (call (cUnsubscribe [filter]) b).

Definition unsubscribe (id : nat) (filter : string) (b : Broker) : Broker :=
  match unsubscribe_begin id filter b with
  | (true, b) => unsubscribe_end filter b
  | (false, b) => b
  end.

(** [resubscribe] after its locked block; a failure is only logged. *)
Definition resubscribe_end (fs : list string) (b : Broker) : Broker :=
  snd (call (cSubscribe fs (QoS (cfg b))) b).

Definition Ready (b : Broker) : bool := connected b && negb (closed b).

Definition Close : M unit := fun b =>
  if closed b then (Ok tt, b)
  else
    match call cDisconnect (mkBroker (cfg b) (cm b) (subs b) (fresh b) (connected b) true) with
    | (Ok _, b) => (Ok tt, b)
    | (Err e, b) => ((if cConnectionDown e then Ok tt else Err (EDisconnect e)), b)
    end.

(** ** Goroutines *)

(** Where a goroutine stands between its locked block and its call. *)
Inductive flight :=
| Subscribing (id : nat) (filter : string)
| Unsubscribing (filter : string)
| Collecting
| Resubscribing (fs : list string).

Record system := mkSystem { broker : Broker; flights : list flight }.

(** What happens next: a method is called, the client calls back, the server
    or the network does something to the client, or the [k]-th goroutine in
    flight goes on. *)
Inductive action :=
| DoSubscribe (ctx : nat) (filter : string) (h : nat)
| DoUnsubscribe (id : nat) (filter : string)
| DoPublish (m : Message)
| DoClose
| ConnectionUp
| ConnectionDown
| Network (c : C)
| Continue (k : nat).

Definition go (f : flight) (b : Broker) : list flight * Broker :=
  match f with
  | Subscribing id filter => ([], snd (subscribe_end id filter b))
  | Unsubscribing filter => ([], unsubscribe_end filter b)
  | Collecting => (match filters b with [] => [] | fs => [Resubscribing fs] end, b)
  | Resubscribing fs => ([], resubscribe_end fs b)
  end.

Definition act (a : action) (s : system) : system :=
  let b := broker s in
  match a with
  | DoSubscribe ctx filter h =>
      match subscribe_begin ctx filter h b with
      | (Ok id, b) => mkSystem b (flights s ++ [Subscribing id filter])
      | (Err _, b) => mkSystem b (flights s)
      end
  | DoUnsubscribe id filter =>
      let '(tell, b) := unsubscribe_begin id filter b in
      mkSystem b (flights s ++ if tell : bool then [Unsubscribing filter] else [])
  | DoPublish m => mkSystem (snd (Publish m b)) (flights s)
  | DoClose => mkSystem (snd (Close b)) (flights s)
  | ConnectionUp => mkSystem (set_connected true b) (flights s ++ [Collecting])
  | ConnectionDown => mkSystem (set_connected false b) (flights s)
  | Network c => mkSystem (set_cm c b) (flights s)
  | Continue k =>
      match flights s !! k with
      | None => s
      | Some f => let '(more, b) := go f b in mkSystem b (take k (flights s) ++ drop (S k) (flights s) ++ more)
      end
  end.

Definition run (acts : list action) (s : system) : system := fold_left (fun s a => act a s) acts s.
End Broker.
Arguments Broker : clear implicits.
Arguments system : clear implicits.
Arguments action : clear implicits.

(** ** Specification *)

Section Spec.
Context {C CE : Type} `{!ClientOps C CE} `{!ClientLaws C CE}.

(** Some subscription has the filter [f]. *)
Definition wanted (f : string) (b : Broker C) : Prop := exists id x, subs b !! id = Some x /\ sFilter x = f.

(** The steps that go as the adapter expects: the session changes behind its
    back only while it is not connected, a resubscription succeeds, and nobody
    subscribes to a filter while its UNSUBSCRIBE is on its way. *)
Definition calm (s : system C) (a : action C) : Prop :=
  match a with
  | Network _ => Ready (broker s) = false
  | DoSubscribe _ f _ => Unsubscribing f ∉ flights s
  | Continue k =>
      match flights s !! k with
      | Some (Resubscribing fs) => fst (cSubscribe fs (QoS (cfg (broker s))) (cm (broker s))) = Ok tt
      | _ => True
      end
  | _ => True
  end.

Fixpoint calm_run (acts : list (action C)) (s : system C) : Prop :=
  match acts with
  | [] => True
  | a :: rest => calm s a /\ calm_run rest (act a s)
  end.

(** The subscription [x] at [id] is known to the server, or a goroutine that
    will make it known is in flight. *)
Definition pending (s : system C) (id : nat) (f : string) : Prop :=
  Subscribing id f ∈ flights s \/ Collecting ∈ flights s \/ exists fs, Resubscribing fs ∈ flights s /\ f ∈ fs.

Definition covered (s : system C) : Prop := Ready (broker s) = true ->
  forall id x, subs (broker s) !! id = Some x -> sFilter x ∈ session (cm (broker s)) \/ pending s id (sFilter x).

(** An UNSUBSCRIBE on its way is for a filter that nobody has. *)
Definition settled (s : system C) : Prop := forall f, Unsubscribing f ∈ flights s -> ~ wanted f (broker s).

(** ** Lemmas *)

Global Instance flight_eq_dec : EqDecision flight.
Proof. solve_decision. Defined.

Lemma filters_fold ps : forall acc f, f ∈ fold_left add_filter ps acc <-> f ∈ acc \/ f ∈ ps.
Proof.
  induction ps as [|g ps IH]; intros acc f; cbn [fold_left]; [rewrite elem_of_nil; tauto|].
  rewrite IH, elem_of_cons. unfold add_filter. case_bool_decide as Hg; [naive_solver|].
  rewrite elem_of_app, list_elem_of_singleton. tauto.
Qed.

Lemma filters_wanted f (b : Broker C) : f ∈ filters b <-> wanted f b.
Proof.
  unfold filters. rewrite filters_fold, elem_of_nil. unfold wanted. split.
  - intros [[]|([id x] & -> & H)%list_elem_of_fmap]. exists id, x. by apply elem_of_map_to_list in H.
  - intros (id & x & H & <-). right. apply list_elem_of_fmap. exists (id, x). by rewrite elem_of_map_to_list.
Qed.

Lemma existsb_wanted f (b : Broker C) :
  existsb (fun p => String.eqb (sFilter (snd p)) f) (map_to_list (subs b)) = true <-> wanted f b.
Proof.
  rewrite existsb_exists. unfold wanted. split.
  - intros ([id x] & H%list_elem_of_In & E%String.eqb_eq). exists id, x. by apply elem_of_map_to_list in H.
  - intros (id & x & H & E). exists (id, x). rewrite <- list_elem_of_In, elem_of_map_to_list. by rewrite String.eqb_eq.
Qed.

Lemma wanted_shrinks f (b b' : Broker C) : (forall id x, subs b' !! id = Some x -> subs b !! id = Some x) ->
  wanted f b' -> wanted f b.
Proof. intros H (id & x & Hx & E). exists id, x. split; [by apply H|done]. Qed.

(** Taking the [k]-th goroutine out of flight. *)
Lemma flights_rest (fs : list flight) k f more g : fs !! k = Some f -> g ∈ fs -> g <> f ->
  g ∈ take k fs ++ drop (S k) fs ++ more.
Proof.
  intros Hk Hg Hne. rewrite <- (take_drop_middle fs k f Hk) in Hg. rewrite !elem_of_app in *.
  rewrite elem_of_cons in Hg. tauto.
Qed.

Lemma pending_rest s k f more b id g : flights s !! k = Some f -> pending s id g ->
  (f = Subscribing id g \/ f = Collecting \/ exists fs, f = Resubscribing fs /\ g ∈ fs) \/
  pending (mkSystem b (take k (flights s) ++ drop (S k) (flights s) ++ more)) id g.
Proof.
  intros Hk [H|[H|(fs & H & Hg)]].
  - destruct (decide (f = Subscribing id g)) as [->|Hne]; [auto|]. right. left. by apply flights_rest with f.
  - destruct (decide (f = Collecting)) as [->|Hne]; [auto|]. right. right. left. by apply flights_rest with f.
  - destruct (decide (f = Resubscribing fs)) as [->|Hne]; [left; eauto|]. right. right. right. exists fs.
    split; [by apply flights_rest with f|done].
Qed.

(** What is covered stays covered when only the client changes and its session
    grows, whatever joins the flights. *)
Lemma covered_grow s b more : Ready b = Ready (broker s) -> subs b = subs (broker s) ->
  session (cm (broker s)) ⊆ session (cm b) -> covered s -> covered (mkSystem b (flights s ++ more)).
Proof.
  intros Hr Hs Hc Hcov. unfold covered. cbn [broker]. rewrite Hr, Hs. intros H id x Hx.
  destruct (Hcov H id x Hx) as [?|[?|[?|(fs & ? & ?)]]]; [left; set_solver|right..].
  - left. apply elem_of_app. by left.
  - right. left. apply elem_of_app. by left.
  - right. right. exists fs. split; [apply elem_of_app; by left|done].
Qed.

Lemma call_session (f : GoM C CE unit) (b : Broker C) : snd (call f b) = set_cm (snd (f (cm b))) b.
Proof. unfold call. by destruct (f (cm b)). Qed.

Lemma Publish_covered s m : covered s -> covered (mkSystem (snd (Publish m (broker s))) (flights s)).
Proof.
  intros H. rewrite <- (app_nil_r (flights s)). unfold Publish, call.
  pose proof (c_publish m (QoS (cfg (broker s))) (cm (broker s))) as Hp.
  destruct (closed (broker s)); [by apply covered_grow|].
  destruct (cPublish _ _ _) as [[a|e] c]; cbn [snd] in *; (apply covered_grow; [done..| |done]); cbn; by rewrite Hp.
Qed.

Lemma Close_covered s : covered (mkSystem (snd (Close (broker s))) (flights s)).
Proof.
  intros H. exfalso. revert H. cbn [broker]. unfold Close, Ready, call. destruct (closed (broker s)) eqn:E.
  - cbn. by rewrite E, andb_false_r.
  - cbn [cm]. destruct (cDisconnect _) as [[a|e] c]; cbn; by rewrite andb_false_r.
Qed.

Lemma subscribe_begin_covered s ctx filter h : covered s -> covered (act (DoSubscribe ctx filter h) s).
Proof.
  intros H. cbn [act]. unfold subscribe_begin. destruct (ValidateFilter filter); [|by destruct s].
  destruct (closed (broker s)) eqn:Ec; [by destruct s|]. unfold covered, Ready. cbn.
  intros Hr id x Hx. apply lookup_insert_Some in Hx as [[<- <-]|[_ Hx]].
  - right. left. cbn. apply elem_of_app. right. left.
  - assert (Ready (broker s) = true) as Hr' by (unfold Ready; by rewrite Ec).
    destruct (H Hr' id x Hx) as [?|[?|[?|(fs & ? & ?)]]]; [by left|right..].
    + left. cbn. apply elem_of_app. by left.
    + right. left. cbn. apply elem_of_app. by left.
    + right. right. exists fs. split; [cbn; apply elem_of_app; by left|done].
Qed.

Lemma unsubscribe_begin_covered s id filter : covered s -> covered (act (DoUnsubscribe id filter) s).
Proof.
  intros H. cbn [act]. unfold unsubscribe_begin.
  set (s' := mkSystem (set_subs (delete id (subs (broker s))) (broker s)) (flights s)).
  assert (covered s') as H'.
  { intros Hr k x Hx. cbn in Hx. apply lookup_delete_Some in Hx as [_ Hx]. by apply (H Hr). }
  by apply (covered_grow s' (broker s')).
Qed.

(** A SUBSCRIBE that is acknowledged, or whose subscription is dropped. *)
Lemma subscribe_end_covered s k id f : flights s !! k = Some (Subscribing id f) -> covered s -> covered (act (Continue k) s).
Proof.
  intros Hk H. cbn [act]. rewrite Hk. cbn [go]. unfold subscribe_end, call.
  pose proof (c_subscribe [f] (QoS (cfg (broker s))) (cm (broker s))) as Hok.
  pose proof (c_subscribe_err [f] (QoS (cfg (broker s))) (cm (broker s))) as Herr.
  destruct (cSubscribe [f] _ _) as [[[]|e] c]; cbn [fst snd] in *; unfold covered, Ready; cbn; intros Hr k' x Hx.
  - rewrite (Hok eq_refl). destruct (H Hr k' x Hx) as [Hin|Hp]; [left; set_solver|].
    apply (pending_rest s k _ [] (set_cm c (broker s)) _ _ Hk) in Hp as [[E|[?|(fs & ? & _)]]|Hp]; [|done|done|by right].
    injection E as <- <-. left. set_solver.
  - apply lookup_delete_Some in Hx as [Hne Hx]. destruct (H Hr k' x Hx) as [Hin|Hp]; [left; specialize (Herr e eq_refl); set_solver|].
    apply (pending_rest s k _ [] (set_subs (delete id (subs (broker s))) (set_cm c (broker s))) _ _ Hk) in Hp as [[E|[?|(fs & ? & _)]]|Hp];
      [|done|done|by right]. by injection E as <- _.
Qed.

Lemma unsubscribe_end_covered s k f : flights s !! k = Some (Unsubscribing f) -> ~ wanted f (broker s) ->
  covered s -> covered (act (Continue k) s).
Proof.
  intros Hk Hw H. cbn [act]. rewrite Hk. cbn [go]. unfold unsubscribe_end. rewrite call_session.
  assert (session (cm (broker s)) ∖ {[f]} ⊆ session (snd (cUnsubscribe [f] (cm (broker s))))) as Hs.
  { destruct (fst (cUnsubscribe [f] (cm (broker s)))) as [[]|e] eqn:E.
    - rewrite (c_unsubscribe _ _ E). set_solver.
    - pose proof (c_unsubscribe_err _ _ e E). set_solver. }
  unfold covered, Ready; cbn. intros Hr id x Hx. destruct (H Hr id x Hx) as [Hin|Hp].
  - left. assert (sFilter x <> f) by (intros E; apply Hw; by exists id, x). set_solver.
  - apply (pending_rest s k _ [] (set_cm (snd (cUnsubscribe [f] (cm (broker s)))) (broker s)) _ _ Hk) in Hp
      as [[E|[?|(fs & ? & _)]]|Hp]; [done..|by right].
Qed.

Lemma collect_covered s k : flights s !! k = Some Collecting -> covered s -> covered (act (Continue k) s).
Proof.
  intros Hk _. cbn [act]. rewrite Hk. cbn [go]. unfold covered; cbn [broker]. intros Hr id x Hx. right. right. right.
  assert (sFilter x ∈ filters (broker s)) as Hin by (apply filters_wanted; by exists id, x).
  destruct (filters (broker s)) as [|g fs]; [by apply elem_of_nil in Hin|]. exists (g :: fs). split; [|done].
  cbn [flights]. rewrite !elem_of_app. right. right. left.
Qed.

Lemma resubscribe_end_covered s k fs : flights s !! k = Some (Resubscribing fs) ->
  fst (cSubscribe fs (QoS (cfg (broker s))) (cm (broker s))) = Ok tt -> covered s -> covered (act (Continue k) s).
Proof.
  intros Hk Hok H. cbn [act]. rewrite Hk. cbn [go]. unfold resubscribe_end. rewrite call_session.
  unfold covered, Ready; cbn. intros Hr id x Hx. rewrite (c_subscribe _ _ _ Hok).
  destruct (H Hr id x Hx) as [Hin|Hp]; [left; set_solver|].
  apply (pending_rest s k _ [] (set_cm (snd (cSubscribe fs (QoS (cfg (broker s))) (cm (broker s)))) (broker s)) _ _ Hk) in Hp
    as [[E|[?|(fs' & [= <-] & Hin)]]|Hp]; [done|done| |by right].
  left. apply elem_of_union_r. by apply elem_of_list_to_set.
Qed.

Lemma act_covered s a : calm s a -> settled s -> covered s -> covered (act a s).
Proof.
  intros Hc Hs H. destruct a as [ctx f h|id f|m| | | |c|k].
  - by apply subscribe_begin_covered.
  - by apply unsubscribe_begin_covered.
  - by apply Publish_covered.
  - apply Close_covered.
  - intros _ id x _. right. right. left. cbn. apply elem_of_app. right. left.
  - intros Hr. by cbn in Hr.
  - cbn in Hc. intros Hr. cbn in Hr. unfold Ready in *. cbn in Hr. by rewrite Hc in Hr.
  - cbn [calm] in Hc. destruct (flights s !! k) as [[id f|f| |fs]|] eqn:Hk; [..|by cbn; rewrite Hk].
    + by eapply subscribe_end_covered.
    + apply (unsubscribe_end_covered s k f); [done| |done]. apply Hs. by apply list_elem_of_lookup_2 with k.
    + by apply collect_covered.
    + by eapply resubscribe_end_covered.
Qed.

(** Fewer subscriptions and no new UNSUBSCRIBE. *)
Lemma settled_shrinks (s s' : system C) : settled s ->
  (forall id x, subs (broker s') !! id = Some x -> subs (broker s) !! id = Some x) ->
  (forall f, Unsubscribing f ∈ flights s' -> Unsubscribing f ∈ flights s) -> settled s'.
Proof. intros H Hs Hf f Hin Hw. apply (H f (Hf f Hin)). by apply (wanted_shrinks f (broker s) (broker s')). Qed.

Lemma unsubscribe_settled s id f : settled s -> settled (act (DoUnsubscribe id f) s).
Proof.
  intros H. cbn [act]. unfold unsubscribe_begin. set (b' := set_subs (delete id (subs (broker s))) (broker s)).
  assert (settled (mkSystem b' (flights s))) as H'.
  { apply (settled_shrinks s); [done| |done]. intros k x Hx. cbn in Hx. by apply lookup_delete_Some in Hx as [_ ?]. }
  pose proof (existsb_wanted f b') as He. destruct (existsb _ _); cbn [negb andb]; [by rewrite app_nil_r|].
  destruct (negb (closed b')); [|by rewrite app_nil_r]. intros g [Hin|[= ->]%list_elem_of_singleton]%elem_of_app.
  - by apply H'.
  - intros Hw. by apply He in Hw.
Qed.

Lemma continue_settled s k : settled s -> settled (act (Continue k) s).
Proof.
  intros H. cbn [act]. destruct (flights s !! k) as [g|] eqn:Ek; [|done].
  assert (forall f more, Unsubscribing f ∉ more -> Unsubscribing f ∈ take k (flights s) ++ drop (S k) (flights s) ++ more ->
    Unsubscribing f ∈ flights s) as Hf.
  { intros f more Hm. rewrite <- (take_drop_middle _ _ _ Ek) at 3. rewrite !elem_of_app, elem_of_cons. tauto. }
  destruct g as [id f|f| |fs]; cbn [go].
  - apply (settled_shrinks s); [done| |by intros g; apply Hf, not_elem_of_nil]. cbn. unfold subscribe_end, call.
    destruct (cSubscribe _ _ _) as [[a|e] c]; cbn; [done|]. by intros j x [_ ?]%lookup_delete_Some.
  - apply (settled_shrinks s); [done| |by intros g; apply Hf, not_elem_of_nil]. cbn. unfold unsubscribe_end. by rewrite call_session.
  - apply (settled_shrinks s); [done|done|]. intros g. apply Hf. destruct (filters _); [apply not_elem_of_nil|].
    by intros ?%list_elem_of_singleton.
  - apply (settled_shrinks s); [done| |by intros g; apply Hf, not_elem_of_nil]. cbn. unfold resubscribe_end. by rewrite call_session.
Qed.

Lemma act_settled s a : calm s a -> settled s -> settled (act a s).
Proof.
  intros Hc H. destruct a as [ctx f h|id f|m| | | |c|k]; [|by apply unsubscribe_settled|..|by apply continue_settled].
  - cbn [act calm] in *. unfold subscribe_begin. destruct (ValidateFilter f); [|done]. destruct (closed (broker s)); [done|].
    intros g [Hin|?%list_elem_of_singleton]%elem_of_app; [|done].
    intros (id & x & Hx & E). cbn in Hx. apply lookup_insert_Some in Hx as [[_ <-]|[_ Hx]]; [cbn in E; congruence|]. apply (H g Hin). by exists id, x.
  - apply (settled_shrinks s); [done| |done]. cbn. unfold Publish, call. destruct (closed _); [done|].
    by destruct (cPublish _ _ _) as [[a|e] c].
  - apply (settled_shrinks s); [done| |done]. cbn. unfold Close, call. destruct (closed _); [done|].
    by destruct (cDisconnect _) as [[a|e] c].
  - apply (settled_shrinks s); [done|done|]. cbn. intros f [?|?%list_elem_of_singleton]%elem_of_app; done.
  - done.
  - done.
Qed.

Lemma run_covered acts : forall s, calm_run acts s -> settled s -> covered s -> covered (run acts s).
Proof.
  induction acts as [|a acts IH]; intros s H Hs Hc; [done|]. destruct H as [Ha H].
  cbn. apply IH; [done|by apply act_settled|by apply act_covered].
Qed.

End Spec.

(** ** Calls that run to their end *)

Inductive method :=
| CallSubscribe (ctx : nat) (filter : string) (h : nat)
| CallUnsubscribe (id : nat) (filter : string)
| CallPublish (m : Message).

Section Sequential.
Context {C CE : Type} `{!ClientOps C CE} `{!ClientLaws C CE}.

Definition perform (m : method) (b : Broker C) : Broker C :=
  match m with
  | CallSubscribe ctx f h => snd (Subscribe ctx f h b)
  | CallUnsubscribe id f => unsubscribe id f b
  | CallPublish m => snd (Publish m b)
  end.

(** The function [Subscribe] returned removes what it subscribed. *)
Definition own (m : method) (b : Broker C) : Prop :=
  match m with CallUnsubscribe id f => forall x, subs b !! id = Some x -> sFilter x = f | _ => True end.

Fixpoint own_run (ms : list method) (b : Broker C) : Prop :=
  match ms with [] => True | m :: rest => own m b /\ own_run rest (perform m b) end.

(** The server knows the filters of the subscriptions and no others. *)
Definition exact (b : Broker C) : Prop :=
  closed b = false /\ forall f, f ∈ session (cm b) <-> wanted f b.

Hypothesis acked_subscribe : forall fs q c, fst (cSubscribe fs q c) = Ok tt.
Hypothesis acked_unsubscribe : forall fs c, fst (cUnsubscribe fs c) = Ok tt.

Lemma Subscribe_exact ctx f h b : (forall id, (fresh b <= id)%nat -> subs b !! id = None) -> exact b ->
  exact (perform (CallSubscribe ctx f h) b).
Proof.
  intros Hf [Hc Hx]. cbn [perform]. unfold Subscribe, mbind, GoM_bind, subscribe_begin.
  destruct (ValidateFilter f); [|done]. rewrite Hc. unfold subscribe_end, call. cbn [cm cfg].
  pose proof (acked_subscribe [f] (QoS (cfg b)) (cm b)) as Ha. pose proof (c_subscribe _ _ _ Ha) as Hs.
  destruct (cSubscribe _ _ _) as [[[]|e] c]; [|done]. cbn [fst snd] in *. split; [done|]. intros g. cbn. rewrite Hs.
  rewrite elem_of_union, Hx. unfold wanted. cbn. split.
  - intros [(id & x & H & E)|H].
    + exists id, x. split; [|done]. rewrite lookup_insert_ne; [done|]. intros <-. by rewrite (Hf (fresh b) ltac:(lia)) in H.
    + exists (fresh b), (mkSubscription f h ctx). rewrite lookup_insert_eq. split; [done|]. cbn. set_solver.
  - intros (id & x & [[<- <-]|[_ H]]%lookup_insert_Some & <-); [right; set_solver|left; by exists id, x].
Qed.

Lemma unsubscribe_exact id f b : own (CallUnsubscribe id f) b -> exact b -> exact (perform (CallUnsubscribe id f) b).
Proof.
  intros Ho [Hc Hx]. cbn [perform own] in *. unfold unsubscribe, unsubscribe_begin.
  set (b' := set_subs (delete id (subs b)) b).
  assert (forall g, wanted g b' -> wanted g b) as Hw.
  { intros g (k & x & H & E). cbn in H. apply lookup_delete_Some in H as [_ H]. by exists k, x. }
  assert (forall g, wanted g b -> g = f \/ wanted g b') as Hw'.
  { intros g (k & x & H & E). destruct (decide (id = k)) as [->|Hne]; [left; by rewrite <- E, (Ho x H)|].
    right. exists k, x. split; [|done]. cbn. by rewrite lookup_delete_ne. }
  pose proof (existsb_wanted f b') as He. destruct (existsb _ _); cbn [negb andb].
  - split; [done|]. intros g. change (cm b') with (cm b). rewrite Hx. split; [|apply Hw].
    intros [->|H]%Hw'; [by apply He|done].
  - change (closed b') with (closed b). rewrite Hc. cbn [negb]. unfold unsubscribe_end. rewrite call_session.
    pose proof (c_unsubscribe _ _ (acked_unsubscribe [f] (cm b'))) as Hs. split; [done|]. intros g. cbn [cm set_cm].
    rewrite Hs, elem_of_difference. change (cm b') with (cm b) in *. rewrite Hx.
    change (wanted g (set_cm (snd (cUnsubscribe [f] (cm b))) b')) with (wanted g b').
    assert (~ wanted f b') as Hnf by (intros H; by apply He in H).
    split; [intros [[->|H]%Hw' Hn]; [set_solver|done]|].
    intros H. split; [by apply Hw|]. intros Hin. assert (g = f) as -> by set_solver. done.
Qed.

Lemma Publish_exact m b : exact b -> exact (perform (CallPublish m) b).
Proof.
  intros [Hc Hx]. cbn [perform]. unfold Publish. rewrite Hc. unfold call.
  pose proof (c_publish m (QoS (cfg b)) (cm b)) as Hp. destruct (cPublish _ _ _) as [[a|e] c]; cbn in *;
    (split; [done|]; cbn; by rewrite Hp).
Qed.

Lemma perform_fresh m b : (forall id, (fresh b <= id)%nat -> subs b !! id = None) ->
  forall id, (fresh (perform m b) <= id)%nat -> subs (perform m b) !! id = None.
Proof.
  intros H. destruct m as [ctx f h|id f|m]; cbn [perform].
  - unfold Subscribe, mbind, GoM_bind, subscribe_begin. destruct (ValidateFilter f); [|done].
    destruct (closed b); [done|]. unfold subscribe_end, call. cbn [cm cfg].
    destruct (cSubscribe _ _ _) as [[[]|e] c]; cbn; intros id Hid; [|apply lookup_delete_None; right];
      (rewrite lookup_insert_ne by lia; apply H; lia).
  - unfold unsubscribe, unsubscribe_begin. destruct (_ && _); unfold unsubscribe_end; rewrite ?call_session; cbn;
      intros k Hk; apply lookup_delete_None; right; by apply H.
  - unfold Publish, call. destruct (closed b); [done|]. by destruct (cPublish _ _ _) as [[a|e] c].
Qed.

Lemma run_exact ms : forall b, (forall id, (fresh b <= id)%nat -> subs b !! id = None) -> exact b -> own_run ms b ->
  exact (fold_left (fun b m => perform m b) ms b).
Proof.
  induction ms as [|m ms IH]; intros b Hf Hx Ho; [done|]. destruct Ho as [Hm Ho]. cbn [fold_left].
  apply IH; [by apply perform_fresh| |done].
  destruct m; [by apply Subscribe_exact|by apply unsubscribe_exact|by apply Publish_exact].
Qed.
End Sequential.

(** ** Properties *)

(** C19: no live subscription is forgotten, in every interleaving but one. From
    a new connection, after any sequence of calls, of callbacks and network
    events while the connection is down, with the goroutines in flight
    completed in any order: whenever the broker is ready, every subscription is
    one the server knows, or its SUBSCRIBE or a resubscription that will tell
    the server is in flight. Leaving a filter that others hold sends no
    UNSUBSCRIBE. Assumed of the run is only that resubscriptions are
    acknowledged and that nobody subscribes to a filter while an UNSUBSCRIBE
    for it, sent for its last subscriber, is on its way. *)
Theorem subscriptions_covered {C CE : Type} `{!ClientOps C CE} `{!ClientLaws C CE}
    (c : MqttConfig) (client : C) (acts : list (action C)) :
  let s0 := mkSystem (NewBroker c client) [] in
  let s := run acts s0 in
  calm_run acts s0 -> Ready (broker s) = true ->
  forall id x, subs (broker s) !! id = Some x -> sFilter x ∈ session (cm (broker s)) \/ pending s id (sFilter x).
Proof.
  intros s0 s H. apply run_covered; [done|..].
  - by intros f ?%not_elem_of_nil.
  - by intros Hr id x Hx.
Qed.

(** The interleaving that [subscriptions_covered] excludes loses a live
    subscription. The only subscriber of a filter unsubscribes; between its
    locked block and its UNSUBSCRIBE somebody else subscribes to the filter
    and is acknowledged. Then the broker is ready, nothing is in flight, the
    new subscription stands, and the server does not know its filter. *)
Theorem unsubscribe_race {C CE : Type} `{!ClientOps C CE} `{!ClientLaws C CE}
    (b : Broker C) (id ctx h : nat) (x : subscription) :
  let f := sFilter x in
  let c1 := snd (cSubscribe [f] (QoS (cfg b)) (cm b)) in
  let s := run [DoUnsubscribe id f; DoSubscribe ctx f h; Continue 1; Continue 0] (mkSystem b []) in
  Ready b = true -> subs b = {[id := x]} -> ValidateFilter f = Ok tt ->
  fst (cSubscribe [f] (QoS (cfg b)) (cm b)) = Ok tt -> fst (cUnsubscribe [f] c1) = Ok tt ->
  Ready (broker s) = true /\ flights s = [] /\ subs (broker s) !! fresh b = Some (mkSubscription f h ctx) /\
  f ∉ session (cm (broker s)).
Proof.
  intros f c1 s Hr Hs Hv Ha Hu.
  assert (closed b = false) as Hc by (unfold Ready in Hr; by destruct (closed b), (connected b)).
  set (x' := mkSubscription f h ctx). set (b2 := mkBroker (cfg b) (cm b) {[fresh b := x']} (S (fresh b)) (connected b) (closed b)).
  assert (act (DoUnsubscribe id f) (mkSystem b []) = mkSystem (set_subs ∅ b) [Unsubscribing f]) as E1.
  { cbn [act broker flights]. unfold unsubscribe_begin. by rewrite Hs, delete_singleton_eq; cbn; rewrite Hc. }
  assert (act (DoSubscribe ctx f h) (mkSystem (set_subs ∅ b) [Unsubscribing f]) =
    mkSystem b2 [Unsubscribing f; Subscribing (fresh b) f]) as E2.
  { cbn [act broker flights]. unfold subscribe_begin. rewrite Hv. cbn [closed set_subs]. unfold b2. by rewrite Hc. }
  assert (act (Continue 1) (mkSystem b2 [Unsubscribing f; Subscribing (fresh b) f]) = mkSystem (set_cm c1 b2) [Unsubscribing f]) as E3.
  { cbn. unfold subscribe_end, call. cbn [cm cfg b2]. revert Ha. unfold c1.
    by destruct (cSubscribe [f] (QoS (cfg b)) (cm b)) as [[[]|e] c2]. }
  assert (act (Continue 0) (mkSystem (set_cm c1 b2) [Unsubscribing f]) = mkSystem (set_cm (snd (cUnsubscribe [f] c1)) b2) []) as E4.
  { cbn. unfold unsubscribe_end. by rewrite call_session. }
  assert (s = mkSystem (set_cm (snd (cUnsubscribe [f] c1)) b2) []) as -> by (unfold s, run; cbn [fold_left]; congruence).
  split_and!; [exact Hr|done|apply lookup_singleton_eq|]. cbn [broker cm set_cm]. rewrite (c_unsubscribe _ _ Hu). set_solver.
Qed.

(** Without concurrency the server knows exactly what is subscribed. When
    the client's calls are acknowledged and each runs to its end, after any
    sequence of [Subscribe], of the functions it returned, called any number
    of times, and of [Publish], the session has the filters of the present
    subscriptions and no others. *)
Theorem session_exact {C CE : Type} `{!ClientOps C CE} `{!ClientLaws C CE}
    (c : MqttConfig) (client : C) (ms : list method) :
  (forall fs q c, fst (cSubscribe fs q c) = Ok tt) -> (forall fs c, fst (cUnsubscribe fs c) = Ok tt) ->
  session client = ∅ -> own_run ms (NewBroker c client) ->
  let b := fold_left (fun b m => perform m b) ms (NewBroker c client) in
  forall f, f ∈ session (cm b) <-> exists id x, subs b !! id = Some x /\ sFilter x = f.
Proof.
  intros H1 H2 He Ho b f. apply run_exact; try done. split; [done|]. intros g. cbn [cm NewBroker]. rewrite He. split.
  - intros H. by apply elem_of_empty in H.
  - intros (id & x & H & _). cbn in H. by rewrite lookup_empty in H.
Qed.

(** ** A server that acknowledges everything *)

Module Loyal.

Definition Client := gset string.

Global Instance Loyal_ops : ClientOps Client unit := {
  cPublish _ _ c := (Ok tt, c);
  cSubscribe fs _ c := (Ok tt, c ∪ list_to_set fs);
  cUnsubscribe fs c := (Ok tt, c ∖ list_to_set fs);
  cDisconnect c := (Ok tt, c);
  cConnectionDown _ := false
}.

Global Instance Loyal_laws : ClientLaws Client unit.
Proof. by refine {| session c := c |}. Defined.

Definition config : MqttConfig := mkMqttConfig "mqtt://localhost:1883" "" "" "" 1 0 0 None.

End Loyal.

(** A stream subscribes, the connection is lost with the session, comes back,
    a second stream joins and leaves, and so does a third one, whose filter is
    the first one's. *)
Definition loyal_run : list (action Loyal.Client) :=
  [ConnectionUp; Continue 0; DoSubscribe 1 "acme/#" 7; Continue 0; ConnectionDown; Network (∅ : Loyal.Client); ConnectionUp; Continue 0;
   DoSubscribe 2 "acme/+/x" 8; Continue 0; Continue 0; DoUnsubscribe 1 "acme/+/x"; Continue 0;
   DoSubscribe 3 "acme/#" 9; Continue 0; DoUnsubscribe 2 "acme/#"].

Lemma subscriptions_covered_witness :
  let s := run loyal_run (mkSystem (NewBroker Loyal.config (∅ : Loyal.Client)) []) in
  flights s = [] /\ subs (broker s) !! 0%nat = Some (mkSubscription "acme/#" 7 1) /\
  ("acme/#" ∈ session (cm (broker s)) \/ pending s 0 "acme/#").
Proof.
  cbv zeta. split; [by vm_compute|]. split; [by vm_compute|].
  pose proof (subscriptions_covered Loyal.config (∅ : Loyal.Client) loyal_run) as H. cbv zeta in H.
  refine (H _ _ 0%nat (mkSubscription "acme/#" 7 1) _); [|by vm_compute|by vm_compute].
  repeat (split; [first [vm_compute; exact I|vm_compute; reflexivity|apply (bool_decide_unpack _); vm_compute; exact I]|]).
  exact I.
Defined.

Lemma unsubscribe_race_witness :
  let b := mkBroker (defaults Loyal.config) ({["acme/#"]} : Loyal.Client) {[0%nat := mkSubscription "acme/#" 7 1]} 1 true false in
  let s := run [DoUnsubscribe 0 "acme/#"; DoSubscribe 2 "acme/#" 8; Continue 1; Continue 0] (mkSystem b []) in
  Ready (broker s) = true /\ subs (broker s) !! 1%nat = Some (mkSubscription "acme/#" 8 2) /\
  "acme/#" ∉ session (cm (broker s)).
Proof.
  cbv zeta.
  destruct (unsubscribe_race (mkBroker (defaults Loyal.config) ({["acme/#"]} : Loyal.Client)
    {[0%nat := mkSubscription "acme/#" 7 1]} 1 true false) 0 2 8 (mkSubscription "acme/#" 7 1)) as (H1 & _ & H2 & H3);
    [done|done|by vm_compute|done|done|].
  split; [exact H1|]. split; [exact H2|exact H3].
Defined.

Lemma session_exact_witness :
  let b := fold_left (fun b m => perform m b)
    [CallSubscribe 1 "acme/#" 7; CallSubscribe 2 "acme/#" 8; CallUnsubscribe 0 "acme/#"; CallUnsubscribe 0 "acme/#"]
    (NewBroker Loyal.config (∅ : Loyal.Client)) in
  "acme/#" ∈ session (cm b).
Proof.
  cbv zeta. apply (session_exact Loyal.config (∅ : Loyal.Client)); [done|done|done| |].
  - cbn -[NewBroker]. split_and!; try done; intros x H; vm_compute in H; by injection H as <-.
  - exists 1%nat, (mkSubscription "acme/#" 8 2). by vm_compute.
Defined.

(** ** Configuration *)

(** The delay of the last will is twice the keep-alive in 16 bits: from 32768 s
    on it wraps, and for exactly 32768 s the will is not delayed at all. *)
Lemma will_delay (c : MqttConfig) (m : Message) : 0 < KeepAlive c < 2 ^ 16 -> Will c = Some m ->
  wDelay <$> will (defaults c) = Some (if KeepAlive c <? 2 ^ 15 then 2 * KeepAlive c else 2 * KeepAlive c - 2 ^ 16).
Proof.
  intros H Hm. unfold will. cbn [Will defaults KeepAlive]. rewrite Hm. cbn. destruct (Z.eqb_spec (KeepAlive c) 0); [lia|].
  f_equal. unfold u16, uwrap. change (2 ^ 16) with 65536 in *. change (2 ^ 15) with 32768 in *.
  destruct (Z.ltb_spec (KeepAlive c) 32768).
  - apply Z.mod_small. lia.
  - symmetry. apply (Z.mod_unique _ _ 1); lia.
Qed.

(** The reconnection backoff doubles from one second and stays at thirty. *)
Lemma ReconnectBackoff_bounds attempt : 0 <= attempt ->
  exists d, ReconnectBackoff attempt = Some d /\ Second <= d <= 30 * Second /\ (5 <= attempt -> d = 30 * Second) /\
    (attempt < 5 -> d = 2 ^ attempt * Second).
Proof.
  intros H. unfold ReconnectBackoff. destruct (Z.ltb_spec (Z.min attempt 5) 0); [lia|].
  destruct (Z.le_gt_cases 5 attempt).
  - rewrite (Z.min_r attempt 5) by lia. exists (30 * Second). split_and!; [done|unfold Second, Millisecond; lia..|lia].
  - rewrite (Z.min_l attempt 5) by lia. assert (attempt = 0 \/ attempt = 1 \/ attempt = 2 \/ attempt = 3 \/ attempt = 4) as Hc by lia.
    destruct Hc as [->|[->|[->|[->| ->]]]]; (eexists; split; [done|]); split_and!; try done; vm_compute; intros; try done; lia.
Qed.
