(* ===== verification/MqttNew.v ===== *)
(** * MqttNew: connecting the MQTT adapter (New in internal/adapters/mqtt/broker.go)

    [New] checks the URL, fills in the defaults, hands the connection manager
    its configuration and waits for the first connection. The manager and the
    URL parser are third-party code and parameters: [Dialer] has what [New]
    asks of the manager. While [New] waits, the manager calls back; those
    callbacks, and what the server does meanwhile, are actions of [Mqtt]. *)
From Stdlib Require Import ZArith Lia.
From S2P Require Import Prelude GoBytes Uns Ports Mqtt.
From stdpp Require Import gmap.

Open Scope string_scope.
Open Scope list_scope.
Open Scope Z_scope.

(** [autopaho.ClientConfig] as [New] fills it. The callbacks are
    [Mqtt.ConnectionUp], [Mqtt.ConnectionDown] and [Mqtt.onPublish]. *)
Record ClientConfig (U : Type) := mkClientConfig {
  ServerUrls : list U;
  ccKeepAlive : Z;
  CleanStartOnInitialConnection : bool;
  SessionExpiryInterval : Z;
  ccConnectTimeout : Duration;
  ccReconnectBackoff : Z -> option Duration;
  ccClientID : string;
  ConnectUsername : string;
  ConnectPassword : list byte;
  ccWill : option WillMessage
}.
Arguments mkClientConfig {U}.
Arguments ServerUrls {U}.
Arguments ccKeepAlive {U}.
Arguments CleanStartOnInitialConnection {U}.
Arguments SessionExpiryInterval {U}.
Arguments ccConnectTimeout {U}.
Arguments ccReconnectBackoff {U}.
Arguments ccClientID {U}.
Arguments ConnectUsername {U}.
Arguments ConnectPassword {U}.
Arguments ccWill {U}.

Inductive NewError (CE : Type) :=
| EInvalidURL (url : string)
| ENewConnection (e : CE)
| EConnect (url : string) (e : CE).
Arguments EInvalidURL {CE} url.
Arguments ENewConnection {CE} e.
Arguments EConnect {CE} url e.

(** What may happen while [New] waits: the manager's callbacks, the goroutines
    they start, the network. *)
Definition callback {C} (a : action C) : bool :=
  match a with ConnectionUp | ConnectionDown | Network _ | Continue _ => true | _ => false end.

(** [url.Parse] with the host of what it yields; [autopaho.NewConnection]; and
    [AwaitConnection] with a timeout: what happens meanwhile, and how it ends. *)
Class Dialer (U C CE : Type) := {
  Parse : string -> option U;
  Host : U -> string;
  NewConnection : ClientConfig U -> result CE C;
  AwaitConnection : C -> Duration -> list (action C) * option CE
}.

Section New.
Context {U C CE : Type} `{!ClientOps C CE} `{!Dialer U C CE}.

Definition client_config (c : MqttConfig) (u : U) : ClientConfig U :=
  mkClientConfig [u] (KeepAlive c) true 60 (ConnectTimeout c) ReconnectBackoff (ClientID c)
    (if String.eqb (Username c) "" then "" else Username c)
    (if String.eqb (Username c) "" then [] else bytes_of (Password c))
    (will c).

(** The result, and the client that was disconnected on the way. *)
Definition New (c : MqttConfig) : result (NewError CE) (system C) * option C :=
  match Parse (URL c) with
  | None => (Err (EInvalidURL (URL c)), None)
  | Some u =>
      if String.eqb (Host u) "" then (Err (EInvalidURL (URL c)), None)
      else
        let c := defaults c in
        match NewConnection (client_config c u) with
        | Err e => (Err (ENewConnection e), None)
        | Ok client =>
            let '(meanwhile, r) := AwaitConnection client (ConnectTimeout c) in
            let s := run meanwhile (mkSystem (NewBroker c client) []) in
            match r with
            | Some e => (Err (EConnect (URL c) e), Some (snd (cDisconnect (cm (broker s)))))
            | None => (Ok s, None)
            end
        end
  end.
End New.

(** ** Lemmas *)

Lemma defaults_idem c : defaults (defaults c) = defaults c.
Proof.
  unfold defaults. cbn [URL ClientID Username Password QoS KeepAlive ConnectTimeout Will]. f_equal.
  - destruct (String.eqb_spec (ClientID c) ""); [done|by rewrite (proj2 (String.eqb_neq _ _))].
  - destruct (Z.ltb_spec 1 (QoS c)); [done|by rewrite (proj2 (Z.ltb_ge _ _))].
  - destruct (Z.eqb_spec (KeepAlive c) 0); [done|by rewrite (proj2 (Z.eqb_neq _ _))].
  - destruct (Z.leb_spec (ConnectTimeout c) 0); [done|by rewrite (proj2 (Z.leb_gt _ _))].
Qed.

(** The reconnection delays: one second, doubled up to the thirty the fifth
    doubling is cut to. *)
Lemma ReconnectBackoff_spec attempt : 0 <= attempt ->
  ReconnectBackoff attempt = Some (if attempt <? 5 then 2 ^ attempt * Second else 30 * Second).
Proof.
  intros H. unfold ReconnectBackoff. destruct (Z.ltb_spec attempt 5).
  - assert (attempt = 0 \/ attempt = 1 \/ attempt = 2 \/ attempt = 3 \/ attempt = 4) as [->|[->|[->|[->| ->]]]] by lia; reflexivity.
  - rewrite Z.min_r by lia. reflexivity.
Qed.

Section Waiting.
Context {C CE : Type} `{!ClientOps C CE}.

(** No method has been called yet. *)
Definition untouched (c : MqttConfig) (s : system C) : Prop :=
  subs (broker s) = ∅ /\ Mqtt.fresh (broker s) = 0%nat /\ closed (broker s) = false /\ cfg (broker s) = c /\
  Forall (fun f => f = Collecting) (flights s).

Lemma callback_untouched c a s : callback a = true -> untouched c s -> untouched c (act a s).
Proof.
  intros Ha (Hs & Hf & Hc & Hg & Hl). destruct a; try done; cbn [act].
  - split_and!; try done. cbn [flights]. apply Forall_app. by repeat constructor.
  - destruct (flights s !! k) as [f|] eqn:Hk; [|by split_and!].
    rewrite (Forall_lookup_1 _ _ _ _ Hl Hk). cbn [go]. unfold filters. rewrite Hs, map_to_list_empty. cbn [map fold_left].
    split_and!; try done. cbn [flights]. rewrite app_nil_r. apply Forall_app. split; [by apply Forall_take|by apply Forall_drop].
Qed.

Lemma callbacks_untouched c acts s : Forall (fun a => callback a = true) acts -> untouched c s -> untouched c (run acts s).
Proof. revert s. induction acts as [|a acts IH]; intros s H Hs; [done|]. inversion H. apply IH; [done|by apply callback_untouched]. Qed.
End Waiting.

(** ** Properties *)

(** What [New] does. A URL that does not parse or has no host is refused before
    anything is opened; the manager is given the configuration with its
    defaults: a clean start, a session of a minute, a quality of service of at
    most one, an identifier, credentials only with a user name, the last will
    with a delay of twice the keep-alive; when it cannot be made, or when the
    first connection does not come up in time, the error names it, in the
    second case after a disconnection; otherwise the broker has the
    configuration with its defaults, no subscriptions and, of the goroutines
    the callbacks started meanwhile, at most ones with nothing to subscribe. *)
Theorem New_spec {U C CE : Type} `{!ClientOps C CE} `{!Dialer U C CE} (c : MqttConfig) :
  (forall client t, Forall (fun a => callback a = true) (fst (AwaitConnection client t))) ->
  let d := defaults c in
  match Parse (URL c) with
  | None => New c = (Err (EInvalidURL (URL c)), None)
  | Some u =>
      if String.eqb (Host u) "" then New c = (Err (EInvalidURL (URL c)), None)
      else
        match NewConnection (client_config d u) with
        | Err e => New c = (Err (ENewConnection e), None)
        | Ok client =>
            exists s, untouched d s /\
            New c =
              match snd (AwaitConnection client (ConnectTimeout d)) with
              | Some e => (Err (EConnect (URL c) e), Some (snd (cDisconnect (cm (broker s)))))
              | None => (Ok s, None)
              end
        end
  end.
Proof.
  intros Hcb d. unfold New. destruct (Parse (URL c)) as [u|]; [|done]. destruct (String.eqb (Host u) ""); [done|].
  destruct (NewConnection (client_config d u)) as [client|e] eqn:E; fold d; rewrite E; [|done].
  pose proof (Hcb client (ConnectTimeout d)) as Hf. destruct (AwaitConnection client (ConnectTimeout d)) as [acts r]. cbn [fst snd] in *.
  eexists. split; [|by destruct r]. apply callbacks_untouched; [done|].
  split_and!; cbn; try done. unfold d. apply defaults_idem.
Qed.

(** The configuration the manager gets is one the protocol accepts. *)
Lemma client_config_spec {U : Type} (c : MqttConfig) (u : U) : 0 <= QoS c <= 255 -> 0 <= KeepAlive c <= 65535 ->
  let cc := client_config (defaults c) u in
  ServerUrls cc = [u] /\ 1 <= ccKeepAlive cc <= 65535 /\ 0 < ccConnectTimeout cc /\ ccClientID cc <> "" /\
  (ConnectUsername cc = "" -> ConnectPassword cc = []) /\
  match Will c, ccWill cc with
  | Some m, Some w => wTopic w = Topic m /\ wPayload w = Payload m /\ wRetain w = Retain m /\ 0 <= wQoS w <= 1
  | None, None => True
  | _, _ => False
  end.
Proof.
  intros Hq Hk cc. unfold cc, client_config, defaults, will. cbn.
  destruct (Z.eqb_spec (KeepAlive c) 0), (Z.leb_spec (ConnectTimeout c) 0), (String.eqb_spec (ClientID c) ""), (String.eqb_spec (Username c) "");
    (split_and!; try done; try lia; destruct (Will c); try done; cbn; destruct (Z.ltb_spec 1 (QoS c)); split_and!; (done || lia)).
Qed.

(** The broker [New] returns keeps [subscriptions_covered]'s promise from its
    first step on, whatever went on while it waited. *)
Theorem New_covered {U C CE : Type} `{!ClientOps C CE} `{!ClientLaws C CE} `{!Dialer U C CE}
    (c : MqttConfig) (s0 : system C) (acts : list (action C)) :
  (forall client t, Forall (fun a => callback a = true) (fst (AwaitConnection client t))) ->
  New c = (Ok s0, None) -> calm_run acts s0 -> covered (run acts s0).
Proof.
  intros Hcb HN Hcalm. assert (subs (broker s0) = ∅) as Hs.
  2:{ apply run_covered; [done|..].
      - intros f _ (id & x & Hx & _). by rewrite Hs, lookup_empty in Hx.
      - intros _ id x Hx. by rewrite Hs, lookup_empty in Hx. }
  pose proof (New_spec c Hcb) as H. cbv zeta in H.
  destruct (Parse (URL c)) as [u|]; [|congruence]. destruct (String.eqb (Host u) ""); [congruence|].
  destruct (NewConnection _) as [client|e]; [|congruence]. destruct H as (s & (Hs & _) & E). rewrite HN in E.
  destruct (snd (AwaitConnection client _)); [done|]. by injection E as ->.
Qed.

(** ** A manager that connects at once *)

Module Prompt.

(** The host is what follows the scheme. *)
Definition parse (s : string) : option string :=
  if String.prefix "mqtt://" s then Some (String.substring 7 (String.length s - 7) s) else None.

Global Instance dialer : Dialer string Loyal.Client unit := {
  Parse := parse;
  Host u := u;
  NewConnection _ := Ok ∅;
  AwaitConnection _ _ := ([ConnectionUp; Continue 0], None)
}.

End Prompt.

Lemma New_covered_witness : exists s0 : system Loyal.Client, New Loyal.config = (Ok s0, None) /\ Ready (broker s0) = true /\
  covered (run [DoSubscribe 1 "acme/#" 7; Continue 0] s0).
Proof.
  eexists. split; [by vm_compute|]. split; [done|]. apply (New_covered Loyal.config).
  - intros client t. by repeat constructor.
  - done.
  - split; [apply not_elem_of_nil|by split].
Defined.
