(* ===== verification/Kafka.v ===== *)
(** * Kafka: the Kafka sink (internal/adapters/kafka/sink.go)

    The producer is third-party code: [ProducerOps] are the calls the sink
    makes; nothing is assumed of them. A send is one synchronous produce. *)
From Stdlib Require Import ZArith Lia.
From S2P Require Import Prelude GoBytes Ports.

Open Scope string_scope.
Open Scope list_scope.
Open Scope Z_scope.

Record KafkaConfig := mkKafkaConfig {
  Brokers : list string;
  KTopic : string;
  ClientID : string;
  DeliveryTimeout : Duration
}.

(** A record; a timestamp of [None] is left to the client. *)
Record KRecord := mkRecord {
  Key : list byte;
  KValue : list byte;
  Headers : list (string * list byte);
  Timestamp : option Time
}.

Class ProducerOps (K KE : Type) := {
  kNewClient : KafkaConfig -> result KE K;
  kPing : GoM K KE unit;
  kProduce : KRecord -> GoM K KE unit;
  kFlush : GoM K KE unit;
  kClose : K -> K
}.

Inductive KafkaError (KE : Type) :=
| NoBrokers
| NoTopic
| NewClient (e : KE)
| SinkClosed
| Produce (topic : string) (e : KE)
| Flush (e : KE).
Arguments NoBrokers {KE}.
Arguments NoTopic {KE}.
Arguments NewClient {KE} e.
Arguments SinkClosed {KE}.
Arguments Produce {KE} topic e.
Arguments Flush {KE} e.

(** The defaults of [New]: at least a second, ten if unset. *)
Definition defaults (c : KafkaConfig) : KafkaConfig :=
  let d := if DeliveryTimeout c <=? 0 then 10 * Second else DeliveryTimeout c in
  mkKafkaConfig (Brokers c) (KTopic c)
    (if String.eqb (ClientID c) "" then "plantstream-bridge" else ClientID c)
    (if d <? Second then Second else d).

(** The record of a message: keyed by its topic, stamped with its time. *)
Definition record_of (m : Message) : KRecord :=
  mkRecord (bytes_of (Topic m)) (Payload m)
    [("uns-topic", bytes_of (Topic m)); ("edge-ts-ms", bytes_of (FormatInt (UnixMilli (At m))))]
    (if IsZero (At m) then None else Some (At m)).

Section Sink.
Context {K KE : Type} `{!ProducerOps K KE}.

Record Sink := mkSink { cl : K; ready : bool; closed : bool }.

Definition New (c : KafkaConfig) : result (KafkaError KE) Sink :=
  match Brokers c with
  | [] => Err NoBrokers
  | _ =>
      if String.eqb (KTopic c) "" then Err NoTopic
      else
        match kNewClient (defaults c) with
        | Err e => Err (NewClient e)
        | Ok k =>
            match kPing k with
            | (Ok _, k) => Ok (mkSink k true false)
            | (Err _, k) => Ok (mkSink k false false)
            end
        end
  end.

Definition Send (m : Message) : GoM Sink (KafkaError KE) unit := fun s =>
  if closed s then (Err SinkClosed, s)
  else
    match kProduce (record_of m) (cl s) with
    | (Ok _, k) => (Ok tt, mkSink k true (closed s))
    | (Err e, k) => (Err (Produce (Topic m) e), mkSink k false (closed s))
    end.

Definition Ready (s : Sink) : bool := ready s && negb (closed s).

Definition Close : GoM Sink (KafkaError KE) unit := fun s =>
  if closed s then (Ok tt, s)
  else
    let '(r, k) := kFlush (cl s) in
    (match r with Ok _ => Ok tt | Err e => Err (Flush e) end, mkSink (kClose k) (ready s) true).

(** ** Lemmas *)

(** Sends in order, with their answers. *)
Fixpoint send_all (ms : list Message) (s : Sink) : list bool * Sink :=
  match ms with
  | [] => ([], s)
  | m :: rest => let '(r, s) := Send m s in let '(rs, s) := send_all rest s in (is_ok r :: rs, s)
  end.

(** After [Close] nothing reaches the client. *)
Lemma send_all_closed ms s : closed s = true -> send_all ms s = (map (fun _ => false) ms, s).
Proof. intros H. induction ms as [|m ms IH]; [done|]. cbn. unfold Send. by rewrite H, IH. Qed.

Lemma last_cons_default {A} (x : A) l d : List.last (x :: l) d = List.last l x.
Proof. revert x d. induction l as [|y l IH]; intros x d; [done|]. change (List.last (y :: l) d = List.last (y :: l) x). by rewrite !IH. Qed.

(** The sink is ready exactly when it is open and the last attempt, the ping of
    [New] if there was none, succeeded. *)
Lemma send_all_ready ms s : closed s = false ->
  let '(rs, s') := send_all ms s in
  closed s' = false /\ Ready s' = List.last rs (Ready s) /\ length rs = length ms.
Proof.
  revert s. induction ms as [|m ms IH]; intros s Hc; [done|]. cbn. unfold Send. rewrite Hc.
  destruct (kProduce _ _) as [[a|e] k]; cbn [is_ok];
    [specialize (IH (mkSink k true false) eq_refl)|specialize (IH (mkSink k false false) eq_refl)];
    destruct (send_all ms _) as [rs s']; destruct IH as (H1 & H2 & H3);
    (split_and!; [done|by rewrite last_cons_default|cbn; by rewrite H3]).
Qed.
End Sink.

Lemma defaults_timeout c : Second <= DeliveryTimeout (defaults c).
Proof. unfold defaults. cbn. split_ifs; lia. Qed.

(** Two messages have the same key exactly when they have the same topic, so a
    topic's messages stay in one partition. *)
Lemma record_key m m' : Key (record_of m) = Key (record_of m') <-> Topic m = Topic m'.
Proof. cbn. split; [|by intros ->]. intros H. rewrite <- (string_of_bytes_of (Topic m)), <- (string_of_bytes_of (Topic m')). by rewrite H. Qed.
