(* ===== verification/Main.v ===== *)
(** * Main: the wiring of the service (cmd/plantstream/main.go)

    [run] acquires what the configuration asks for, registers a deferred
    release after each acquisition, and serves. What it acquires from outside
    the process succeeds or fails as [World] says; the plant and the node are
    the modelled ones. The task group is one event here, all its members ended;
    [MainTasks] has the members. *)
From Stdlib Require Import ZArith Lia.
From S2P Require Import Prelude GoBytes GoFloat Uns Ports.
From S2P Require Config Asset LineSim Sources Poller Memory MemoryRace Edge EdgeLife Mqtt Kafka Bridge Plants.

Open Scope string_scope.
Open Scope list_scope.
Open Scope Z_scope.

Inductive resource := Tracing | MqttBroker | MemoryBroker | KafkaSink | MemorySink | FileQueue | MemoryQueue.

Inductive event := Opened (r : resource) | Closed (r : resource) | Served.

Inductive failure :=
| FConfig (e : Config.ConfigError)
| FTracing
| FPlantFile
| FPlant (es : list Asset.Problem)
| FBroker
| FNode (e : Edge.EdgeError)
| FSink
| FQueue
| FTask.

(** What the outside answers: the tracing exporter, the plant file (decoded),
    whether mqtt.New and kafka.New accept their configuration, the queue's directory, and whether a task of
    the group failed otherwise than by cancellation. *)
Record World := mkWorld {
  tracing_up : bool;
  plant_file : option Asset.Plant;
  mqtt_up : Mqtt.MqttConfig -> bool;
  kafka_up : Kafka.KafkaConfig -> bool;
  queue_up : bool;
  task_failed : bool
}.

(** The events so far and the deferred releases, innermost first. *)
Record state := mkState { trace : list event; defers : list resource }.

Abbreviation M := (GoM state failure).

Definition emit (e : event) : M unit := modify (fun s => mkState (trace s ++ [e]) (defers s)).
Definition defer (r : resource) : M unit := modify (fun s => mkState (trace s) (r :: defers s)).
Definition check (ok : bool) (f : failure) : M unit := if ok then mret tt else throw f.

(** ** newBroker *)

(** The MQTT settings: the client is named after the site unless the
    configuration names it, and announces the node's death as its last will. *)
Definition mqtt_config (render : json -> list byte) (now : Time) (c : Config.Config) (p : Asset.Plant) : option Mqtt.MqttConfig :=
  let clientID := if String.eqb (Config.MQTTClientID c) "" then ("plantstream-" ++ Asset.Site p)%string else Config.MQTTClientID c in
  (fun j => Mqtt.mkMqttConfig (Config.MQTTURL c) clientID (Config.MQTTUsername c) (Config.MQTTPassword c)
     (Config.MQTTQoS c) (Config.MQTTKeepAlive c) (Config.MQTTConnectTmo c)
     (Some (mkMessage (LifecycleTopic (Asset.Enterprise p) (Asset.Site p) clientID Death) (render j) false zeroTime)))
    <$> Marshal (mkPayload Death now 0 clientID None).

Definition newBroker (render : json -> list byte) (now : Time) (w : World) (c : Config.Config) (p : Asset.Plant) : M resource :=
  if String.eqb (Config.Broker c) "mqtt" then
    match mqtt_config render now c p with
    | None => throw FBroker
    | Some mc => _ ← check (mqtt_up w mc) FBroker; _ ← emit (Opened MqttBroker); mret MqttBroker
    end
  else _ ← emit (Opened MemoryBroker); mret MemoryBroker.

(** ** newSinkAndQueue *)

Definition kafka_config (c : Config.Config) : Kafka.KafkaConfig :=
  Kafka.mkKafkaConfig (Config.KafkaBrokers c) (Config.KafkaTopic c) "" 0.

Definition newSinkAndQueue (w : World) (c : Config.Config) : M (resource * resource) :=
  sink ← (if String.eqb (Config.Sink c) "kafka" then
            _ ← check (kafka_up w (kafka_config c)) FSink; _ ← emit (Opened KafkaSink); mret KafkaSink
          else _ ← emit (Opened MemorySink); mret MemorySink);
  if negb (String.eqb (Config.QueueDir c) "") then
    if queue_up w then _ ← emit (Opened FileQueue); mret (sink, FileQueue)
    else _ ← emit (Closed sink); throw FQueue
  else _ ← emit (Opened MemoryQueue); mret (sink, MemoryQueue).

Definition bridge_config (c : Config.Config) : Bridge.Config :=
  Bridge.mkConfig (Config.BridgeFilter c) (Config.BridgeInboxSize c) (Config.BridgePerTopicMax c) 0 0 0.

(** ** run *)

(** The process's exit status. *)
Definition main {F : Type} (r : result F unit) : Z := match r with Ok _ => 0 | Err _ => 1 end.

Section Run.
Context {C R : Type} {Hrand : LineSim.Rand R}.
Variable render : json -> list byte.
Variable wall : Time.
Variable clock : nat -> Time.

(** The version of the build replaces the default one. *)
Definition service_version (version : string) (c : Config.Config) : string :=
  if String.eqb (Config.ServiceVersion c) "dev" && negb (String.eqb version "dev") then version else Config.ServiceVersion c.

Definition body (cfg : Config.Config * option Config.ConfigError) (w : World) : M unit :=
  let '(c, err) := cfg in
  _ ← match err with None => mret tt | Some e => throw (FConfig e) end;
  _ ← check (tracing_up w) FTracing;
  _ ← emit (Opened Tracing);
  _ ← defer Tracing;
  p ← match plant_file w with
      | None => throw FPlantFile
      | Some d => match Asset.Parse d with Err e => throw (FPlant e) | Ok p => mret p end
      end;
  b ← newBroker render wall w c p;
  _ ← defer b;
  _ ← match Edge.New (C := C) (R := R) (Asset.MakeIndex p) MemoryRace.NewBroker Poller.NewHealth clock with
      | Err e => throw (FNode e)
      | Ok _ => mret tt
      end;
  _ ← (if Config.BridgeEnabled c then
         '(sink, queue) ← newSinkAndQueue w c;
         _ ← defer sink;
         defer queue
       else mret tt);
  _ ← emit Served;
  check (negb (task_failed w)) FTask.

(** The deferred releases run when the function returns, however it does. *)
Definition run (cfg : Config.Config * option Config.ConfigError) (w : World) : result failure unit * list event :=
  let '(r, s) := body cfg w (mkState [] []) in (r, trace s ++ map Closed (defers s)).
End Run.

(** ** Specification *)

Definition broker_kind (c : Config.Config) : resource := if String.eqb (Config.Broker c) "mqtt" then MqttBroker else MemoryBroker.
Definition sink_kind (c : Config.Config) : resource := if String.eqb (Config.Sink c) "kafka" then KafkaSink else MemorySink.
Definition queue_kind (c : Config.Config) : resource := if String.eqb (Config.QueueDir c) "" then MemoryQueue else FileQueue.

(** What a service of the configuration [c] works with. *)
Definition wanted (c : Config.Config) : list resource :=
  [Tracing; broker_kind c] ++ if Config.BridgeEnabled c then [sink_kind c; queue_kind c] else [].

(** The trace of a run: everything acquired is released in the opposite order. *)
Definition bracketed (os : list resource) (served : bool) : list event :=
  map Opened os ++ (if served then [Served] else []) ++ map Closed (rev os).

(** The last will of the service can always be encoded. *)
Lemma mqtt_config_ok render now c p : exists mc, mqtt_config render now c p = Some mc.
Proof. by eexists. Qed.

(** Every run of the body: it served with everything wanted, or it failed and
    what it acquired but did not release is deferred. *)
Definition ended (c : Config.Config) (w : World) (out : result failure unit * state) : Prop :=
  let '(r, s) := out in
  (trace s = map Opened (wanted c) ++ [Served] /\ defers s = rev (wanted c) /\ r = if task_failed w then Err FTask else Ok tt) \/
  (r <> Ok tt /\ r <> Err FTask /\ exists os cs, trace s = map Opened (os ++ cs) ++ map Closed (rev cs) /\ defers s = rev os /\
     os ++ cs `prefix_of` wanted c).

Section Spec.
Context {C R : Type} {Hrand : LineSim.Rand R}.
Variable render : json -> list byte.
Variable wall : Time.
Variable clock : nat -> Time.

Lemma failed_early c w os f s : trace s = map Opened os -> defers s = rev os -> os `prefix_of` wanted c -> f <> FTask ->
  ended c w (Err f, s).
Proof.
  intros H1 H2 H3 Hf. right. split_and!; [done|congruence|]. exists os, []. by rewrite app_nil_r, H1, H2, app_nil_r.
Qed.

Lemma finish_ended c w s : trace s = map Opened (wanted c) -> defers s = rev (wanted c) ->
  ended c w ((_ ← emit Served; check (negb (task_failed w)) FTask) s).
Proof.
  intros H1 H2. unfold ended, mbind, GoM_bind, emit, modify, check.
  by destruct (task_failed w); cbn; left; rewrite H1, H2.
Qed.

Lemma bridge_ended c w s : trace s = map Opened [Tracing; broker_kind c] -> defers s = rev [Tracing; broker_kind c] ->
  ended c w ((_ ← (if Config.BridgeEnabled c then
                   '(sink, queue) ← newSinkAndQueue w c;
                   _ ← defer sink;
                   defer queue
                 else mret tt);
            _ ← emit Served;
            check (negb (task_failed w)) FTask) s).
Proof.
  intros H1 H2. destruct (Config.BridgeEnabled c) eqn:Eb.
  2:{ apply finish_ended; unfold wanted; by rewrite Eb. }
  assert (forall os, os `prefix_of` [Tracing; broker_kind c; sink_kind c; queue_kind c] -> os `prefix_of` wanted c) as Hpre
    by (unfold wanted; by rewrite Eb).
  unfold newSinkAndQueue, check, mbind, GoM_bind, emit, modify, mret, GoM_ret, throw, defer.
  assert (wanted c = [Tracing; broker_kind c; sink_kind c; queue_kind c]) as Ew by (unfold wanted; by rewrite Eb).
  unfold sink_kind, queue_kind in *.
  destruct (String.eqb (Config.Sink c) "kafka"); [destruct (kafka_up w (kafka_config c))|];
    [| apply (failed_early c w [Tracing; broker_kind c]); [done|done|apply Hpre; by eexists|done] |];
    destruct (String.eqb (Config.QueueDir c) ""); cbn [negb];
    try destruct (queue_up w);
    first
    [ apply finish_ended; cbn [trace defers]; rewrite ?H1, ?H2, Ew; reflexivity
    | right; split_and!; [done|done|]; exists [Tracing; broker_kind c]; eexists [_]; cbn [trace defers];
      rewrite H1; split_and!; [reflexivity|done|apply Hpre; by eexists] ].
Qed.

Lemma body_ended c w : ended c w (body (C := C) (R := R) render wall clock (c, None) w (mkState [] [])).
Proof.
  assert ([Tracing] `prefix_of` wanted c) as Hp1 by (by eexists).
  assert ([Tracing; broker_kind c] `prefix_of` wanted c) as Hp2 by (by eexists).
  unfold body. unfold mbind at 1, GoM_bind at 1. cbn [mret GoM_ret]. unfold mbind at 1, GoM_bind at 1.
  unfold check at 1. destruct (tracing_up w).
  2:{ apply (failed_early c w []); [done..|apply prefix_nil|done]. }
  unfold mret at 1, GoM_ret at 1. do 3 (unfold mbind at 1, GoM_bind at 1). unfold emit at 1, defer at 1, modify. cbn [trace defers app].
  destruct (plant_file w) as [d|]; [|by apply (failed_early c w [Tracing])].
  destruct (Asset.Parse d) as [p|es]; [|by apply (failed_early c w [Tracing])].
  unfold mret at 1, GoM_ret at 1. unfold mbind at 1, GoM_bind at 1. unfold newBroker, broker_kind in *.
  destruct (String.eqb (Config.Broker c) "mqtt") eqn:Eb.
  - unfold mbind at 1, GoM_bind at 1. destruct (mqtt_config render wall c p) as [mc|]; [|by apply (failed_early c w [Tracing])].
    unfold mbind at 1, GoM_bind at 1. unfold check at 1. destruct (mqtt_up w mc); [|by apply (failed_early c w [Tracing])].
    cbn. destruct (Edge.New _ _ _ _) as [n|e]; [|by apply (failed_early c w [Tracing; MqttBroker])].
    unfold mret, GoM_ret at 1. apply bridge_ended; unfold broker_kind; by rewrite Eb.
  - cbn. destruct (Edge.New _ _ _ _) as [n|e]; [|by apply (failed_early c w [Tracing; MemoryBroker])].
    apply bridge_ended; unfold broker_kind; by rewrite Eb.
Qed.
End Spec.

Lemma wanted_NoDup c : NoDup (wanted c).
Proof.
  unfold wanted, broker_kind, sink_kind, queue_kind.
  destruct (String.eqb (Config.Broker c) "mqtt"), (Config.BridgeEnabled c), (String.eqb (Config.Sink c) "kafka"),
    (String.eqb (Config.QueueDir c) ""); cbn;
    repeat (apply NoDup_cons; split; [set_solver|]); apply NoDup_nil_2.
Qed.

(** What a run returns: nothing exactly if it served and no task failed. *)
Lemma run_ok {C R : Type} {Hrand : LineSim.Rand R} (render : json -> list byte) (wall : Time)
    (clock : nat -> Time) (cfg : Config.Config * option Config.ConfigError) (w : World) :
  let '(r, t) := run (C := C) (R := R) render wall clock cfg w in r = Ok tt <-> Served ∈ t /\ task_failed w = false.
Proof.
  assert (forall os, Served ∉ map Opened os) as Ho by (intros os (x & ? & _)%list_elem_of_fmap; done).
  assert (forall os, Served ∉ map Closed os) as Hc by (intros os (x & ? & _)%list_elem_of_fmap; done).
  unfold run. destruct cfg as [c [e|]]; [cbn; split; [done|by intros [?%elem_of_nil _]]|].
  pose proof (body_ended (C := C) (R := R) render wall clock c w) as H. destruct (body _ _ _ _ _ _) as [r s].
  destruct H as [(H1 & _ & ->)|(H1 & _ & os & cs & H3 & _)].
  - rewrite H1, !elem_of_app, list_elem_of_singleton. destruct (task_failed w); split; try done; [by intros [_ ?]|]. auto.
  - rewrite H3, !elem_of_app. split; [done|]. intros [[[?|?]|?] _]; exfalso; first [by eapply Ho|by eapply Hc].
Qed.

(** C18: the service releases what it acquired. For every configuration and
    whatever fails on the way, at any point: the run acquires, in the fixed
    order, a part of what the configuration asks for, serves only if it got
    all of it, and releases everything it acquired exactly once, in the
    opposite order, after the tasks have ended. It succeeds, or fails because
    of a task, exactly when it served. *)
Theorem resources_released {C R : Type} {Hrand : LineSim.Rand R} (render : json -> list byte) (wall : Time)
    (clock : nat -> Time) (cfg : Config.Config * option Config.ConfigError) (w : World) :
  let '(r, t) := run (C := C) (R := R) render wall clock cfg w in
  exists os served, t = bracketed os served /\ NoDup os /\ os `prefix_of` wanted (fst cfg) /\
    (served = true -> os = wanted (fst cfg)) /\ (served = true <-> r = Ok tt \/ r = Err FTask).
Proof.
  unfold run. destruct cfg as [c [e|]].
  { cbn. exists [], false. split_and!; [done|constructor|apply prefix_nil|done|split; [done|by intros [?|?]]]. }
  pose proof (body_ended (C := C) (R := R) render wall clock c w) as H. destruct (body _ _ _ _ _ _) as [r s].
  destruct H as [(H1 & H2 & H3)|(H1 & H2 & os & cs & H3 & H4 & H5)]; cbn [fst].
  - exists (wanted c), true. unfold bracketed. rewrite H1, H2, <- app_assoc. split_and!; [done|apply wanted_NoDup|done|done|]. split; [|done]. intros _. destruct (task_failed w); auto.
  - exists (os ++ cs), false. unfold bracketed. rewrite H3, H4, rev_app_distr, (map_app Closed), <- app_assoc.
    split_and!; [done| |done|done|split; [done|by intros [?|?]]].
    eapply sublist_NoDup; [apply wanted_NoDup|]. destruct H5 as [k ->]. by apply sublist_inserts_r.
Qed.
