(* ===== verification/MainTasks.v ===== *)
(** * MainTasks: the task group of the service (the end of run in cmd/plantstream/main.go)

    Once everything is acquired, [run] starts the node, the bridge, the HTTP
    server and a task that shuts the server down when the group's context ends,
    waits for the group and forgets a cancellation. The group is third-party
    code: [GroupOps] are its calls, [GroupLaws] what its documentation says of
    them. What [Main.task_failed] stands for is [outcome] here. *)
From Stdlib Require Import ZArith Lia.
From S2P Require Import Prelude GoBytes Uns Ports.
From S2P Require Config Asset LineSim Sources Poller Memory Edge EdgeLife Mqtt Kafka Bridge Plants Main.

Open Scope string_scope.
Open Scope list_scope.
Open Scope Z_scope.

(** [errgroup.Group]: a function it runs returned; what [Wait] returns once all
    have; whether the derived context has ended. *)
Class GroupOps (G E : Type) := {
  gWithContext : G;
  gReturned : option E -> G -> G;
  gWait : G -> option E;
  gCancelled : G -> bool
}.

(** The first error is what [Wait] returns, and it cancels the context. *)
Class GroupLaws (G E : Type) `{!GroupOps G E} := {
  g_errors : G -> list E;
  g_new : g_errors gWithContext = [];
  g_returned : forall r g, g_errors (gReturned r g) = g_errors g ++ match r with Some e => [e] | None => [] end;
  g_wait : forall g, gWait g = head (g_errors g);
  g_cancelled : forall g, gCancelled g = negb (bool_decide (g_errors g = []))
}.

(** What [errors.Is] says of an error and what [fmt.Errorf] makes of it. *)
Class TaskErrors (E : Type) := { canceled : E -> bool; wrapHTTP : E -> E }.

Inductive member := NodeRun | BridgeRun | ListenAndServe | Shutdown.

Global Instance member_eq_dec : EqDecision member.
Proof. solve_decision. Defined.

Section Tasks.
Context {G E : Type} `{!GroupOps G E} `{!TaskErrors E}.

(** [signal] is the context of [signal.NotifyContext]; [running] are the tasks
    that have not returned, [shutting] whether the server was told to shut
    down, [streams] the requests of the event stream that are open. *)
Record service := mkService {
  signal : bool;
  group : G;
  running : list member;
  shutting : bool;
  streams : nat
}.

Definition start (bridge_enabled : bool) : service :=
  mkService false gWithContext ([NodeRun] ++ (if bridge_enabled then [BridgeRun] else []) ++ [ListenAndServe; Shutdown]) false 0.

(** [gctx.Done()]. *)
Definition gctx_done (s : service) : bool := signal s || gCancelled (group s).

Definition is_running (m : member) (s : service) : bool := bool_decide (m ∈ running s).

Definition returned (m : member) (r : option E) (s : service) : service :=
  mkService (signal s) (gReturned r (group s)) (List.filter (fun m' => negb (bool_decide (m' = m))) (running s)) (shutting s) (streams s).

Definition set_streams (n : nat) (s : service) : service := mkService (signal s) (group s) (running s) (shutting s) n.

(** What can happen. [ListenFails] is an error other than the one a server
    that was shut down reports; [StreamCancelled] is a stream that notices the
    end of its request's context, which [BaseContext] derives from the
    signal's. *)
Inductive event :=
| Signal
| Returns (m : member) (r : option E)
| ListenFails (e : E)
| ListenClosed
| StreamOpens
| StreamLeaves
| StreamCancelled
| ShutdownCalled
| ShutdownReturns (r : option E).

(** The node and the bridge return without an error only when their context has
    ended; [ListenAndServe] reports a closed server only after [Shutdown] was
    called; [Shutdown] waits for what is open unless it gives an error. *)
Definition enabled (e : event) (s : service) : bool :=
  match e with
  | Signal => true
  | Returns m r =>
      is_running m s && match m with NodeRun | BridgeRun => true | _ => false end && match r with None => gctx_done s | Some _ => true end
  | ListenFails _ => is_running ListenAndServe s
  | ListenClosed => is_running ListenAndServe s && shutting s
  | StreamOpens => is_running ListenAndServe s && negb (shutting s)
  | StreamLeaves => (0 <? streams s)%nat
  | StreamCancelled => (0 <? streams s)%nat && signal s
  | ShutdownCalled => is_running Shutdown s && gctx_done s
  | ShutdownReturns r =>
      is_running Shutdown s && shutting s && match r with None => (streams s =? 0)%nat | Some _ => true end
  end.

Definition happen (e : event) (s : service) : service :=
  match e with
  | Signal => mkService true (group s) (running s) (shutting s) (streams s)
  | Returns m r => returned m r s
  | ListenFails e => returned ListenAndServe (Some (wrapHTTP e)) s
  | ListenClosed => returned ListenAndServe None s
  | StreamOpens => set_streams (S (streams s)) s
  | StreamLeaves | StreamCancelled => set_streams (pred (streams s)) s
  | ShutdownCalled => mkService (signal s) (group s) (running s) true (streams s)
  | ShutdownReturns r => returned Shutdown r s
  end.

Definition step (s : service) (e : event) : service := if enabled e s then happen e s else s.

Definition run (es : list event) (s : service) : service := fold_left step es s.

(** What [run] returns once every task has. *)
Definition outcome (s : service) : option E :=
  match gWait (group s) with
  | Some e => if canceled e then None else Some e
  | None => None
  end.
End Tasks.
Arguments service : clear implicits.
Arguments event : clear implicits.

(** The world whose tasks end as the service [s] did. *)
Definition ending {G E : Type} `{!GroupOps G E} `{!TaskErrors E} (s : service G) (w : Main.World) : Main.World :=
  Main.mkWorld (Main.tracing_up w) (Main.plant_file w) (Main.mqtt_up w) (Main.kafka_up w) (Main.queue_up w)
    (match outcome s with Some _ => true | None => false end).

(** ** Lemmas *)

Section Laws.
Context {G E : Type} `{!GroupOps G E} `{!GroupLaws G E} `{!TaskErrors E}.

Definition errors (s : service G) : list E := g_errors (group s).

(** Something has ended the group's context. *)
Definition stirred (s : service G) : Prop := signal s = true \/ errors s <> [].

Lemma gctx_done_spec s : gctx_done s = true <-> stirred s.
Proof.
  unfold gctx_done, stirred, errors. rewrite orb_true_iff, g_cancelled, negb_true_iff, bool_decide_eq_false. tauto.
Qed.

Record sound (b : bool) (s : service G) : Prop := {
  s_shutting : shutting s = true -> stirred s;
  s_running : stirred s \/ running s = running (start (G := G) (E := E) b);
  s_nodup : NoDup (running s);
  s_server : Shutdown ∉ running s -> shutting s = true
}.

Lemma tasks_start_sound b : sound b (start b).
Proof.
  constructor; cbn; [done|by right| |intros H; set_solver].
  destruct b; cbn; repeat (apply NoDup_cons; split; [set_solver|]); apply NoDup_nil_2.
Qed.

Lemma returned_sound b m r s : sound b s -> m <> Shutdown \/ shutting s = true -> r = None -> stirred s -> sound b (returned m r s).
Proof.
  intros [H1 H2 H3 H4] Hm -> Hs.
  assert (stirred (returned m None s)) as Hs'.
  { unfold stirred, errors in *. cbn. rewrite g_returned, app_nil_r. done. }
  constructor; cbn; [done|by left|by apply NoDup_ListNoDup, List.NoDup_filter, NoDup_ListNoDup|].
  intros H. destruct Hm as [Hm|Hm]; [|done]. apply H4. intros Hin. apply H. apply list_elem_of_In, filter_In.
  split; [by apply list_elem_of_In|]. by rewrite bool_decide_false by naive_solver.
Qed.

Lemma failed_sound b m e s : sound b s -> m <> Shutdown \/ shutting s = true -> sound b (returned m (Some e) s).
Proof.
  intros [H1 H2 H3 H4] Hm. assert (stirred (returned m (Some e) s)) as Hs'.
  { right. unfold errors. cbn. rewrite g_returned. by destruct (g_errors (group s)). }
  constructor; cbn; [done|by left|by apply NoDup_ListNoDup, List.NoDup_filter, NoDup_ListNoDup|].
  intros H. destruct Hm as [Hm|Hm]; [|done]. apply H4. intros Hin. apply H. apply list_elem_of_In, filter_In.
  split; [by apply list_elem_of_In|]. by rewrite bool_decide_false by naive_solver.
Qed.

Lemma member_returned_sound b m r s : sound b s -> m <> Shutdown \/ shutting s = true -> (r = None -> stirred s) ->
  sound b (returned m r s).
Proof. intros H Hm Hr. destruct r; [by apply failed_sound|]. apply returned_sound; auto. Qed.

Lemma tasks_step_sound b s e : sound b s -> sound b (step s e).
Proof.
  intros H. unfold step. destruct (enabled e s) eqn:He; [|done].
  destruct e as [|m r|e| | | | | |r]; cbn [enabled happen] in *; rewrite ?andb_true_iff in He.
  - destruct H as [H1 H2 H3 H4]. constructor; cbn; [by left|left; by left|done|done].
  - destruct He as [[Hr Hm] Hd]. apply member_returned_sound; [done|left; by intros ->|].
    intros ->. by apply gctx_done_spec.
  - apply failed_sound; [done|by left].
  - destruct He as [_ Hs]. apply member_returned_sound; [done|by left|]. intros _. by apply (s_shutting b s H).
  - by destruct H.
  - by destruct H.
  - by destruct H.
  - destruct He as [_ Hd]. apply gctx_done_spec in Hd. destruct H as [H1 H2 H3 H4]. by constructor.
  - destruct He as [[_ Hs] _]. apply member_returned_sound; [done|by right|]. intros _. by apply (s_shutting b s H).
Qed.

Lemma tasks_run_sound b es s : sound b s -> sound b (run es s).
Proof. revert s. induction es as [|e es IH]; intros s H; [done|]. by apply IH, tasks_step_sound. Qed.

Lemma outcome_spec s : outcome s = match errors s with e :: _ => if canceled e then None else Some e | [] => None end.
Proof. unfold outcome, errors. rewrite g_wait. by destruct (g_errors (group s)). Qed.

(** ** Stopping *)

Definition without (m : member) (l : list member) : list member := List.filter (fun m' => negb (bool_decide (m' = m))) l.

Lemma without_absent m l : m ∉ l -> without m l = l.
Proof.
  induction l as [|x l IH]; [done|]. intros [Hx Hl]%not_elem_of_cons. unfold without in *. cbn.
  rewrite bool_decide_false by congruence. cbn. by rewrite IH.
Qed.

Lemma in_without m x l : x ∈ without m l <-> x ∈ l /\ x <> m.
Proof.
  unfold without. rewrite list_elem_of_In, filter_In, <-list_elem_of_In. by rewrite negb_true_iff, bool_decide_eq_false.
Qed.

(** What a member's regular end changes. *)
Lemma ends s e m : (e = ListenClosed /\ m = ListenAndServe /\ shutting s = true) \/
    (e = Returns m None /\ (m = NodeRun \/ m = BridgeRun)) -> stirred s ->
  running (step s e) = without m (running s) /\ shutting (step s e) = shutting s /\ errors (step s e) = errors s /\ stirred (step s e).
Proof.
  intros He Hst. pose proof (proj2 (gctx_done_spec s) Hst) as Hs. destruct (decide (m ∈ running s)) as [Hm|Hm].
  - assert (step s e = returned m None s) as ->.
    { unfold step, enabled, is_running. destruct He as [(-> & -> & Hsh)|(-> & [-> | ->])];
        rewrite ?Hs, ?Hsh, bool_decide_true by done; done. }
    unfold stirred, errors in *. cbn. rewrite g_returned, app_nil_r. done.
  - assert (step s e = s) as ->.
    { unfold step, enabled, is_running. destruct He as [(-> & -> & Hsh)|(-> & [-> | ->])]; by rewrite bool_decide_false. }
    by rewrite without_absent by done.
Qed.

Lemma streams_end n : forall s, signal s = true -> streams s = n ->
  run (replicate n (StreamCancelled (E := E))) s = set_streams 0 s.
Proof.
  induction n as [|n IH]; intros s Hg Hn; cbn [replicate].
  { cbn. rewrite <-Hn. by destruct s. }
  assert (step s StreamCancelled = set_streams n s) as E1 by (unfold step, enabled, happen; rewrite Hg, Hn; done).
  cbn [run fold_left]. rewrite E1. by apply (IH (set_streams n s)).
Qed.

(** Events that need neither a new signal nor anybody outside. *)
Definition winding (e : event E) : bool :=
  match e with
  | ShutdownCalled | ListenClosed | StreamCancelled | ShutdownReturns _ | Returns _ None => true
  | _ => false
  end.

(** The last one out. *)
Lemma shutdown_ends s : stirred s -> shutting s = true -> (forall m, m ∈ running s -> m = Shutdown) -> NoDup (running s) ->
  exists es, Forall (fun e => winding e = true) es /\ running (run es s) = [] /\ outcome (run es s) = outcome s.
Proof.
  intros Hs Hsh Hr Hn. destruct (decide (Shutdown ∈ running s)) as [Hin|Hin].
  2:{ exists []. split_and!; [done| |done]. cbn. destruct (running s) as [|m l]; [done|].
      destruct Hin. rewrite <-(Hr m) by left. left. }
  assert (forall n, without Shutdown (running (set_streams n s)) = []) as Hw.
  { intros n. cbn. destruct (without Shutdown (running s)) as [|m l] eqn:El; [done|].
    assert (m ∈ without Shutdown (running s)) as H by (rewrite El; left). apply in_without in H as [H Hne]. by apply Hr in H. }
  destruct (errors s) as [|err errs] eqn:Ee.
  - destruct Hs as [Hg|?]; [|done]. exists (replicate (streams s) StreamCancelled ++ [ShutdownReturns None]).
    split; [apply Forall_app; split; [by apply Forall_replicate|by repeat constructor]|].
    unfold run. rewrite fold_left_app. fold (run (replicate (streams s) StreamCancelled) s). rewrite streams_end by done.
    cbn [fold_left]. unfold step, enabled, is_running. cbn [running set_streams shutting streams].
    rewrite bool_decide_true, Hsh by done. cbn [happen andb Nat.eqb]. split; [apply (Hw 0%nat)|].
    rewrite !outcome_spec. unfold errors in *. cbn. by rewrite g_returned, app_nil_r.
  - exists [ShutdownReturns (Some err)]. split; [by repeat constructor|]. cbn [run fold_left].
    unfold step, enabled, is_running. rewrite bool_decide_true, Hsh by done. cbn [happen andb]. split; [apply (Hw (streams s))|].
    rewrite !outcome_spec. unfold errors in *. cbn. by rewrite g_returned, Ee.
Qed.

Lemma winds_down b s : sound b s -> stirred s ->
  exists es, Forall (fun e => winding e = true) es /\ running (run es s) = [] /\ outcome (run es s) = outcome s.
Proof.
  intros Hsound Hs. set (s1 := step s ShutdownCalled).
  assert (s1 = mkService (signal s) (group s) (running s) true (streams s)) as E1.
  { unfold s1, step, enabled, is_running. destruct (decide (Shutdown ∈ running s)) as [Hin|Hin].
    - rewrite bool_decide_true by done. rewrite (proj2 (gctx_done_spec s) Hs). done.
    - rewrite bool_decide_false by done. pose proof (s_server b s Hsound Hin) as H. destruct s. cbn in *. by rewrite H. }
  assert (stirred s1) as Hs1 by by rewrite E1. assert (shutting s1 = true) as Hsh by by rewrite E1.
  destruct (ends s1 ListenClosed ListenAndServe) as (R2 & H2 & X2 & Hs2); [left; by split_and!|done|]. set (s2 := step s1 ListenClosed) in *.
  destruct (ends s2 (Returns NodeRun None) NodeRun) as (R3 & H3 & X3 & Hs3); [right; auto|done|]. set (s3 := step s2 (Returns NodeRun None)) in *.
  destruct (ends s3 (Returns BridgeRun None) BridgeRun) as (R4 & H4 & X4 & Hs4); [right; auto|done|]. set (s4 := step s3 (Returns BridgeRun None)) in *.
  destruct (shutdown_ends s4) as (es & He & Hr & Ho); [done|by rewrite H4, H3, H2| | |].
  - intros m. rewrite R4, in_without, R3, in_without, R2, in_without. destruct m; tauto.
  - apply (s_nodup b). unfold s4, s3, s2, s1. by do 4 apply tasks_step_sound.
  - exists ([ShutdownCalled; ListenClosed; Returns NodeRun None; Returns BridgeRun None] ++ es).
    split; [apply Forall_app; by repeat constructor|]. split; [exact Hr|]. etrans; [exact Ho|].
    rewrite !outcome_spec, X4, X3, X2, E1. done.
Qed.

Definition unrelieved (e : event E) : bool :=
  match e with Signal | StreamLeaves | ShutdownReturns (Some _) => false | _ => true end.

Lemma stays m r s : Shutdown ∈ running s -> m <> Shutdown -> Shutdown ∈ running (returned m r s).
Proof. intros H Hm. apply (in_without m). split; [done|congruence]. Qed.

Lemma stream_holds_step e s : unrelieved e = true -> signal s = false -> (0 < streams s)%nat -> Shutdown ∈ running s ->
  signal (step s e) = false /\ (0 < streams (step s e))%nat /\ Shutdown ∈ running (step s e).
Proof.
  intros He Hg Hn Hr. unfold step. destruct (enabled e s) eqn:Hen; [|done].
  destruct e as [|m r|x| | | | | |[x|]]; try done; cbn [enabled happen] in *; rewrite ?andb_true_iff in Hen.
  - split_and!; [done|done|]. apply stays; [done|]. intros ->. by destruct Hen as [[_ ?] _].
  - split_and!; [done|done|by apply stays].
  - split_and!; [done|done|by apply stays].
  - split_and!; [done|cbn; lia|done].
  - destruct Hen as [_ Hen]. congruence.
  - destruct Hen as [_ Hen]. apply Nat.eqb_eq in Hen. lia.
Qed.

(** Without a signal a stream that nobody closes keeps [Shutdown] waiting until
    its timeout. *)
Lemma stream_holds es : forall s, Forall (fun e => unrelieved e = true) es ->
  signal s = false -> (0 < streams s)%nat -> Shutdown ∈ running s -> Shutdown ∈ running (run es s).
Proof.
  induction es as [|e es IH]; intros s He Hg Hn Hr; [done|]. inversion He as [|? ? H1 H2]. subst.
  destruct (stream_holds_step e s H1 Hg Hn Hr) as (? & ? & ?). by apply IH.
Qed.
End Laws.

(** ** Properties *)

(** C16: How the service stops. Whatever its tasks, its clients and the
    operating system do: while there has been neither a signal nor an error of
    a task, every task runs and the server serves; once there has been one,
    the service can stop by itself, with no further signal and no help from a
    client, and what [run] reports is decided: the first error any task
    returned, or nothing if that was a cancellation or there was none. When
    every task has returned there had been a signal or an error. *)
Theorem service_stops {G E : Type} `{!GroupOps G E} `{!GroupLaws G E} `{!TaskErrors E} (bridge_enabled : bool) (es : list (event E)) :
  let s0 := start (G := G) (E := E) bridge_enabled in
  let s := run es s0 in
  (signal s = false /\ errors s = [] -> shutting s = false /\ running s = running s0) /\
  (running s = [] -> signal s = true \/ errors s <> []) /\
  outcome s = match errors s with e :: _ => if canceled e then None else Some e | [] => None end /\
  (signal s = true \/ errors s <> [] ->
   exists es', Forall (fun e => winding e = true) es' /\ running (run (es ++ es') s0) = [] /\ outcome (run (es ++ es') s0) = outcome s).
Proof.
  intros s0 s. pose proof (tasks_run_sound bridge_enabled es s0 (tasks_start_sound bridge_enabled)) as H. fold s in H. split_and!.
  - intros [Hg He]. assert (~ stirred s) as Hn by (intros [?|?]; congruence). split.
    + destruct (shutting s) eqn:Hs; [|done]. destruct Hn. by apply (s_shutting _ _ H).
    + by destruct (s_running _ _ H).
  - intros Hr. destruct (s_running _ _ H) as [?|E1]; [done|]. by rewrite Hr in E1.
  - apply outcome_spec.
  - intros Hs. destruct (winds_down bridge_enabled s H Hs) as (es' & He & Hr & Ho). exists es'.
    assert (run (es ++ es') s0 = run es' s) as -> by (unfold run; apply fold_left_app). done.
Qed.

(** A group that keeps the list of its errors. *)
Module Listed.

Global Instance ops : GroupOps (list Z) Z := {
  gWithContext := [];
  gReturned r g := g ++ match r with Some e => [e] | None => [] end;
  gWait g := head g;
  gCancelled g := negb (bool_decide (g = []))
}.

Global Instance laws : GroupLaws (list Z) Z.
Proof. by refine {| g_errors g := g |}. Defined.

(** The error 0 is the cancellation. *)
Global Instance errs : TaskErrors Z := { canceled e := e =? 0; wrapHTTP e := e }.

End Listed.

(** The port is taken. *)
Lemma service_stops_witness :
  exists es', Forall (fun e => winding e = true) es' /\
    running (run ([ListenFails 98] ++ es') (start (G := list Z) true)) = [] /\
    outcome (run ([ListenFails 98] ++ es') (start (G := list Z) true)) = Some 98.
Proof. destruct (service_stops (G := list Z) true [ListenFails 98]) as (_ & _ & _ & H). apply H. right. vm_compute. congruence. Defined.

(** The exit status of the process: zero exactly when it served and the first
    error of its tasks, if any, was a cancellation. *)
Theorem exit_status_spec {C R G E : Type} {Hrand : LineSim.Rand R} `{!GroupOps G E} `{!GroupLaws G E} `{!TaskErrors E}
    (render : json -> list byte) (wall : Time) (clock : nat -> Time)
    (c : Config.Config * option Config.ConfigError) (w : Main.World) (s : service G) :
  let '(r, t) := Main.run (C := C) (R := R) render wall clock c (ending s w) in
  Main.main r = 0 <-> Main.Served ∈ t /\ match errors s with e :: _ => canceled e = true | [] => True end.
Proof.
  pose proof (Main.run_ok (C := C) (R := R) render wall clock c (ending s w)) as H. destruct (Main.run _ _ _ _ _) as [r t].
  assert (Main.main r = 0 <-> r = Ok tt) as -> by (destruct r as [[]|]; cbn; split; done).
  rewrite H. cbn [ending Main.task_failed]. rewrite outcome_spec. destruct (errors s) as [|e es]; [tauto|]. destruct (canceled e); intuition congruence.
Qed.
